(* ===== verification/_CoqProject ===== *)
-Q . S2P
Prelude.v
GoUtf8.v
GoStrings.v
GoBytes.v
GoLib.v
GoOs.v
ProxyConfig.v
Http.v
Session.v
Pages.v
Server.v
AccessRequest.v
Local.v
OAuth.v
Oidc.v
Openshift.v
Watch.v
ProxyMain.v
ApiTypes.v
AdminSync.v
Kube.v
Shared.v
Platform.v
Render.v
Conditions.v
Users.v
BootstrapAdmin.v
RequestReview.v
NetPolicy.v
ConsoleConfig.v
Rbac.v
EvidenceToken.v
ProxySecret.v
Evidence.v
Workload.v
Exposure.v
PgAdmin.v
