(* ===== verification/Prelude.v ===== *)
(** * pgToolBox verification library (header completed below) *)

From stdpp Require Export base tactics list gmap strings sorting.
From Stdlib Require Export Ascii ZArith Lia.
Export ListNotations.

#[global] Set Default Goal Selector "!".
#[global] Set Warnings "-clear-no-such-hyp".

Declare Scope pgtb_scope.
Delimit Scope pgtb_scope with pgtb.
#[global] Open Scope pgtb_scope.
#[global] Open Scope string_scope.
#[global] Open Scope list_scope.
#[global] Open Scope nat_scope.

(** ** Results

    A Go function that returns [(T, error)] is a [result]: the error is a value. *)

Inductive result (E A : Type) : Type :=
  | Ok (a : A)
  | Err (e : E).
Arguments Ok {E A} a.
Arguments Err {E A} e.

#[export] Instance result_ret {E} : MRet (result E) := λ A a, Ok a.
#[export] Instance result_bind {E} : MBind (result E) := λ A B f m,
  match m with Ok a => f a | Err e => Err e end.
#[export] Instance result_fmap {E} : FMap (result E) := λ A B f m,
  match m with Ok a => Ok (f a) | Err e => Err e end.

Definition is_ok {E A} (r : result E A) : bool :=
  match r with Ok _ => true | Err _ => false end.

Definition result_of_option {E A} (e : E) (o : option A) : result E A :=
  match o with Some a => Ok a | None => Err e end.

Lemma bind_Ok {E A B} (f : A → result E B) (m : result E A) (b : B) :
  m ≫= f = Ok b ↔ ∃ a, m = Ok a ∧ f a = Ok b.
Proof. destruct m as [a|e]; naive_solver. Qed.

Lemma result_of_option_Ok {E A} (e : E) (o : option A) (a : A) :
  result_of_option e o = Ok a ↔ o = Some a.
Proof. destruct o; naive_solver. Qed.

(** ** Guards: [when b x] is the list [[x]] when [b] holds; the shape of
    [if b { errs = append(errs, x) }]. *)

Definition when {A} (b : bool) (x : A) : list A := if b then [x] else [].

Lemma when_nil {A} (b : bool) (x : A) : when b x = [] ↔ b = false.
Proof. by destruct b. Qed.

Lemma app_nil_iff {A} (l k : list A) : l ++ k = [] ↔ l = [] ∧ k = [].
Proof. apply app_nil. Qed.

Lemma imap_concat_nil {A B} (f : nat → A → list B) (l : list A) :
  concat (imap f l) = [] ↔ ∀ i x, l !! i = Some x → f i x = [].
Proof.
  revert f. induction l as [|a l IH]; intros f; simpl.
  - split; [intros _ i x; by rewrite lookup_nil | done].
  - rewrite app_nil, IH. split.
    + intros [H0 HS] [|i] x; simpl; [naive_solver | apply HS].
    + intros H. split; [by apply (H 0) | intros i x Hi; by apply (H (S i))].
Qed.

(** ** Booleans *)

Lemma negb_false (b : bool) : negb b = false ↔ b = true.
Proof. by destruct b. Qed.
Lemma negb_true (b : bool) : negb b = true ↔ b = false.
Proof. by destruct b. Qed.

Lemma bool_decide_negb_false (P : Prop) `{Decision P} :
  negb (bool_decide P) = false ↔ P.
Proof. by rewrite negb_false, bool_decide_eq_true. Qed.

Create Rewrite HintDb pgtb_bool.
Create HintDb pgtb.
#[export] Hint Rewrite andb_true_iff andb_false_iff orb_true_iff orb_false_iff
  negb_false negb_true @bool_decide_eq_true @bool_decide_eq_false
  Z.leb_le Z.leb_gt Z.ltb_lt Z.ltb_ge Z.eqb_eq Z.eqb_neq
  Nat.leb_le Nat.leb_gt Nat.ltb_lt Nat.ltb_ge Nat.eqb_eq Nat.eqb_neq : pgtb_bool.

(** Turns boolean tests in the goal and the hypotheses into propositions. *)
Ltac breflect := autorewrite with pgtb_bool in *.

(** Case analysis on the innermost test of the goal, keeping its equation. *)
Ltac case_if :=
  match goal with
  | |- context [if ?b then _ else _] =>
      lazymatch b with
      | context [if _ then _ else _] => fail
      | context [match _ with _ => _ end] => fail
      | _ => destruct b eqn:?
      end
  end.

(** The same on a match, in the goal or in a hypothesis. *)
Ltac case_in H :=
  match type of H with
  | context [match ?x with _ => _ end] =>
      lazymatch x with
      | context [match _ with _ => _ end] => fail
      | _ => destruct x eqn:?
      end
  end.

Ltac case_all H := repeat (case_in H; simplify_eq; try done).

(** Decides a closed proposition by computation. *)
Ltac compute_decide := apply (bool_decide_unpack _); vm_compute; exact I.

(** ** Machine integers *)

(** Two's complement reduction to a signed 64-bit [int]. *)
Definition wrap64 (z : Z) : Z :=
  ((z + 2 ^ 63) mod 2 ^ 64 - 2 ^ 63)%Z.

Definition int64_range (z : Z) : Prop := (- 2 ^ 63 ≤ z < 2 ^ 63)%Z.

Lemma wrap64_small z : int64_range z → wrap64 z = z.
Proof. unfold int64_range, wrap64. intros H. rewrite Z.mod_small; lia. Qed.

Lemma wrap64_range z : int64_range (wrap64 z).
Proof.
  unfold int64_range, wrap64.
  pose proof (Z.mod_pos_bound (z + 2 ^ 63) (2 ^ 64) ltac:(lia)). lia.
Qed.

(** ** Lists *)

(** The first element that satisfies a test: the shape of a [for] loop that
    returns inside its body. *)
Fixpoint first_such {A} (p : A → bool) (l : list A) : option A :=
  match l with
  | [] => None
  | x :: l => if p x then Some x else first_such p l
  end.

Lemma first_such_Some {A} (p : A → bool) l x :
  first_such p l = Some x ↔
  ∃ l1 l2, l = l1 ++ x :: l2 ∧ p x = true ∧ ∀ y, y ∈ l1 → p y = false.
Proof.
  induction l as [|a l IH]; simpl.
  - split; [done|]. intros (l1 & l2 & H & _). by destruct l1.
  - destruct (p a) eqn:Ha.
    + split.
      * intros [= ->]. exists [], l. split_and!; [done..|]. by intros y ?%not_elem_of_nil.
      * intros ([|b l1] & l2 & Heq & Hp & Hl); simplify_eq/=; [done|].
        rewrite (Hl b) in Ha; [done|]. apply list_elem_of_here.
    + rewrite IH. split.
      * intros (l1 & l2 & -> & Hx & Hl). exists (a :: l1), l2. split_and!; [done..|].
        intros y [->|?]%elem_of_cons; auto.
      * intros ([|b l1] & l2 & Heq & Hp & Hl); simplify_eq/=; [congruence|].
        exists l1, l2. split_and!; [done..|]. intros y Hy. apply Hl. by apply list_elem_of_further.
Qed.

Lemma first_such_None {A} (p : A → bool) l :
  first_such p l = None ↔ ∀ x, x ∈ l → p x = false.
Proof.
  induction l as [|a l IH]; simpl; [split; [by intros _ x ?%not_elem_of_nil|done]|].
  destruct (p a) eqn:Ha.
  - split; [done|]. intros H. by rewrite (H a (list_elem_of_here a l)) in Ha.
  - rewrite IH. split.
    + by intros H x [->|?]%elem_of_cons; auto.
    + intros H x Hx. by apply H, list_elem_of_further.
Qed.

Lemma first_such_elem {A} (p : A → bool) l x :
  first_such p l = Some x → x ∈ l ∧ p x = true.
Proof.
  intros (l1 & l2 & -> & Hp & _)%first_such_Some.
  split; [|done]. apply elem_of_app; right; apply list_elem_of_here.
Qed.

Lemma NoDup_fmap_inj {A B} (f : A → B) l x y :
  NoDup (f <$> l) → x ∈ l → y ∈ l → f x = f y → x = y.
Proof.
  intros Hn [i Hi]%list_elem_of_lookup [j Hj]%list_elem_of_lookup Hf.
  assert (i = j) as ->; [|congruence].
  eapply (NoDup_lookup (f <$> l)); [done|..]; rewrite list_lookup_fmap, ?Hi, ?Hj; simpl;
    [done|by f_equal].
Qed.

(** [for i, x := range l] with an accumulator [s], collecting the outputs. *)
Fixpoint scan {A S B} (f : nat → S → A → list B * S) (i : nat) (s : S) (l : list A) : list B * S :=
  match l with
  | [] => ([], s)
  | x :: l =>
      let r := f i s x in
      let r' := scan f (Datatypes.S i) r.2 l in
      (r.1 ++ r'.1, r'.2)
  end.

(** The loop that reports an element whose key was seen before: it reports
    nothing exactly when every element is fine by itself and no key repeats. *)
Section scan_keys.
Context {A B : Type} (f : nat → gset string → A → list B * gset string).
Context (ok : A → Prop) (key : A → option string).
Hypothesis f_out : ∀ i s x, (f i s x).1 = [] ↔ ok x ∧ (∀ k, key x = Some k → k ∉ s).
Hypothesis f_seen : ∀ i s x, (f i s x).2 = from_option (λ k, {[k]} ∪ s) s (key x).

Lemma scan_seen i s l : (scan f i s l).2 = list_to_set (omap key l) ∪ s.
Proof using f_seen.
  clear ok f_out. revert i s. induction l as [|x l IH]; intros i s; cbn [scan snd omap list_omap]; [set_solver|].
  rewrite IH, f_seen. cbn [omap list_omap]. destruct (key x); simpl; set_solver.
Qed.

Lemma scan_out i s l :
  (scan f i s l).1 = [] ↔
  Forall ok l ∧ NoDup (omap key l) ∧ (∀ k, k ∈ omap key l → k ∉ s).
Proof.
  revert i s. induction l as [|x l IH]; intros i s; cbn [scan fst].
  - split; [|done]. intros _. split_and!; [constructor..|]. by intros k ?%not_elem_of_nil.
  - rewrite app_nil_iff, f_out, IH, f_seen, Forall_cons. cbn [omap list_omap].
    change (list_omap A string key l) with (omap key l).
    destruct (key x) as [k|]; cbn [from_option].
    + rewrite NoDup_cons. set_solver.
    + naive_solver.
Qed.

Lemma scan_nil l : (scan f 0 ∅ l).1 = [] ↔ Forall ok l ∧ NoDup (omap key l).
Proof. rewrite scan_out. set_solver. Qed.

Lemma scan_keys_seen l : (scan f 0 ∅ l).2 = list_to_set (omap key l).
Proof using f_seen. rewrite scan_seen. apply union_empty_r_L. Qed.
End scan_keys.
