(* ===== verification/GoUtf8.v ===== *)
(** * UTF-8, as Go's [unicode/utf8] and the conversions between [string] and
    [[]rune] treat it

    A Go string is a sequence of bytes, here a [string] of 8-bit [ascii]s.
    [segments] splits it the way [for _, r := range s] does: each entry is the
    rune and the bytes it was decoded from, an invalid byte being one entry
    with the replacement rune [RuneError]. *)

From S2P Require Import Prelude.

Local Open Scope Z_scope.

Definition byteZ (a : ascii) : Z := Z.of_N (N_of_ascii a).
Definition Zbyte (z : Z) : ascii := ascii_of_N (Z.to_N z).

Lemma byteZ_range a : 0 ≤ byteZ a < 256.
Proof. unfold byteZ. pose proof (N_ascii_bounded a). lia. Qed.

Lemma byteZ_Zbyte z : 0 ≤ z < 256 → byteZ (Zbyte z) = z.
Proof. intros ?. unfold byteZ, Zbyte. rewrite N_ascii_embedding; lia. Qed.

Lemma Zbyte_byteZ a : Zbyte (byteZ a) = a.
Proof. unfold byteZ, Zbyte. by rewrite N2Z.id, ascii_N_embedding. Qed.

Lemma byteZ_inj a b : byteZ a = byteZ b → a = b.
Proof. intros H. by rewrite <-(Zbyte_byteZ a), <-(Zbyte_byteZ b), H. Qed.

Definition RuneError : Z := 0xFFFD.

Definition valid_rune (r : Z) : Prop := 0 ≤ r < 0xD800 ∨ 0xE000 ≤ r ≤ 0x10FFFF.

Definition between (lo hi x : Z) : bool := (lo <=? x) && (x <=? hi).

Lemma between_true lo hi x : between lo hi x = true ↔ lo ≤ x ≤ hi.
Proof. unfold between. rewrite andb_true_iff, !Z.leb_le. lia. Qed.

(** The [first] table of the package: the sequence length a leading byte
    announces and the range its second byte must fall in. *)
Definition lead (x : Z) : option (nat * Z * Z) :=
  if between 0xC2 0xDF x then Some (2%nat, 0x80, 0xBF)
  else if x =? 0xE0 then Some (3%nat, 0xA0, 0xBF)
  else if x =? 0xED then Some (3%nat, 0x80, 0x9F)
  else if between 0xE1 0xEF x then Some (3%nat, 0x80, 0xBF)
  else if x =? 0xF0 then Some (4%nat, 0x90, 0xBF)
  else if between 0xF1 0xF3 x then Some (4%nat, 0x80, 0xBF)
  else if x =? 0xF4 then Some (4%nat, 0x80, 0x8F)
  else None.

Definition str1 (a : ascii) : string := String a EmptyString.

Definition cont2 (lo hi : Z) (s : string) : option (Z * string) :=
  match s with
  | String b s2 => if between lo hi (byteZ b) then Some (byteZ b - 0x80, s2) else None
  | EmptyString => None
  end.

Definition cont1 (s : string) : option (Z * string) := cont2 0x80 0xBF s.

(** [utf8.DecodeRuneInString (a + s)]: the rune, and how many bytes of [s] it
    takes. Every malformed sequence is [(RuneError, 0)]. *)
Definition decode_rune (a : ascii) (s : string) : Z * nat :=
  let x := byteZ a in
  if x <? 0x80 then (x, 0%nat)
  else
    default (RuneError, 0%nat)
      ('(n, lo, hi) ← lead x;
       '(y, s2) ← cont2 lo hi s;
       match n with
       | 2%nat => Some ((x - 0xC0) * 64 + y, 1%nat)
       | 3%nat =>
           '(z, _) ← cont1 s2;
           Some ((x - 0xE0) * 4096 + y * 64 + z, 2%nat)
       | _ =>
           '(z, s3) ← cont1 s2;
           '(w, _) ← cont1 s3;
           Some ((x - 0xF0) * 262144 + y * 4096 + z * 64 + w, 3%nat)
       end).

Fixpoint take_str (n : nat) (s : string) : string :=
  match n, s with
  | S n, String a s => String a (take_str n s)
  | _, _ => EmptyString
  end.

Fixpoint drop_str (n : nat) (s : string) : string :=
  match n, s with
  | S n, String _ s => drop_str n s
  | _, _ => s
  end.

(** [skip] bytes belong to the rune decoded last. *)
Fixpoint segments_from (skip : nat) (s : string) : list (Z * string) :=
  match s, skip with
  | EmptyString, _ => []
  | String _ s, S k => segments_from k s
  | String a s, O =>
      let '(r, n) := decode_rune a s in
      (r, String a (take_str n s)) :: segments_from n s
  end.

Definition segments (s : string) : list (Z * string) := segments_from 0 s.

Definition runes (s : string) : list Z := (segments s).*1.

Definition RuneCountInString (s : string) : nat := length (segments s).

(** [utf8.AppendRune]: surrogates and out-of-range runes become [RuneError]. *)
Definition encode_rune (r : Z) : string :=
  let r := if (0 <=? r) && ((r <? 0xD800) || ((0xE000 <=? r) && (r <=? 0x10FFFF)))
           then r else RuneError in
  if r <? 0x80 then str1 (Zbyte r)
  else if r <? 0x800 then
    String (Zbyte (0xC0 + r / 64)) (str1 (Zbyte (0x80 + r mod 64)))
  else if r <? 0x10000 then
    String (Zbyte (0xE0 + r / 4096))
      (String (Zbyte (0x80 + (r / 64) mod 64)) (str1 (Zbyte (0x80 + r mod 64))))
  else
    String (Zbyte (0xF0 + r / 262144))
      (String (Zbyte (0x80 + (r / 4096) mod 64))
        (String (Zbyte (0x80 + (r / 64) mod 64)) (str1 (Zbyte (0x80 + r mod 64))))).

Fixpoint concat_str (l : list string) : string :=
  match l with [] => EmptyString | s :: l => s +:+ concat_str l end.

(** [string(rs)] for a [[]rune]. *)
Definition string_of_runes (rs : list Z) : string := concat_str (encode_rune <$> rs).

Fixpoint all_bytes (p : ascii → bool) (s : string) : bool :=
  match s with
  | EmptyString => true
  | String a s => p a && all_bytes p s
  end.

Definition isASCII (s : string) : bool := all_bytes (λ a, byteZ a <? 0x80) s.

(** ** Lemmas *)

Lemma string_len_ind (P : string → Prop) :
  (∀ s, (∀ t, (String.length t < String.length s)%nat → P t) → P s) → ∀ s, P s.
Proof.
  intros H s. remember (String.length s) as n eqn:Hn. revert s Hn.
  induction (lt_wf n) as [n _ IH]. intros s ->. apply H. intros t Ht. by eapply IH.
Qed.

Lemma segments_from_drop n s : segments_from n s = segments (drop_str n s).
Proof.
  revert n. induction s as [|a s IH]; intros [|n]; [done..|]. simpl. apply IH.
Qed.

Lemma segments_cons a s :
  segments (String a s) =
  ((decode_rune a s).1, String a (take_str (decode_rune a s).2 s))
  :: segments (drop_str (decode_rune a s).2 s).
Proof.
  unfold segments at 1. simpl. destruct (decode_rune a s) as [r n].
  by rewrite segments_from_drop.
Qed.

Lemma append_cons a s t : String a s +:+ t = String a (s +:+ t).
Proof. done. Qed.
Lemma append_nil t : EmptyString +:+ t = t.
Proof. done. Qed.

Lemma take_drop_str n s : take_str n s +:+ drop_str n s = s.
Proof.
  revert s. induction n as [|n IH]; intros [|a s]; [done..|]. simpl. by rewrite append_cons, IH.
Qed.

Lemma drop_str_length n s : (String.length (drop_str n s) ≤ String.length s)%nat.
Proof.
  revert s. induction n as [|n IH]; intros [|a s]; simpl; [lia..|]. specialize (IH s). lia.
Qed.

(** Induction along the rune boundaries of a string. *)
Lemma segments_ind (P : string → Prop) :
  P EmptyString →
  (∀ a s, P (drop_str (decode_rune a s).2 s) → P (String a s)) →
  ∀ s, P s.
Proof.
  intros H0 HS s. induction s as [s IH] using string_len_ind.
  destruct s as [|a s]; [done|]. apply HS, IH. simpl.
  pose proof (drop_str_length (decode_rune a s).2 s). lia.
Qed.

Lemma segments_concat s : concat_str (segments s).*2 = s.
Proof.
  induction s as [|a s IH] using segments_ind; [done|].
  rewrite segments_cons. cbn [fmap list_fmap snd concat_str]. rewrite IH.
  by rewrite append_cons, take_drop_str.
Qed.

Lemma between_intro lo hi x : lo ≤ x ≤ hi → between lo hi x = true.
Proof. by rewrite between_true. Qed.

Lemma cont2_Some lo hi s y s2 :
  cont2 lo hi s = Some (y, s2) → lo - 0x80 ≤ y ≤ hi - 0x80.
Proof.
  destruct s as [|b s]; simpl; [done|].
  destruct (between lo hi (byteZ b)) eqn:H; [|done]. rewrite between_true in H.
  intros [= <- <-]. lia.
Qed.

Lemma decode_rune_valid a s : valid_rune (decode_rune a s).1.
Proof.
  unfold decode_rune. pose proof (byteZ_range a). unfold valid_rune.
  destruct (Z.ltb_spec (byteZ a) 0x80); [simpl; lia|].
  destruct (lead (byteZ a)) as [[[n lo] hi]|] eqn:Hl; simpl; [|unfold RuneError; lia].
  destruct (cont2 lo hi s) as [[y s2]|] eqn:Hy; simpl; [|unfold RuneError; lia].
  apply cont2_Some in Hy.
  unfold lead in Hl. case_all Hl; breflect; rewrite ?between_true in *; simpl; try lia;
    (destruct (cont1 s2) as [[z s3]|] eqn:Hz; simpl; [apply cont2_Some in Hz|unfold RuneError; lia]);
    try lia;
    (destruct (cont1 s3) as [[w s4]|] eqn:Hw; simpl; [apply cont2_Some in Hw|unfold RuneError; lia]);
    try lia.
Qed.

Lemma segments_valid s : Forall (λ p, valid_rune p.1) (segments s).
Proof.
  induction s as [|a s IH] using segments_ind; [constructor|].
  rewrite segments_cons. constructor; [apply decode_rune_valid | done].
Qed.

Lemma runes_valid s : Forall valid_rune (runes s).
Proof. unfold runes. apply Forall_fmap. exact (segments_valid s). Qed.

(** ** Decoding what was encoded *)

Lemma encode_rune_valid r : valid_rune r →
  encode_rune r =
  if r <? 0x80 then str1 (Zbyte r)
  else if r <? 0x800 then
    String (Zbyte (0xC0 + r / 64)) (str1 (Zbyte (0x80 + r mod 64)))
  else if r <? 0x10000 then
    String (Zbyte (0xE0 + r / 4096))
      (String (Zbyte (0x80 + (r / 64) mod 64)) (str1 (Zbyte (0x80 + r mod 64))))
  else
    String (Zbyte (0xF0 + r / 262144))
      (String (Zbyte (0x80 + (r / 4096) mod 64))
        (String (Zbyte (0x80 + (r / 64) mod 64)) (str1 (Zbyte (0x80 + r mod 64))))).
Proof.
  intros Hr. unfold encode_rune.
  replace ((0 <=? r) && ((r <? 0xD800) || ((0xE000 <=? r) && (r <=? 0x10FFFF)))) with true; [done|].
  unfold valid_rune in Hr. symmetry. breflect. lia.
Qed.

Lemma cont2_Zbyte lo hi z s : lo ≤ z ≤ hi → 0 ≤ z < 256 →
  cont2 lo hi (String (Zbyte z) s) = Some (z - 0x80, s).
Proof.
  intros ??. unfold cont2. rewrite byteZ_Zbyte by done. by rewrite between_intro.
Qed.

Lemma lead_2 x : 0xC2 ≤ x ≤ 0xDF → lead x = Some (2%nat, 0x80, 0xBF).
Proof. intros. unfold lead. by rewrite between_intro. Qed.

Lemma lead_3 x y : 0xE0 ≤ x ≤ 0xEF → 0x80 ≤ y ≤ 0xBF →
  (x = 0xE0 → 0xA0 ≤ y) → (x = 0xED → y ≤ 0x9F) →
  ∃ lo hi, lead x = Some (3%nat, lo, hi) ∧ lo ≤ y ≤ hi.
Proof.
  intros. unfold lead, between.
  repeat case_if; breflect; try lia; eexists _, _; (split; [done|]); lia.
Qed.

Lemma lead_4 x y : 0xF0 ≤ x ≤ 0xF4 → 0x80 ≤ y ≤ 0xBF →
  (x = 0xF0 → 0x90 ≤ y) → (x = 0xF4 → y ≤ 0x8F) →
  ∃ lo hi, lead x = Some (4%nat, lo, hi) ∧ lo ≤ y ≤ hi.
Proof.
  intros. unfold lead, between.
  repeat case_if; breflect; try lia; eexists _, _; (split; [done|]); lia.
Qed.

(** Arithmetic on the quotients and remainders of an encoding. *)
Ltac euclid := Z.to_euclidean_division_equations; lia.

Lemma decode_encode r s : valid_rune r →
  ∃ a t n, encode_rune r +:+ s = String a (t +:+ s) ∧ encode_rune r = String a t ∧
    n = String.length t ∧ decode_rune a (t +:+ s) = (r, n).
Proof.
  intros Hr. rewrite encode_rune_valid by done.
  assert (0 ≤ r ≤ 0x10FFFF) by (unfold valid_rune in Hr; lia).
  destruct (Z.ltb_spec r 0x80) as [?|?]; [|destruct (Z.ltb_spec r 0x800) as [?|?];
    [|destruct (Z.ltb_spec r 0x10000) as [?|?]]];
  (eexists _, _, _; split_and!; [reflexivity..|]);
  unfold decode_rune, cont1, str1; rewrite ?append_cons, ?append_nil; rewrite byteZ_Zbyte by euclid.
  - by destruct (Z.ltb_spec r 0x80); [|lia].
  - destruct (Z.ltb_spec (0xC0 + r / 64) 0x80) as [?|_]; [euclid|].
    rewrite lead_2 by euclid.
    cbn [mbind option_bind]. rewrite cont2_Zbyte by euclid.
    simpl. f_equal. euclid.
  - destruct (Z.ltb_spec (0xE0 + r / 4096) 0x80) as [?|_]; [euclid|].
    destruct (lead_3 (0xE0 + r / 4096) (0x80 + (r / 64) mod 64)) as (lo & hi & -> & Hlo);
      [unfold valid_rune in Hr; euclid..|].
    cbn [mbind option_bind].
    rewrite cont2_Zbyte by euclid.
    cbn [mbind option_bind].
    rewrite cont2_Zbyte by euclid.
    simpl. f_equal. euclid.
  - destruct (Z.ltb_spec (0xF0 + r / 262144) 0x80) as [?|_]; [euclid|].
    destruct (lead_4 (0xF0 + r / 262144) (0x80 + (r / 4096) mod 64)) as (lo & hi & -> & Hlo);
      [euclid..|].
    cbn [mbind option_bind].
    rewrite cont2_Zbyte by euclid.
    cbn [mbind option_bind].
    rewrite cont2_Zbyte by euclid.
    cbn [mbind option_bind].
    rewrite cont2_Zbyte by euclid.
    simpl. f_equal. euclid.
Qed.

Lemma take_str_app s t : take_str (String.length s) (s +:+ t) = s.
Proof. induction s as [|a s IH]; [by destruct t|]. rewrite append_cons. simpl. by rewrite IH. Qed.
Lemma drop_str_app s t : drop_str (String.length s) (s +:+ t) = t.
Proof. induction s as [|a s IH]; [by destruct t|]. by rewrite append_cons. Qed.

Lemma segments_encode r s : valid_rune r →
  segments (encode_rune r +:+ s) = (r, encode_rune r) :: segments s.
Proof.
  intros Hr. destruct (decode_encode r s Hr) as (a & t & n & -> & -> & -> & Hd).
  rewrite segments_cons, Hd. simpl. by rewrite take_str_app, drop_str_app.
Qed.

Lemma segments_string_of_runes rs : Forall valid_rune rs →
  segments (string_of_runes rs) = (λ r, (r, encode_rune r)) <$> rs.
Proof.
  unfold string_of_runes. induction 1 as [|r rs Hr _ IH]; [done|].
  cbn [fmap list_fmap concat_str]. rewrite segments_encode by done. f_equal. exact IH.
Qed.

Lemma runes_string_of_runes rs : Forall valid_rune rs → runes (string_of_runes rs) = rs.
Proof.
  intros H. unfold runes. rewrite segments_string_of_runes by done.
  rewrite <-list_fmap_compose. by apply list_fmap_id.
Qed.

(** What decoding and encoding a string leaves of it: its invalid bytes are
    replaced by [RuneError]. *)
Definition to_valid_utf8 (s : string) : string := string_of_runes (runes s).

Lemma to_valid_utf8_idemp s : to_valid_utf8 (to_valid_utf8 s) = to_valid_utf8 s.
Proof.
  unfold to_valid_utf8. by rewrite runes_string_of_runes by apply runes_valid.
Qed.

(** An ASCII byte of a string is one of its runes: it is never inside the
    encoding of another one. *)
Lemma cont2_ascii lo hi s y s2 n :
  0x80 ≤ lo → cont2 lo hi s = Some (y, s2) →
  ∃ b, s = String b s2 ∧ 0x80 ≤ byteZ b ∧ take_str (S n) s = String b (take_str n s2).
Proof.
  intros Hlo. destruct s as [|b s]; [done|]. simpl.
  destruct (between lo hi (byteZ b)) eqn:H; [|done]. rewrite between_true in H.
  intros [= _ <-]. exists b. split_and!; [done|lia|done].
Qed.

Lemma decode_rune_tail a s :
  all_bytes (λ b, 0x80 <=? byteZ b) (take_str (decode_rune a s).2 s) = true.
Proof.
  unfold decode_rune. destruct (byteZ a <? 0x80); [done|].
  destruct (lead (byteZ a)) as [[[n lo] hi]|] eqn:Hl; [|done]. cbn [mbind option_bind].
  assert (0x80 ≤ lo) as Hlo by (unfold lead in Hl; case_all Hl; lia).
  destruct (cont2 lo hi s) as [[y s2]|] eqn:Hy; [|done]. cbn [mbind option_bind].
  destruct n as [|[|[|[|n]]]];
    repeat match goal with
    | |- context [cont1 ?t ≫= _] => destruct (cont1 t) as [[? ?]|] eqn:?; cbn [mbind option_bind]
    end; try done; cbn [default from_option snd id];
    repeat match goal with
    | H : cont2 lo hi s = Some _ |- _ =>
        apply (cont2_ascii _ _ _ _ _ 0 Hlo) in H as (? & -> & ? & _)
    | H : cont1 _ = Some _ |- _ =>
        apply (cont2_ascii 0x80 0xBF _ _ _ 0 ltac:(lia)) in H as (? & -> & ? & _)
    end; cbn [take_str all_bytes]; breflect; done.
Qed.
