(* ===== verification/GoStrings.v ===== *)
(** * The functions of Go's [strings] and [strconv] packages the program uses

    Strings are byte sequences, as in Go. [ToLower] takes the rune table of
    [unicode.ToLower] above ASCII as an argument; everything else is a
    definition. *)

From S2P Require Import Prelude GoUtf8.

Abbreviation slen := String.length.

(** ** Prefixes, suffixes and substrings *)

Definition HasPrefix (s p : string) : bool := String.prefix p s.

Definition HasSuffix (s p : string) : bool :=
  (slen p <=? slen s)%nat && String.eqb (drop_str (slen s - slen p) s) p.

Definition CutPrefix (s p : string) : option string :=
  if HasPrefix s p then Some (drop_str (slen p) s) else None.

Definition TrimPrefix (s p : string) : string := default s (CutPrefix s p).

Definition TrimSuffix (s p : string) : string :=
  if HasSuffix s p then take_str (slen s - slen p) s else s.

Fixpoint Index (s sub : string) : option nat :=
  if String.prefix sub s then Some 0%nat
  else match s with
  | EmptyString => None
  | String _ s => S <$> Index s sub
  end.

Fixpoint LastIndex (s sub : string) : option nat :=
  match s with
  | EmptyString => if String.prefix sub s then Some 0%nat else None
  | String _ s' =>
      match LastIndex s' sub with
      | Some i => Some (S i)
      | None => if String.prefix sub s then Some 0%nat else None
      end
  end.

Definition Contains (s sub : string) : bool := bool_decide (is_Some (Index s sub)).

Definition is_empty (s : string) : bool := String.eqb s "".

(** [strings.Cut]: what stands before and after the first [sep]. *)
Definition Cut (s sep : string) : string * string * bool :=
  match Index s sep with
  | Some i => (take_str i s, drop_str (i + slen sep) s, true)
  | None => (s, EmptyString, false)
  end.

Fixpoint in_string (a : ascii) (s : string) : bool :=
  match s with
  | EmptyString => false
  | String b s => Ascii.eqb a b || in_string a s
  end.

(** [strings.ContainsAny] for a set of ASCII characters. *)
Fixpoint ContainsAny (s chars : string) : bool :=
  match s with
  | EmptyString => false
  | String a s => in_string a chars || ContainsAny s chars
  end.

(** [strings.ReplaceAll] of a one-byte string. *)
Fixpoint ReplaceAll (s : string) (old : ascii) (new : string) : string :=
  match s with
  | EmptyString => EmptyString
  | String a s => (if Ascii.eqb a old then new else str1 a) +:+ ReplaceAll s old new
  end.

Fixpoint Join (l : list string) (sep : string) : string :=
  match l with
  | [] => EmptyString
  | [s] => s
  | s :: l => s +:+ sep +:+ Join l sep
  end.

(** [strings.Split] at a one-byte separator: never empty. *)
Fixpoint Split (s : string) (sep : ascii) : list string :=
  match s with
  | EmptyString => [EmptyString]
  | String a s =>
      if Ascii.eqb a sep then EmptyString :: Split s sep
      else match Split s sep with
           | [] => [str1 a]
           | t :: l => String a t :: l
           end
  end.

(** ** Spaces and case *)

(** [unicode.IsSpace]. *)
Definition IsSpace (r : Z) : bool :=
  between 9 13 r || (r =? 32)%Z || (r =? 0x85)%Z || (r =? 0xA0)%Z || (r =? 0x1680)%Z
  || between 0x2000 0x200A r || between 0x2028 0x2029 r || (r =? 0x202F)%Z
  || (r =? 0x205F)%Z || (r =? 0x3000)%Z.

Fixpoint drop_spaces (l : list (Z * string)) : list (Z * string) :=
  match l with
  | [] => []
  | (r, t) :: l' => if IsSpace r then drop_spaces l' else l
  end.

Definition TrimSpace (s : string) : string :=
  concat_str (rev (drop_spaces (rev (drop_spaces (segments s))))).*2.

Definition lower_ascii (r : Z) : Z := if between 65 90 r then (r + 32)%Z else r.

(** [strings.ToLower] maps every rune and re-encodes, so an invalid byte
    becomes [RuneError]; on ASCII input only the letters A to Z change.
    [table] is [unicode.ToLower] on the runes above ASCII. *)
Definition ToLower (table : Z → Z) (s : string) : string :=
  string_of_runes ((λ r, if (r <? 0x80)%Z then lower_ascii r else table r) <$> runes s).

(** [strings.EqualFold(s, t)] for a lower-case ASCII [t]: the two runes above
    ASCII whose simple folding is an ASCII letter are U+017F and U+212A. *)
Definition fold_to_ascii (r : Z) : Z :=
  if (r =? 0x17F)%Z then 115%Z else if (r =? 0x212A)%Z then 107%Z else lower_ascii r.

Definition EqualFoldASCII (s t : string) : bool :=
  bool_decide (fold_to_ascii <$> runes s = runes t).

(** ** Decimal numbers *)

Definition digit (d : Z) : ascii := Zbyte (48 + d).
Definition digit_value (a : ascii) : option Z :=
  if between 48 57 (byteZ a) then Some (byteZ a - 48)%Z else None.

(** The digits of [n], most significant first, in front of [acc]. *)
Fixpoint digits_go (fuel : nat) (n : Z) (acc : string) : string :=
  match fuel with
  | O => acc
  | S fuel =>
      let acc := String (digit (n mod 10)) acc in
      if (n <? 10)%Z then acc else digits_go fuel (n / 10) acc
  end.

(** [Z.to_nat n + 1] steps are enough, since the argument is divided by ten. *)
Definition digits (n : Z) : string := digits_go (S (Z.to_nat (Z.log2 n))) n EmptyString.

(** [strconv.Itoa], which is also [%d]. *)
Definition Itoa (n : Z) : string :=
  if (n <? 0)%Z then String "-" (digits (- n)) else digits n.

Fixpoint parse_digits (acc : Z) (s : string) : option Z :=
  match s with
  | EmptyString => Some acc
  | String a s => d ← digit_value a; parse_digits (acc * 10 + d)%Z s
  end.

Definition parse_nat (s : string) : option Z :=
  match s with EmptyString => None | _ => parse_digits 0 s end.

(** [strconv.ParseInt(s, 10, bits)]; [strconv.Atoi] is the 64-bit case. *)
Definition ParseInt (bits : Z) (s : string) : option Z :=
  z ← match s with
      | String "-" s => Z.opp <$> parse_nat s
      | String "+" s => parse_nat s
      | _ => parse_nat s
      end;
  if ((- 2 ^ (bits - 1) <=? z) && (z <? 2 ^ (bits - 1)))%Z then Some z else None.

Definition Atoi (s : string) : option Z := ParseInt 64 s.

(** ** Lemmas *)

Lemma is_empty_true s : is_empty s = true ↔ s = "".
Proof. apply String.eqb_eq. Qed.
Lemma is_empty_false s : is_empty s = false ↔ s ≠ "".
Proof. apply String.eqb_neq. Qed.

Lemma prefix_spec p s : String.prefix p s = true ↔ ∃ t, s = p +:+ t.
Proof.
  revert s. induction p as [|a p IH]; intros s; simpl.
  - split; [by exists s | by destruct s].
  - destruct s as [|b s]; simpl.
    + split; [done|]. by intros [t ?].
    + destruct (ascii_dec a b) as [->|Hne].
      * rewrite IH. setoid_rewrite append_cons. naive_solver.
      * split; [done|]. intros [t Ht]. rewrite append_cons in Ht. naive_solver.
Qed.

Lemma HasPrefix_true s p : HasPrefix s p = true ↔ ∃ t, s = p +:+ t.
Proof. apply prefix_spec. Qed.

Lemma append_assoc s t u : (s +:+ t) +:+ u = s +:+ (t +:+ u).
Proof. induction s as [|a s IH]; [done|]. by rewrite !append_cons, IH. Qed.

Lemma append_nil_r s : s +:+ EmptyString = s.
Proof. induction s as [|a s IH]; [done|]. by rewrite append_cons, IH. Qed.

Lemma slen_append s t : slen (s +:+ t) = (slen s + slen t)%nat.
Proof. induction s as [|a s IH]; [done|]. rewrite append_cons. simpl. by rewrite IH. Qed.

Lemma append_inj_l s t u : s +:+ t = s +:+ u → t = u.
Proof.
  induction s as [|a s IH]; [done|]. rewrite !append_cons. intros [= H]. auto.
Qed.

Lemma append_inj s s' t t' : slen s = slen s' → s +:+ t = s' +:+ t' → s = s' ∧ t = t'.
Proof.
  revert s'. induction s as [|a s IH]; intros [|b s']; simpl; try done.
  rewrite !append_cons. intros [= Hl] [= -> H]. apply IH in H as [-> ->]; done.
Qed.

Lemma CutPrefix_Some s p t : CutPrefix s p = Some t ↔ s = p +:+ t.
Proof.
  unfold CutPrefix. destruct (HasPrefix s p) eqn:H.
  - apply HasPrefix_true in H as [u ->]. rewrite drop_str_app.
    split; [by intros [= ->]|]. by intros ?%append_inj_l; subst.
  - split; [done|]. intros ->. assert (HasPrefix (p +:+ t) p = true) by (apply HasPrefix_true; eauto).
    congruence.
Qed.

Lemma drop_str_all s : drop_str (slen s) s = EmptyString.
Proof. by induction s. Qed.

Lemma prefix_length p s : String.prefix p s = true → (slen p ≤ slen s)%nat.
Proof. intros [t ->]%prefix_spec. rewrite slen_append. lia. Qed.

(** Decimal round trip. *)

Lemma digit_value_digit d : (0 ≤ d < 10)%Z → digit_value (digit d) = Some d.
Proof.
  intros ?. unfold digit_value, digit. rewrite byteZ_Zbyte by lia.
  rewrite between_intro by lia. f_equal. lia.
Qed.

Lemma parse_digits_app s t acc :
  parse_digits acc (s +:+ t) = z ← parse_digits acc s; parse_digits z t.
Proof.
  revert acc. induction s as [|a s IH]; intros acc; [done|]. rewrite append_cons. simpl.
  destruct (digit_value a); simpl; [apply IH | done].
Qed.

Lemma digits_go_acc fuel n acc :
  digits_go fuel n acc = digits_go fuel n EmptyString +:+ acc.
Proof.
  revert n acc. induction fuel as [|fuel IH]; intros n acc; [done|]. simpl.
  destruct (n <? 10)%Z; [done|].
  rewrite IH, (IH _ (String _ EmptyString)), append_assoc. done.
Qed.

Lemma parse_digits_go fuel n :
  (0 ≤ n < 10 ^ Z.of_nat fuel)%Z → parse_digits 0 (digits_go fuel n EmptyString) = Some n.
Proof.
  revert n. induction fuel as [|fuel IH]; intros n Hn.
  - simpl in *. f_equal. lia.
  - assert (10 ^ Z.of_nat (S fuel) = 10 * 10 ^ Z.of_nat fuel)%Z as Hp
      by (rewrite Nat2Z.inj_succ, Z.pow_succ_r; lia).
    cbn [digits_go]. destruct (Z.ltb_spec n 10).
    + simpl. rewrite digit_value_digit by euclid. simpl. f_equal. euclid.
    + rewrite digits_go_acc, parse_digits_app, IH by euclid. simpl.
      rewrite digit_value_digit by euclid. simpl. f_equal. euclid.
Qed.

Lemma parse_digits_digits n : (0 ≤ n)%Z → parse_digits 0 (digits n) = Some n.
Proof.
  intros Hn. unfold digits. apply parse_digits_go. split; [done|].
  destruct (Z.eq_dec n 0) as [->|]; [done|].
  rewrite Nat2Z.inj_succ, Z2Nat.id by apply Z.log2_nonneg.
  pose proof (Z.log2_spec n ltac:(lia)) as [_ Hlt].
  eapply Z.lt_le_trans; [exact Hlt|]. apply Z.pow_le_mono_l; lia.
Qed.

Lemma digits_go_nonempty fuel n : digits_go (S fuel) n EmptyString ≠ EmptyString.
Proof.
  cbn [digits_go]. case_if; [done|]. rewrite digits_go_acc.
  by destruct (digits_go fuel (n / 10) EmptyString).
Qed.

Fixpoint all_digits (s : string) : bool :=
  match s with
  | EmptyString => true
  | String a s => between 48 57 (byteZ a) && all_digits s
  end.

Lemma all_digits_app s t : all_digits (s +:+ t) = all_digits s && all_digits t.
Proof.
  induction s as [|a s IH]; [done|]. rewrite append_cons. simpl. by rewrite IH, andb_assoc.
Qed.

Lemma digits_go_digits fuel n : (0 ≤ n)%Z → all_digits (digits_go fuel n EmptyString) = true.
Proof.
  revert n. induction fuel as [|fuel IH]; intros n Hn; [done|]. cbn [digits_go].
  assert (all_digits (String (digit (n mod 10)) EmptyString) = true).
  { simpl. unfold digit. rewrite byteZ_Zbyte by euclid. by rewrite between_intro by euclid. }
  destruct (n <? 10)%Z; [done|]. rewrite digits_go_acc, all_digits_app, IH by euclid. done.
Qed.

Lemma parse_nat_digits n : (0 ≤ n)%Z → parse_nat (digits n) = Some n.
Proof.
  intros Hn. rewrite <-(parse_digits_digits n Hn) at 1. unfold parse_nat.
  pose proof (digits_go_nonempty (Z.to_nat (Z.log2 n)) n) as H. unfold digits in *.
  by destruct (digits_go _ _ _).
Qed.

Lemma ParseInt_digits bits n : (0 ≤ n < 2 ^ (bits - 1))%Z → ParseInt bits (digits n) = Some n.
Proof.
  intros Hn. unfold ParseInt.
  assert (all_digits (digits n) = true) as Hd by (apply digits_go_digits; lia).
  pose proof (parse_nat_digits n ltac:(lia)) as Hp.
  destruct (digits n) as [|a s] eqn:He; [done|].
  assert (∀ b, between 48 57 (byteZ b) = false → a ≠ b) as Hne.
  { intros b Hb ->. simpl in Hd. by rewrite Hb in Hd. }
  assert ((match a :: nil with
           | "-"%char :: _ => Z.opp <$> parse_nat s
           | "+"%char :: _ => parse_nat s
           | _ => parse_nat (String a s) end) = Some n) as Hm.
  { rewrite Hp. destruct a as [[] [] [] [] [] [] [] []]; try done;
      exfalso; first [by apply (Hne "-"%char) | by apply (Hne "+"%char)]. }
  transitivity (z ← Some n; if ((- 2 ^ (bits - 1) <=? z) && (z <? 2 ^ (bits - 1)))%Z
                            then Some z else None).
  - rewrite <-Hm. by destruct a as [[] [] [] [] [] [] [] []].
  - simpl. replace (_ && _) with true; [done|]. symmetry. breflect. lia.
Qed.

Lemma Atoi_Itoa n : (0 ≤ n < 2 ^ 63)%Z → Atoi (Itoa n) = Some n.
Proof.
  intros Hn. unfold Atoi, Itoa. destruct (Z.ltb_spec n 0); [lia|].
  apply ParseInt_digits. lia.
Qed.

Lemma digits_all n : (0 ≤ n)%Z → all_digits (digits n) = true.
Proof. apply digits_go_digits. Qed.

Lemma digits_inj m n : (0 ≤ m)%Z → (0 ≤ n)%Z → digits m = digits n → m = n.
Proof.
  intros Hm Hn H. apply (f_equal (parse_digits 0)) in H.
  rewrite !parse_digits_digits in H by done. congruence.
Qed.

Lemma Itoa_inj m n : Itoa m = Itoa n → m = n.
Proof.
  unfold Itoa. destruct (Z.ltb_spec m 0) as [?|?], (Z.ltb_spec n 0) as [?|?].
  - intros [= Hd%digits_inj]; lia.
  - intros Hd. pose proof (digits_all n ltac:(lia)) as Ha. by rewrite <-Hd in Ha.
  - intros Hd. pose proof (digits_all m ltac:(lia)) as Ha. by rewrite Hd in Ha.
  - intros Hd%digits_inj; lia.
Qed.

(** A byte that is neither a digit nor a sign is not in a number. *)
Lemma all_digits_free a s :
  all_digits s = true → between 48 57 (byteZ a) = false → in_string a s = false.
Proof.
  intros Hs Ha. induction s as [|b s IH]; [done|]. simpl in *.
  apply andb_true_iff in Hs as [Hb Hs]. rewrite (IH Hs), orb_false_r.
  destruct (Ascii.eqb_spec a b); [congruence|done].
Qed.

Lemma Itoa_free a n :
  between 48 57 (byteZ a) = false → a ≠ "-"%char → in_string a (Itoa n) = false.
Proof.
  intros Ha Hs. unfold Itoa. destruct (Z.ltb_spec n 0).
  - cbn [in_string]. rewrite all_digits_free; [|by apply digits_all; lia|done].
    by destruct (Ascii.eqb_spec a "-").
  - apply all_digits_free; [by apply digits_all; lia|done].
Qed.

Lemma in_string_app a s t : in_string a (s +:+ t) = in_string a s || in_string a t.
Proof.
  induction s as [|b s IH]; [done|]. rewrite append_cons. simpl. by rewrite IH, orb_assoc.
Qed.

(** What follows the last separator determines both halves. *)
Lemma last_sep_inj a s1 s2 t1 t2 :
  in_string a t1 = false → in_string a t2 = false →
  s1 +:+ String a t1 = s2 +:+ String a t2 → s1 = s2 ∧ t1 = t2.
Proof.
  intros H1 H2. revert s2. induction s1 as [|b s1 IH]; intros [|c s2];
    rewrite ?append_cons, ?append_nil.
  - by intros [= ->].
  - intros [= -> ->]. rewrite in_string_app in H1. cbn [in_string] in H1.
    by rewrite Ascii.eqb_refl, orb_true_r in H1.
  - intros [= -> <-]. rewrite in_string_app in H2. cbn [in_string] in H2.
    by rewrite Ascii.eqb_refl, orb_true_r in H2.
  - by intros [= -> [-> ->]%IH].
Qed.

(** What precedes the first separator determines both halves. *)
Lemma HasSuffix_true s p : HasSuffix s p = true ↔ ∃ t, s = t +:+ p.
Proof.
  unfold HasSuffix. rewrite andb_true_iff, Nat.leb_le, String.eqb_eq. split.
  - intros [_ H]. exists (take_str (slen s - slen p) s). rewrite <-(take_drop_str (slen s - slen p) s) at 1. by rewrite H.
  - intros [t ->]. rewrite slen_append. split; [lia|].
    replace (slen t + slen p - slen p)%nat with (slen t) by lia. apply drop_str_app.
Qed.

Lemma Index_char_absent a s : in_string a s = false → Index s (String a EmptyString) = None.
Proof.
  induction s as [|b s IH]; [done|]. cbn [in_string Index String.prefix]. rewrite orb_false_iff.
  intros [Hb Hs]. destruct (ascii_dec a b) as [->|]; [by rewrite Ascii.eqb_refl in Hb|]. by rewrite IH.
Qed.

Lemma Index_char_at a s t : in_string a s = false → Index (s +:+ String a t) (String a EmptyString) = Some (slen s).
Proof.
  induction s as [|b s IH]; intros H.
  - change (EmptyString +:+ String a t) with (String a t). cbn [Index String.prefix].
    destruct (ascii_dec a a); [by destruct t|congruence].
  - rewrite append_cons. cbn [in_string] in H. apply orb_false_iff in H as [Hb Hs].
    cbn [Index String.prefix]. destruct (ascii_dec a b) as [->|]; [by rewrite Ascii.eqb_refl in Hb|].
    by rewrite IH.
Qed.

(** What [Cut] at one byte answers, and every string is one of the two. *)
Lemma Cut_char_absent a s : in_string a s = false → Cut s (String a EmptyString) = (s, EmptyString, false).
Proof. intros H. unfold Cut. by rewrite Index_char_absent. Qed.

Lemma Cut_char_at a s t :
  in_string a s = false → Cut (s +:+ String a t) (String a EmptyString) = (s, t, true).
Proof.
  intros H. unfold Cut. rewrite Index_char_at by done. clear H. cbn [slen].
  induction s as [|b s IH].
  - cbn. by destruct t.
  - rewrite append_cons. cbn [slen take_str drop_str Nat.add]. by injection IH as -> ->.
Qed.

Lemma split_at_char a s :
  in_string a s = false ∨ ∃ u t, s = u +:+ String a t ∧ in_string a u = false.
Proof.
  induction s as [|b s IH]; [by left|]. destruct (Ascii.eqb a b) eqn:E.
  - right. apply Ascii.eqb_eq in E as ->. by exists EmptyString, s.
  - destruct IH as [IH|(u & t & -> & Hu)].
    + left. cbn [in_string]. by rewrite E.
    + right. exists (String b u), t. cbn [in_string]. by rewrite E.
Qed.

Lemma first_sep_inj a s1 s2 t1 t2 :
  in_string a s1 = false → in_string a s2 = false →
  s1 +:+ String a t1 = s2 +:+ String a t2 → s1 = s2 ∧ t1 = t2.
Proof.
  revert s2. induction s1 as [|b s1 IH]; intros [|c s2]; cbn [in_string];
    rewrite ?append_cons, ?append_nil, ?orb_false_iff.
  - by intros _ _ [= ->].
  - intros _ [Hc _] [= -> _]. by rewrite Ascii.eqb_refl in Hc.
  - intros [Hb _] _ [= -> _]. by rewrite Ascii.eqb_refl in Hb.
  - intros [_ H1] [_ H2] [= -> H]. by apply IH in H as [-> ->].
Qed.

Lemma in_string_high a s :
  all_bytes (λ b, 0x80 <=? byteZ b)%Z s = true → (byteZ a < 0x80)%Z → in_string a s = false.
Proof.
  intros Hs Ha. induction s as [|b s IH]; [done|]. simpl in *. breflect. destruct Hs as [Hb Hs].
  split; [|auto]. destruct (Ascii.eqb_spec a b); [subst; lia|done].
Qed.

Lemma decode_rune_ascii a s : (byteZ a < 0x80)%Z → decode_rune a s = (byteZ a, 0).
Proof. unfold decode_rune. by destruct (Z.ltb_spec (byteZ a) 0x80); [|lia]. Qed.

Lemma ascii_in_runes a s :
  in_string a s = true → (byteZ a < 0x80)%Z → byteZ a ∈ runes s.
Proof.
  intros Hs Ha. induction s as [|b s IH] using segments_ind; [done|].
  unfold runes. rewrite segments_cons. cbn [fmap list_fmap fst]. rewrite elem_of_cons.
  cbn [in_string] in Hs. apply orb_true_iff in Hs as [<-%Ascii.eqb_eq|Hs].
  - left. by rewrite decode_rune_ascii.
  - right. apply IH. pose proof (decode_rune_tail b s) as Ht.
    rewrite <-(take_drop_str (decode_rune b s).2 s), in_string_app in Hs.
    by rewrite (in_string_high a _ Ht Ha) in Hs.
Qed.

Lemma HasPrefix_first a b s : a ≠ b → HasPrefix (String b s) (str1 a) = false.
Proof.
  intros Hne. apply not_true_is_false. intros [t Ht]%HasPrefix_true.
  unfold str1 in Ht. rewrite append_cons in Ht. congruence.
Qed.

(** An ASCII string is valid UTF-8. *)
Lemma to_valid_ascii s : isASCII s = true → to_valid_utf8 s = s.
Proof.
  unfold isASCII, to_valid_utf8. induction s as [|a s IH]; [done|]. simpl.
  rewrite andb_true_iff, Z.ltb_lt. intros [Ha Hs]. unfold runes. rewrite segments_cons.
  rewrite decode_rune_ascii by done. cbn [fmap list_fmap fst snd drop_str].
  unfold string_of_runes. cbn [fmap list_fmap concat_str]. change (concat_str _) with (string_of_runes (runes s)).
  rewrite IH by done. pose proof (byteZ_range a).
  rewrite encode_rune_valid by (unfold valid_rune; lia).
  destruct (Z.ltb_spec (byteZ a) 0x80); [|lia]. by rewrite Zbyte_byteZ.
Qed.

(** ** The last occurrence of a substring *)

Lemma LastIndex_app s t sub i :
  LastIndex t sub = Some i → LastIndex (s +:+ t) sub = Some (slen s + i).
Proof. intros H. induction s as [|a s IH]; [done|]. rewrite append_cons. cbn. by rewrite IH. Qed.

Lemma LastIndex_absent a sub s : in_string a s = false → LastIndex s (String a sub) = None.
Proof.
  induction s as [|b s IH]; [done|]. cbn [in_string]. rewrite orb_false_iff. intros [Hb Hs].
  cbn [LastIndex]. rewrite (IH Hs). cbn [String.prefix]. destruct (ascii_dec a b) as [->|]; [|done].
  by rewrite Ascii.eqb_refl in Hb.
Qed.

Lemma LastIndex_Some s sub i :
  LastIndex s sub = Some i → s = take_str i s +:+ sub +:+ drop_str (i + slen sub) s.
Proof.
  assert (∀ s : string, String.prefix sub s = true → s = sub +:+ drop_str (slen sub) s) as Hp.
  { intros t [u ->]%prefix_spec. f_equal. induction sub as [|a sub IH]; [done|]. by rewrite append_cons. }
  revert i. induction s as [|a s IH]; intros i; cbn [LastIndex].
  - destruct (String.prefix sub EmptyString) eqn:H; [|done]. intros [= <-]. by apply Hp.
  - destruct (LastIndex s sub) as [j|].
    + intros [= <-]. cbn [take_str drop_str Nat.add]. rewrite append_cons. f_equal. by apply IH.
    + destruct (String.prefix sub (String a s)) eqn:H; [|done]. intros [= <-]. by apply Hp.
Qed.

Lemma parse_digits_spec acc s z :
  parse_digits acc s = Some z → all_digits s = true ∧ ((0 ≤ acc)%Z → (0 ≤ z)%Z).
Proof.
  revert acc. induction s as [|a s IH]; intros acc; cbn [parse_digits all_digits].
  - by intros [= ->].
  - unfold digit_value. destruct (between 48 57 (byteZ a)) eqn:Ha; [|done]. cbn.
    intros [Hs Hz]%IH. split; [done|]. intros. apply Hz. unfold between in Ha. breflect. lia.
Qed.

Lemma parse_nat_spec s z : parse_nat s = Some z → all_digits s = true ∧ (0 ≤ z)%Z.
Proof.
  destruct s as [|a s]; [done|]. intros [H1 H2]%parse_digits_spec. split; [done|by apply H2].
Qed.

Lemma ParseInt_Some bits s z :
  ParseInt bits s = Some z →
  (∃ t, s = String "-" t ∧ parse_nat t = Some (- z)%Z) ∨
  (∃ t, s = String "+" t ∧ parse_nat t = Some z) ∨ parse_nat s = Some z.
Proof.
  unfold ParseInt. destruct (match s with String "-" _ => _ | _ => _ end) as [z'|] eqn:Hm; [|done].
  cbn. case_if; [|done]. intros [= ->]. destruct s as [|a s]; [done|].
  destruct (ascii_dec a "-") as [->|Hd].
  - left. exists s. split; [done|]. destruct (parse_nat s) as [n|]; [|done]. cbn in Hm.
    f_equal. injection Hm as <-. lia.
  - destruct (ascii_dec a "+") as [->|Hp]; [right; left; by exists s|]. right; right. rewrite <-Hm.
    by destruct a as [[] [] [] [] [] [] [] []].
Qed.

(** A number with a minus sign in it is not positive. *)
Lemma Atoi_signed s z : in_string "-" s = true → Atoi s = Some z → (z ≤ 0)%Z.
Proof.
  intros Hs [(t & -> & [_ H]%parse_nat_spec)|[(t & -> & [H _]%parse_nat_spec)|[H _]%parse_nat_spec]]%ParseInt_Some.
  - lia.
  - cbn in Hs. by rewrite (all_digits_free "-" t) in Hs.
  - by rewrite (all_digits_free "-" s) in Hs.
Qed.

(** *** Trimming *)

(** An ASCII character that is not a space. *)
Definition printing (a : ascii) : bool := (byteZ a <? 0x80)%Z && negb (IsSpace (byteZ a)).

Lemma segments_ascii_cons a s : (byteZ a < 0x80)%Z → segments (String a s) = (byteZ a, str1 a) :: segments s.
Proof. intros Ha. by rewrite segments_cons, decode_rune_ascii. Qed.

Lemma segments_printing_app s t : all_bytes printing s = true →
  ∃ l, segments (s +:+ t) = l ++ segments t ∧ concat_str l.*2 = s ∧ Forall (λ p, IsSpace p.1 = false) l.
Proof.
  induction s as [|a s IH]; [by exists []|]. cbn [all_bytes]. unfold printing at 1.
  rewrite !andb_true_iff, Z.ltb_lt, negb_true_iff. intros [[Ha Hsp] Hs].
  destruct (IH Hs) as (l & Hl & Hc & HF). exists ((byteZ a, str1 a) :: l).
  rewrite append_cons, segments_ascii_cons, Hl by done. split; [done|]. split; [|by constructor].
  cbn. by rewrite Hc.
Qed.

Lemma drop_spaces_none l : Forall (λ p, IsSpace p.1 = false) l → drop_spaces l = l.
Proof. destruct l as [|[r t] l]; [done|]. intros [Hr _]%Forall_cons. simpl in *. by rewrite Hr. Qed.

Lemma TrimSpace_printing s : all_bytes printing s = true → TrimSpace s = s.
Proof.
  intros Hs. destruct (segments_printing_app s "" Hs) as (l & Hl & Hc & HF).
  rewrite append_nil_r in Hl. change (segments "") with (@nil (Z * string)) in Hl. rewrite app_nil_r in Hl.
  unfold TrimSpace. rewrite Hl, (drop_spaces_none l) by done. rewrite drop_spaces_none by (by apply Forall_rev).
  by rewrite rev_involutive.
Qed.

(** A line of printing characters is its own trimming, newline or not. *)
Lemma TrimSpace_line s : all_bytes printing s = true → TrimSpace (s +:+ str1 (Zbyte 10)) = s.
Proof.
  intros Hs. destruct (segments_printing_app s (str1 (Zbyte 10)) Hs) as (l & Hl & Hc & HF).
  unfold TrimSpace. rewrite Hl. change (segments (str1 (Zbyte 10))) with [(10%Z, str1 (Zbyte 10))].
  destruct l as [|[r t] l]; [by rewrite <-Hc|].
  assert (Hd : drop_spaces (((r, t) :: l) ++ [(10%Z, str1 (Zbyte 10))]) = ((r, t) :: l) ++ [(10%Z, str1 (Zbyte 10))]).
  { apply Forall_cons in HF as [Hr _]. cbn in Hr. cbn. by rewrite Hr. }
  rewrite Hd, rev_app_distr. cbn [rev app]. change (drop_spaces ((10%Z, str1 (Zbyte 10)) :: ?k)) with (drop_spaces k).
  change (rev l ++ [(r, t)]) with (rev ((r, t) :: l)).
  rewrite drop_spaces_none by (by apply Forall_rev). by rewrite rev_involutive.
Qed.
