(* ===== verification/GoBytes.v ===== *)
(** * Go's [encoding/hex], [encoding/base64] and [net/url] escapes

    The text encodings of byte strings the program uses, with their round
    trips: lower-case hexadecimal, unpadded base64url
    ([base64.RawURLEncoding]), the big-endian 64-bit length of
    [encoding/binary], and [url.QueryEscape]. *)

From S2P Require Import Prelude GoUtf8 GoStrings.

Local Open Scope Z_scope.

(** ** Hexadecimal *)

Definition hex_digit (d : Z) : ascii := if d <? 10 then Zbyte (48 + d) else Zbyte (87 + d).

Definition hex_value (a : ascii) : option Z :=
  let x := byteZ a in
  if between 48 57 x then Some (x - 48)
  else if between 97 102 x then Some (x - 87)
  else if between 65 70 x then Some (x - 55)
  else None.

Fixpoint hex_EncodeToString (s : string) : string :=
  match s with
  | EmptyString => EmptyString
  | String a s =>
      String (hex_digit (byteZ a / 16)) (String (hex_digit (byteZ a mod 16)) (hex_EncodeToString s))
  end.

Fixpoint hex_DecodeString (s : string) : option string :=
  match s with
  | EmptyString => Some EmptyString
  | String _ EmptyString => None
  | String a (String b s) =>
      x ← hex_value a; y ← hex_value b; t ← hex_DecodeString s;
      Some (String (Zbyte (16 * x + y)) t)
  end.

Lemma hex_value_digit d : 0 ≤ d < 16 → hex_value (hex_digit d) = Some d.
Proof.
  intros ?. unfold hex_value, hex_digit.
  destruct (Z.ltb_spec d 10); rewrite byteZ_Zbyte by lia; unfold between;
    repeat case_if; breflect; f_equal; lia.
Qed.

Lemma hex_Decode_Encode s : hex_DecodeString (hex_EncodeToString s) = Some s.
Proof.
  induction s as [|a s IH]; [done|]. simpl. pose proof (byteZ_range a).
  rewrite !hex_value_digit by euclid. simpl. rewrite IH. simpl.
  rewrite <-Z.div_mod by lia. by rewrite Zbyte_byteZ.
Qed.

Lemma hex_Encode_length s : slen (hex_EncodeToString s) = (2 * slen s)%nat.
Proof. induction s as [|a s IH]; [done|]. simpl in *. lia. Qed.

Lemma hex_Encode_inj s t : hex_EncodeToString s = hex_EncodeToString t → s = t.
Proof.
  intros H. apply (f_equal hex_DecodeString) in H. rewrite !hex_Decode_Encode in H. congruence.
Qed.

(** ** Unpadded base64url *)

Definition b64_char (v : Z) : ascii :=
  if v <? 26 then Zbyte (65 + v)
  else if v <? 52 then Zbyte (71 + v)
  else if v <? 62 then Zbyte (v - 4)
  else if v =? 62 then "-"%char else "_"%char.

Definition b64_value (a : ascii) : option Z :=
  let x := byteZ a in
  if between 65 90 x then Some (x - 65)
  else if between 97 122 x then Some (x - 71)
  else if between 48 57 x then Some (x + 4)
  else if x =? 45 then Some 62
  else if x =? 95 then Some 63
  else None.

Fixpoint RawURL_EncodeToString (s : string) : string :=
  match s with
  | EmptyString => EmptyString
  | String a EmptyString =>
      let x := byteZ a in
      String (b64_char (x / 4)) (str1 (b64_char (x mod 4 * 16)))
  | String a (String b EmptyString) =>
      let x := byteZ a in let y := byteZ b in
      String (b64_char (x / 4)) (String (b64_char (x mod 4 * 16 + y / 16))
        (str1 (b64_char (y mod 16 * 4))))
  | String a (String b (String c s)) =>
      let x := byteZ a in let y := byteZ b in let z := byteZ c in
      String (b64_char (x / 4)) (String (b64_char (x mod 4 * 16 + y / 16))
        (String (b64_char (y mod 16 * 4 + z / 64)) (String (b64_char (z mod 64))
          (RawURL_EncodeToString s))))
  end.

(** The decoder skips line breaks, and is not strict: the unused low bits of
    the last character are ignored. A lone trailing character is an error. *)
Definition is_newline (a : ascii) : bool := (byteZ a =? 10) || (byteZ a =? 13).

Fixpoint filter_str (p : ascii → bool) (s : string) : string :=
  match s with
  | EmptyString => EmptyString
  | String a s => if p a then String a (filter_str p s) else filter_str p s
  end.

Fixpoint b64_quanta (s : string) : option string :=
  match s with
  | EmptyString => Some EmptyString
  | String _ EmptyString => None
  | String a (String b EmptyString) =>
      p ← b64_value a; q ← b64_value b;
      Some (str1 (Zbyte (p * 4 + q / 16)))
  | String a (String b (String c EmptyString)) =>
      p ← b64_value a; q ← b64_value b; r ← b64_value c;
      Some (String (Zbyte (p * 4 + q / 16)) (str1 (Zbyte (q mod 16 * 16 + r / 4))))
  | String a (String b (String c (String d s))) =>
      p ← b64_value a; q ← b64_value b; r ← b64_value c; t ← b64_value d;
      u ← b64_quanta s;
      Some (String (Zbyte (p * 4 + q / 16)) (String (Zbyte (q mod 16 * 16 + r / 4))
              (String (Zbyte (r mod 4 * 64 + t)) u)))
  end.

Definition RawURL_DecodeString (s : string) : option string :=
  b64_quanta (filter_str (λ a, negb (is_newline a)) s).

Lemma b64_value_char v : 0 ≤ v < 64 → b64_value (b64_char v) = Some v.
Proof.
  intros ?. unfold b64_value, b64_char.
  destruct (Z.ltb_spec v 26); [|destruct (Z.ltb_spec v 52);
    [|destruct (Z.ltb_spec v 62); [|destruct (Z.eqb_spec v 62) as [->|]; [done|]]]];
    try (rewrite byteZ_Zbyte by lia; unfold between; repeat case_if; breflect; f_equal; lia).
  by replace v with 63 by lia.
Qed.

Lemma string_ind3 (P : string → Prop) :
  P EmptyString → (∀ a, P (str1 a)) → (∀ a b, P (String a (str1 b))) →
  (∀ a b c s, P s → P (String a (String b (String c s)))) → ∀ s, P s.
Proof.
  intros H0 H1 H2 H3 s. induction s as [s IH] using string_len_ind.
  destruct s as [|a [|b [|c s]]]; [done|apply H1|apply H2|]. apply H3, IH. simpl. lia.
Qed.

Lemma b64_quanta_Encode s : b64_quanta (RawURL_EncodeToString s) = Some s.
Proof.
  induction s as [|a|a b|a b c s IH] using string_ind3; [done|..];
    cbn [RawURL_EncodeToString str1 b64_quanta]; pose proof (byteZ_range a);
    try pose proof (byteZ_range b); try pose proof (byteZ_range c);
    rewrite !b64_value_char by euclid; cbn [mbind option_bind]; rewrite ?IH; simpl; unfold str1;
    repeat f_equal; rewrite <-Zbyte_byteZ; f_equal; euclid.
Qed.

(** The characters of an encoding: all of them are allowed in a cookie value,
    a URL and a YAML plain scalar. *)
Definition b64url_byte (a : ascii) : bool :=
  let x := byteZ a in
  between 65 90 x || between 97 122 x || between 48 57 x || (x =? 45) || (x =? 95).

Lemma b64_char_byte v : 0 ≤ v < 64 → b64url_byte (b64_char v) = true.
Proof.
  intros Hv. pose proof (b64_value_char v Hv) as H. unfold b64_value, b64url_byte in *.
  case_all H; by rewrite ?orb_true_r.
Qed.

(** The encoding is no shorter than what it encodes. *)
Lemma slen_RawURL_Encode s : (slen s ≤ slen (RawURL_EncodeToString s))%nat.
Proof.
  induction s as [| | |a b c s IH] using string_ind3; [done|cbn; lia..|].
  cbn [RawURL_EncodeToString]. change (slen (String ?a ?s)) with (S (slen s)). simpl slen. lia.
Qed.

Lemma RawURL_Encode_bytes s : all_bytes b64url_byte (RawURL_EncodeToString s) = true.
Proof.
  induction s as [|a|a b|a b c s IH] using string_ind3; [done|..];
    cbn [RawURL_EncodeToString str1 all_bytes]; pose proof (byteZ_range a);
    try pose proof (byteZ_range b); try pose proof (byteZ_range c);
    rewrite !b64_char_byte by euclid; done.
Qed.

Lemma all_bytes_impl p q s :
  (∀ a, p a = true → q a = true) → all_bytes p s = true → all_bytes q s = true.
Proof.
  intros H. induction s as [|a s IH]; [done|]. simpl. rewrite !andb_true_iff. naive_solver.
Qed.

Lemma filter_str_all p s : all_bytes p s = true → filter_str p s = s.
Proof.
  induction s as [|a s IH]; [done|]. simpl. rewrite andb_true_iff. intros [-> ?].
  by rewrite IH.
Qed.

Lemma RawURL_Decode_Encode s : RawURL_DecodeString (RawURL_EncodeToString s) = Some s.
Proof.
  unfold RawURL_DecodeString. rewrite filter_str_all; [apply b64_quanta_Encode|].
  eapply all_bytes_impl, RawURL_Encode_bytes. intros a. unfold b64url_byte, is_newline, between.
  rewrite negb_true_iff. intros H. breflect. lia.
Qed.

(** ** [binary.BigEndian.PutUint64] *)

Fixpoint big_endian (n : nat) (z : Z) : string :=
  match n with
  | O => EmptyString
  | S n => big_endian n (z / 256) +:+ str1 (Zbyte (z mod 256))
  end.

Lemma big_endian_length n z : slen (big_endian n z) = n.
Proof. revert z. induction n as [|n IH]; intros z; [done|]. simpl. rewrite slen_append, IH. simpl. lia. Qed.

Lemma big_endian_inj n x y :
  0 ≤ x < 256 ^ Z.of_nat n → 0 ≤ y < 256 ^ Z.of_nat n → big_endian n x = big_endian n y → x = y.
Proof.
  revert x y. induction n as [|n IH]; intros x y Hx Hy; [simpl in *; lia|].
  rewrite Nat2Z.inj_succ, Z.pow_succ_r in Hx, Hy by lia. simpl. intros H.
  apply append_inj in H as [H1 H2]; [|by rewrite !big_endian_length].
  apply IH in H1; [|euclid..]. injection H2 as H2.
  apply (f_equal byteZ) in H2. rewrite !byteZ_Zbyte in H2 by euclid. euclid.
Qed.

(** ** [url.QueryEscape] *)

Definition upper_hex (d : Z) : ascii := if d <? 10 then Zbyte (48 + d) else Zbyte (55 + d).

Definition query_unreserved (a : ascii) : bool :=
  let x := byteZ a in
  between 65 90 x || between 97 122 x || between 48 57 x
  || (x =? 45) || (x =? 95) || (x =? 46) || (x =? 126).

Fixpoint QueryEscape (s : string) : string :=
  match s with
  | EmptyString => EmptyString
  | String a s =>
      (if query_unreserved a then str1 a
       else if byteZ a =? 32 then "+"
       else String "%" (String (upper_hex (byteZ a / 16)) (str1 (upper_hex (byteZ a mod 16)))))
      +:+ QueryEscape s
  end.

(** [url.QueryUnescape], as the server applies it to a query value. *)
Fixpoint QueryUnescape (s : string) : option string :=
  match s with
  | EmptyString => Some EmptyString
  | String a s1 =>
      if byteZ a =? 37 then
        match s1 with
        | String b (String c s3) =>
            x ← hex_value b; y ← hex_value c; t ← QueryUnescape s3;
            Some (String (Zbyte (16 * x + y)) t)
        | _ => None
        end
      else t ← QueryUnescape s1;
           Some (String (if byteZ a =? 43 then " "%char else a) t)
  end.

Lemma hex_value_upper d : 0 ≤ d < 16 → hex_value (upper_hex d) = Some d.
Proof.
  intros ?. unfold hex_value, upper_hex.
  destruct (Z.ltb_spec d 10); rewrite byteZ_Zbyte by lia; unfold between;
    repeat case_if; breflect; f_equal; lia.
Qed.

Lemma QueryUnescape_Escape s : QueryUnescape (QueryEscape s) = Some s.
Proof.
  induction s as [|a s IH]; [done|]. cbn [QueryEscape].
  destruct (query_unreserved a) eqn:Hu; [|destruct (Z.eqb_spec (byteZ a) 32) as [H32|Hne]].
  - unfold str1. rewrite append_cons, append_nil. cbn [QueryUnescape].
    assert (byteZ a ≠ 37 ∧ byteZ a ≠ 43) as [H37 H43].
    { unfold query_unreserved, between in Hu. breflect. lia. }
    apply Z.eqb_neq in H37, H43. rewrite H37, H43, IH. done.
  - change "+" with (str1 "+"). unfold str1. rewrite append_cons, append_nil. simpl.
    rewrite IH. simpl. by rewrite <-(Zbyte_byteZ a), H32.
  - unfold str1. rewrite !append_cons, append_nil. pose proof (byteZ_range a). simpl.
    rewrite !hex_value_upper by euclid. simpl. rewrite IH. simpl.
    rewrite <-Z.div_mod by lia. by rewrite Zbyte_byteZ.
Qed.

(** An encoding is ASCII, and unchanged by JSON. *)
Lemma RawURL_ascii s : isASCII (RawURL_EncodeToString s) = true.
Proof.
  eapply all_bytes_impl, RawURL_Encode_bytes. intros a. unfold b64url_byte, between. breflect. lia.
Qed.

Lemma RawURL_valid s : to_valid_utf8 (RawURL_EncodeToString s) = RawURL_EncodeToString s.
Proof. apply to_valid_ascii, RawURL_ascii. Qed.

Lemma hex_digit_printing d : 0 ≤ d < 16 → printing (hex_digit d) = true.
Proof.
  intros Hd. assert (H : d ∈ seqZ 0 16) by (apply elem_of_seqZ; lia). clear Hd. revert d H.
  apply Forall_forall. vm_compute. repeat constructor.
Qed.

Lemma hex_Encode_printing s : all_bytes printing (hex_EncodeToString s) = true.
Proof.
  induction s as [|a s IH]; [done|]. pose proof (byteZ_range a). cbn [hex_EncodeToString all_bytes].
  rewrite !hex_digit_printing, IH by euclid. done.
Qed.
