(* ===== verification/GoLib.v ===== *)
(** * The library code the program calls and the model does not define

    Cryptography ([crypto/aes], [crypto/hmac], [crypto/sha256],
    [golang.org/x/crypto/bcrypt]), the URL and JSON parsers and the Unicode
    tables are the fields of the class [GoLib], an argument of every
    definition that uses them. [GoLibLaws] states the documented behaviour the
    theorems rely on. [demo_lib] is a small concrete instance for which the
    laws are proved, so that every theorem that assumes them has a model. *)

From S2P Require Import Prelude GoUtf8 GoStrings GoBytes.

(** The fields of [net/url.URL] the program reads. *)
Record URL := mkURL {
  Scheme : string;
  Host : string;
  Opaque : string;
  Hostname : string;
  Port : string
}.

(** A JSON object as [encoding/json] writes one: its members in order. Only
    integers are told apart from the other values that are neither strings nor
    [null]. *)
Inductive JVal :=
  | JStr (s : string)
  | JNum (n : Z)
  | JNull
  | JOther.

#[export] Instance JVal_eq_dec : EqDecision JVal.
Proof. solve_decision. Defined.

#[export] Instance JVal_countable : Countable JVal.
Proof.
  refine (inj_countable'
    (λ v, match v with JStr s => inl (inl s) | JNum n => inl (inr n) | JNull => inr true | JOther => inr false end)
    (λ x, match x with
          | inl (inl s) => JStr s | inl (inr n) => JNum n | inr true => JNull | inr false => JOther
          end) _).
  by intros [].
Defined.

Abbreviation JObj := (list (string * JVal)).

Definition coerce_val (v : JVal) : JVal :=
  match v with JStr s => JStr (to_valid_utf8 s) | _ => v end.

(** Decoding into a struct field: members match its tag up to case, the last
    one wins, [null] leaves the field as it is, and another type is an error. *)
Definition json_members (o : JObj) (tag : string) : list JVal :=
  snd <$> base.filter (λ p, EqualFoldASCII p.1 tag = true) o.

Definition json_string (o : JObj) (tag : string) : option string :=
  foldl (λ acc v, s ← acc; match v with JStr t => Some t | JNull => Some s | _ => None end)
    (Some "") (json_members o tag).

Definition json_int64 (o : JObj) (tag : string) : option Z :=
  foldl (λ acc v, s ← acc;
           match v with
           | JNum n => if ((- 2 ^ 63 <=? n) && (n <? 2 ^ 63))%Z then Some n else None
           | JNull => Some s
           | _ => None
           end)
    (Some 0%Z) (json_members o tag).

(** [json.Marshal] replaces the invalid UTF-8 of every string. *)
Definition coerce_obj (o : JObj) : JObj := (λ p, (p.1, coerce_val p.2)) <$> o.

Class GoLib := {
  (** [unicode.ToLower] on runes above ASCII *)
  unicode_ToLower : Z → Z;
  (** [strconv.Quote], which is [%q] *)
  strconv_Quote : string → string;
  (** [url.Parse]; [None] is a parse error *)
  url_Parse : string → option URL;
  (** [net.ParseIP(h)] is not nil and [IsLoopback] *)
  loopback_IP : string → bool;
  (** [sha256.Sum256] *)
  sha256_Sum256 : string → string;
  (** [cipher.AEAD.Seal] and [Open] of AES-256-GCM: key, nonce, then text *)
  gcm_Seal : string → string → string → string;
  gcm_Open : string → string → string → option string;
  (** HMAC-SHA256: key, then message *)
  hmac_SHA256 : string → string → string;
  (** [bcrypt.Cost]: the cost, or an error *)
  bcrypt_Cost : string → option Z;
  (** [bcrypt.CompareHashAndPassword] returned nil *)
  bcrypt_Compare : string → string → bool;
  (** [bcrypt.GenerateFromPassword]: the salt is the random input *)
  bcrypt_Generate : string → string → string;
  (** [json.Marshal] of a struct with these members, and [json.Unmarshal] *)
  json_Marshal : JObj → string;
  json_Unmarshal : string → option JObj
}.

(** The nonce of GCM. *)
Definition NonceSize : nat := 12.

Class GoLibLaws `(G : GoLib) : Prop := {
  (** The tables map runes to runes and lowering twice is lowering once. *)
  ToLower_valid r : valid_rune r → (0x80 ≤ r)%Z → valid_rune (unicode_ToLower r);
  ToLower_stable r : valid_rune r → (0x80 ≤ r)%Z →
    let r' := unicode_ToLower r in
    (if (r' <? 0x80)%Z then lower_ascii r' else unicode_ToLower r') = r';
  sha256_length s : slen (sha256_Sum256 s) = 32%nat;
  (** GCM opens exactly what was sealed under the same key and nonce. *)
  gcm_open_seal k n p : gcm_Open k n (gcm_Seal k n p) = Some p;
  gcm_open_inv k n c p : gcm_Open k n c = Some p → c = gcm_Seal k n p;
  bcrypt_generate salt p : bcrypt_Compare (bcrypt_Generate salt p) p = true;
  json_roundtrip o : json_Unmarshal (json_Marshal o) = Some (coerce_obj o)
}.

(** ** Strings under the case folding of the program *)

Section lower.
Context `{G : GoLib}.

(** [strings.ToLower]. *)
Definition lower (s : string) : string := ToLower unicode_ToLower s.

Context `{L : !GoLibLaws G}.

Definition lower_rune (r : Z) : Z :=
  if (r <? 0x80)%Z then lower_ascii r else unicode_ToLower r.

Lemma lower_ascii_range r : (0 ≤ r < 0x80)%Z → (0 ≤ lower_ascii r < 0x80)%Z.
Proof. unfold lower_ascii, between. case_if; breflect; lia. Qed.

Lemma lower_rune_valid r : valid_rune r → valid_rune (lower_rune r).
Proof.
  intros Hr. unfold lower_rune. destruct (Z.ltb_spec r 0x80).
  - assert (0 ≤ r)%Z by (unfold valid_rune in Hr; lia).
    pose proof (lower_ascii_range r ltac:(lia)). unfold valid_rune. lia.
  - by apply ToLower_valid.
Qed.

Lemma lower_rune_idemp r : valid_rune r → lower_rune (lower_rune r) = lower_rune r.
Proof.
  intros Hr. unfold lower_rune at 2 3. destruct (Z.ltb_spec r 0x80).
  - unfold lower_rune. assert (0 ≤ r)%Z by (unfold valid_rune in Hr; lia).
    pose proof (lower_ascii_range r ltac:(lia)).
    destruct (Z.ltb_spec (lower_ascii r) 0x80); [|lia].
    unfold lower_ascii, between. repeat case_if; breflect; lia.
  - by apply ToLower_stable.
Qed.

Lemma runes_lower s : runes (lower s) = lower_rune <$> runes s.
Proof.
  unfold lower, ToLower. apply runes_string_of_runes, Forall_fmap.
  eapply Forall_impl; [apply runes_valid|]. intros r Hr. by apply lower_rune_valid.
Qed.

Lemma lower_idemp s : lower (lower s) = lower s.
Proof.
  unfold lower at 1. unfold ToLower. fold lower_rune.
  rewrite runes_lower. unfold lower, ToLower. fold lower_rune. f_equal.
  rewrite <-list_fmap_compose. pose proof (runes_valid s) as Hv.
  apply list_fmap_ext. intros i r Hi. simpl. apply lower_rune_idemp.
  by eapply Forall_lookup in Hv.
Qed.
End lower.

(** ** A concrete instance *)

Fixpoint pos_to_bits (p : positive) : string :=
  match p with
  | xH => EmptyString
  | xO p => String "0" (pos_to_bits p)
  | xI p => String "1" (pos_to_bits p)
  end.

Fixpoint bits_to_pos (s : string) : option positive :=
  match s with
  | EmptyString => Some 1%positive
  | String a s =>
      p ← bits_to_pos s;
      if Ascii.eqb a "0" then Some (xO p) else if Ascii.eqb a "1" then Some (xI p) else None
  end.

Lemma bits_to_pos_to_bits p : bits_to_pos (pos_to_bits p) = Some p.
Proof. induction p as [p IH|p IH|]; simpl; [by rewrite IH..|done]. Qed.

Fixpoint repeat_str (n : nat) (a : ascii) : string :=
  match n with O => EmptyString | S n => String a (repeat_str n a) end.

Lemma take_str_length n s : (n ≤ slen s)%nat → slen (take_str n s) = n.
Proof.
  revert s. induction n as [|n IH]; intros [|a s]; simpl; [lia..|]. intros. rewrite IH; lia.
Qed.

Lemma repeat_str_length n a : slen (repeat_str n a) = n.
Proof. induction n as [|n IH]; simpl; lia. Qed.

(** The scheme of an absolute URL and its authority. *)
Definition demo_url (s : string) : option URL :=
  match CutPrefix s "https://", CutPrefix s "http://" with
  | Some h, _ => let h := (Cut h "/").1.1 in Some (mkURL "https" h "" (Cut h ":").1.1 (Cut h ":").1.2)
  | None, Some h => let h := (Cut h "/").1.1 in Some (mkURL "http" h "" (Cut h ":").1.1 (Cut h ":").1.2)
  | None, None => Some (mkURL "" "" "" "" "")
  end.

#[export] Instance demo_lib : GoLib := {|
  unicode_ToLower := λ r, r;
  strconv_Quote := λ s, str1 (Zbyte 34) +:+ s +:+ str1 (Zbyte 34);
  url_Parse := demo_url;
  loopback_IP := λ h, String.eqb h "127.0.0.1";
  sha256_Sum256 := λ s, take_str 32 (s +:+ repeat_str 32 "0");
  gcm_Seal := λ k n p, k +:+ n +:+ p;
  gcm_Open := λ k n c, CutPrefix c (k +:+ n);
  hmac_SHA256 := λ k m, k +:+ m;
  bcrypt_Cost := λ h, if HasPrefix h "$2a$" then Some 10%Z else None;
  bcrypt_Compare := λ h p, String.eqb h ("$2a$" +:+ p);
  bcrypt_Generate := λ _ p, "$2a$" +:+ p;
  json_Marshal := λ o, pos_to_bits (encode (coerce_obj o));
  json_Unmarshal := λ s, p ← bits_to_pos s; decode p
|}.

#[export] Instance demo_laws : GoLibLaws demo_lib.
Proof.
  split; simpl.
  - done.
  - intros r _ Hr. by destruct (Z.ltb_spec r 0x80); [lia|].
  - intros s. apply (take_str_length 32). rewrite slen_append. simpl. lia.
  - intros k n p. apply CutPrefix_Some. by rewrite append_assoc.
  - intros k n c p H%CutPrefix_Some. by rewrite H, append_assoc.
  - intros _ p. apply String.eqb_refl.
  - intros o. rewrite bits_to_pos_to_bits. simpl. apply countable.decode_encode.
Qed.
