(* ===== verification/GoOs.v ===== *)
(** * The parts of [os], [os/exec] and [path/filepath] the program uses

    [Clean], [filepath_Join] and [Dir] of slash-separated paths; a file system
    as the map from path to content, and the monad of computations that use
    it. Every call can fail: [faults] says what the call number [step] runs
    into, a failing write may leave a part of its content behind, and
    directories are left out, since only their absence could matter and that
    is one more failure. A command that is run sees the files and may change
    the state [D] of another program, whether it reports an error or not. *)

From S2P Require Import Prelude GoUtf8 GoStrings.

(** ** Paths *)

(** One step of [filepath.Clean]: the components kept so far, innermost
    first. *)
Definition clean_step (rooted : bool) (out : list string) (c : string) : list string :=
  if String.eqb c "" || String.eqb c "." then out
  else if String.eqb c ".." then
    match out with
    | [] => if rooted then [] else [".."]
    | top :: out' => if String.eqb top ".." then ".." :: out else out'
    end
  else c :: out.

Definition clean_components (rooted : bool) (p : string) : list string :=
  rev (foldl (clean_step rooted) [] (Split p "/")).

Definition rooted_path (l : list string) : string := "/" +:+ Join l "/".

Definition Clean (p : string) : string :=
  if HasPrefix p "/" then rooted_path (clean_components true p)
  else match clean_components false p with [] => "." | l => Join l "/" end.

(** [filepath.Join]: leading empty elements are ignored. *)
Fixpoint filepath_Join (elems : list string) : string :=
  match elems with
  | [] => ""
  | e :: l => if String.eqb e "" then filepath_Join l else Clean (Join elems "/")
  end.

Definition Dir (p : string) : string :=
  Clean (match LastIndex p "/" with Some i => take_str (S i) p | None => "" end).

Example Clean_dots : Clean "/var/lib/../x//./y/" = "/var/x/y".
Proof. reflexivity. Qed.
Example Clean_up : Clean "../a/../../b" = "../../b".
Proof. reflexivity. Qed.
Example Dir_passfile : Dir "/run/pgadmin/passfile/pgpass" = "/run/pgadmin/passfile".
Proof. reflexivity. Qed.

(** A component that [Clean] keeps as it is. *)
Definition plain (c : string) : bool :=
  negb (in_string "/" c || String.eqb c "" || String.eqb c "." || String.eqb c "..").

Lemma plain_spec c : plain c = true →
  in_string "/" c = false ∧ String.eqb c "" = false ∧ String.eqb c "." = false ∧ String.eqb c ".." = false.
Proof. unfold plain. rewrite negb_true_iff, !orb_false_iff. tauto. Qed.

Lemma Split_free a c : in_string a c = false → Split c a = [c].
Proof.
  induction c as [|b c IH]; [done|]. cbn [in_string Split]. intros [Hb Hc]%orb_false_iff.
  rewrite (Ascii.eqb_sym b a), Hb, IH by done. done.
Qed.

Lemma Split_nonempty s a : Split s a ≠ [].
Proof. destruct s as [|b s]; simpl; [done|]. case_match; [done|]. by destruct (Split s a). Qed.

Lemma Split_app s t a : Split (s +:+ String a t) a = Split s a ++ Split t a.
Proof.
  induction s as [|b s IH]; rewrite ?append_cons, ?append_nil; cbn [Split].
  - by rewrite Ascii.eqb_refl.
  - rewrite IH. destruct (Ascii.eqb b a); [done|].
    destruct (Split s a) as [|u l] eqn:E; [by destruct (Split_nonempty s a)|done].
Qed.

Lemma Split_Join l a : l ≠ [] → Forall (λ c, in_string a c = false) l →
  Split (Join l (str1 a)) a = l.
Proof.
  intros Hl H. induction H as [|c l Hc H IH]; [done|]. destruct l as [|d l].
  - by apply Split_free.
  - change (Join (c :: d :: l) (str1 a)) with (c +:+ String a (Join (d :: l) (str1 a))).
    rewrite Split_app, Split_free, IH by done. done.
Qed.

Lemma plain_free l : Forall (λ c, plain c = true) l → Forall (λ c, in_string "/" c = false) l.
Proof. induction 1 as [|c l [? _]%plain_spec _ IH]; by constructor. Qed.

Lemma rooted_path_inj l k :
  Forall (λ c, plain c = true) l → Forall (λ c, plain c = true) k →
  rooted_path l = rooted_path k → l = k.
Proof.
  intros Hl Hk. unfold rooted_path. rewrite !append_cons, !append_nil. intros [= H].
  assert (Hempty : ∀ m, Forall (λ c, plain c = true) m → "" = Join m "/" → m = []).
  { intros m Hm E. destruct m as [|c m]; [done|]. exfalso. inversion Hm as [|? ? Hc _]; subst.
    destruct c as [|b c]; [done|]. destruct m; by rewrite ?append_cons in E. }
  destruct (decide (l = [])) as [->|Hl']; [symmetry; by apply Hempty|].
  destruct (decide (k = [])) as [->|Hk']; [apply Hempty; [done|by symmetry]|].
  rewrite <-(Split_Join l "/"), <-(Split_Join k "/") by (done || by apply plain_free).
  by unfold str1; rewrite H.
Qed.

Lemma clean_step_plain out c : plain c = true → clean_step true out c = c :: out.
Proof.
  intros (_ & H1 & H2 & H3)%plain_spec. unfold clean_step. by rewrite H1, H2, H3.
Qed.

Lemma foldl_clean_plain l out : Forall (λ c, plain c = true) l →
  foldl (clean_step true) out l = rev l ++ out.
Proof.
  intros H. revert out. induction H as [|c l Hc H IH]; intros out; [done|]. cbn [foldl rev].
  rewrite clean_step_plain, IH by done. by rewrite <-app_assoc.
Qed.

Lemma Split_free_components s a : Forall (λ c, in_string a c = false) (Split s a).
Proof.
  induction s as [|b s IH]; simpl; [by repeat constructor|].
  destruct (Ascii.eqb_spec b a) as [->|Hba]; [by constructor|].
  assert (Hb : Ascii.eqb a b = false) by (apply Ascii.eqb_neq; congruence).
  destruct (Split s a) as [|u l]; [|inversion IH; subst];
    (constructor; [|done]); unfold str1; cbn [in_string]; by rewrite Hb.
Qed.

Lemma clean_components_plain p : Forall (λ c, plain c = true) (clean_components true p).
Proof.
  unfold clean_components. apply Forall_rev.
  assert (H : ∀ l out, Forall (λ c, in_string "/" c = false) l → Forall (λ c, plain c = true) out →
    Forall (λ c, plain c = true) (foldl (clean_step true) out l)).
  { intros l. induction l as [|c l IH]; intros out Hl Hout; [done|].
    inversion Hl as [|? ? Hc Hl']; subst. cbn [foldl]. apply IH; [done|]. unfold clean_step.
    destruct (String.eqb c "") eqn:E1; [done|]. destruct (String.eqb c ".") eqn:E2; [done|].
    destruct (String.eqb c "..") eqn:E3; cbn [orb].
    - destruct out as [|top out]; [done|]. inversion Hout as [|? ? Htop Hout']; subst.
      destruct (plain_spec _ Htop) as (_ & _ & _ & ->). done.
    - constructor; [|done]. unfold plain. by rewrite Hc, E1, E2, E3. }
  apply H; [apply Split_free_components|done].
Qed.

Lemma Clean_rooted p : HasPrefix p "/" = true → Clean p = rooted_path (clean_components true p).
Proof. intros H. unfold Clean. by rewrite H. Qed.

Lemma clean_components_path l : Forall (λ c, plain c = true) l →
  clean_components true (rooted_path l) = l.
Proof.
  intros H. unfold clean_components, rooted_path. rewrite append_cons, append_nil. cbn [Split].
  rewrite Ascii.eqb_refl. cbn [foldl]. change (clean_step true [] "") with (@nil string).
  destruct l as [|c l]; [done|].
  change (Join (c :: l) "/") with (Join (c :: l) (str1 "/")).
  rewrite (Split_Join (c :: l) "/"), (foldl_clean_plain (c :: l)) by (done || by apply plain_free).
  by rewrite app_nil_r, rev_involutive.
Qed.

(** Joining a plain name to a clean directory adds one component. *)
Lemma Join_plain l b : Forall (λ c, plain c = true) l → plain b = true →
  filepath_Join [rooted_path l; b] = rooted_path (l ++ [b]).
Proof.
  intros Hl Hb. unfold filepath_Join. unfold rooted_path at 1. rewrite append_cons. cbn [String.eqb].
  change (Join [rooted_path l; b] "/") with (rooted_path l +:+ String "/" b).
  rewrite Clean_rooted by (apply HasPrefix_true; eexists; unfold rooted_path; by rewrite append_assoc). f_equal.
  unfold clean_components at 1. rewrite Split_app, (Split_free _ b) by (by apply plain_spec in Hb as [? _]).
  rewrite foldl_app. cbn [foldl]. rewrite clean_step_plain by done. cbn [rev].
  change (clean_components true (rooted_path l) ++ [b] = l ++ [b]).
  by rewrite clean_components_path.
Qed.

(** ** Files and commands *)

(** What a call runs into: its error, and for a write that had opened the file
    how much of the content got there. *)
Record fault := mkFault { F_Error : string; F_Written : option nat }.

Record world (D : Type) := mkWorld { files : gmap string string; program : D; step : nat }.
Arguments mkWorld {D} _ _ _.
Arguments files {D} _.
Arguments program {D} _.
Arguments step {D} _.

Class OS (D : Type) := {
  faults : nat → option fault;
  (** the name [os.CreateTemp("", prefix*suffix)] picks *)
  temp_name : string → string → gmap string string → string;
  (** a command line: its combined output, its error, and what it did *)
  exec_run : nat → list string → gmap string string → D → string * option string * D
}.

(** [os.CreateTemp] opens with [O_EXCL], so the name is new; it is a name in
    the directory for temporary files. *)
Definition TempDir : string := "/tmp".

Class OSLaws {D} (O : OS D) : Prop := {
  temp_fresh pre suf fs : fs !! temp_name pre suf fs = None;
  temp_shape pre suf fs : in_string "/" (pre +:+ suf) = false →
    ∃ r, in_string "/" r = false ∧ temp_name pre suf fs = TempDir +:+ String "/" (pre +:+ r +:+ suf)
}.

Definition IO (D A : Type) : Type := world D → result string A * world D.

#[export] Instance IO_ret {D} : MRet (IO D) := λ A a w, (Ok a, w).
#[export] Instance IO_bind {D} : MBind (IO D) := λ A B f m w,
  match m w with (Ok a, w1) => f a w1 | (Err e, w1) => (Err e, w1) end.

Section calls.
Context {D : Type} `{O : OS D}.

Definition no_such_file : string := "no such file or directory".

Definition throw {A} (e : string) : IO D A := λ w, (Err e, w).

(** [fmt.Errorf("...: %w", ..., err)] around an error. *)
Definition wrapped {A} (msg : string) (m : IO D A) : IO D A := λ w,
  match m w with (Err e, w1) => (Err (msg +:+ ": " +:+ e), w1) | r => r end.

(** The error of a call as a value. *)
Definition attempt {A} (m : IO D A) : IO D (result string A) := λ w,
  let '(r, w1) := m w in (Ok r, w1).

Definition of_result {A} (r : result string A) : IO D A := λ w, (r, w).

Definition tick (fs : gmap string string) (w : world D) : world D :=
  mkWorld fs w.(program) (S w.(step)).

(** A call that either fails as a whole or does its work. *)
Definition call {A} (f : gmap string string → result string A * gmap string string) : IO D A := λ w,
  match faults w.(step) with
  | Some e => (Err e.(F_Error), tick w.(files) w)
  | None => let '(r, fs) := f w.(files) in (r, tick fs w)
  end.

Definition ReadFile (p : string) : IO D string :=
  call (λ fs, (result_of_option no_such_file (fs !! p), fs)).

Definition MkdirAll (p : string) : IO D unit := call (λ fs, (Ok (), fs)).

Definition WriteFile (p c : string) : IO D unit := λ w,
  match faults w.(step) with
  | Some (mkFault e None) => (Err e, tick w.(files) w)
  | Some (mkFault e (Some n)) => (Err e, tick (<[p := take_str n c]> w.(files)) w)
  | None => (Ok (), tick (<[p := c]> w.(files)) w)
  end.

Definition Rename (p q : string) : IO D unit :=
  call (λ fs, match fs !! p with
              | Some c => (Ok (), <[q := c]> (delete p fs))
              | None => (Err no_such_file, fs)
              end).

Definition Remove (p : string) : IO D unit :=
  call (λ fs, match fs !! p with
              | Some _ => (Ok (), delete p fs)
              | None => (Err no_such_file, fs)
              end).

Definition CreateTemp (pre suf : string) : IO D string :=
  call (λ fs, let p := temp_name pre suf fs in (Ok p, <[p := EmptyString]> fs)).

(** [file.Close], which may report a write that did not reach the disk. *)
Definition CloseFile (p : string) : IO D unit := call (λ fs, (Ok (), fs)).

(** [exec.CommandContext(...).CombinedOutput()]. *)
Definition CombinedOutput (argv : list string) : IO D (string * option string) := λ w,
  let '(out, err, d) := exec_run w.(step) argv w.(files) w.(program) in
  (Ok (out, err), mkWorld w.(files) d (S w.(step))).

(** [for _, x := range l { if err := f(x); err != nil { return err } }]. *)
Fixpoint for_range {A} (f : A → IO D unit) (l : list A) : IO D unit :=
  match l with
  | [] => mret ()
  | x :: l => f x ≫= λ _, for_range f l
  end.

(** *** What a computation can do *)

(** Whatever happens, the world before and after are related. *)
Definition always {A} (R : world D → world D → Prop) (m : IO D A) : Prop := ∀ w, R w (m w).2.

Section always.
Context (R : world D → world D → Prop) `{!PreOrder R}.

Lemma always_ret {A} (a : A) : always R (mret a).
Proof. intros w. simpl. reflexivity. Qed.

Lemma always_bind {A B} (m : IO D A) (f : A → IO D B) :
  always R m → (∀ a, always R (f a)) → always R (m ≫= f).
Proof.
  intros Hm Hf w. unfold mbind, IO_bind. specialize (Hm w).
  destruct (m w) as [[a|e] w1]; [|done]. etrans; [exact Hm|apply Hf].
Qed.

Lemma always_wrapped {A} msg (m : IO D A) : always R m → always R (wrapped msg m).
Proof. intros Hm w. unfold wrapped. specialize (Hm w). by destruct (m w) as [[]]. Qed.

Lemma always_attempt {A} (m : IO D A) : always R m → always R (attempt m).
Proof. intros Hm w. unfold attempt. specialize (Hm w). by destruct (m w) as [[]]. Qed.

Lemma always_throw {A} e : always R (@throw A e).
Proof. intros w. simpl. reflexivity. Qed.

Lemma always_for_range {A} (f : A → IO D unit) l :
  (∀ x, x ∈ l → always R (f x)) → always R (for_range f l).
Proof.
  induction l as [|x l IH]; intros H; [apply always_ret|]. cbn [for_range].
  apply always_bind; [|intros _; apply IH]; intros; apply H; by rewrite ?elem_of_cons; auto.
Qed.

Lemma always_call {A} (f : gmap string string → result string A * gmap string string) :
  (∀ w fs, fs = w.(files) ∨ fs = (f w.(files)).2 → R w (tick fs w)) → always R (call f).
Proof.
  intros H w. unfold call. destruct (faults _); [by apply H; left|].
  destruct (f (files w)) eqn:E. apply H. right. by rewrite E.
Qed.

Lemma always_WriteFile p c :
  (∀ w fs c', fs = w.(files) ∨ fs = <[p := c']> w.(files) → R w (tick fs w)) → always R (WriteFile p c).
Proof.
  intros H w. unfold WriteFile. destruct (faults _) as [[? [n|]]|]; cbn [snd];
    [apply (H _ _ (take_str n c))|apply (H _ _ c)|apply (H _ _ c)]; auto.
Qed.

Lemma always_CombinedOutput argv :
  (∀ w, R w (mkWorld w.(files) (exec_run w.(step) argv w.(files) w.(program)).2 (S w.(step)))) →
  always R (CombinedOutput argv).
Proof.
  intros H w. specialize (H w). unfold CombinedOutput. by destruct (exec_run _ _ _ _) as [[]].
Qed.

(** The rest of a computation may rely on what holds of the value so far. *)
Lemma always_bind_post {A B} (Q : A → Prop) (m : IO D A) (f : A → IO D B) :
  always R m → (∀ w a w', m w = (Ok a, w') → Q a) → (∀ a, Q a → always R (f a)) → always R (m ≫= f).
Proof.
  intros Hm HQ Hf w. unfold mbind, IO_bind. specialize (Hm w).
  destruct (m w) as [[a|e] w1] eqn:E; [|done]. etrans; [exact Hm|]. eapply Hf, HQ, E.
Qed.
End always.

(** *** Runs *)

Lemma bind_run {A B} (m : IO D A) (f : A → IO D B) w b w' :
  (m ≫= f) w = (Ok b, w') ↔ ∃ a w1, m w = (Ok a, w1) ∧ f a w1 = (Ok b, w').
Proof.
  unfold mbind, IO_bind. split.
  - destruct (m w) as [[a|e] w1] eqn:E; [|done]. eauto.
  - by intros (a & w1 & -> & ?).
Qed.

Lemma bind_Ok_run {A B} (m : IO D A) (f : A → IO D B) w a w1 :
  m w = (Ok a, w1) → (m ≫= f) w = f a w1.
Proof. unfold mbind, IO_bind. by intros ->. Qed.

Lemma bind_Err_run {A B} (m : IO D A) (f : A → IO D B) w e w1 :
  m w = (Err e, w1) → (m ≫= f) w = (Err e, w1).
Proof. unfold mbind, IO_bind. by intros ->. Qed.

Lemma wrapped_run {A} msg (m : IO D A) w a w' :
  wrapped msg m w = (Ok a, w') ↔ m w = (Ok a, w').
Proof. unfold wrapped. by destruct (m w) as [[] ?]. Qed.

Lemma ret_run {A} (a b : A) w w' : (mret a : IO D A) w = (Ok b, w') ↔ a = b ∧ w = w'.
Proof. unfold mret, IO_ret. naive_solver. Qed.

Lemma WriteFile_run p c w w' : WriteFile p c w = (Ok (), w') → w' = tick (<[p := c]> w.(files)) w.
Proof. unfold WriteFile. destruct (faults _) as [[? []]|]; congruence. Qed.

Lemma ReadFile_run p w s w' : ReadFile p w = (Ok s, w') → w.(files) !! p = Some s ∧ w' = tick w.(files) w.
Proof.
  unfold ReadFile, call. destruct (faults _); [done|]. destruct (files w !! p); [|done]. by intros [= -> <-].
Qed.

Lemma ReadFile_world p w : (ReadFile p w).2 = tick w.(files) w.
Proof. unfold ReadFile, call. by destruct (faults _). Qed.

Lemma CreateTemp_run pre suf w p w' : CreateTemp pre suf w = (Ok p, w') →
  p = temp_name pre suf w.(files) ∧ w' = tick (<[p := EmptyString]> w.(files)) w.
Proof. unfold CreateTemp, call. destruct (faults _); [done|]. by intros [= <- <-]. Qed.

Lemma MkdirAll_run p w w' : MkdirAll p w = (Ok (), w') → w' = tick w.(files) w.
Proof. unfold MkdirAll, call. destruct (faults _); congruence. Qed.

Lemma CloseFile_run p w w' : CloseFile p w = (Ok (), w') → w' = tick w.(files) w.
Proof. unfold CloseFile, call. destruct (faults _); congruence. Qed.

Lemma Remove_files p w :
  (Remove p w).2.(files) = w.(files) ∨ (Remove p w).2.(files) = delete p w.(files).
Proof.
  unfold Remove, call. destruct (faults _); [by left|]. destruct (files w !! p); [by right|by left].
Qed.

Lemma Remove_program p w : (Remove p w).2.(program) = w.(program).
Proof. unfold Remove, call. destruct (faults _); [done|]. by destruct (files w !! p). Qed.

Lemma CombinedOutput_run argv w out w' : CombinedOutput argv w = (Ok out, w') →
  exec_run w.(step) argv w.(files) w.(program) = (out, w'.(program)) ∧ w'.(files) = w.(files).
Proof. unfold CombinedOutput. destruct (exec_run _ _ _ _) as [[]]. by intros [= <- <-]. Qed.

Lemma CombinedOutput_total argv w e w' : CombinedOutput argv w ≠ (Err e, w').
Proof. unfold CombinedOutput. by destruct (exec_run _ _ _ _) as [[]]. Qed.

Lemma Rename_run p q w w' : Rename p q w = (Ok (), w') →
  ∃ c, w.(files) !! p = Some c ∧ w' = tick (<[q := c]> (delete p w.(files))) w.
Proof.
  unfold Rename, call. destruct (faults _); [done|]. destruct (files w !! p) eqn:E; [|done].
  intros [= <-]. eauto.
Qed.

(** Calls on a file system that does not fail. *)
Definition reliable : Prop := ∀ n, faults n = None.

Lemma call_reliable {A} (f : gmap string string → result string A * gmap string string) w :
  reliable → call f w = ((f w.(files)).1, tick (f w.(files)).2 w).
Proof. intros H. unfold call. rewrite H. by destruct (f (files w)). Qed.

Lemma WriteFile_reliable p c w : reliable → WriteFile p c w = (Ok (), tick (<[p := c]> w.(files)) w).
Proof. intros H. unfold WriteFile. by rewrite H. Qed.

Lemma Rename_reliable p q c w : reliable → w.(files) !! p = Some c →
  Rename p q w = (Ok (), tick (<[q := c]> (delete p w.(files))) w).
Proof. intros H Hp. unfold Rename. rewrite call_reliable by done. by rewrite Hp. Qed.

Lemma wrapped_Ok {A} msg (m : IO D A) w a w' : m w = (Ok a, w') → wrapped msg m w = (Ok a, w').
Proof. unfold wrapped. by intros ->. Qed.
End calls.

#[global] Opaque call WriteFile CombinedOutput.
