(* ===== verification/ProxyConfig.v ===== *)
(** * The proxy's configuration ([internal/proxy/config])

    The configuration file as records, its defaults ([setDefaults]), its
    validation ([Validate]), its warnings and its loading ([Parse]).
    [Validate] returns every problem it found, in the order the code appends
    them; a problem carries exactly the values its message prints. *)

From S2P Require Import Prelude GoUtf8 GoStrings GoBytes GoLib.

(** ** Levels *)

Abbreviation Level := string (only parsing).
Definition LevelNone : Level := "".
Definition LevelView : Level := "view".
Definition LevelPowerUser : Level := "poweruser".
Definition LevelDBA : Level := "dba".

Definition Rank (l : Level) : Z :=
  if String.eqb l LevelView then 1
  else if String.eqb l LevelPowerUser then 2
  else if String.eqb l LevelDBA then 3
  else if String.eqb l LevelNone then 0
  else -1.

Definition Level_Valid (l : Level) : bool := (0 <? Rank l)%Z.

Lemma Level_Valid_true l :
  Level_Valid l = true ↔ l = LevelView ∨ l = LevelPowerUser ∨ l = LevelDBA.
Proof.
  unfold Level_Valid, Rank.
  destruct (String.eqb_spec l LevelView); [naive_solver|].
  destruct (String.eqb_spec l LevelPowerUser); [naive_solver|].
  destruct (String.eqb_spec l LevelDBA); [naive_solver|].
  destruct (String.eqb_spec l LevelNone); naive_solver.
Qed.

(** ** The file *)

Definition ModeOIDC : string := "oidc".
Definition ModeLocal : string := "local".
Definition ModeOpenShift : string := "openshift".

(** A [time.Duration] in nanoseconds. *)
Abbreviation Duration := Z (only parsing).
Definition Second : Duration := 1000000000.
Definition Minute : Duration := 60 * Second.
Definition Hour : Duration := 60 * Minute.

Record SessionConfig := mkSessionConfig {
  CookieName : string;
  CookieSecrets : list string;
  MaxAge : Duration;
  Secure : option bool
}.

Definition CookieSecure (s : SessionConfig) : bool :=
  match s.(Secure) with None => true | Some b => b end.

Record ServerConfig := mkServerConfig {
  Listen : string;
  UpstreamDialTimeout : Duration;
  UpstreamResponseHeaderTimeout : Duration
}.

Record OIDCConfig := mkOIDCConfig {
  OIDC_IssuerURL : string;
  OIDC_ClientID : string;
  OIDC_ClientSecretFile : string;
  OIDC_RedirectURL : string;
  OIDC_Scopes : list string;
  OIDC_SubjectClaim : string
}.

Record OpenShiftConfig := mkOpenShiftConfig {
  OS_ClientID : string;
  OS_ClientSecretFile : string;
  OS_RedirectURL : string;
  OS_DiscoveryURL : string;
  OS_APIURL : string;
  OS_CAFile : string;
  OS_Scopes : list string;
  OS_UserInfoPath : string
}.

Record ProviderConfig := mkProviderConfig {
  Modes : list string;
  OIDC : option OIDCConfig;
  OpenShift : option OpenShiftConfig
}.

Record User := mkUser {
  U_Subject : string;
  U_Level : Level;
  U_LocalPasswordBcrypt : string
}.

Record RouteConfig := mkRouteConfig {
  PathPrefix : string;
  Upstream : string;
  MinLevel : Level
}.

Record AccessRequestConfig := mkAccessRequestConfig {
  Enabled : bool;
  ConsoleName : string;
  AR_Namespace : string
}.

Record Config := mkConfig {
  C_Session : SessionConfig;
  C_Server : ServerConfig;
  C_Provider : ProviderConfig;
  C_Users : list User;
  C_Routes : list RouteConfig;
  C_AccessRequest : AccessRequestConfig
}.

Definition ReservedPrefixes : list string := ["/auth"; "/logout"; "/healthz"].

(** ** Defaults *)

Definition or_default (s d : string) : string := if String.eqb s "" then d else s.
Definition or_default_dur (x d : Duration) : Duration := if (x =? 0)%Z then d else x.
Definition or_default_list {A} (l d : list A) : list A := match l with [] => d | _ => l end.

Definition default_session (s : SessionConfig) : SessionConfig :=
  mkSessionConfig (or_default s.(CookieName) "pgtoolbox_session") s.(CookieSecrets)
    (or_default_dur s.(MaxAge) (8 * Hour)) s.(Secure).

Definition default_server (s : ServerConfig) : ServerConfig :=
  mkServerConfig (or_default s.(Listen) ":8080")
    (or_default_dur s.(UpstreamDialTimeout) (10 * Second))
    (or_default_dur s.(UpstreamResponseHeaderTimeout) (30 * Second)).

Definition default_oidc (o : OIDCConfig) : OIDCConfig :=
  mkOIDCConfig o.(OIDC_IssuerURL) o.(OIDC_ClientID) o.(OIDC_ClientSecretFile)
    o.(OIDC_RedirectURL) (or_default_list o.(OIDC_Scopes) ["openid"; "email"])
    (or_default o.(OIDC_SubjectClaim) "email").

Definition default_openshift (o : OpenShiftConfig) : OpenShiftConfig :=
  mkOpenShiftConfig o.(OS_ClientID) o.(OS_ClientSecretFile) o.(OS_RedirectURL)
    o.(OS_DiscoveryURL) o.(OS_APIURL) o.(OS_CAFile)
    (or_default_list o.(OS_Scopes) ["user:info"])
    (or_default o.(OS_UserInfoPath) "/apis/user.openshift.io/v1/users/~").

Definition default_route (r : RouteConfig) : RouteConfig :=
  mkRouteConfig r.(PathPrefix) r.(Upstream) (or_default r.(MinLevel) LevelView).

Definition setDefaults (c : Config) : Config :=
  mkConfig (default_session c.(C_Session)) (default_server c.(C_Server))
    (mkProviderConfig c.(C_Provider).(Modes)
       (default_oidc <$> c.(C_Provider).(OIDC))
       (default_openshift <$> c.(C_Provider).(OpenShift)))
    c.(C_Users) (default_route <$> c.(C_Routes)) c.(C_AccessRequest).

(** ** Problems *)

Inductive config_error :=
  | CookieNameRequired
  | CookieNameInvalid (name : string)
  | CookieSecretsEmpty
  | CookieSecretShort (i : nat)
  | MaxAgeNotPositive
  | ListenRequired
  | DialTimeoutNotPositive
  | ResponseHeaderTimeoutNotPositive
  | ModesEmpty
  | ModeInvalid (mode : string)
  | ModeTwice (mode : string)
  | OIDCMissing
  | OIDCUnexpected
  | IssuerURLRequired
  | IssuerURLInvalid
  | OIDCClientIDRequired
  | OIDCClientSecretFileRequired
  | OIDCRedirectURLInvalid
  | OIDCScopesEmpty
  | SubjectClaimEmpty
  | OpenShiftMissing
  | OpenShiftUnexpected
  | OSClientIDRequired
  | OSClientSecretFileRequired
  | OSRedirectURLRequired
  | OSRedirectURLInvalid
  | DiscoveryURLInvalid
  | APIURLInvalid
  | OSScopesEmpty
  | UserInfoPathInvalid
  | SubjectRequired (i : nat)
  | SubjectDuplicate (i : nat) (subject : string)
  | UserLevelInvalid (i : nat) (l : Level)
  | HashWithoutLocal (i : nat)
  | HashInvalid (i : nat)
  | RoutesEmpty
  | PathPrefixNoSlash (i : nat) (prefix : string)
  | PathPrefixDotDot (i : nat) (prefix : string)
  | PathPrefixDuplicate (i : nat) (prefix : string)
  | PathPrefixReserved (i : nat) (prefix res : string)
  | UpstreamRequired (i : nat)
  | UpstreamInvalid (i : nat)
  | MinLevelInvalid (i : nat) (l : Level)
  | ConsoleNameRequired
  | NamespaceRequired.

(** ** Validation *)

Definition minSecretLength : nat := 16.

Definition cookie_rune (r : Z) : bool :=
  (r =? 33)%Z || between 35 43 r || between 45 46 r || between 48 57 r
  || between 65 90 r || between 94 122 r || (r =? 124)%Z || (r =? 126)%Z.

Definition isCookieNameValid (name : string) : bool := forallb cookie_rune (runes name).

Definition validateSession (c : Config) : list config_error :=
  let s := c.(C_Session) in
  (if is_empty s.(CookieName) then [CookieNameRequired]
   else when (negb (isCookieNameValid s.(CookieName))) (CookieNameInvalid s.(CookieName)))
  ++ when (length s.(CookieSecrets) =? 0)%nat CookieSecretsEmpty
  ++ concat (imap (λ i k, when (slen k <? minSecretLength)%nat (CookieSecretShort i))
               s.(CookieSecrets))
  ++ when (s.(MaxAge) <=? 0)%Z MaxAgeNotPositive.

Definition validateServer (c : Config) : list config_error :=
  let s := c.(C_Server) in
  when (is_empty s.(Listen)) ListenRequired
  ++ when (s.(UpstreamDialTimeout) <=? 0)%Z DialTimeoutNotPositive
  ++ when (s.(UpstreamResponseHeaderTimeout) <=? 0)%Z ResponseHeaderTimeoutNotPositive.

Definition known_mode (m : string) : bool :=
  String.eqb m ModeOIDC || String.eqb m ModeLocal || String.eqb m ModeOpenShift.

Definition LocalEnabled (c : Config) : bool :=
  existsb (λ m, String.eqb m ModeLocal) c.(C_Provider).(Modes).

(** One turn of the loop over [Provider.Modes], with the set [seen]. *)
Definition check_mode (_ : nat) (seen : gset string) (mode : string) :
    list config_error * gset string :=
  if negb (known_mode mode) then ([ModeInvalid mode], seen)
  else (when (bool_decide (mode ∈ seen)) (ModeTwice mode), {[mode]} ∪ seen).

Definition validateAccessRequest (c : Config) : list config_error :=
  let a := c.(C_AccessRequest) in
  if negb a.(Enabled) then []
  else when (is_empty a.(ConsoleName)) ConsoleNameRequired
       ++ when (is_empty a.(AR_Namespace)) NamespaceRequired.

Section validate.
Context `{G : GoLib}.

(** [url.Parse] succeeds with one of the schemes and a host. *)
Definition absolute_url (schemes : list string) (raw : string) : bool :=
  match url_Parse raw with
  | None => false
  | Some u => existsb (String.eqb u.(Scheme)) schemes && negb (is_empty u.(Host))
  end.

Definition validateOIDC (o : OIDCConfig) : list config_error :=
  (if is_empty o.(OIDC_IssuerURL) then [IssuerURLRequired]
   else when (negb (absolute_url ["https"] o.(OIDC_IssuerURL))) IssuerURLInvalid)
  ++ when (is_empty o.(OIDC_ClientID)) OIDCClientIDRequired
  ++ when (is_empty o.(OIDC_ClientSecretFile)) OIDCClientSecretFileRequired
  ++ when (negb (is_empty o.(OIDC_RedirectURL))
           && negb (absolute_url ["https"; "http"] o.(OIDC_RedirectURL))) OIDCRedirectURLInvalid
  ++ when (length o.(OIDC_Scopes) =? 0)%nat OIDCScopesEmpty
  ++ when (is_empty o.(OIDC_SubjectClaim)) SubjectClaimEmpty.

Definition validateOpenShift (o : OpenShiftConfig) : list config_error :=
  when (is_empty o.(OS_ClientID)) OSClientIDRequired
  ++ when (is_empty o.(OS_ClientSecretFile)) OSClientSecretFileRequired
  ++ (if is_empty o.(OS_RedirectURL) then [OSRedirectURLRequired]
      else when (negb (absolute_url ["https"; "http"] o.(OS_RedirectURL))) OSRedirectURLInvalid)
  ++ when (negb (is_empty o.(OS_DiscoveryURL))
           && negb (absolute_url ["https"; "http"] o.(OS_DiscoveryURL))) DiscoveryURLInvalid
  ++ when (negb (is_empty o.(OS_APIURL))
           && negb (absolute_url ["https"; "http"] o.(OS_APIURL))) APIURLInvalid
  ++ when (length o.(OS_Scopes) =? 0)%nat OSScopesEmpty
  ++ when (negb (is_empty o.(OS_UserInfoPath))
           && negb (HasPrefix o.(OS_UserInfoPath) "/")) UserInfoPathInvalid.

Definition validateProvider (c : Config) : list config_error :=
  let p := c.(C_Provider) in
  if (length p.(Modes) =? 0)%nat then [ModesEmpty]
  else
    let r := scan check_mode 0 ∅ p.(Modes) in
    let seen := r.2 in
    r.1
    ++ (if bool_decide (ModeOIDC ∈ seen) then
          match p.(OIDC) with None => [OIDCMissing] | Some o => validateOIDC o end
        else when (bool_decide (is_Some p.(OIDC))) OIDCUnexpected)
    ++ (if bool_decide (ModeOpenShift ∈ seen) then
          match p.(OpenShift) with None => [OpenShiftMissing] | Some o => validateOpenShift o end
        else when (bool_decide (is_Some p.(OpenShift))) OpenShiftUnexpected).

(** One turn of the loop over [Users]. *)
Definition check_user (localEnabled : bool) (i : nat) (seen : gset string) (u : User) :
    list config_error * gset string :=
  let key := lower u.(U_Subject) in
  ((if is_empty u.(U_Subject) then [SubjectRequired i]
    else when (bool_decide (key ∈ seen)) (SubjectDuplicate i u.(U_Subject)))
   ++ when (negb (Level_Valid u.(U_Level))) (UserLevelInvalid i u.(U_Level))
   ++ (if is_empty u.(U_LocalPasswordBcrypt) then []
       else if negb localEnabled then [HashWithoutLocal i]
       else when (bool_decide (bcrypt_Cost u.(U_LocalPasswordBcrypt) = None)) (HashInvalid i)),
   if is_empty u.(U_Subject) then seen else {[key]} ∪ seen).

Definition validateUsers (c : Config) : list config_error :=
  (scan (check_user (LocalEnabled c)) 0 ∅ c.(C_Users)).1.

(** One turn of the loop over [Routes]. *)
Definition check_route (i : nat) (seen : gset string) (r : RouteConfig) :
    list config_error * gset string :=
  let p := r.(PathPrefix) in
  let no_slash := is_empty p || negb (HasPrefix p "/") in
  ((if no_slash then [PathPrefixNoSlash i p]
    else when (Contains p "..") (PathPrefixDotDot i p)
         ++ when (bool_decide (p ∈ seen)) (PathPrefixDuplicate i p)
         ++ concat ((λ res, when (String.eqb p res || HasPrefix p (res +:+ "/"))
                                 (PathPrefixReserved i p res)) <$> ReservedPrefixes))
   ++ (if is_empty r.(Upstream) then [UpstreamRequired i]
       else when (negb (absolute_url ["http"; "https"] r.(Upstream))) (UpstreamInvalid i))
   ++ when (negb (Level_Valid r.(MinLevel))) (MinLevelInvalid i r.(MinLevel)),
   if no_slash then seen else {[p]} ∪ seen).

Definition validateRoutes (c : Config) : list config_error :=
  if (length c.(C_Routes) =? 0)%nat then [RoutesEmpty]
  else (scan check_route 0 ∅ c.(C_Routes)).1.

Definition Validate (c : Config) : list config_error :=
  validateSession c ++ validateServer c ++ validateProvider c
  ++ validateUsers c ++ validateRoutes c ++ validateAccessRequest c.

(** ** Warnings and loading *)

Inductive warning :=
  | NoUsers
  | RedirectNotHTTPS
  | UpstreamNotLoopback (prefix host : string).

Definition isLoopbackHost (host : string) : bool :=
  EqualFoldASCII host "localhost" || loopback_IP host.

Definition warnings (c : Config) : list warning :=
  when (length c.(C_Users) =? 0)%nat NoUsers
  ++ (match c.(C_Provider).(OIDC) with
      | Some o => when (HasPrefix o.(OIDC_RedirectURL) "http://") RedirectNotHTTPS
      | None => []
      end)
  ++ concat ((λ r, match url_Parse r.(Upstream) with
                   | Some u => when (negb (isLoopbackHost u.(Hostname)))
                                 (UpstreamNotLoopback r.(PathPrefix) u.(Hostname))
                   | None => []
                   end) <$> c.(C_Routes)).

Inductive load_error :=
  | ReadFailed
  | ParseFailed
  | Invalid (problems : list config_error).

(** [yaml] is [yaml.UnmarshalStrict] into a zero [Config], durations parsed
    by [Duration.UnmarshalJSON]. *)
Definition Parse (yaml : string → option Config) (raw : string) :
    result load_error (Config * list warning) :=
  match yaml raw with
  | None => Err ParseFailed
  | Some cfg =>
      let cfg := setDefaults cfg in
      match Validate cfg with
      | [] => Ok (cfg, warnings cfg)
      | errs => Err (Invalid errs)
      end
  end.

(** [read] is [os.ReadFile]. *)
Definition Load (yaml : string → option Config) (read : string → option string)
    (path : string) : result load_error (Config * list warning) :=
  match read path with
  | None => Err ReadFailed
  | Some raw => Parse yaml raw
  end.
End validate.

(** ** What a valid configuration is *)

(** A specification of [Validate] that mentions no loop and no error list. *)


#[export] Hint Rewrite is_empty_true is_empty_false String.eqb_eq String.eqb_neq
  Level_Valid_true @when_nil @app_nil_iff Nat.eqb_eq @length_zero_iff_nil : pgtb_bool.

Section wf.
Context `{G : GoLib}.

Definition absolute (schemes : list string) (raw : string) : Prop :=
  ∃ u, url_Parse raw = Some u ∧ u.(Scheme) ∈ schemes ∧ u.(Host) ≠ "".

Record wf_session (s : SessionConfig) : Prop := {
  wf_cookie_name : s.(CookieName) ≠ "";
  wf_cookie_token : Forall (λ r, cookie_rune r = true) (runes s.(CookieName));
  wf_some_secret : s.(CookieSecrets) ≠ [];
  wf_secret_length : Forall (λ k, (minSecretLength ≤ slen k)%nat) s.(CookieSecrets);
  wf_max_age : (0 < s.(MaxAge))%Z
}.

Record wf_server (s : ServerConfig) : Prop := {
  wf_listen : s.(Listen) ≠ "";
  wf_dial : (0 < s.(UpstreamDialTimeout))%Z;
  wf_header : (0 < s.(UpstreamResponseHeaderTimeout))%Z
}.

Record wf_oidc (o : OIDCConfig) : Prop := {
  wf_issuer : absolute ["https"] o.(OIDC_IssuerURL) ∧ o.(OIDC_IssuerURL) ≠ "";
  wf_client : o.(OIDC_ClientID) ≠ "" ∧ o.(OIDC_ClientSecretFile) ≠ "";
  wf_redirect : o.(OIDC_RedirectURL) = "" ∨ absolute ["https"; "http"] o.(OIDC_RedirectURL);
  wf_scopes : o.(OIDC_Scopes) ≠ [] ∧ o.(OIDC_SubjectClaim) ≠ ""
}.

Record wf_openshift (o : OpenShiftConfig) : Prop := {
  wf_os_client : o.(OS_ClientID) ≠ "" ∧ o.(OS_ClientSecretFile) ≠ "";
  wf_os_redirect : o.(OS_RedirectURL) ≠ "" ∧ absolute ["https"; "http"] o.(OS_RedirectURL);
  wf_os_discovery : o.(OS_DiscoveryURL) = "" ∨ absolute ["https"; "http"] o.(OS_DiscoveryURL);
  wf_os_api : o.(OS_APIURL) = "" ∨ absolute ["https"; "http"] o.(OS_APIURL);
  wf_os_scopes : o.(OS_Scopes) ≠ [];
  wf_os_path : o.(OS_UserInfoPath) = "" ∨ ∃ t, o.(OS_UserInfoPath) = "/" +:+ t
}.

(** A settings block is there exactly when its mode is enabled. *)
Record wf_provider (p : ProviderConfig) : Prop := {
  wf_some_mode : p.(Modes) ≠ [];
  wf_modes : Forall (λ m, m = ModeOIDC ∨ m = ModeLocal ∨ m = ModeOpenShift) p.(Modes);
  wf_modes_once : NoDup p.(Modes);
  wf_oidc_block : ModeOIDC ∈ p.(Modes) ↔ is_Some p.(OIDC);
  wf_oidc_ok : ∀ o, p.(OIDC) = Some o → wf_oidc o;
  wf_openshift_block : ModeOpenShift ∈ p.(Modes) ↔ is_Some p.(OpenShift);
  wf_openshift_ok : ∀ o, p.(OpenShift) = Some o → wf_openshift o
}.

Record wf_user (localEnabled : Prop) (u : User) : Prop := {
  wf_subject : u.(U_Subject) ≠ "";
  wf_level : u.(U_Level) ∈ [LevelView; LevelPowerUser; LevelDBA];
  wf_hash : u.(U_LocalPasswordBcrypt) = "" ∨
            localEnabled ∧ is_Some (bcrypt_Cost u.(U_LocalPasswordBcrypt))
}.

Record wf_route (r : RouteConfig) : Prop := {
  wf_prefix_slash : ∃ t, r.(PathPrefix) = "/" +:+ t;
  wf_prefix_dots : Index r.(PathPrefix) ".." = None;
  wf_prefix_free : ∀ res, res ∈ ReservedPrefixes →
    r.(PathPrefix) ≠ res ∧ ¬ ∃ t, r.(PathPrefix) = (res +:+ "/") +:+ t;
  wf_upstream : absolute ["http"; "https"] r.(Upstream) ∧ r.(Upstream) ≠ "";
  wf_min_level : r.(MinLevel) ∈ [LevelView; LevelPowerUser; LevelDBA]
}.

Record wf_config (c : Config) : Prop := {
  wf_c_session : wf_session c.(C_Session);
  wf_c_server : wf_server c.(C_Server);
  wf_c_provider : wf_provider c.(C_Provider);
  wf_c_users : Forall (wf_user (ModeLocal ∈ c.(C_Provider).(Modes))) c.(C_Users);
  wf_c_subjects : NoDup ((λ u, lower u.(U_Subject)) <$> c.(C_Users));
  wf_c_routes : c.(C_Routes) ≠ [] ∧ Forall wf_route c.(C_Routes);
  wf_c_prefixes : NoDup (PathPrefix <$> c.(C_Routes));
  wf_c_access : c.(C_AccessRequest).(Enabled) = true →
    c.(C_AccessRequest).(ConsoleName) ≠ "" ∧ c.(C_AccessRequest).(AR_Namespace) ≠ ""
}.

Lemma absolute_url_true schemes raw :
  absolute_url schemes raw = true ↔ absolute schemes raw.
Proof.
  unfold absolute_url, absolute. destruct (url_Parse raw) as [u|]; [|naive_solver].
  breflect. rewrite existsb_exists. setoid_rewrite String.eqb_eq.
  setoid_rewrite <-list_elem_of_In. naive_solver.
Qed.

Lemma absolute_opt schemes raw :
  negb (is_empty raw) && negb (absolute_url schemes raw) = false ↔
  raw = "" ∨ absolute schemes raw.
Proof. breflect. by rewrite absolute_url_true. Qed.

Lemma absolute_req {E} (e1 e2 : E) schemes raw :
  (if is_empty raw then [e1] else when (negb (absolute_url schemes raw)) e2) = [] ↔
  absolute schemes raw ∧ raw ≠ "".
Proof.
  case_if; breflect; rewrite ?absolute_url_true; naive_solver.
Qed.

Lemma level_elem l : l ∈ [LevelView; LevelPowerUser; LevelDBA] ↔ Level_Valid l = true.
Proof. rewrite Level_Valid_true. set_solver. Qed.

Lemma validateSession_nil c : validateSession c = [] ↔ wf_session c.(C_Session).
Proof.
  unfold validateSession. rewrite !app_nil_iff, imap_concat_nil.
  setoid_rewrite when_nil. setoid_rewrite Nat.ltb_ge.
  rewrite <-(Forall_lookup (λ k, (minSecretLength ≤ slen k)%nat)), Nat.eqb_neq, Z.leb_gt.
  rewrite length_zero_iff_nil. unfold isCookieNameValid.
  assert (forallb cookie_rune (runes (CookieName (C_Session c))) = true ↔
          Forall (λ r, cookie_rune r = true) (runes (CookieName (C_Session c)))) as Hf.
  { rewrite forallb_forall, Forall_forall. by setoid_rewrite list_elem_of_In. }
  split.
  - intros (H1 & H2 & H3 & H4). case_in H1; breflect; [done|]. constructor; naive_solver.
  - intros [H1 H2 H3 H4 H5]. split_and!; [|done..].
    case_if; breflect; [done|]. naive_solver.
Qed.

Lemma validateServer_nil c : validateServer c = [] ↔ wf_server c.(C_Server).
Proof.
  unfold validateServer. breflect. split; [intros (?&?&?); by constructor | by intros []].
Qed.

Lemma validateOIDC_nil o : validateOIDC o = [] ↔ wf_oidc o.
Proof.
  unfold validateOIDC. rewrite !app_nil_iff, absolute_req, !when_nil, absolute_opt. breflect.
  split; [intros (?&?&?&?&?&?); constructor; naive_solver | intros []; naive_solver].
Qed.

Lemma validateOpenShift_nil o : validateOpenShift o = [] ↔ wf_openshift o.
Proof.
  unfold validateOpenShift. rewrite !app_nil_iff, absolute_req, !when_nil, !absolute_opt. breflect.
  rewrite HasPrefix_true.
  split; [intros (?&?&?&?&?&?&?); constructor; naive_solver | intros []; naive_solver].
Qed.

Definition mode_key (m : string) : option string := if known_mode m then Some m else None.

Lemma known_mode_true m :
  known_mode m = true ↔ m = ModeOIDC ∨ m = ModeLocal ∨ m = ModeOpenShift.
Proof. unfold known_mode. breflect. naive_solver. Qed.

Lemma check_mode_out i s m :
  (check_mode i s m).1 = [] ↔ known_mode m = true ∧ (∀ k, mode_key m = Some k → k ∉ s).
Proof. unfold check_mode, mode_key. destruct (known_mode m); simpl; breflect; naive_solver. Qed.

Lemma check_mode_seen i s m :
  (check_mode i s m).2 = from_option (λ k, {[k]} ∪ s) s (mode_key m).
Proof. unfold check_mode, mode_key. by destruct (known_mode m). Qed.

Lemma mode_keys (ms : list string) : Forall (λ m, known_mode m = true) ms → omap mode_key ms = ms.
Proof.
  induction 1 as [|m ms Hm _ IH]; [done|]. simpl. unfold mode_key at 1. rewrite Hm.
  by f_equal.
Qed.

Lemma mode_keys_elem (ms : list string) m : known_mode m = true → m ∈ omap mode_key ms ↔ m ∈ ms.
Proof.
  intros Hm. rewrite list_elem_of_omap. unfold mode_key. split.
  - intros (x & Hx & H). destruct (known_mode x); by simplify_eq.
  - intros H. exists m. by rewrite Hm.
Qed.

(** Both blocks follow the same rule. *)
Lemma block_nil {A} (m : string) seen (o : option A) v (e1 e2 : config_error) (wf : A → Prop) :
  (∀ x, v x = [] ↔ wf x) →
  (if bool_decide (m ∈ seen) then match o with None => [e1] | Some x => v x end
   else when (bool_decide (is_Some o)) e2) = [] ↔
  ((m ∈ (seen : gset string)) ↔ is_Some o) ∧ ∀ x, o = Some x → wf x.
Proof.
  intros Hv. case_bool_decide; destruct o as [x|]; breflect; rewrite ?Hv; naive_solver.
Qed.

Lemma validateProvider_nil c : validateProvider c = [] ↔ wf_provider c.(C_Provider).
Proof.
  unfold validateProvider. destruct (Nat.eqb_spec (length (Modes (C_Provider c))) 0) as [H0|H0].
  - apply length_zero_iff_nil in H0. split; [done|]. by intros [].
  - rewrite !app_nil_iff, (block_nil _ _ _ _ _ _ wf_oidc validateOIDC_nil),
      (block_nil _ _ _ _ _ _ wf_openshift validateOpenShift_nil).
    rewrite (scan_keys_seen _ _ check_mode_seen), (scan_nil _ _ _ check_mode_out check_mode_seen).
    rewrite !elem_of_list_to_set, !mode_keys_elem by done. split.
    + intros ((H1 & H2) & [H3 H4] & [H5 H6]). rewrite mode_keys in H2 by done.
      constructor; try done; [by rewrite <-length_zero_iff_nil|].
      eapply Forall_impl; [exact H1|]. intros m. by rewrite known_mode_true.
    + intros [H1 H2 H3 H4 H5 H6 H7].
      assert (Forall (λ m, known_mode m = true) (Modes (C_Provider c))).
      { eapply Forall_impl; [exact H2|]. intros m. by rewrite known_mode_true. }
      rewrite mode_keys by done. naive_solver.
Qed.

Definition user_key (u : User) : option string :=
  if is_empty u.(U_Subject) then None else Some (lower u.(U_Subject)).

Lemma LocalEnabled_true c : LocalEnabled c = true ↔ ModeLocal ∈ c.(C_Provider).(Modes).
Proof.
  unfold LocalEnabled. rewrite existsb_exists. setoid_rewrite String.eqb_eq.
  setoid_rewrite <-list_elem_of_In. naive_solver.
Qed.

Lemma check_user_out b i s u :
  (check_user b i s u).1 = [] ↔ wf_user (b = true) u ∧ (∀ k, user_key u = Some k → k ∉ s).
Proof.
  unfold check_user, user_key. cbn [fst]. rewrite !app_nil_iff, when_nil, negb_false, <-level_elem.
  assert ((if is_empty (U_LocalPasswordBcrypt u) then []
           else if negb b then [HashWithoutLocal i]
           else when (bool_decide (bcrypt_Cost (U_LocalPasswordBcrypt u) = None)) (HashInvalid i)) = []
          ↔ U_LocalPasswordBcrypt u = "" ∨ b = true ∧ is_Some (bcrypt_Cost (U_LocalPasswordBcrypt u)))
    as ->.
  { rewrite <-not_eq_None_Some. destruct (is_empty _) eqn:?, b; simpl; breflect; naive_solver. }
  destruct (is_empty (U_Subject u)) eqn:He; breflect.
  - split; [naive_solver|]. by intros [[] _].
  - split.
    + intros (H1 & H2 & H3). split; [by constructor | naive_solver].
    + intros [[] H]. auto.
Qed.

Lemma check_user_seen b i s u :
  (check_user b i s u).2 = from_option (λ k, {[k]} ∪ s) s (user_key u).
Proof. unfold check_user, user_key. simpl. by case_if. Qed.

Lemma user_keys P us : Forall (wf_user P) us →
  omap user_key us = (λ u, lower u.(U_Subject)) <$> us.
Proof.
  induction 1 as [|u us Hu _ IH]; [done|]. cbn [omap list_omap]. unfold user_key at 1.
  destruct Hu as [Hs _ _]. apply is_empty_false in Hs. rewrite Hs. cbn [fmap list_fmap].
  f_equal. exact IH.
Qed.

Lemma wf_user_iff P Q u : (P ↔ Q) → wf_user P u ↔ wf_user Q u.
Proof. intros H. split; intros [? ? Hh]; (constructor; [done..|]); naive_solver. Qed.

Lemma validateUsers_nil c :
  validateUsers c = [] ↔
  Forall (wf_user (ModeLocal ∈ c.(C_Provider).(Modes))) c.(C_Users) ∧
  NoDup ((λ u, lower u.(U_Subject)) <$> c.(C_Users)).
Proof.
  unfold validateUsers. rewrite (scan_nil _ _ _ (check_user_out _) (check_user_seen _)).
  rewrite (Forall_iff _ _ (wf_user (ModeLocal ∈ c.(C_Provider).(Modes))))
    by (intros u; by apply wf_user_iff, LocalEnabled_true).
  split; (intros [H1 H2]; split; [done|]).
  - by rewrite <-(user_keys _ _ H1).
  - by rewrite (user_keys _ _ H1).
Qed.

Definition route_key (r : RouteConfig) : option string :=
  if is_empty r.(PathPrefix) || negb (HasPrefix r.(PathPrefix) "/") then None
  else Some r.(PathPrefix).

Lemma slash_prefix s :
  is_empty s || negb (HasPrefix s "/") = false ↔ ∃ t, s = "/" +:+ t.
Proof. breflect. rewrite HasPrefix_true. naive_solver. Qed.

Lemma concat_fmap_when {A E} (p : A → bool) (f : A → E) (l : list A) :
  concat ((λ x, when (p x) (f x)) <$> l) = [] ↔ ∀ x, x ∈ l → p x = false.
Proof.
  induction l as [|x l IH]; simpl; [split; [by intros _ x ?%not_elem_of_nil|done]|].
  rewrite app_nil_iff, when_nil, IH. setoid_rewrite elem_of_cons. naive_solver.
Qed.

Lemma check_route_out i s r :
  (check_route i s r).1 = [] ↔ wf_route r ∧ (∀ k, route_key r = Some k → k ∉ s).
Proof.
  unfold check_route, route_key. cbn [fst].
  rewrite !app_nil_iff, absolute_req, when_nil, negb_false, <-level_elem.
  destruct (is_empty (PathPrefix r) || negb (HasPrefix (PathPrefix r) "/")) eqn:He.
  - split; [naive_solver|]. intros [[Hs%slash_prefix _ _ _ _] _]. congruence.
  - rewrite !app_nil_iff, concat_fmap_when, !when_nil. apply slash_prefix in He.
    unfold Contains. rewrite !bool_decide_eq_false.
    assert ((∀ res, res ∈ ReservedPrefixes →
              (PathPrefix r =? res)%string || HasPrefix (PathPrefix r) (res +:+ "/") = false)
            ↔ (∀ res, res ∈ ReservedPrefixes →
              r.(PathPrefix) ≠ res ∧ ¬ ∃ t, r.(PathPrefix) = (res +:+ "/") +:+ t)) as ->.
    { apply forall_proper; intros res. apply imp_iff_compat_l.
      by rewrite orb_false_iff, String.eqb_neq, <-HasPrefix_true, not_true_iff_false. }
    split.
    + intros ((H1 & H2 & H3) & H4 & H5). split; [|naive_solver].
      constructor; [done|..|done|done|done]. by destruct (Index _ _); [destruct H1|].
    + intros [[H1 H2 H3 H4 H5] H]. rewrite H2. split_and!; try apply is_Some_None; naive_solver.
Qed.

Lemma check_route_seen i s r :
  (check_route i s r).2 = from_option (λ k, {[k]} ∪ s) s (route_key r).
Proof. unfold check_route, route_key. cbn [snd]. by case_if. Qed.

Lemma route_keys rs : Forall wf_route rs → omap route_key rs = PathPrefix <$> rs.
Proof.
  induction 1 as [|r rs Hr _ IH]; [done|]. cbn [omap list_omap]. unfold route_key at 1.
  destruct Hr as [Hs _ _ _ _]. apply slash_prefix in Hs. rewrite Hs. cbn [fmap list_fmap].
  f_equal. exact IH.
Qed.

Lemma validateRoutes_nil c :
  validateRoutes c = [] ↔
  (c.(C_Routes) ≠ [] ∧ Forall wf_route c.(C_Routes)) ∧ NoDup (PathPrefix <$> c.(C_Routes)).
Proof.
  unfold validateRoutes. destruct (Nat.eqb_spec (length (C_Routes c)) 0) as [H0|H0];
    rewrite length_zero_iff_nil in H0; [naive_solver|].
  rewrite (scan_nil _ _ _ check_route_out check_route_seen).
  split; [intros [H1 H2] | intros [[_ H1] H2]].
  - by rewrite (route_keys _ H1) in H2.
  - by rewrite (route_keys _ H1).
Qed.

Lemma validateAccessRequest_nil c :
  validateAccessRequest c = [] ↔
  (c.(C_AccessRequest).(Enabled) = true →
   c.(C_AccessRequest).(ConsoleName) ≠ "" ∧ c.(C_AccessRequest).(AR_Namespace) ≠ "").
Proof.
  unfold validateAccessRequest. destruct (Enabled (C_AccessRequest c)); simpl; breflect.
  - split; [done|]. intros H. by apply H.
  - done.
Qed.

Lemma Validate_nil c : Validate c = [] ↔ wf_config c.
Proof.
  unfold Validate. rewrite !app_nil_iff, validateSession_nil, validateServer_nil,
    validateProvider_nil, validateUsers_nil, validateRoutes_nil, validateAccessRequest_nil.
  split; [intros (?&?&?&[]&[]&?); by constructor | intros []; naive_solver].
Qed.

(** ** Defaults *)

Lemma or_default_idemp s d : or_default (or_default s d) d = or_default s d.
Proof. unfold or_default. repeat case_if; breflect; congruence. Qed.
Lemma or_default_dur_idemp x d : or_default_dur (or_default_dur x d) d = or_default_dur x d.
Proof. unfold or_default_dur. repeat case_if; breflect; congruence. Qed.
Lemma or_default_list_idemp {A} (l d : list A) :
  or_default_list (or_default_list l d) d = or_default_list l d.
Proof. by destruct l, d. Qed.

Lemma setDefaults_idemp_aux c : setDefaults (setDefaults c) = setDefaults c.
Proof.
  destruct c as [s sv [ms o os] us rs a]. unfold setDefaults, default_session, default_server. simpl.
  rewrite !or_default_idemp, !or_default_dur_idemp. f_equal.
  - f_equal; [destruct o as [x|] | destruct os as [x|]]; [|done| |done]; simpl; f_equal;
      [unfold default_oidc | unfold default_openshift]; simpl;
      by rewrite or_default_list_idemp, or_default_idemp.
  - rewrite <-list_fmap_compose. apply list_fmap_ext. intros i r _. simpl.
    unfold default_route. simpl. by rewrite or_default_idemp.
Qed.

Lemma Parse_Ok yaml raw c ws :
  Parse yaml raw = Ok (c, ws) ↔
  ∃ c0, yaml raw = Some c0 ∧ c = setDefaults c0 ∧ wf_config c ∧ ws = warnings c.
Proof.
  unfold Parse. destruct (yaml raw) as [c0|]; [|naive_solver].
  destruct (Validate (setDefaults c0)) eqn:Hv.
  { apply Validate_nil in Hv. split; [intros [= <- <-]; eauto | by intros (? & [= ->] & -> & _ & ->)]. }
  split; [done|]. intros (? & [= ->] & -> & H%Validate_nil & _). congruence.
Qed.
End wf.

(** Which parts of a configuration its problems may depend on: two
    configurations that differ only in the text of cookie secrets of equal
    length and of password hashes of equal validity. *)
Section secrets.
Context `{G : GoLib}.

Definition same_hash_shape (u v : User) : Prop :=
  u.(U_Subject) = v.(U_Subject) ∧ u.(U_Level) = v.(U_Level) ∧
  (u.(U_LocalPasswordBcrypt) = "" ↔ v.(U_LocalPasswordBcrypt) = "") ∧
  (bcrypt_Cost u.(U_LocalPasswordBcrypt) = None ↔ bcrypt_Cost v.(U_LocalPasswordBcrypt) = None).

Record same_public (c d : Config) : Prop := {
  sp_secrets : slen <$> c.(C_Session).(CookieSecrets) = slen <$> d.(C_Session).(CookieSecrets);
  sp_session : c.(C_Session).(CookieName) = d.(C_Session).(CookieName) ∧
               c.(C_Session).(MaxAge) = d.(C_Session).(MaxAge) ∧
               c.(C_Session).(Secure) = d.(C_Session).(Secure);
  sp_server : c.(C_Server) = d.(C_Server);
  sp_provider : c.(C_Provider) = d.(C_Provider);
  sp_users : Forall2 same_hash_shape c.(C_Users) d.(C_Users);
  sp_routes : c.(C_Routes) = d.(C_Routes);
  sp_access : c.(C_AccessRequest) = d.(C_AccessRequest)
}.

Lemma check_user_shape b i s u v :
  same_hash_shape u v → check_user b i s u = check_user b i s v.
Proof.
  intros (Hs & Hl & He & Hc). unfold check_user. rewrite Hs, Hl.
  replace (is_empty (U_LocalPasswordBcrypt u)) with (is_empty (U_LocalPasswordBcrypt v))
    by (apply Bool.eq_iff_eq_true; rewrite !is_empty_true; tauto).
  by rewrite (bool_decide_ext _ _ Hc).
Qed.

Lemma scan_Forall2 {A B S} (R : A → A → Prop) (f : nat → S → A → list B * S) l k :
  (∀ i s x y, R x y → f i s x = f i s y) → Forall2 R l k → ∀ i s, scan f i s l = scan f i s k.
Proof.
  intros Hf. induction 1 as [|x y l k Hxy _ IH]; intros i s; [done|]. cbn [scan].
  by rewrite (Hf _ _ _ _ Hxy), IH.
Qed.

Lemma secret_lengths (ks ls : list string) (g : nat → nat → list config_error) :
  slen <$> ks = slen <$> ls → imap (λ i k, g i (slen k)) ks = imap (λ i k, g i (slen k)) ls.
Proof.
  revert ls g. induction ks as [|k ks IH]; intros [|l ls] g; try done. simpl.
  intros [= -> H]. f_equal. by apply (IH _ (λ i, g (S i))).
Qed.

Lemma same_public_Validate c d : same_public c d → Validate c = Validate d.
Proof.
  intros [Hk (Hn & Hm & _) Hsv Hp Hu Hr Ha]. unfold Validate. f_equal; [|f_equal; [|f_equal; [|f_equal]]].
  - unfold validateSession. rewrite Hn, Hm.
    rewrite (secret_lengths _ _ (λ i n, when (n <? minSecretLength)%nat (CookieSecretShort i)) Hk).
    apply (f_equal length) in Hk. rewrite !length_fmap in Hk. by rewrite Hk.
  - unfold validateServer. by rewrite Hsv.
  - unfold validateProvider. by rewrite Hp.
  - unfold validateUsers, LocalEnabled. rewrite Hp. f_equal.
    eapply scan_Forall2, Hu. intros. by apply check_user_shape.
  - unfold validateRoutes, validateAccessRequest. by rewrite Hr, Ha.
Qed.

Lemma same_public_warnings c d : same_public c d → warnings c = warnings d.
Proof.
  intros [_ _ _ Hp Hu Hr _]. unfold warnings. rewrite Hp, Hr.
  by rewrite (Forall2_length _ _ _ Hu).
Qed.
End secrets.

(** ** Theorems *)

Section theorems.
Context `{G : GoLib}.

(** C1: [Validate] reports no problem exactly for the configurations that
    satisfy the declarative specification [wf_config]: every required field
    set, every URL absolute, provider blocks present exactly when their mode
    is enabled, subjects distinct up to case, levels known, hashes only with
    local accounts, route prefixes absolute, distinct and off the reserved
    paths. *)
Theorem Validate_accepts_iff c : Validate c = [] ↔ wf_config c.
Proof. apply Validate_nil. Qed.

(** A configuration that [Parse] returns is the file's content with its
    defaults, is well formed, is a fixed point of [setDefaults], and comes
    with exactly its warnings; a file [Parse] refuses as invalid is one whose
    defaulted content is not well formed. *)
Theorem Parse_sound yaml raw :
  (∀ c ws, Parse yaml raw = Ok (c, ws) →
     (∃ c0, yaml raw = Some c0 ∧ c = setDefaults c0) ∧
     wf_config c ∧ setDefaults c = c ∧ ws = warnings c) ∧
  (∀ errs, Parse yaml raw = Err (Invalid errs) →
     ∃ c0, yaml raw = Some c0 ∧ ¬ wf_config (setDefaults c0) ∧ errs = Validate (setDefaults c0)).
Proof.
  split.
  - intros c ws (c0 & H0 & -> & Hwf & ->)%Parse_Ok.
    split_and!; [by exists c0|done|apply setDefaults_idemp_aux|done].
  - intros errs. unfold Parse. destruct (yaml raw) as [c0|]; [|done].
    destruct (Validate (setDefaults c0)) eqn:Hv; [done|]. intros [= <-].
    exists c0. split_and!; [done| |done]. rewrite <-Validate_nil. by rewrite Hv.
Qed.

(** No problem and no warning depends on the text of a cookie secret or
    of a password hash: configurations that differ only there (same secret
    lengths, hashes equally absent and equally well formed) produce the same
    messages. *)
Theorem Validate_reveals_no_secret c d :
  same_public c d → Validate c = Validate d ∧ warnings c = warnings d.
Proof. intros H. split; [by apply same_public_Validate | by apply same_public_warnings]. Qed.
End theorems.

(** A small configuration with a local administrator, as the operator renders
    it, used by the witnesses of several files. *)
Definition demo_secret : string := "0123456789abcdef0123456789abcdef".

Definition demo_file (secret hash : string) : Config :=
  mkConfig (mkSessionConfig "" [secret] 0 None) (mkServerConfig "" 0 0)
    (mkProviderConfig [ModeLocal] None None)
    [mkUser "admin" LevelDBA hash; mkUser "bob" LevelView ""]
    [mkRouteConfig "/" "http://127.0.0.1:3000" ""; mkRouteConfig "/pgadmin" "http://127.0.0.1:5050" LevelDBA]
    (mkAccessRequestConfig true "console" "ns").

Definition demo_yaml (raw : string) : option Config :=
  if String.eqb raw "demo" then Some (demo_file demo_secret "$2a$pw")
  else if String.eqb raw "short" then Some (demo_file "short" "$2a$pw") else None.

Definition demo_config : Config := setDefaults (demo_file demo_secret "$2a$pw").

Lemma Parse_sound_witness :
  (∃ ws, Parse demo_yaml "demo" = Ok (demo_config, ws) ∧ wf_config demo_config) ∧
  Parse demo_yaml "short" = Err (Invalid [CookieSecretShort 0]) ∧
  ¬ wf_config (setDefaults (demo_file "short" "$2a$pw")).
Proof.
  assert (Parse demo_yaml "demo" = Ok (demo_config, [])) as H1 by (vm_compute; reflexivity).
  assert (Parse demo_yaml "short" = Err (Invalid [CookieSecretShort 0])) as H2
    by (vm_compute; reflexivity).
  split_and!.
  - exists []. split; [exact H1|]. apply (proj1 (Parse_sound demo_yaml "demo") _ _ H1).
  - exact H2.
  - destruct (proj2 (Parse_sound demo_yaml "short") _ H2) as (c0 & Hc & Hn & _).
    injection Hc as <-. exact Hn.
Defined.

Lemma Validate_reveals_no_secret_witness :
  Validate (setDefaults (demo_file "aaaaaaaaaaaaaaaa" "$2a$x")) =
  Validate (setDefaults (demo_file "bbbbbbbbbbbbbbbb" "$2a$y")).
Proof.
  apply Validate_reveals_no_secret. constructor; try reflexivity; [by split_and!|].
  repeat constructor; intros H; discriminate H.
Defined.
