(* ===== verification/Http.v ===== *)
(** * The part of [net/http] the proxy's handlers use

    Headers with canonical keys, cookies, the request a handler receives, the
    response it writes, and the forwarding headers [httputil.ReverseProxy]
    derives. A request is what [net/http] hands to the handler: its cookies,
    query and form already split; [Form] is [None] when [ParseForm] fails. *)

From S2P Require Import Prelude GoUtf8 GoStrings GoLib.

Module Method.
Definition Get : string := "GET".
Definition Post : string := "POST".
End Method.

Module Status.
Definition OK : Z := 200.
Definition Found : Z := 302.
Definition BadRequest : Z := 400.
Definition Unauthorized : Z := 401.
Definition Forbidden : Z := 403.
Definition NotFound : Z := 404.
Definition TooManyRequests : Z := 429.
Definition InternalServerError : Z := 500.
Definition BadGateway : Z := 502.
End Status.

(** [http.StatusText] of the codes above. *)
Definition StatusText (code : Z) : string :=
  if (code =? 200)%Z then "OK"
  else if (code =? 302)%Z then "Found"
  else if (code =? 400)%Z then "Bad Request"
  else if (code =? 401)%Z then "Unauthorized"
  else if (code =? 403)%Z then "Forbidden"
  else if (code =? 404)%Z then "Not Found"
  else if (code =? 429)%Z then "Too Many Requests"
  else if (code =? 500)%Z then "Internal Server Error"
  else if (code =? 502)%Z then "Bad Gateway"
  else "".

(** ** Headers *)

(** [textproto.validHeaderFieldByte]: the bytes of an HTTP token. *)
Definition token_byte (a : ascii) : bool :=
  let x := byteZ a in
  between 48 57 x || between 65 90 x || between 97 122 x || in_string a "!#$%&'*+-.^_`|~".

Definition upper_byte (a : ascii) : ascii :=
  if between 97 122 (byteZ a) then Zbyte (byteZ a - 32) else a.
Definition lower_byte (a : ascii) : ascii :=
  if between 65 90 (byteZ a) then Zbyte (byteZ a + 32) else a.

Fixpoint canonical_go (upper : bool) (s : string) : string :=
  match s with
  | EmptyString => EmptyString
  | String a s =>
      String (if upper then upper_byte a else lower_byte a) (canonical_go (Ascii.eqb a "-") s)
  end.

(** [http.CanonicalHeaderKey]. *)
Definition CanonicalHeaderKey (s : string) : string :=
  if all_bytes token_byte s then canonical_go true s else s.

Abbreviation Header := (gmap string (list string)).

Definition Header_Get (h : Header) (k : string) : string :=
  match h !! CanonicalHeaderKey k with Some (v :: _) => v | _ => "" end.
Definition Header_Set (k v : string) (h : Header) : Header :=
  <[CanonicalHeaderKey k := [v]]> h.
Definition Header_Del (k : string) (h : Header) : Header :=
  delete (CanonicalHeaderKey k) h.

(** ** Requests and responses *)

Record Request := mkRequest {
  R_Method : string;
  R_Path : string;           (** [r.URL.Path] *)
  R_RequestURI : string;     (** [r.URL.RequestURI()] *)
  R_Host : string;
  R_TLS : bool;
  R_RemoteAddr : string;
  R_Header : Header;
  R_Cookies : list (string * string);
  R_Query : list (string * string);
  R_Form : option (list (string * string))
}.

Definition value_of (k : string) (l : list (string * string)) : string :=
  from_option snd "" (first_such (λ p, String.eqb p.1 k) l).

(** [r.URL.Query().Get(k)]. *)
Definition Query_Get (r : Request) (k : string) : string := value_of k r.(R_Query).

(** [r.Cookie(name)]: the first cookie of that name. *)
Definition Request_Cookie (r : Request) (name : string) : option string :=
  if String.eqb name "" then None
  else snd <$> first_such (λ p, String.eqb p.1 name) r.(R_Cookies).

Record Cookie := mkCookie {
  K_Name : string;
  K_Value : string;
  K_Path : string;
  K_MaxAge : Z;
  K_HttpOnly : bool;
  K_Secure : bool;
  K_SameSiteLax : bool
}.

(** What a handler wrote: the status once [WriteHeader] was called, the
    cookies, the URL given to [http.Redirect], and the body. *)
Record Response := mkResponse {
  W_Status : option Z;
  W_Header : Header;
  W_Cookies : list Cookie;
  W_Redirect : option string;
  W_Body : string
}.

Definition new_response : Response := mkResponse None ∅ [] None "".

(** Headers set once the status went out are not sent. *)
Definition set_header (k v : string) (w : Response) : Response :=
  match w.(W_Status) with
  | Some _ => w
  | None => mkResponse None (Header_Set k v w.(W_Header)) w.(W_Cookies) w.(W_Redirect) w.(W_Body)
  end.

(** The first status wins. *)
Definition WriteHeader (code : Z) (w : Response) : Response :=
  match w.(W_Status) with
  | Some _ => w
  | None => mkResponse (Some code) w.(W_Header) w.(W_Cookies) w.(W_Redirect) w.(W_Body)
  end.

Definition write_body (b : string) (w : Response) : Response :=
  let w := WriteHeader Status.OK w in
  mkResponse w.(W_Status) w.(W_Header) w.(W_Cookies) w.(W_Redirect) (w.(W_Body) +:+ b).

(** [http.SetCookie] drops a cookie whose name is not a token. *)
Definition cookie_name_ok (n : string) : bool :=
  negb (String.eqb n "") && all_bytes token_byte n.

Definition SetCookie (k : Cookie) (w : Response) : Response :=
  match w.(W_Status) with
  | Some _ => w
  | None =>
      if cookie_name_ok k.(K_Name) then
        mkResponse None w.(W_Header) (w.(W_Cookies) ++ [k]) w.(W_Redirect) w.(W_Body)
      else w
  end.

(** [http.Redirect(w, r, url, code)]; [net/http] cleans the path of a relative
    [url] and escapes it before it becomes the [Location]. *)
Definition Redirect (url : string) (code : Z) (w : Response) : Response :=
  match w.(W_Status) with
  | Some _ => w
  | None => mkResponse (Some code) w.(W_Header) w.(W_Cookies) (Some url) w.(W_Body)
  end.

(** ** [net.SplitHostPort] *)

Definition SplitHostPort (hostport : string) : option (string * string) :=
  match LastIndex hostport ":" with
  | None => None
  | Some i =>
      let port := drop_str (i + 1) hostport in
      match hostport with
      | String "[" _ =>
          match Index hostport "]" with
          | None => None
          | Some stop =>
              if negb (stop + 1 =? i)%nat then None
              else if Contains (drop_str 1 hostport) "[" then None
              else if Contains (drop_str (stop + 1) hostport) "]" then None
              else Some (take_str (stop - 1) (drop_str 1 hostport), port)
          end
      | _ =>
          let host := take_str i hostport in
          if Contains host ":" then None
          else if Contains hostport "[" || Contains hostport "]" then None
          else Some (host, port)
      end
  end.

Example SplitHostPort_v4 : SplitHostPort "10.0.0.7:4242" = Some ("10.0.0.7", "4242").
Proof. reflexivity. Qed.
Example SplitHostPort_v6 : SplitHostPort "[::1]:80" = Some ("::1", "80").
Proof. reflexivity. Qed.
Example SplitHostPort_bare : SplitHostPort "::1" = None.
Proof. reflexivity. Qed.

(** ** [httputil.ReverseProxy] with a [Rewrite] function *)

Record OutRequest := mkOutRequest {
  O_Target : URL;        (** where [SetURL] points the request *)
  O_Host : string;
  O_Path : string;
  O_Header : Header
}.

(** The headers the proxy drops before it calls [Rewrite]. *)
Definition forwarding_headers : list string :=
  ["Forwarded"; "X-Forwarded-For"; "X-Forwarded-Host"; "X-Forwarded-Proto"].

Definition del_all (ks : list string) (h : Header) : Header := foldr Header_Del h ks.

(** The hop-by-hop headers, dropped with those [Connection] names. Protocol
    upgrades and [TE: trailers], which the proxy restores, are left out. *)
Definition hop_headers : list string :=
  ["Connection"; "Proxy-Connection"; "Keep-Alive"; "Proxy-Authenticate";
   "Proxy-Authorization"; "Te"; "Trailer"; "Transfer-Encoding"; "Upgrade"].

Definition connection_headers (h : Header) : list string :=
  base.filter (λ k, k ≠ "")
    (TrimSpace <$> (default [] (h !! "Connection") ≫= λ v, Split v ",")).

(** The outbound headers [Rewrite] starts from. *)
Definition outbound_header (h : Header) : Header :=
  del_all forwarding_headers (del_all hop_headers (del_all (connection_headers h) h)).

(** [ProxyRequest.SetXForwarded]. *)
Definition SetXForwarded (r : Request) (h : Header) : Header :=
  let h :=
    match SplitHostPort r.(R_RemoteAddr) with
    | Some (ip, _) =>
        Header_Set "X-Forwarded-For"
          (match h !! "X-Forwarded-For" with
           | Some (x :: l) => Join (x :: l) ", " +:+ ", " +:+ ip
           | _ => ip
           end) h
    | None => Header_Del "X-Forwarded-For" h
    end in
  let h := Header_Set "X-Forwarded-Host" r.(R_Host) h in
  Header_Set "X-Forwarded-Proto" (if r.(R_TLS) then "https" else "http") h.

(** ** Lemmas *)

Lemma Header_Set_lookup k v h : Header_Set k v h !! CanonicalHeaderKey k = Some [v].
Proof. apply lookup_insert_eq. Qed.

Lemma Header_Del_lookup k h : Header_Del k h !! CanonicalHeaderKey k = None.
Proof. apply lookup_delete_eq. Qed.

Lemma Header_Set_lookup_ne k v h k' :
  CanonicalHeaderKey k ≠ k' → Header_Set k v h !! k' = h !! k'.
Proof. apply lookup_insert_ne. Qed.

Lemma Header_Del_lookup_ne k h k' : CanonicalHeaderKey k ≠ k' → Header_Del k h !! k' = h !! k'.
Proof. apply lookup_delete_ne. Qed.

Lemma del_all_lookup ks h k : k ∈ CanonicalHeaderKey <$> ks → del_all ks h !! k = None.
Proof.
  induction ks as [|k' ks IH]; [by intros ?%not_elem_of_nil|]. cbn [fmap list_fmap del_all foldr].
  destruct (decide (CanonicalHeaderKey k' = k)) as [<-|Hne]; intros Hk.
  - apply Header_Del_lookup.
  - rewrite Header_Del_lookup_ne by done. apply IH. set_solver.
Qed.

Lemma del_all_lookup_ne ks h k : k ∉ CanonicalHeaderKey <$> ks → del_all ks h !! k = h !! k.
Proof.
  induction ks as [|k' ks IH]; [done|]. cbn [fmap list_fmap del_all foldr].
  rewrite not_elem_of_cons. intros [Hne Hk]. rewrite Header_Del_lookup_ne by done. by apply IH.
Qed.
