(* ===== verification/Session.v ===== *)
(** * Sealed session cookies ([internal/proxy/session])

    The codec with its keys, sealing and opening of payloads, session
    validity, the session cookie and the CSRF token of the access-request
    form. The clock and the random bytes are arguments. *)

From S2P Require Import Prelude GoUtf8 GoStrings GoBytes GoLib ProxyConfig Http.

Record Data := mkData {
  Subject : string;
  Level : string;
  Expiry : Z;
  ProviderMode : string
}.

#[export] Instance Data_eq_dec : EqDecision Data.
Proof. solve_decision. Defined.

Definition zero_Data : Data := mkData "" "" 0 "".

(** The members [json.Marshal] writes for [Data], and how they are read. *)
Definition Data_obj (d : Data) : JObj :=
  [("sub", JStr d.(Subject)); ("lvl", JStr d.(Level)); ("exp", JNum d.(Expiry));
   ("prv", JStr d.(ProviderMode))].

Definition Data_of_obj (o : JObj) : option Data :=
  s ← json_string o "sub"; l ← json_string o "lvl"; e ← json_int64 o "exp";
  p ← json_string o "prv"; Some (mkData s l e p).

(** [keys] is never empty in a codec that [NewCodec] returned. *)
Record Codec := mkCodec { keys : list string }.

Definition key0 (c : Codec) : string := default "" (head c.(keys)).

Inductive session_error :=
  | NoSecrets
  | SecretEmpty (i : nat)
  | BadKey
  | NotBase64
  | TooShort
  | NotJSON
  | NotDecryptable
  | NoCookie
  | ExpiredOrEmpty.

(** A [time.Time] is nanoseconds since the Unix epoch. *)
Abbreviation Time := Z (only parsing).
Definition Unix (t : Time) : Z := t / Second.

(** The sizes [aes.NewCipher] accepts. *)
Definition aes_key_ok (k : string) : bool :=
  (slen k =? 16)%nat || (slen k =? 24)%nat || (slen k =? 32)%nat.

Section session.
Context `{G : GoLib}.

Fixpoint derive_keys (i : nat) (secrets : list string) : result session_error (list string) :=
  match secrets with
  | [] => Ok []
  | s :: secrets =>
      if String.eqb s "" then Err (SecretEmpty i)
      else ks ← derive_keys (S i) secrets; Ok (sha256_Sum256 s :: ks)
  end.

Definition NewCodec (secrets : list string) : result session_error Codec :=
  match secrets with
  | [] => Err NoSecrets
  | _ => ks ← derive_keys 0 secrets; Ok (mkCodec ks)
  end.

Definition KeyCount (c : Codec) : nat := length c.(keys).

(** [nonce] is what [rand.Read] put into the nonce buffer. *)
Definition Seal (c : Codec) (nonce : string) (v : JObj) : result session_error string :=
  if aes_key_ok (key0 c) then
    Ok (RawURL_EncodeToString (nonce +:+ gcm_Seal (key0 c) nonce (json_Marshal v)))
  else Err BadKey.

(** The loop over the keys of [Open]; [of_obj] decodes into the target. *)
Fixpoint try_keys {A} (of_obj : JObj → option A) (ks : list string) (raw : string) :
    result session_error A :=
  match ks with
  | [] => Err NotDecryptable
  | k :: ks =>
      if negb (aes_key_ok k) then Err BadKey
      else if (slen raw <? NonceSize)%nat then Err TooShort
      else
        match gcm_Open k (take_str NonceSize raw) (drop_str NonceSize raw) with
        | None => try_keys of_obj ks raw
        | Some plain => result_of_option NotJSON (json_Unmarshal plain ≫= of_obj)
        end
  end.

Definition Open {A} (c : Codec) (of_obj : JObj → option A) (s : string) :
    result session_error A :=
  match RawURL_DecodeString s with
  | None => Err NotBase64
  | Some raw => try_keys of_obj c.(keys) raw
  end.

Definition NewData (now : Time) (subject level mode : string) (maxAge : Duration) : Data :=
  mkData subject level (Unix (now + maxAge)) mode.

Definition Valid (now : Time) (d : Data) : bool :=
  negb (is_empty d.(Subject)) && (Unix now <? d.(Expiry))%Z.

(** [int(maxAge.Seconds())]: truncation, exact for whole seconds. *)
Definition seconds (d : Duration) : Z := Z.quot d Second.

Definition session_cookie (name value : string) (secure : bool) (maxAge : Z) : Cookie :=
  mkCookie name value "/" maxAge true secure true.

(** [Codec.SetCookie]. *)
Definition SetSessionCookie (c : Codec) (nonce name : string) (secure : bool)
    (maxAge : Duration) (d : Data) (w : Response) : result session_error Response :=
  v ← Seal c nonce (Data_obj d);
  Ok (SetCookie (session_cookie name v secure (seconds maxAge)) w).

Definition ReadCookie (c : Codec) (now : Time) (r : Request) (name : string) :
    result session_error Data :=
  match Request_Cookie r name with
  | None => Err NoCookie
  | Some v =>
      d ← Open c Data_of_obj v;
      if Valid now d then Ok d else Err ExpiredOrEmpty
  end.

Definition ClearCookie (name : string) (secure : bool) (w : Response) : Response :=
  SetCookie (session_cookie name "" secure (-1)) w.

Definition CSRFToken (c : Codec) (d : Data) : string :=
  hex_EncodeToString (hmac_SHA256 (key0 c) (d.(Subject) +:+ "|" +:+ Itoa d.(Expiry))).

Definition ValidCSRF (c : Codec) (d : Data) (token : string) : bool :=
  match hex_DecodeString (CSRFToken c d), hex_DecodeString token with
  | Some want, Some got => String.eqb want got
  | _, _ => false
  end.

(** ** Lemmas *)

Lemma derive_keys_Ok i secrets ks :
  derive_keys i secrets = Ok ks ↔
  Forall (λ s, s ≠ "") secrets ∧ ks = sha256_Sum256 <$> secrets.
Proof.
  revert i ks. induction secrets as [|s secrets IH]; intros i ks; simpl.
  - naive_solver.
  - rewrite Forall_cons. destruct (String.eqb_spec s ""); [naive_solver|].
    rewrite bind_Ok. setoid_rewrite IH. naive_solver.
Qed.

Lemma NewCodec_Ok secrets c :
  NewCodec secrets = Ok c ↔
  secrets ≠ [] ∧ Forall (λ s, s ≠ "") secrets ∧ c = mkCodec (sha256_Sum256 <$> secrets).
Proof.
  unfold NewCodec. destruct secrets as [|s secrets]; [naive_solver|].
  rewrite bind_Ok. setoid_rewrite derive_keys_Ok. naive_solver.
Qed.

Lemma try_keys_Ok {A} (of_obj : JObj → option A) ks raw v :
  try_keys of_obj ks raw = Ok v →
  ∃ k plain o, k ∈ ks ∧ NonceSize ≤ slen raw ∧
    gcm_Open k (take_str NonceSize raw) (drop_str NonceSize raw) = Some plain ∧
    json_Unmarshal plain = Some o ∧ of_obj o = Some v.
Proof.
  induction ks as [|k ks IH]; [done|]. cbn [try_keys].
  destruct (aes_key_ok k); [|done]. cbn [negb].
  destruct (Nat.ltb_spec (slen raw) NonceSize); [done|].
  destruct (gcm_Open k _ _) as [plain|] eqn:Hg.
  - rewrite result_of_option_Ok, bind_Some. intros (o & Ho & Hv).
    exists k, plain, o. split_and!; [apply list_elem_of_here|done..].
  - intros (k' & plain & o & Hk & ?)%IH. exists k', plain, o.
    split; [by apply list_elem_of_further|done].
Qed.

Lemma try_keys_skip {A} (of_obj : JObj → option A) pre ks raw :
  Forall (λ k, aes_key_ok k = true ∧
               gcm_Open k (take_str NonceSize raw) (drop_str NonceSize raw) = None) pre →
  NonceSize ≤ slen raw →
  try_keys of_obj (pre ++ ks) raw = try_keys of_obj ks raw.
Proof.
  intros Hpre Hlen. induction Hpre as [|k pre [Hk Hg] _ IH]; [done|]. cbn [app try_keys].
  rewrite Hk, Hg, IH. cbn [negb]. by destruct (Nat.ltb_spec (slen raw) NonceSize); [lia|].
Qed.

Context `{L : !GoLibLaws G}.

Definition coerce_Data (d : Data) : Data :=
  mkData (to_valid_utf8 d.(Subject)) (to_valid_utf8 d.(Level)) d.(Expiry)
    (to_valid_utf8 d.(ProviderMode)).

Lemma Data_of_coerce d :
  int64_range d.(Expiry) → Data_of_obj (coerce_obj (Data_obj d)) = Some (coerce_Data d).
Proof.
  destruct d as [s l e p]. unfold int64_range. simpl. intros He.
  unfold Data_of_obj, coerce_obj, Data_obj, json_int64, json_string, json_members. simpl.
  replace ((- 2 ^ 63 <=? e) && (e <? 2 ^ 63))%Z with true; [done|].
  symmetry. breflect. lia.
Qed.

Lemma NewCodec_key0 secrets c : NewCodec secrets = Ok c → aes_key_ok (key0 c) = true.
Proof.
  intros (Hne & _ & ->)%NewCodec_Ok. destruct secrets as [|s secrets]; [done|]. unfold key0. simpl.
  unfold aes_key_ok. by rewrite sha256_length.
Qed.

Lemma take_drop_nonce nonce ct : slen nonce = NonceSize →
  take_str NonceSize (nonce +:+ ct) = nonce ∧ drop_str NonceSize (nonce +:+ ct) = ct ∧
  NonceSize ≤ slen (nonce +:+ ct).
Proof.
  intros <-. rewrite take_str_app, drop_str_app, slen_append. split_and!; [done..|lia].
Qed.

(** Opening with one of the keys what was sealed, when the keys in front of
    it do not open it. *)
Lemma Open_Seal {A} (of_obj : JObj → option A) c c' pre post nonce o v :
  c'.(keys) = pre ++ key0 c :: post →
  Forall (λ k, aes_key_ok k = true) pre →
  Forall (λ k, gcm_Open k nonce (gcm_Seal (key0 c) nonce (json_Marshal o)) = None) pre →
  slen nonce = NonceSize → Seal c nonce o = Ok v →
  Open c' of_obj v = result_of_option NotJSON (of_obj (coerce_obj o)).
Proof.
  intros Hk Hok Hpre Hn. unfold Seal. destruct (aes_key_ok (key0 c)) eqn:H0; [|done].
  intros [= <-]. unfold Open. rewrite RawURL_Decode_Encode, Hk.
  destruct (take_drop_nonce nonce (gcm_Seal (key0 c) nonce (json_Marshal o)) Hn) as (Ht & Hd & Hl).
  rewrite try_keys_skip; [|rewrite Ht, Hd; by apply Forall_and|done].
  cbn [try_keys]. rewrite H0, Ht, Hd, gcm_open_seal, json_roundtrip. cbn [negb].
  by destruct (Nat.ltb_spec (slen (nonce +:+ gcm_Seal (key0 c) nonce (json_Marshal o))) NonceSize); [lia|].
Qed.

(** What a successful [Open] says of the cookie. *)
Lemma Open_authentic {A} (of_obj : JObj → option A) c v x :
  Open c of_obj v = Ok x →
  ∃ k nonce plain o, k ∈ c.(keys) ∧ slen nonce = NonceSize ∧
    RawURL_DecodeString v = Some (nonce +:+ gcm_Seal k nonce plain) ∧
    json_Unmarshal plain = Some o ∧ of_obj o = Some x.
Proof.
  unfold Open. destruct (RawURL_DecodeString v) as [raw|] eqn:Hr; [|done].
  intros (k & plain & o & Hk & Hl & Hg & Ho & Hx)%try_keys_Ok.
  exists k, (take_str NonceSize raw), plain, o. split_and!; [done|by apply take_str_length| |done..].
  apply gcm_open_inv in Hg. by rewrite <-Hg, take_drop_str.
Qed.

Lemma Valid_true now d :
  Valid now d = true ↔ d.(Subject) ≠ "" ∧ (Unix now < d.(Expiry))%Z.
Proof. unfold Valid. breflect. done. Qed.

Lemma ReadCookie_live c now r name d :
  ReadCookie c now r name = Ok d → d.(Subject) ≠ "" ∧ (Unix now < d.(Expiry))%Z.
Proof.
  unfold ReadCookie. destruct (Request_Cookie r name) as [v|]; [|done].
  rewrite bind_Ok. intros (d' & _ & Hv). destruct (Valid now d') eqn:Hval; [|done].
  injection Hv as ->. by apply Valid_true.
Qed.

(** ** Theorems *)

(** C7: prepending new secrets keeps every live session: a session sealed under
    the old configuration reads back, with its subject, level, expiry and
    provider, under any configuration whose secrets end with the old ones, and
    it does so exactly until it expires. (The new keys must fail to
    authenticate the old ciphertext, which is what an AEAD gives.) Sealing
    itself never fails, and yields only base64url characters. *)
Theorem rotation_keeps_sessions secrets newer c c' nonce d :
  NewCodec secrets = Ok c → NewCodec (newer ++ secrets) = Ok c' →
  slen nonce = NonceSize → int64_range d.(Expiry) →
  Forall (λ s, gcm_Open (sha256_Sum256 s) nonce
                 (gcm_Seal (key0 c) nonce (json_Marshal (Data_obj d))) = None) newer →
  ∃ v, Seal c nonce (Data_obj d) = Ok v ∧ all_bytes b64url_byte v = true ∧
    ∀ now r name, Request_Cookie r name = Some v →
      ReadCookie c' now r name =
        if Valid now (coerce_Data d) then Ok (coerce_Data d) else Err ExpiredOrEmpty.
Proof.
  intros Hc Hc' Hn He Hnew. pose proof (NewCodec_key0 _ _ Hc) as Hk.
  apply NewCodec_Ok in Hc as (Hne & _ & ->), Hc' as (_ & _ & ->).
  destruct (Seal (mkCodec (sha256_Sum256 <$> secrets)) nonce (Data_obj d)) as [v|e] eqn:Hs;
    [|unfold Seal in Hs; by rewrite Hk in Hs].
  exists v. split_and!; [done| |].
  { unfold Seal in Hs. rewrite Hk in Hs. injection Hs as <-. apply RawURL_Encode_bytes. }
  intros now r name Hr. unfold ReadCookie. rewrite Hr.
  destruct secrets as [|s secrets]; [done|].
  rewrite (Open_Seal Data_of_obj (mkCodec (sha256_Sum256 <$> s :: secrets)) (mkCodec (sha256_Sum256 <$> newer ++ s :: secrets))
    (sha256_Sum256 <$> newer) (sha256_Sum256 <$> secrets) nonce (Data_obj d) v).
  - by rewrite Data_of_coerce.
  - cbn [keys]. by rewrite fmap_app.
  - apply Forall_fmap, Forall_true. intros s'. simpl. unfold aes_key_ok. by rewrite sha256_length.
  - by apply Forall_fmap.
  - done.
  - done.
Qed.

(** C8: a session read from a cookie is authentic and live: some configured key
    sealed exactly this cookie, over a payload that decodes to the session; its
    subject is not empty and its expiry lies in the future. *)
Theorem ReadCookie_authentic c now r name d :
  ReadCookie c now r name = Ok d →
  d.(Subject) ≠ "" ∧ (Unix now < d.(Expiry))%Z ∧
  ∃ v k nonce plain o, Request_Cookie r name = Some v ∧ k ∈ c.(keys) ∧
    RawURL_DecodeString v = Some (nonce +:+ gcm_Seal k nonce plain) ∧
    json_Unmarshal plain = Some o ∧ Data_of_obj o = Some d.
Proof.
  unfold ReadCookie. destruct (Request_Cookie r name) as [v|]; [|done].
  rewrite bind_Ok. intros (d' & Ho & Hv). destruct (Valid now d') eqn:Hval; [|done].
  injection Hv as ->. apply Valid_true in Hval as [Hs He]. split_and!; [done..|].
  apply Open_authentic in Ho as (k & nonce & plain & o & Hk & _ & Hr & Ho).
  by exists v, k, nonce, plain, o.
Qed.

(** The form token binds to the session: [ValidCSRF] accepts exactly the
    encodings of this session's MAC, the token handed out is accepted, and the
    token of a session with another subject or another expiry is refused
    (unless the MACs of the two collide). *)
Theorem csrf_bound_to_session c d :
  ValidCSRF c d (CSRFToken c d) = true ∧
  (∀ t, ValidCSRF c d t = true ↔ hex_DecodeString t = hex_DecodeString (CSRFToken c d)) ∧
  (∀ d', (∀ m m', hmac_SHA256 (key0 c) m = hmac_SHA256 (key0 c) m' → m = m') →
     ValidCSRF c d (CSRFToken c d') = true →
     d'.(Subject) = d.(Subject) ∧ d'.(Expiry) = d.(Expiry)).
Proof.
  assert (∀ t, ValidCSRF c d t = true ↔ hex_DecodeString t = hex_DecodeString (CSRFToken c d)) as H.
  { intros t. unfold ValidCSRF, CSRFToken. rewrite hex_Decode_Encode.
    destruct (hex_DecodeString t); [|done]. rewrite String.eqb_eq. naive_solver. }
  split_and!; [by apply H|done|].
  intros d' Hinj Hv%H. unfold CSRFToken in Hv. rewrite !hex_Decode_Encode in Hv.
  injection Hv as Hv%Hinj. change "|" with (str1 "|"%char) in Hv. unfold str1 in Hv.
  rewrite !append_cons, !append_nil in Hv.
  apply last_sep_inj in Hv as [-> He]; [|by apply Itoa_free..].
  by apply Itoa_inj in He.
Qed.
End session.

(** ** Witnesses *)

Definition demo_nonce : string := "abcdefghijkl".
Definition demo_session : Data := mkData "admin" "dba" 1000 "local".
Definition demo_codec : Codec := mkCodec [sha256_Sum256 demo_secret].

Definition demo_sealed (o : JObj) : string :=
  match Seal demo_codec demo_nonce o with Ok v => v | Err _ => "" end.

Definition demo_get (path cookie : string) : Request :=
  mkRequest "GET" path path "console.example.com" false "10.0.0.7:4242" ∅
    [("pgtoolbox_session", cookie)] [] None.

Lemma rotation_keeps_sessions_witness :
  ∃ c' v, NewCodec ["fedcba9876543210"; demo_secret] = Ok c' ∧
    Seal demo_codec demo_nonce (Data_obj demo_session) = Ok v ∧
    ReadCookie c' 0 (demo_get "/" v) "pgtoolbox_session" = Ok demo_session ∧
    ReadCookie c' (1000 * Second) (demo_get "/" v) "pgtoolbox_session" = Err ExpiredOrEmpty.
Proof.
  destruct (rotation_keeps_sessions [demo_secret] ["fedcba9876543210"] demo_codec
    (mkCodec [sha256_Sum256 "fedcba9876543210"; sha256_Sum256 demo_secret]) demo_nonce demo_session)
    as (v & Hs & _ & Hv).
  - reflexivity.
  - reflexivity.
  - reflexivity.
  - split; vm_compute; [intros H; discriminate H|reflexivity].
  - repeat constructor.
  - eexists _, v. split_and!; [reflexivity|exact Hs| |].
    + rewrite Hv by reflexivity. vm_compute. reflexivity.
    + rewrite Hv by reflexivity. vm_compute. reflexivity.
Defined.

Lemma ReadCookie_authentic_witness :
  ReadCookie demo_codec 0 (demo_get "/" (demo_sealed (Data_obj demo_session))) "pgtoolbox_session"
    = Ok demo_session ∧ demo_session.(Subject) ≠ "".
Proof.
  assert (ReadCookie demo_codec 0 (demo_get "/" (demo_sealed (Data_obj demo_session)))
            "pgtoolbox_session" = Ok demo_session) as H by (vm_compute; reflexivity).
  split; [exact H|]. exact (proj1 (ReadCookie_authentic _ _ _ _ _ H)).
Defined.

Lemma csrf_bound_to_session_witness :
  ValidCSRF demo_codec demo_session (CSRFToken demo_codec demo_session) = true ∧
  ValidCSRF demo_codec demo_session (CSRFToken demo_codec (mkData "eve" "" 1000 "oidc")) ≠ true.
Proof.
  destruct (csrf_bound_to_session demo_codec demo_session) as (H1 & _ & H3).
  split; [exact H1|]. intros H. apply H3 in H as [H _]; [discriminate H|].
  intros m m'. apply append_inj_l.
Defined.
