(* ===== verification/Pages.v ===== *)
(** * The HTML pages ([internal/proxy/pages])

    What each page is given and how [render] answers with it. The template
    engine with the embedded layout, and the embedded style sheet, are the
    fields of [Templates]. *)

From S2P Require Import Prelude GoLib Http.

Record ExternalLogin := mkExternalLogin { Label : string; Path : string }.

Record LoginData := mkLoginData {
  L_RedirectTo : string;
  L_Error : string;
  L_External : list ExternalLogin
}.

Record DeniedUnknownData := mkDeniedUnknownData {
  DU_Subject : string;
  DU_CSRFToken : string;
  DU_ShowForm : bool;
  DU_ConsoleName : string
}.

Record DeniedKnownData := mkDeniedKnownData {
  DK_Subject : string;
  DK_Level : string;
  DK_MinLevel : string;
  DK_Path : string
}.

Record ConfirmationData := mkConfirmationData { CF_Subject : string }.

Record ErrorData := mkErrorData { E_Title : string; E_Message : string }.

(** The [any] that [render] is called with. *)
Inductive content :=
  | LoginContent (d : LoginData)
  | DeniedUnknownContent (d : DeniedUnknownData)
  | DeniedKnownContent (d : DeniedKnownData)
  | ConfirmationContent (d : ConfirmationData)
  | ErrorContent (d : ErrorData).

Record base := mkBase { Title : string; CSS : string; Content : content }.

Class Templates := {
  css : string;
  (** [tmpl.ExecuteTemplate] into a buffer; [None] is an error *)
  ExecuteTemplate : string → base → option string
}.

(** The double quote. *)
Definition dquote : string := String (ascii_of_nat 34) EmptyString.

Definition fallback : string :=
  "<!doctype html><meta charset=" +:+ dquote +:+ "utf-8" +:+ dquote +:+
  "><title>Error</title><p>This page could not be rendered.</p>".

Definition html_type : string := "text/html; charset=utf-8".

Section pages.
Context `{T : Templates}.

Definition render (status : Z) (templateName title : string) (c : content) (w : Response) :
    Response :=
  match ExecuteTemplate templateName (mkBase title css c) with
  | None =>
      write_body fallback
        (WriteHeader Status.InternalServerError (set_header "Content-Type" html_type w))
  | Some buf => write_body buf (WriteHeader status (set_header "Content-Type" html_type w))
  end.

Definition Login (status : Z) (d : LoginData) : Response → Response :=
  render status "login" "Sign in" (LoginContent d).

Definition DeniedUnknown (d : DeniedUnknownData) : Response → Response :=
  render Status.Forbidden "denied-unknown" "Access required" (DeniedUnknownContent d).

Definition DeniedKnown (d : DeniedKnownData) : Response → Response :=
  render Status.Forbidden "denied-known" "Insufficient privileges" (DeniedKnownContent d).

Definition Confirmation (d : ConfirmationData) : Response → Response :=
  render Status.OK "confirmation" "Request sent" (ConfirmationContent d).

Definition Error (status : Z) (message : string) : Response → Response :=
  render status "error" (StatusText status)
    (ErrorContent (mkErrorData (StatusText status) message)).

(** ** Lemmas *)

(** A page leaves the cookies and redirects of an unanswered request alone. *)
Lemma render_cookies status n t c w : W_Cookies (render status n t c w) = W_Cookies w.
Proof.
  unfold render, write_body, WriteHeader, set_header.
  by destruct (ExecuteTemplate _ _), w as [[?|] ? ? ? ?].
Qed.

Lemma render_redirect status n t c w : W_Redirect (render status n t c w) = W_Redirect w.
Proof.
  unfold render, write_body, WriteHeader, set_header.
  by destruct (ExecuteTemplate _ _), w as [[?|] ? ? ? ?].
Qed.

(** The status is the page's, or 500 when its template fails; a failing page
    sends the fallback and nothing of the page. *)
Lemma render_status status n t c w :
  W_Status w = None → W_Body w = "" →
  match ExecuteTemplate n (mkBase t css c) with
  | Some buf => W_Status (render status n t c w) = Some status ∧
                W_Body (render status n t c w) = buf
  | None => W_Status (render status n t c w) = Some Status.InternalServerError ∧
            W_Body (render status n t c w) = fallback
  end.
Proof.
  unfold render. destruct w as [? h ks r b]. simpl. intros -> ->.
  by destruct (ExecuteTemplate _ _).
Qed.
End pages.

(** An engine that prints the template's name and its title. *)
#[export] Instance demo_templates : Templates := {|
  css := "";
  ExecuteTemplate := λ n b, Some (n +:+ ":" +:+ b.(Title))
|}.
