(* ===== verification/Server.v ===== *)
(** * The proxy server ([internal/proxy/server/server.go])

    Building a runtime from a configuration, choosing a route, authenticating
    and authorising a request, the headers sent upstream, the login redirects
    and the post-login redirect check. *)

From S2P Require Import Prelude GoUtf8 GoStrings GoBytes GoLib ProxyConfig Http Pages Session.

(** ** Runtime and environment *)

Definition HeaderUser : string := "X-Forwarded-User".
Definition HeaderLevel : string := "X-PgToolBox-Level".
Definition HeaderGroups : string := "X-Forwarded-Groups".
Definition accessReqPath : string := "/auth/access-request".

Definition strippedHeaders : list string := [HeaderUser; HeaderLevel; HeaderGroups].

(** The compiled proxy of a route is its target. *)
Record Route := mkRoute { Prefix : string; RMinLevel : ProxyConfig.Level; Target : URL }.

Record Runtime := mkRuntime {
  RT_Config : Config;
  RT_Codec : Codec;
  RT_Users : gmap string User;
  RT_Routes : list Route
}.

(** [AccessRequests] is the creator, or [None] for a nil interface; [C] is its
    type. *)
Record Env (C : Type) := mkEnv {
  E_Runtime : Runtime;
  E_AccessRequests : option C;
  E_Available : list string
}.
Arguments mkEnv {C} _ _ _.
Arguments E_Runtime {C} _.
Arguments E_AccessRequests {C} _.
Arguments E_Available {C} _.

(** [Env.Swap]: a reload replaces the runtime and nothing else. *)
Definition Swap {C} (e : Env C) (rt : Runtime) : Env C :=
  mkEnv rt e.(E_AccessRequests) e.(E_Available).

Inductive runtime_error :=
  | BadCodec (e : session_error)
  | BadUpstream (prefix : string).

(** ** The exchange sort of [BuildRuntime] *)

(** The body of the inner loop. *)
Definition swap_longer (i : nat) (l : list Route) (j : nat) : list Route :=
  match l !! i, l !! j with
  | Some a, Some b => if slen a.(Prefix) <? slen b.(Prefix) then <[i:=b]> (<[j:=a]> l) else l
  | _, _ => l
  end.

Definition sort_routes (l : list Route) : list Route :=
  foldl (λ l i, foldl (swap_longer i) l (seq (i + 1) (length l - (i + 1)))) l (seq 0 (length l)).

(** [prefix "/"] against everything, any other on segment boundaries. *)
Definition pathMatchesPrefix (path prefix : string) : bool :=
  if String.eqb prefix "/" then true
  else String.eqb path prefix || HasPrefix path (prefix +:+ "/").

Definition matchRoute (rt : Runtime) (path : string) : option Route :=
  first_such (λ r, pathMatchesPrefix path r.(Prefix)) rt.(RT_Routes).

(** ** Login paths *)

Definition available {C} (e : Env C) : list string :=
  match e.(E_Available) with
  | [] => e.(E_Runtime).(RT_Config).(C_Provider).(Modes)
  | l => l
  end.

Definition LoginPath {C} (e : Env C) : string :=
  if existsb (String.eqb ModeLocal) (available e) then "/auth/local/login"
  else if existsb (String.eqb ModeOpenShift) (available e) then "/auth/openshift/login"
  else "/auth/oidc/login".

Definition external_login (mode : string) : list ExternalLogin :=
  if String.eqb mode ModeOIDC then [mkExternalLogin "Sign in with SSO" "/auth/oidc/login"]
  else if String.eqb mode ModeOpenShift then
    [mkExternalLogin "Sign in with OpenShift" "/auth/openshift/login"]
  else [].

Definition ExternalLogins {C} (e : Env C) : list ExternalLogin := available e ≫= external_login.

(** ** Provider failures *)

(** [oauth2.RetrieveError]: the code, and the status of its response if any. *)
Record RetrieveError := mkRetrieveError { ErrorCode : string; StatusCode : option Z }.

(** [None] when the error is not a [RetrieveError]. *)
Definition ExchangeFailure (err : option RetrieveError) : Z * string :=
  match err with
  | None => (Status.BadGateway, "The identity provider could not be reached.")
  | Some e =>
      let code c := String.eqb e.(ErrorCode) c in
      if code "invalid_client" || code "unauthorized_client" then
        (Status.InternalServerError,
         "This console was rejected by the identity provider (" +:+ e.(ErrorCode) +:+
         "). Its client ID or client secret is wrong; an administrator has to correct the PgConsole's oidc settings.")
      else if code "invalid_grant" then
        (Status.BadRequest, "The login could not be completed; please try again.")
      else if code "invalid_request" || code "unsupported_grant_type" then
        (Status.InternalServerError,
         "The identity provider rejected this console's request (" +:+ e.(ErrorCode) +:+
         "). The registered redirect URI most likely does not match the address this console is reached on.")
      else
        match e.(StatusCode) with
        | Some code =>
            if (500 <=? code)%Z
            then (Status.BadGateway, "The identity provider failed to complete the login.")
            else (Status.InternalServerError, "The identity provider refused to complete the login.")
        | None => (Status.InternalServerError, "The identity provider refused to complete the login.")
        end
  end.

Section server.
Context `{G : GoLib} `{T : Templates} {C : Type}.

(** The users under their lower-cased subjects; a later one replaces. *)
Definition build_users (us : list User) : gmap string User :=
  foldl (λ m u, <[lower u.(U_Subject) := u]> m) ∅ us.

Fixpoint build_routes (rcs : list RouteConfig) : result runtime_error (list Route) :=
  match rcs with
  | [] => Ok []
  | rc :: rcs =>
      match url_Parse rc.(Upstream) with
      | None => Err (BadUpstream rc.(PathPrefix))
      | Some target =>
          rs ← build_routes rcs; Ok (mkRoute rc.(PathPrefix) rc.(MinLevel) target :: rs)
      end
  end.

Definition BuildRuntime (cfg : Config) : result runtime_error Runtime :=
  match NewCodec cfg.(C_Session).(CookieSecrets) with
  | Err e => Err (BadCodec e)
  | Ok codec =>
      rs ← build_routes cfg.(C_Routes);
      Ok (mkRuntime cfg codec (build_users cfg.(C_Users)) (sort_routes rs))
  end.

Definition forwardedProto (header : string) : string :=
  let proto := lower (TrimSpace (Cut header ",").1.1) in
  if String.eqb proto "http" then "http"
  else if String.eqb proto "https" then "https"
  else "".

(** The headers the [Rewrite] closure of a route sends upstream. *)
Definition rewrite_header (r : Request) (sess : option Data) : Header :=
  let h := SetXForwarded r (outbound_header r.(R_Header)) in
  let proto := forwardedProto (Header_Get r.(R_Header) "X-Forwarded-Proto") in
  let h := if is_empty proto then h else Header_Set "X-Forwarded-Proto" proto h in
  let h := del_all strippedHeaders h in
  match sess with
  | Some d => Header_Set HeaderLevel d.(Level) (Header_Set HeaderUser d.(Subject) h)
  | None => h
  end.

Definition Rewrite (route : Route) (r : Request) (sess : option Data) : OutRequest :=
  mkOutRequest route.(Target) r.(R_Host) r.(R_Path) (rewrite_header r sess).

(** [SafeRedirect]. *)
Definition unsafe_rune (r : Z) : bool := (r =? 92)%Z || (r <? 0x20)%Z || (r =? 0x7f)%Z.

(** What follows the leading slash makes it another origin. *)
Definition scheme_relative (s : string) : bool :=
  match s with String b _ => Ascii.eqb b "/" || Ascii.eqb b "\" | EmptyString => false end.

Definition SafeRedirect (p : string) : string :=
  match p with
  | EmptyString => "/"
  | String a p' =>
      if negb (Ascii.eqb a "/") then "/"
      else if scheme_relative p' then "/"
      else if existsb unsafe_rune (runes p) then "/"
      else match url_Parse p with
           | None => "/"
           | Some u =>
               if negb (is_empty u.(Scheme)) || negb (is_empty u.(Host))
                  || negb (is_empty u.(Opaque)) then "/" else p
           end
  end.

Definition IssueSession (e : Env C) (now : Time) (nonce subject level mode : string)
    (w : Response) : result session_error Response :=
  let rt := e.(E_Runtime) in
  let s := rt.(RT_Config).(C_Session) in
  let d := NewData now subject level mode s.(MaxAge) in
  SetSessionCookie rt.(RT_Codec) nonce s.(CookieName) (CookieSecure s) s.(MaxAge) d w.

Definition LookupUser (e : Env C) (subject : string) : option User :=
  e.(E_Runtime).(RT_Users) !! lower subject.

Definition handleLogout (e : Env C) (r : Request) (w : Response) : Response :=
  let s := e.(E_Runtime).(RT_Config).(C_Session) in
  Redirect (LoginPath e) Status.Found (ClearCookie s.(CookieName) (CookieSecure s) w).

Definition renderDeniedUnknown (e : Env C) (rt : Runtime) (sess : Data) (w : Response) : Response :=
  let arc := rt.(RT_Config).(C_AccessRequest) in
  DeniedUnknown (mkDeniedUnknownData sess.(Subject) (CSRFToken rt.(RT_Codec) sess)
    (arc.(Enabled) && bool_decide (is_Some e.(E_AccessRequests))) arc.(ConsoleName)) w.

(** The answer to a request: what was sent upstream, and what the client got.
    [upstream] is the transport to the upstreams, [None] being an error. *)
Record Reply := mkReply { Forwarded : option OutRequest; Answer : Response }.

Definition serve_proxy (upstream : OutRequest → option Response) (out : OutRequest)
    (w : Response) : Reply :=
  mkReply (Some out)
    (match upstream out with
     | Some resp => resp
     | None => Error Status.BadGateway "The upstream service is unavailable." w
     end).

Definition handleProxied (upstream : OutRequest → option Response) (e : Env C) (now : Time)
    (r : Request) (w : Response) : Reply :=
  let rt := e.(E_Runtime) in
  match matchRoute rt r.(R_Path) with
  | None => mkReply None (Error Status.NotFound "This path is not served by the console." w)
  | Some route =>
      match ReadCookie rt.(RT_Codec) now r rt.(RT_Config).(C_Session).(CookieName) with
      | Err _ =>
          if String.eqb r.(R_Method) Method.Get then
            mkReply None (Redirect (LoginPath e +:+ "?rd=" +:+ QueryEscape r.(R_RequestURI))
                            Status.Found w)
          else mkReply None (Error Status.Unauthorized "Authentication is required." w)
      | Ok sess =>
          let level := sess.(Level) in
          if (Rank level <? Rank route.(RMinLevel))%Z then
            if String.eqb level LevelNone then mkReply None (renderDeniedUnknown e rt sess w)
            else mkReply None
                   (DeniedKnown (mkDeniedKnownData sess.(Subject) level route.(RMinLevel)
                                   r.(R_Path)) w)
          else serve_proxy upstream (Rewrite route r (Some sess)) w
      end
  end.
End server.

(** ** The root mux

    The patterns [New] registers; a provider adds its own. The catch-all
    pattern ["/"] serves every other request. *)
Inductive handler :=
  | Healthz
  | Logout
  | AccessRequest
  | Proxied
  | LocalForm
  | LocalSubmit
  | OIDCLogin
  | OIDCCallback
  | OpenShiftLogin
  | OpenShiftCallback.

#[export] Instance handler_eq_dec : EqDecision handler.
Proof. solve_decision. Defined.

Abbreviation Mux := (list (string * string * handler)).

Definition New : Mux :=
  [("GET", "/healthz", Healthz); ("GET", "/logout", Logout); ("POST", accessReqPath, AccessRequest)].

(** A pattern's method and exact path; [GET] patterns also serve [HEAD]. *)
Definition pattern_matches (m path : string) (p : string * string * handler) : bool :=
  (String.eqb p.1.1 m || (String.eqb p.1.1 "GET" && String.eqb m "HEAD")) && String.eqb p.1.2 path.

Definition dispatch (mux : Mux) (m path : string) : handler :=
  from_option snd Proxied (first_such (pattern_matches m path) mux).

(** ** The exchange sort *)

(** The inner loop on the element at position [i] and the rest of the list. *)
Fixpoint pull (x : Route) (ys : list Route) : Route * list Route :=
  match ys with
  | [] => (x, [])
  | y :: ys =>
      if slen x.(Prefix) <? slen y.(Prefix)
      then let r := pull y ys in (r.1, x :: r.2)
      else let r := pull x ys in (r.1, y :: r.2)
  end.

Fixpoint exchange (fuel : nat) (l : list Route) : list Route :=
  match fuel, l with
  | S fuel, x :: l => let r := pull x l in r.1 :: exchange fuel r.2
  | _, _ => l
  end.

Lemma pull_length x ys : length (pull x ys).2 = length ys.
Proof. revert x. induction ys as [|y ys IH]; intros x; [done|]. simpl. case_if; simpl; by rewrite IH. Qed.

Lemma swap_longer_at p x q y ys :
  swap_longer (length p) (p ++ x :: q ++ y :: ys) (length p + S (length q)) =
  if slen x.(Prefix) <? slen y.(Prefix) then p ++ y :: q ++ x :: ys else p ++ x :: q ++ y :: ys.
Proof.
  unfold swap_longer. rewrite list_lookup_middle by done.
  rewrite lookup_app_r by lia. replace (_ + _ - _) with (S (length q)) by lia. simpl.
  rewrite list_lookup_middle by done. case_if; [|done].
  rewrite insert_app_r. simpl. rewrite <-(Nat.add_0_r (length q)), insert_app_r. simpl.
  rewrite <-(Nat.add_0_r (length p)), insert_app_r. done.
Qed.

Lemma inner_loop p x q ys :
  foldl (swap_longer (length p)) (p ++ x :: q ++ ys) (seq (length p + S (length q)) (length ys)) =
  p ++ (pull x ys).1 :: q ++ (pull x ys).2.
Proof.
  revert x q. induction ys as [|y ys IH]; intros x q; [done|].
  cbn [length seq foldl pull]. rewrite swap_longer_at.
  replace (S (length p + S (length q))) with (length p + S (length (q ++ [x])))
    by (rewrite length_app; simpl; lia).
  case_if; simpl.
  - specialize (IH y (q ++ [x])). by rewrite <-!(assoc_L (++)) in IH.
  - specialize (IH x (q ++ [y])). rewrite length_app in *. simpl in *.
    by rewrite <-!(assoc_L (++)) in IH.
Qed.

Lemma outer_loop p l :
  foldl (λ l i, foldl (swap_longer i) l (seq (i + 1) (length l - (i + 1)))) (p ++ l)
    (seq (length p) (length l)) = p ++ exchange (length l) l.
Proof.
  remember (length l) as n eqn:Hn. revert p l Hn.
  induction n as [|n IH]; intros p [|x l] Hn; simplify_eq/=; [done|].
  replace (length (p ++ x :: l) - (length p + 1)) with (length l)
    by (rewrite length_app; simpl; lia).
  pose proof (inner_loop p x [] l) as Hi. simpl in Hi. rewrite Hi.
  specialize (IH (p ++ [(pull x l).1]) (pull x l).2 ltac:(by rewrite pull_length)).
  rewrite length_app, <-!(assoc_L (++)) in IH. simpl in IH.
  by rewrite <-IH, (Nat.add_comm _ 1).
Qed.

Lemma sort_routes_exchange l : sort_routes l = exchange (length l) l.
Proof. exact (outer_loop [] l). Qed.

Lemma pull_perm x ys : (pull x ys).1 :: (pull x ys).2 ≡ₚ x :: ys.
Proof.
  revert x. induction ys as [|y ys IH]; intros x; [done|]. simpl.
  case_if; simpl; rewrite Permutation_swap, IH; [done|apply Permutation_swap].
Qed.

Definition longer_eq (a b : Route) : Prop := slen b.(Prefix) ≤ slen a.(Prefix).

#[export] Instance longer_eq_trans : Transitive longer_eq.
Proof. intros a b c. unfold longer_eq. lia. Qed.

Lemma pull_max x ys : longer_eq (pull x ys).1 x ∧ Forall (longer_eq (pull x ys).1) (pull x ys).2.
Proof.
  revert x. induction ys as [|y ys IH]; intros x; [split; [unfold longer_eq; simpl; lia|constructor]|].
  simpl. case_if; breflect; simpl; destruct (IH y) as [H1 H2], (IH x) as [H3 H4];
    unfold longer_eq in *; repeat constructor; try done; lia.
Qed.

Lemma exchange_perm n l : exchange n l ≡ₚ l.
Proof.
  revert l. induction n as [|n IH]; intros [|x l]; [done..|]. cbn [exchange].
  rewrite IH. apply pull_perm.
Qed.

Lemma exchange_sorted n l : length l ≤ n → StronglySorted longer_eq (exchange n l).
Proof.
  revert l. induction n as [|n IH]; intros [|x l] Hl; simpl in *; try lia; [constructor..|].
  constructor; [apply IH; rewrite pull_length; lia|].
  by rewrite exchange_perm; apply pull_max.
Qed.

Lemma sort_routes_spec l :
  sort_routes l ≡ₚ l ∧ StronglySorted longer_eq (sort_routes l).
Proof.
  rewrite sort_routes_exchange. split; [apply exchange_perm | by apply exchange_sorted].
Qed.

(** ** Building a runtime *)

Section lemmas.
Context `{G : GoLib} `{T : Templates} {C : Type}.

(** A compiled route carries its configuration's prefix, level and target. *)
Definition compiled (rc : RouteConfig) (r : Route) : Prop :=
  r.(Prefix) = rc.(PathPrefix) ∧ r.(RMinLevel) = rc.(MinLevel) ∧
  url_Parse rc.(Upstream) = Some r.(Target).

Lemma build_routes_Ok rcs rs : build_routes rcs = Ok rs ↔ Forall2 compiled rcs rs.
Proof.
  revert rs. induction rcs as [|rc rcs IH]; intros rs; cbn [build_routes].
  - split; [intros [= <-]; constructor | by intros ->%Forall2_nil_inv_l].
  - destruct (url_Parse (Upstream rc)) as [u|] eqn:Hu.
    + rewrite bind_Ok. setoid_rewrite IH. split.
      * intros (rs' & Hrs & [= <-]). constructor; [by split_and!|done].
      * intros (r & rs' & (Hp & Hm & Ht) & Hrs & ->)%Forall2_cons_inv_l. exists rs'.
        split; [done|]. destruct r; simpl in *. congruence.
    + split; [done|]. intros (r & rs' & (_ & _ & Ht) & _)%Forall2_cons_inv_l. congruence.
Qed.

Lemma BuildRuntime_Ok cfg rt :
  BuildRuntime cfg = Ok rt ↔
  ∃ codec rs, NewCodec cfg.(C_Session).(CookieSecrets) = Ok codec ∧
    Forall2 compiled cfg.(C_Routes) rs ∧
    rt = mkRuntime cfg codec (build_users cfg.(C_Users)) (sort_routes rs).
Proof.
  unfold BuildRuntime. destruct (NewCodec _) as [codec|]; [|split; [done|naive_solver]].
  rewrite bind_Ok. setoid_rewrite build_routes_Ok. split.
  - intros (rs & Hrs & [= <-]). by exists codec, rs.
  - intros (? & rs & [= <-] & Hrs & ->). by exists rs.
Qed.

Lemma build_users_lookup us k u :
  NoDup ((λ u, lower u.(U_Subject)) <$> us) →
  build_users us !! k = Some u ↔ u ∈ us ∧ lower u.(U_Subject) = k.
Proof.
  unfold build_users. induction us as [|v us IH] using rev_ind.
  - intros _. simpl. rewrite lookup_empty. split; [done|]. by intros [?%not_elem_of_nil _].
  - rewrite fmap_app, NoDup_app, foldl_snoc. intros (Hn & Hv & _). specialize (IH Hn).
    rewrite elem_of_app, list_elem_of_singleton.
    destruct (decide (lower (U_Subject v) = k)) as [<-|Hne].
    + rewrite lookup_insert_eq. split.
      * intros [= ->]. auto.
      * intros [[Hu| ->] Hk]; [|done]. exfalso. apply (Hv (lower (U_Subject u))).
        { apply list_elem_of_fmap. eauto. }
        rewrite Hk. simpl. set_solver.
    + rewrite lookup_insert_ne by done. rewrite IH. naive_solver.
Qed.

Lemma wf_NewCodec c : wf_config c → ∃ codec, NewCodec c.(C_Session).(CookieSecrets) = Ok codec.
Proof.
  intros [[_ _ Hne Hl _] _ _ _ _ _ _ _]. eexists. apply NewCodec_Ok. split_and!; [done| |done].
  eapply Forall_impl; [exact Hl|]. intros s Hs ->. unfold minSecretLength in Hs. simpl in Hs. lia.
Qed.

Lemma wf_build_routes c : wf_config c → ∃ rs, Forall2 compiled c.(C_Routes) rs.
Proof.
  intros [_ _ _ _ _ [_ Hr] _ _]. induction Hr as [|rc rcs Hrc _ [rs IH]]; [by exists []|].
  destruct Hrc as [_ _ _ [(u & Hu & _) _] _].
  exists (mkRoute rc.(PathPrefix) rc.(MinLevel) u :: rs). constructor; [by split_and!|done].
Qed.

Lemma BuildRuntime_routes cfg rt r :
  BuildRuntime cfg = Ok rt →
  (r ∈ rt.(RT_Routes) → ∃ rc, rc ∈ cfg.(C_Routes) ∧ compiled rc r) ∧
  (∀ rc, rc ∈ cfg.(C_Routes) → ∃ r', r' ∈ rt.(RT_Routes) ∧ compiled rc r').
Proof.
  intros (codec & rs & _ & Hrs & ->)%BuildRuntime_Ok. cbn [RT_Routes].
  destruct (sort_routes_spec rs) as [Hp _]. split.
  - rewrite Hp. intros Hr. apply list_elem_of_lookup in Hr as [i Hi].
    destruct (Forall2_lookup_r _ _ _ _ _ Hrs Hi) as (rc & Hrc & ?).
    exists rc. split; [by eapply list_elem_of_lookup_2|done].
  - intros rc Hrc. apply list_elem_of_lookup in Hrc as [i Hi].
    destruct (Forall2_lookup_l _ _ _ _ _ Hrs Hi) as (r' & Hr' & ?).
    exists r'. split; [|done]. rewrite Hp. by eapply list_elem_of_lookup_2.
Qed.

(** ** Matching *)

Lemma pathMatchesPrefix_true path p :
  pathMatchesPrefix path p = true ↔
  p = "/" ∨ path = p ∨ ∃ t, path = p +:+ "/" +:+ t.
Proof.
  unfold pathMatchesPrefix. destruct (String.eqb_spec p "/"); [naive_solver|].
  rewrite orb_true_iff, String.eqb_eq, HasPrefix_true. setoid_rewrite append_assoc. naive_solver.
Qed.

(** Two prefixes of the same length that start with a slash and match the same
    path are equal. *)
Lemma same_length_prefix path p q :
  (∃ t, p = "/" +:+ t) → (∃ t, q = "/" +:+ t) → slen p = slen q →
  pathMatchesPrefix path p = true → pathMatchesPrefix path q = true → p = q.
Proof.
  intros [t ->] [u ->] Hl. rewrite !slen_append in Hl. simpl in Hl.
  assert (∀ v, slen v = 0 → v = "") as H0 by (by intros []).
  assert (∀ v, pathMatchesPrefix path ("/" +:+ v) = true → v = "" ∨ ∃ w, path = ("/" +:+ v) +:+ w)
    as Hm.
  { intros v [Hv|[Hv|[w Hw]]]%pathMatchesPrefix_true; [|right; exists ""; by rewrite append_nil_r|eauto].
    left. by apply (append_inj_l "/") with (u := ""). }
  intros [->|[w ->]]%Hm [->|[w' Hw]]%Hm; simpl in Hl.
  - done.
  - by rewrite (H0 u) by lia.
  - by rewrite (H0 t) by lia.
  - apply append_inj in Hw as [-> _]; [done|]. rewrite !slen_append. simpl. lia.
Qed.

Lemma matchRoute_Some rt path r :
  StronglySorted longer_eq rt.(RT_Routes) → matchRoute rt path = Some r →
  r ∈ rt.(RT_Routes) ∧ pathMatchesPrefix path r.(Prefix) = true ∧
  ∀ r', r' ∈ rt.(RT_Routes) → pathMatchesPrefix path r'.(Prefix) = true → longer_eq r r'.
Proof.
  intros Hs (l1 & l2 & Hl & Hp & Hn)%first_such_Some. rewrite Hl in *. split_and!; [set_solver|done|].
  intros r' [Hr'|[->|Hr']%elem_of_cons]%elem_of_app Hm.
  - by rewrite Hn in Hm.
  - unfold longer_eq. lia.
  - apply StronglySorted_app_1_r in Hs. apply StronglySorted_inv in Hs as [_ Hs].
    by rewrite Forall_forall in Hs; apply Hs.
Qed.

(** ** Headers sent upstream *)

Definition canonical_keys (h : Header) : Prop :=
  ∀ k vs, h !! k = Some vs → CanonicalHeaderKey k = k.

Lemma canonical_keys_set k v h :
  CanonicalHeaderKey (CanonicalHeaderKey k) = CanonicalHeaderKey k →
  canonical_keys h → canonical_keys (Header_Set k v h).
Proof.
  intros Hk Hh k' vs. unfold Header_Set.
  destruct (decide (CanonicalHeaderKey k = k')) as [<-|Hne]; [done|].
  rewrite lookup_insert_ne by done. apply Hh.
Qed.

Lemma canonical_keys_del k h : canonical_keys h → canonical_keys (Header_Del k h).
Proof.
  intros Hh k' vs. unfold Header_Del. rewrite lookup_delete_Some. intros [_ H]. by eapply Hh.
Qed.

Lemma canonical_keys_del_all ks h : canonical_keys h → canonical_keys (del_all ks h).
Proof. intros Hh. induction ks as [|k ks IH]; [done|]. by apply canonical_keys_del. Qed.

Lemma canonical_keys_forwarded r h : canonical_keys h → canonical_keys (SetXForwarded r h).
Proof.
  intros Hh. unfold SetXForwarded. do 2 (apply canonical_keys_set; [done|]).
  destruct (SplitHostPort _) as [[ip ?]|]; [by apply canonical_keys_set|by apply canonical_keys_del].
Qed.

Lemma rewrite_canonical r sess :
  canonical_keys r.(R_Header) → canonical_keys (rewrite_header r sess).
Proof.
  intros Hh. unfold rewrite_header.
  assert (canonical_keys (SetXForwarded r (outbound_header (R_Header r)))) as H1.
  { by apply canonical_keys_forwarded; repeat apply canonical_keys_del_all. }
  assert (∀ h, canonical_keys h → canonical_keys (del_all strippedHeaders h)) as H2
    by (intros; by apply canonical_keys_del_all).
  destruct sess; [do 2 (apply canonical_keys_set; [done|])|];
    apply H2; case_if; try done; by apply canonical_keys_set.
Qed.

(** The identity headers are the session's, whatever the client sent. *)
Lemma rewrite_identity r d :
  let out := rewrite_header r (Some d) in
  out !! "X-Forwarded-User" = Some [d.(Subject)] ∧
  out !! "X-Pgtoolbox-Level" = Some [d.(Level)] ∧
  out !! "X-Forwarded-Groups" = None.
Proof.
  intros out. unfold out, rewrite_header. split_and!.
  - rewrite Header_Set_lookup_ne by (vm_compute; done). apply (Header_Set_lookup HeaderUser).
  - apply (Header_Set_lookup HeaderLevel).
  - rewrite Header_Set_lookup_ne by (vm_compute; done).
    rewrite Header_Set_lookup_ne by (vm_compute; done). apply del_all_lookup.
    compute_decide.
Qed.

Lemma rewrite_proto r d :
  rewrite_header r (Some d) !! "X-Forwarded-Proto" =
    Some [let p := forwardedProto (Header_Get r.(R_Header) "X-Forwarded-Proto") in
          if is_empty p then if r.(R_TLS) then "https" else "http" else p].
Proof.
  unfold rewrite_header.
  rewrite Header_Set_lookup_ne by (vm_compute; done).
  rewrite Header_Set_lookup_ne by (vm_compute; done).
  rewrite del_all_lookup_ne.
  - cbv zeta. case_if; [unfold SetXForwarded|]; apply (Header_Set_lookup "X-Forwarded-Proto").
  - compute_decide.
Qed.

Lemma forwardedProto_range s : forwardedProto s ∈ [""; "http"; "https"].
Proof. unfold forwardedProto. repeat case_if; compute_decide. Qed.

(** ** Redirect targets *)

Lemma SafeRedirect_cases p :
  SafeRedirect p = "/" ∨
  SafeRedirect p = p ∧ (∃ t, p = "/" +:+ t ∧ scheme_relative t = false) ∧
  Forall (λ r, unsafe_rune r = false) (runes p).
Proof.
  destruct p as [|a p]; [auto|]. unfold SafeRedirect.
  destruct (Ascii.eqb_spec a "/") as [->|]; [|auto]. cbn [negb].
  destruct (scheme_relative p) eqn:Hsr; [auto|].
  destruct (existsb unsafe_rune (runes (String "/" p))) eqn:Hr; [auto|].
  destruct (url_Parse _) as [u|]; [|auto]. case_if; [auto|]. right. split_and!; [done| |].
  - by exists p.
  - rewrite Forall_forall. intros r Hin. apply not_true_is_false. intros Hu.
    assert (existsb unsafe_rune (runes (String "/" p)) = true); [|congruence].
    apply existsb_exists. exists r. by rewrite <-list_elem_of_In.
Qed.

Lemma SafeRedirect_root : SafeRedirect "/" = "/".
Proof. destruct (SafeRedirect_cases "/") as [?|[? _]]; done. Qed.

(** What a browser removes from a URL before it parses it. *)
Definition browser_strip (s : string) : string :=
  filter_str (λ a, negb ((byteZ a =? 9) || (byteZ a =? 10) || (byteZ a =? 13))%Z) s.

Lemma safe_bytes p a :
  Forall (λ r, unsafe_rune r = false) (runes p) → in_string a p = true →
  (0x20 ≤ byteZ a)%Z ∧ byteZ a ≠ 92%Z ∧ byteZ a ≠ 0x7f%Z.
Proof.
  intros Hf Ha. destruct (Z.lt_ge_cases (byteZ a) 0x80) as [H|H]; [|lia].
  pose proof (ascii_in_runes a p Ha H) as Hr. rewrite Forall_forall in Hf. specialize (Hf _ Hr).
  unfold unsafe_rune in Hf. breflect. lia.
Qed.

Lemma filter_str_in p s : (∀ a, in_string a s = true → p a = true) → filter_str p s = s.
Proof.
  induction s as [|a s IH]; [done|]. simpl. intros H. rewrite H by by rewrite Ascii.eqb_refl.
  f_equal. apply IH. intros b Hb. apply H. by rewrite Hb, orb_true_r.
Qed.
End lemmas.

(** ** Theorems *)

Section theorems.
Context `{G : GoLib} `{T : Templates} {C : Type}.


(** A session whose level is high enough is served: the request is forwarded
    with [Rewrite] and the answer is the upstream's, or a page of the proxy when
    the upstream fails. A session whose level is too low is never forwarded: it
    is answered with 403 (500 if the page's template fails), without a cookie
    and without a redirect. *)
Theorem authorised_is_forwarded (e : Env C) upstream now r route d :
  matchRoute e.(E_Runtime) r.(R_Path) = Some route →
  ReadCookie e.(E_Runtime).(RT_Codec) now r
    e.(E_Runtime).(RT_Config).(C_Session).(CookieName) = Ok d →
  let reply := handleProxied upstream e now r new_response in
  if (Rank route.(RMinLevel) <=? Rank d.(Level))%Z then
    reply.(Forwarded) = Some (Rewrite route r (Some d)) ∧
    (∀ resp, upstream (Rewrite route r (Some d)) = Some resp → reply.(Answer) = resp) ∧
    (upstream (Rewrite route r (Some d)) = None →
       W_Cookies reply.(Answer) = [] ∧ W_Redirect reply.(Answer) = None)
  else
    reply.(Forwarded) = None ∧ W_Cookies reply.(Answer) = [] ∧
    W_Redirect reply.(Answer) = None ∧
    W_Status reply.(Answer) ∈ [Some Status.Forbidden; Some Status.InternalServerError].
Proof.
  intros Hm Hd. unfold handleProxied. rewrite Hm, Hd. cbv zeta.
  destruct (Z.leb_spec (Rank (RMinLevel route)) (Rank (Level d))) as [Hle|Hlt].
  - destruct (Z.ltb_spec (Rank (Level d)) (Rank (RMinLevel route))); [lia|].
    unfold serve_proxy. cbn [Forwarded Answer]. split_and!; [done|by intros resp ->|].
    intros ->. unfold Error. by rewrite render_cookies, render_redirect.
  - destruct (Z.ltb_spec (Rank (Level d)) (Rank (RMinLevel route))); [|lia].
    case_if; cbn [Forwarded Answer]; unfold renderDeniedUnknown, DeniedUnknown, DeniedKnown;
      rewrite render_cookies, render_redirect; (split_and!; [done..|]);
      match goal with |- W_Status (render ?s ?n ?t ?c _) ∈ _ =>
        pose proof (render_status s n t c new_response eq_refl eq_refl) as Hst end;
      case_in Hst; destruct Hst as [-> _]; set_solver.
Qed.

(** The proxy serves a path from the route with the longest matching
    prefix, for the configured routes as the exchange sort orders them: every
    other configured route that matches has a strictly shorter prefix, and no
    route is chosen only when none matches. *)
Theorem matchRoute_longest cfg rt path :
  wf_config cfg → BuildRuntime cfg = Ok rt →
  match matchRoute rt path with
  | Some r =>
      ∃ rc, rc ∈ cfg.(C_Routes) ∧ compiled rc r ∧
        pathMatchesPrefix path rc.(PathPrefix) = true ∧
        ∀ rc', rc' ∈ cfg.(C_Routes) → pathMatchesPrefix path rc'.(PathPrefix) = true →
          rc'.(PathPrefix) = rc.(PathPrefix) ∨ slen rc'.(PathPrefix) < slen rc.(PathPrefix)
  | None => ∀ rc, rc ∈ cfg.(C_Routes) → pathMatchesPrefix path rc.(PathPrefix) = false
  end.
Proof.
  intros Hwf Hrt. pose proof Hrt as Hrt'.
  apply BuildRuntime_Ok in Hrt' as (codec & rs & _ & _ & Heq).
  destruct Hwf as [_ _ _ _ _ [_ Hroutes] _ _]. rewrite Forall_forall in Hroutes.
  destruct (matchRoute rt path) as [r|] eqn:Hm.
  - apply matchRoute_Some in Hm as (Hin & Hp & Hmax); [|rewrite Heq; apply sort_routes_spec].
    destruct (proj1 (BuildRuntime_routes cfg rt r Hrt) Hin) as (rc & Hrc & Hc).
    pose proof Hc as (Hpre & _ & _). exists rc. rewrite <-Hpre. split_and!; [done..|].
    intros rc' Hrc' Hm'.
    destruct (proj2 (BuildRuntime_routes cfg rt r Hrt) rc' Hrc') as (r' & Hin' & Hpre' & _).
    rewrite <-Hpre' in *. specialize (Hmax r' Hin' Hm'). unfold longer_eq in Hmax.
    destruct (decide (slen (Prefix r') = slen (Prefix r))) as [Hl|]; [|right; lia].
    left. eapply same_length_prefix; [| |exact Hl|done|done].
    + rewrite Hpre'. apply (Hroutes rc' Hrc').
    + rewrite Hpre. apply (Hroutes rc Hrc).
  - intros rc Hrc.
    destruct (proj2 (BuildRuntime_routes cfg rt (mkRoute "" "" (mkURL "" "" "" "" "")) Hrt) rc Hrc)
      as (r' & Hin' & Hpre' & _).
    rewrite <-Hpre'. unfold matchRoute in Hm. rewrite first_such_None in Hm. by apply Hm.
Qed.

(** Every valid configuration builds a runtime, and in it [LookupUser] finds
    exactly the configured user whose subject is the given one up to case. *)
Theorem LookupUser_exact cfg :
  wf_config cfg →
  ∃ rt, BuildRuntime cfg = Ok rt ∧
    ∀ (e : Env C) s u, e.(E_Runtime) = rt →
      LookupUser e s = Some u ↔ u ∈ cfg.(C_Users) ∧ lower u.(U_Subject) = lower s.
Proof.
  intros Hwf. destruct (wf_NewCodec cfg Hwf) as [codec Hc], (wf_build_routes cfg Hwf) as [rs Hrs].
  eexists. split; [apply BuildRuntime_Ok; by exists codec, rs|].
  intros e s u He. unfold LookupUser. rewrite He. cbn [RT_Users].
  apply build_users_lookup. by destruct Hwf.
Qed.

(** C6: [SafeRedirect] only returns a path of this origin. Its result is the
    given target or ["/"]; it starts with one slash that no second slash or
    backslash follows; it holds no backslash and no control character, so a
    browser that strips tabs and line breaks sees the same string; and checking
    it again returns it. *)
Theorem SafeRedirect_local p :
  let r := SafeRedirect p in
  (r = p ∨ r = "/") ∧
  (∃ t, r = "/" +:+ t ∧ HasPrefix t "/" = false ∧ HasPrefix t "\" = false) ∧
  (∀ a, in_string a r = true → (0x20 ≤ byteZ a)%Z ∧ byteZ a ≠ 92%Z ∧ byteZ a ≠ 0x7f%Z) ∧
  browser_strip r = r ∧ SafeRedirect r = r.
Proof.
  intros r. unfold r.
  assert (∀ a, in_string a (SafeRedirect p) = true →
            (0x20 ≤ byteZ a)%Z ∧ byteZ a ≠ 92%Z ∧ byteZ a ≠ 0x7f%Z) as Hb.
  { intros a Ha. destruct (SafeRedirect_cases p) as [Hr|(Hr & _ & Hf)]; rewrite Hr in Ha.
    - cbn [in_string] in Ha. rewrite orb_false_r in Ha. apply Ascii.eqb_eq in Ha as ->. done.
    - by apply (safe_bytes p). }
  split_and!; [| |done| |].
  - destruct (SafeRedirect_cases p) as [->|[-> _]]; auto.
  - destruct (SafeRedirect_cases p) as [->|(-> & (t & -> & Ht) & _)]; [by exists ""|].
    exists t. split; [done|]. destruct t as [|b t]; [done|]. simpl in Ht.
    apply orb_false_iff in Ht as [H1%Ascii.eqb_neq H2%Ascii.eqb_neq].
    split; by apply HasPrefix_first.
  - apply filter_str_in. intros a Ha. specialize (Hb a Ha). breflect. lia.
  - destruct (SafeRedirect_cases p) as [->|[H _]]; [apply SafeRedirect_root|by rewrite !H].
Qed.
End theorems.

(** ** Witnesses *)

Definition demo_runtime : Runtime :=
  match BuildRuntime demo_config with
  | Ok rt => rt
  | Err _ => mkRuntime demo_config demo_codec ∅ []
  end.

Definition demo_env : Env unit := mkEnv demo_runtime (Some tt) [].

Lemma demo_config_wf : wf_config demo_config.
Proof. apply Validate_nil. vm_compute. reflexivity. Qed.

Lemma demo_runtime_built : BuildRuntime demo_config = Ok demo_runtime.
Proof. vm_compute. reflexivity. Qed.

Definition demo_upstream (out : OutRequest) : option Response :=
  Some (write_body (out.(O_Target).(Host) +:+ out.(O_Path)) new_response).

(** A request that forges an identity, with the cookie of [demo_session]. *)
Definition demo_request (path : string) : Request :=
  mkRequest "GET" path path "console.example.com" false "10.0.0.7:4242"
    {[ "X-Forwarded-User" := ["root"]; "X-Forwarded-Groups" := ["admins"] ]}
    [("pgtoolbox_session", demo_sealed (Data_obj demo_session))] [] None.

Definition demo_route : Route :=
  mkRoute "/pgadmin" "dba" (mkURL "http" "127.0.0.1:5050" "" "127.0.0.1" "5050").

Lemma demo_request_canonical path : canonical_keys (R_Header (demo_request path)).
Proof.
  intros k vs. cbn [R_Header demo_request].
  by intros [[<- _]|[_ [<- _]%lookup_singleton_Some]]%lookup_insert_Some.
Qed.


Lemma authorised_is_forwarded_witness :
  Forwarded (handleProxied demo_upstream demo_env 0 (demo_request "/pgadmin/x") new_response)
    = Some (Rewrite demo_route (demo_request "/pgadmin/x") (Some demo_session)).
Proof.
  exact (proj1 (authorised_is_forwarded demo_env demo_upstream 0 (demo_request "/pgadmin/x")
    demo_route demo_session ltac:(vm_compute; reflexivity) ltac:(vm_compute; reflexivity))).
Defined.

Lemma matchRoute_longest_witness :
  matchRoute demo_runtime "/pgadmin/browser" = Some demo_route ∧
  ∃ rc, rc ∈ demo_config.(C_Routes) ∧ compiled rc demo_route.
Proof.
  assert (matchRoute demo_runtime "/pgadmin/browser" = Some demo_route) as Hm
    by (vm_compute; reflexivity).
  split; [exact Hm|].
  pose proof (matchRoute_longest demo_config demo_runtime "/pgadmin/browser"
    demo_config_wf demo_runtime_built) as H. rewrite Hm in H.
  destruct H as (rc & Hrc & Hc & _). by exists rc.
Defined.

Lemma LookupUser_exact_witness :
  ∃ u, LookupUser demo_env "ADMIN" = Some u ∧ u.(U_Level) = LevelDBA.
Proof.
  destruct (LookupUser_exact (C := unit) demo_config demo_config_wf) as (rt & Hrt & H).
  rewrite demo_runtime_built in Hrt. injection Hrt as <-.
  exists (mkUser "admin" LevelDBA "$2a$pw"). split; [|reflexivity].
  apply H; [reflexivity|]. split; [apply list_elem_of_here|vm_compute; reflexivity].
Defined.
