(* ===== verification/AccessRequest.v ===== *)
(** * The access-request form ([internal/proxy/server/accessrequest.go])

    The form of an identity the console does not know creates a
    [PgToolBoxAccessRequest]. The Kubernetes API is an argument: creating an
    object succeeds or fails with a class of error. *)

From S2P Require Import Prelude GoUtf8 GoStrings GoBytes GoLib ProxyConfig Http Pages Session Server.

Definition maxMessageRunes : nat := 1024.

(** The error classes of the API server the handler tells apart. *)
Inductive create_error := AlreadyExists | Conflict | OtherError.

Record PgToolBoxAccessRequest := mkPgToolBoxAccessRequest {
  AR_GenerateName : string;
  AR_ObjNamespace : string;
  AR_PgConsoleRef : string;
  AR_Subject : string;
  AR_Message : string
}.

(** [CreateAccessRequest(consoleName, namespace, subject, message)]. *)
Record AccessRequestCreator := mkCreator {
  CreateAccessRequest : string → string → string → string → option create_error
}.

(** [client] is [client.Create]. *)
Definition kubeAccessRequestCreator (client : PgToolBoxAccessRequest → option create_error) :
    AccessRequestCreator :=
  mkCreator (λ consoleName namespace subject message,
    client (mkPgToolBoxAccessRequest "pgreq-" namespace consoleName subject message)).

Definition truncateRunes (s : string) (max : nat) : string :=
  if RuneCountInString s <=? max then s else string_of_runes (take max (runes s)).

(** The answer, and the arguments of the creator's call if it was called. *)
Record AccessReply := mkAccessReply {
  Call : option (string * string * string * string);
  AccessAnswer : Response
}.

Section handler.
Context `{G : GoLib} `{T : Templates}.

Definition handleAccessRequest (e : Env AccessRequestCreator) (now : Time) (r : Request)
    (w : Response) : AccessReply :=
  let rt := e.(E_Runtime) in
  let arc := rt.(RT_Config).(C_AccessRequest) in
  match ReadCookie rt.(RT_Codec) now r rt.(RT_Config).(C_Session).(CookieName) with
  | Err _ => mkAccessReply None (Error Status.Unauthorized "Authentication is required." w)
  | Ok sess =>
      match (if arc.(Enabled) then e.(E_AccessRequests) else None) with
      | None => mkAccessReply None
                  (Error Status.Forbidden "Access requests are not enabled on this console." w)
      | Some creator =>
          match r.(R_Form) with
          | None => mkAccessReply None
                      (Error Status.BadRequest "The form could not be parsed." w)
          | Some form =>
              if negb (ValidCSRF rt.(RT_Codec) sess (value_of "csrf" form)) then
                mkAccessReply None
                  (Error Status.Forbidden
                     "The form token is invalid; reload the page and try again." w)
              else
                let message := truncateRunes (value_of "message" form) maxMessageRunes in
                let call := (arc.(ConsoleName), arc.(AR_Namespace), sess.(Subject), message) in
                let err := creator.(CreateAccessRequest) arc.(ConsoleName) arc.(AR_Namespace)
                             sess.(Subject) message in
                mkAccessReply (Some call)
                  (match err with
                   | Some OtherError =>
                       Error Status.InternalServerError
                         "Your request could not be recorded; please contact your administrator." w
                   | Some AlreadyExists | Some Conflict | None =>
                       Confirmation (mkConfirmationData sess.(Subject)) w
                   end)
          end
      end
  end.

(** ** Lemmas *)

Lemma truncateRunes_count s max : RuneCountInString (truncateRunes s max) ≤ max.
Proof.
  unfold truncateRunes. destruct (Nat.leb_spec (RuneCountInString s) max); [done|].
  unfold RuneCountInString. rewrite <-(length_fmap fst). change ((segments ?x).*1) with (runes x).
  rewrite runes_string_of_runes by (apply Forall_take, runes_valid).
  rewrite length_take. lia.
Qed.

Lemma truncateRunes_runes s max : runes (truncateRunes s max) = take max (runes s).
Proof.
  unfold truncateRunes. destruct (Nat.leb_spec (RuneCountInString s) max) as [H|H].
  - rewrite take_ge; [done|]. unfold runes. by rewrite length_fmap.
  - by rewrite runes_string_of_runes by (apply Forall_take, runes_valid).
Qed.

(** ** Theorems *)

(** C9: an access request is created only for a live session, with the form
    enabled and the session's own CSRF token in the form; it is created once,
    for the session's subject, in the configured namespace and console, with
    the first 1024 runes of the message. *)
Theorem access_request_guarded (e : Env AccessRequestCreator) now r w c n s m :
  Call (handleAccessRequest e now r w) = Some (c, n, s, m) →
  let rt := e.(E_Runtime) in let cfg := rt.(RT_Config) in
  ∃ d form, ReadCookie rt.(RT_Codec) now r cfg.(C_Session).(CookieName) = Ok d ∧
    d.(Subject) ≠ "" ∧ (Unix now < d.(Expiry))%Z ∧
    cfg.(C_AccessRequest).(Enabled) = true ∧ is_Some e.(E_AccessRequests) ∧
    r.(R_Form) = Some form ∧
    hex_DecodeString (value_of "csrf" form) = Some (hmac_SHA256 (key0 rt.(RT_Codec))
                                                    (d.(Subject) +:+ "|" +:+ Itoa d.(Expiry))) ∧
    c = cfg.(C_AccessRequest).(ConsoleName) ∧ n = cfg.(C_AccessRequest).(AR_Namespace) ∧
    s = d.(Subject) ∧ runes m = take maxMessageRunes (runes (value_of "message" form)) ∧
    RuneCountInString m ≤ maxMessageRunes.
Proof.
  unfold handleAccessRequest. cbv zeta.
  destruct (ReadCookie _ _ _ _) as [d|] eqn:Hd; [|done].
  destruct (Enabled _) eqn:Hen; [|done].
  destruct (E_AccessRequests e) as [creator|]; [|done].
  destruct (R_Form r) as [form|]; [|done].
  destruct (ValidCSRF _ d _) eqn:Hc; [|done]. cbn [negb Call]. intros [= <- <- <- <-].
  exists d, form. pose proof (ReadCookie_live _ _ _ _ _ Hd) as [Hs He].
  split_and!; try done.
  - unfold ValidCSRF, CSRFToken in Hc. rewrite hex_Decode_Encode in Hc.
    destruct (hex_DecodeString _); [|done]. by apply String.eqb_eq in Hc as ->.
  - apply truncateRunes_runes.
  - apply truncateRunes_count.
Qed.
End handler.

(** ** Witness *)

Definition demo_creator : AccessRequestCreator := kubeAccessRequestCreator (λ _, None).

Definition demo_access_env : Env AccessRequestCreator := mkEnv demo_runtime (Some demo_creator) [].

Definition demo_access_form : list (string * string) :=
  [("csrf", CSRFToken demo_codec demo_session); ("message", "please")].

Definition demo_access_request : Request :=
  mkRequest "POST" accessReqPath accessReqPath "console.example.com" false "10.0.0.7:4242" ∅
    [("pgtoolbox_session", demo_sealed (Data_obj demo_session))] [] (Some demo_access_form).

Lemma access_request_guarded_witness :
  Call (handleAccessRequest demo_access_env 0 demo_access_request new_response)
    = Some ("console", "ns", "admin", "please") ∧
  RuneCountInString "please" ≤ maxMessageRunes.
Proof.
  assert (Call (handleAccessRequest demo_access_env 0 demo_access_request new_response)
    = Some ("console", "ns", "admin", "please")) as H by (vm_compute; reflexivity).
  split; [exact H|].
  destruct (access_request_guarded _ _ _ _ _ _ _ _ H)
    as (d & form & _ & _ & _ & _ & _ & _ & _ & _ & _ & _ & _ & Hm). exact Hm.
Defined.
