(* ===== verification/Local.v ===== *)
(** * The local authentication provider ([internal/proxy/local])

    The login form, its submission against the operator-rendered bcrypt
    hashes, and the failure rate limiter. A request reads the clock once. *)

From S2P Require Import Prelude GoUtf8 GoStrings GoBytes GoLib ProxyConfig Http Pages Session Server.

Definition maxFailures : Z := 10.
Definition window : Duration := Minute.

(** ** The rate limiter *)

Record rateEntry := mkRateEntry { windowStart : Time; count : Z }.

Abbreviation rateLimiter := (gmap string rateEntry).

Definition newRateLimiter : rateLimiter := ∅.

Definition allow (rl : rateLimiter) (now : Time) (ip : string) : bool :=
  match rl !! ip with
  | None => true
  | Some e => if (window <=? now - e.(windowStart))%Z then true else (e.(count) <? maxFailures)%Z
  end.

Definition fail (rl : rateLimiter) (now : Time) (ip : string) : rateLimiter :=
  match rl !! ip with
  | None => <[ip := mkRateEntry now 1]> rl
  | Some e =>
      if (window <=? now - e.(windowStart))%Z then <[ip := mkRateEntry now 1]> rl
      else <[ip := mkRateEntry e.(windowStart) (e.(count) + 1)]> rl
  end.

Definition reset (rl : rateLimiter) (ip : string) : rateLimiter := delete ip rl.

(** ** The provider *)

Record Provider (C : Type) := mkProvider {
  P_env : Env C;
  P_limiter : rateLimiter;
  P_dummyHash : string
}.
Arguments mkProvider {C} _ _ _.
Arguments P_env {C} _.
Arguments P_limiter {C} _.
Arguments P_dummyHash {C} _.

Definition dummyPassword : string := "pgtoolbox-dummy-password".

Definition clientIP (r : Request) : string :=
  match SplitHostPort r.(R_RemoteAddr) with
  | None => r.(R_RemoteAddr)
  | Some (host, _) => host
  end.

Definition Register (mux : Mux) : Mux :=
  mux ++ [("GET", "/auth/local/login", LocalForm); ("POST", "/auth/local/login", LocalSubmit)].

(** A submission: its time, the randomness of its session cookie, the request. *)
Abbreviation event := (Time * string * Request)%type.

Section provider.
Context `{G : GoLib} `{T : Templates} {C : Type}.

(** [New]; [salt] is the randomness of [bcrypt.GenerateFromPassword]. *)
Definition NewProvider (salt : string) (e : Env C) : Provider C :=
  mkProvider e newRateLimiter (bcrypt_Generate salt dummyPassword).

Definition handleForm (p : Provider C) (r : Request) (w : Response) : Response :=
  Login Status.OK (mkLoginData (SafeRedirect (Query_Get r "rd")) ""
                     (ExternalLogins p.(P_env))) w.

Definition with_limiter (p : Provider C) (rl : rateLimiter) : Provider C :=
  mkProvider p.(P_env) rl p.(P_dummyHash).

(** The hash the password is compared with. *)
Definition hash_for (p : Provider C) (user : option User) : string :=
  match user with
  | Some u => if is_empty u.(U_LocalPasswordBcrypt) then p.(P_dummyHash)
              else u.(U_LocalPasswordBcrypt)
  | None => p.(P_dummyHash)
  end.

Definition handleSubmit (p : Provider C) (now : Time) (nonce : string) (r : Request)
    (w : Response) : Response * Provider C :=
  let ip := clientIP r in
  if negb (allow p.(P_limiter) now ip) then
    (Error Status.TooManyRequests "Too many failed attempts; try again later." w, p)
  else
    match r.(R_Form) with
    | None => (Error Status.BadRequest "The form could not be parsed." w, p)
    | Some form =>
        let rd := SafeRedirect (value_of "rd" form) in
        let subject := lower (TrimSpace (value_of "username" form)) in
        let password := value_of "password" form in
        let user := LookupUser p.(P_env) subject in
        match bcrypt_Compare (hash_for p user) password, user with
        | true, Some u =>
            let p := with_limiter p (reset p.(P_limiter) ip) in
            match IssueSession p.(P_env) now nonce subject u.(U_Level) ModeLocal w with
            | Err _ =>
                (Error Status.InternalServerError "The session could not be created." w, p)
            | Ok w => (Redirect rd Status.Found w, p)
            end
        | _, _ =>
            (Login Status.Unauthorized
               (mkLoginData rd "Invalid identity or password." (ExternalLogins p.(P_env))) w,
             with_limiter p (fail p.(P_limiter) now ip))
        end
    end.

(** Whether the submitted credentials are accepted, apart from the limiter. *)
Definition accepted_user (p : Provider C) (form : list (string * string)) : option User :=
  u ← LookupUser p.(P_env) (lower (TrimSpace (value_of "username" form)));
  if bcrypt_Compare (hash_for p (Some u)) (value_of "password" form) then Some u else None.

(** ** The limiter, one address at a time *)

Definition entry_allow (o : option rateEntry) (now : Time) : bool :=
  match o with
  | None => true
  | Some e => if (window <=? now - e.(windowStart))%Z then true else (e.(count) <? maxFailures)%Z
  end.

Definition entry_fail (o : option rateEntry) (now : Time) : rateEntry :=
  match o with
  | None => mkRateEntry now 1
  | Some e => if (window <=? now - e.(windowStart))%Z then mkRateEntry now 1
              else mkRateEntry e.(windowStart) (e.(count) + 1)
  end.

Lemma fail_entry rl now ip : fail rl now ip = <[ip := entry_fail (rl !! ip) now]> rl.
Proof. unfold fail, entry_fail. destruct (rl !! ip) as [e|]; [by case_if|done]. Qed.

(** How many failing attempts at the times [ts] pass the limiter. *)
Fixpoint passed (o : option rateEntry) (ts : list Time) : Z :=
  match ts with
  | [] => 0
  | t :: ts => if entry_allow o t then 1 + passed (Some (entry_fail o t)) ts else passed o ts
  end%Z.

(** Inside the limiter's own window. *)
Lemma passed_window e ts :
  (e.(count) ≤ maxFailures)%Z → Forall (λ t, t < e.(windowStart) + window)%Z ts →
  (passed (Some e) ts ≤ maxFailures - e.(count))%Z.
Proof.
  revert e. induction ts as [|t ts IH]; intros e Hc Ht; [simpl; lia|].
  apply Forall_cons in Ht as [Ht Hts]. cbn [passed entry_allow entry_fail].
  destruct (Z.leb_spec window (t - windowStart e)); [lia|].
  destruct (Z.ltb_spec (count e) maxFailures); [|by apply IH].
  specialize (IH (mkRateEntry e.(windowStart) (e.(count) + 1))). simpl in IH.
  specialize (IH ltac:(lia) Hts). lia.
Qed.

(** Over any interval of the window's length: the rest of the current window
    and one full window. *)
Lemma passed_interval o ts t0 :
  Forall (λ t, t0 ≤ t < t0 + window)%Z ts →
  (from_option count 1 o ≤ maxFailures)%Z →
  (passed o ts ≤ maxFailures - from_option count 1 o + maxFailures)%Z.
Proof.
  revert o. induction ts as [|t ts IH]; intros o Ht Hc; [simpl; unfold maxFailures in *; lia|].
  apply Forall_cons in Ht as [Ht Hts].
  assert (passed (Some (mkRateEntry t 1)) ts ≤ maxFailures - 1)%Z as Hnew.
  { apply (passed_window (mkRateEntry t 1)); [done|]. eapply Forall_impl; [exact Hts|].
    simpl. lia. }
  destruct o as [e|]; cbn [passed entry_allow entry_fail from_option] in *; [|lia].
  destruct (window <=? t - windowStart e)%Z; [lia|].
  destruct (Z.ltb_spec (count e) maxFailures); [|by apply (IH (Some e))].
  specialize (IH (Some (mkRateEntry e.(windowStart) (e.(count) + 1))) Hts). simpl in IH.
  specialize (IH ltac:(lia)). lia.
Qed.

(** ** Traces of submissions *)

(** The submission's password is compared: the limiter lets it through and its
    form parses. *)
Definition compared (p : Provider C) (now : Time) (r : Request) : bool :=
  allow p.(P_limiter) now (clientIP r) && bool_decide (is_Some r.(R_Form)).

(** The passwords that are tried for [ip] over a trace. *)
Fixpoint guesses (p : Provider C) (ip : string) (evs : list event) : Z :=
  match evs with
  | [] => 0
  | (now, nonce, r) :: evs =>
      (if compared p now r && bool_decide (clientIP r = ip) then 1 else 0) +
      guesses (handleSubmit p now nonce r new_response).2 ip evs
  end%Z.

Definition rejected (p : Provider C) (r : Request) : Prop :=
  ∀ form, r.(R_Form) = Some form → accepted_user p form = None.

Lemma accepted_user_Some p form u :
  accepted_user p form = Some u ↔
  LookupUser p.(P_env) (lower (TrimSpace (value_of "username" form))) = Some u ∧
  bcrypt_Compare (hash_for p (Some u)) (value_of "password" form) = true.
Proof.
  unfold accepted_user. rewrite bind_Some. split.
  - intros (v & Hv & H). case_in H; [|done]. by injection H as ->.
  - intros [Hu Hb]. exists u. by rewrite Hb.
Qed.

(** The three outcomes of a submission whose form was read. *)
Lemma handleSubmit_eq p now nonce r w form :
  allow p.(P_limiter) now (clientIP r) = true → r.(R_Form) = Some form →
  let rd := SafeRedirect (value_of "rd" form) in
  let subject := lower (TrimSpace (value_of "username" form)) in
  handleSubmit p now nonce r w =
  match accepted_user p form with
  | Some u =>
      let p' := with_limiter p (reset p.(P_limiter) (clientIP r)) in
      match IssueSession p.(P_env) now nonce subject u.(U_Level) ModeLocal w with
      | Err _ => (Error Status.InternalServerError "The session could not be created." w, p')
      | Ok w => (Redirect rd Status.Found w, p')
      end
  | None =>
      (Login Status.Unauthorized
         (mkLoginData rd "Invalid identity or password." (ExternalLogins p.(P_env))) w,
       with_limiter p (fail p.(P_limiter) now (clientIP r)))
  end.
Proof.
  intros Ha Hf. unfold handleSubmit, accepted_user. rewrite Ha, Hf. cbn [negb]. cbv zeta.
  destruct (LookupUser _ _) as [u|]; simpl.
  - by destruct (bcrypt_Compare _ _).
  - by destruct (bcrypt_Compare _ _).
Qed.

(** A submission from another address leaves the entry of [ip] alone, and one
    that is rejected leaves the rest of the provider alone. *)
Lemma handleSubmit_provider p now nonce r :
  let p' := (handleSubmit p now nonce r new_response).2 in
  p'.(P_env) = p.(P_env) ∧ p'.(P_dummyHash) = p.(P_dummyHash) ∧
  (∀ ip, clientIP r ≠ ip → p'.(P_limiter) !! ip = p.(P_limiter) !! ip) ∧
  (rejected p r → p'.(P_limiter) !! clientIP r =
     if compared p now r then Some (entry_fail (p.(P_limiter) !! clientIP r) now)
     else p.(P_limiter) !! clientIP r).
Proof.
  cbv zeta. unfold compared. destruct (allow (P_limiter p) now (clientIP r)) eqn:Ha.
  - destruct (R_Form r) as [form|] eqn:Hf.
    + rewrite (handleSubmit_eq p now nonce r _ form Ha Hf).
      destruct (accepted_user p form) as [u|] eqn:Hu.
      * split_and!; [by destruct (IssueSession _ _ _ _ _ _ _)..| |].
        -- intros ip Hne. by destruct (IssueSession _ _ _ _ _ _ _); simpl; apply lookup_delete_ne.
        -- intros Hr. rewrite (Hr form) in Hu; done.
      * cbn [snd with_limiter P_env P_dummyHash P_limiter]. rewrite fail_entry.
        split_and!; [done..| |].
        -- intros ip Hne. by apply lookup_insert_ne.
        -- intros _. apply lookup_insert_eq.
    + unfold handleSubmit. by rewrite Ha, Hf.
  - unfold handleSubmit. by rewrite Ha.
Qed.

Lemma guesses_passed p ip evs :
  (∀ now nonce r, (now, nonce, r) ∈ evs → clientIP r = ip → rejected p r) →
  guesses p ip evs =
  passed (p.(P_limiter) !! ip)
    (omap (λ '(now, _, r), if bool_decide (clientIP r = ip) && bool_decide (is_Some r.(R_Form))
                           then Some now else None) evs).
Proof.
  revert p. induction evs as [|[[now nonce] r] evs IH]; intros p Hrej; [done|].
  cbn [guesses omap list_omap].
  destruct (handleSubmit_provider p now nonce r) as (He & Hd & Hother & Hself).
  rewrite IH.
  2:{ intros now' nonce' r' Hin Hip form Hf. unfold accepted_user, hash_for. rewrite He, Hd.
      eapply Hrej; [by apply list_elem_of_further|done..]. }
  destruct (decide (clientIP r = ip)) as [Hip|Hne].
  - rewrite (bool_decide_true (clientIP r = ip)) by done. rewrite andb_true_r. cbn [andb].
    subst ip. rewrite Hself by (eapply Hrej; [apply list_elem_of_here|done]).
    unfold compared. destruct (decide (is_Some (R_Form r))) as [Hf|Hf].
    + rewrite bool_decide_true, andb_true_r by done. cbn [passed].
      change (allow (P_limiter p) now (clientIP r))
        with (entry_allow (P_limiter p !! clientIP r) now).
      by destruct (entry_allow _ _).
    + by rewrite bool_decide_false, andb_false_r by done.
  - rewrite (bool_decide_false (clientIP r = ip)) by done. rewrite andb_false_r. cbn [andb].
    rewrite Hother by done. done.
Qed.

Lemma IssueSession_cookies (e : Env C) now nonce subject level mode w w' :
  IssueSession e now nonce subject level mode w = Ok w' →
  ∃ v, Seal e.(E_Runtime).(RT_Codec) nonce
         (Data_obj (NewData now subject level mode e.(E_Runtime).(RT_Config).(C_Session).(MaxAge)))
       = Ok v ∧
       let s := e.(E_Runtime).(RT_Config).(C_Session) in
       w' = SetCookie (session_cookie s.(CookieName) v (CookieSecure s) (seconds s.(MaxAge))) w.
Proof.
  unfold IssueSession, SetSessionCookie. rewrite bind_Ok. intros (v & Hv & [= <-]). by exists v.
Qed.
(** ** Theorems *)

(** C4: a local login mints a session only for a configured user whose hash the
    password matches, while the limiter lets the address through. The cookie
    seals that user's level under the normalised name, and the browser is sent
    to the checked target. The one exception is a user without a hash: the
    password is then compared with the provider's dummy hash. *)
Theorem login_sound p now nonce r w p' :
  handleSubmit p now nonce r new_response = (w, p') → W_Cookies w ≠ [] →
  ∃ form u,
    let subject := lower (TrimSpace (value_of "username" form)) in
    let s := p.(P_env).(E_Runtime).(RT_Config).(C_Session) in
    allow p.(P_limiter) now (clientIP r) = true ∧ r.(R_Form) = Some form ∧
    LookupUser p.(P_env) subject = Some u ∧
    bcrypt_Compare (if is_empty u.(U_LocalPasswordBcrypt) then p.(P_dummyHash)
                    else u.(U_LocalPasswordBcrypt)) (value_of "password" form) = true ∧
    W_Redirect w = Some (SafeRedirect (value_of "rd" form)) ∧
    ∃ v, Seal p.(P_env).(E_Runtime).(RT_Codec) nonce
           (Data_obj (NewData now subject u.(U_Level) ModeLocal s.(MaxAge))) = Ok v ∧
         W_Cookies w = [session_cookie s.(CookieName) v (CookieSecure s) (seconds s.(MaxAge))].
Proof.
  intros Hs Hc. destruct (allow (P_limiter p) now (clientIP r)) eqn:Ha.
  2:{ unfold handleSubmit in Hs. rewrite Ha in Hs. injection Hs as <- _.
      unfold Error in Hc. by rewrite render_cookies in Hc. }
  destruct (R_Form r) as [form|] eqn:Hf.
  2:{ unfold handleSubmit in Hs. rewrite Ha, Hf in Hs. injection Hs as <- _.
      unfold Error in Hc. by rewrite render_cookies in Hc. }
  rewrite (handleSubmit_eq p now nonce r _ form Ha Hf) in Hs.
  destruct (accepted_user p form) as [u|] eqn:Hu.
  2:{ injection Hs as <- _. unfold Login in Hc. by rewrite render_cookies in Hc. }
  apply accepted_user_Some in Hu as [Hu Hb].
  destruct (IssueSession _ _ _ _ _ _ _) as [w'|] eqn:Hi; injection Hs as <- _.
  2:{ unfold Error in Hc. by rewrite render_cookies in Hc. }
  apply IssueSession_cookies in Hi as (v & Hv & ->). exists form, u. cbv zeta.
  unfold SetCookie in *. cbn [new_response W_Status] in *.
  destruct (cookie_name_ok _); [|done]. split_and!; try done. by exists v.
Qed.

(** A rejected submission says nothing of the account: unknown user, known
    user with a wrong password and a missing form field all get the same
    answer and the same limiter update, and no session. *)
Theorem login_failure_uniform p now nonce nonce' r r' form form' :
  clientIP r = clientIP r' → allow p.(P_limiter) now (clientIP r) = true →
  r.(R_Form) = Some form → r'.(R_Form) = Some form' →
  value_of "rd" form = value_of "rd" form' →
  accepted_user p form = None → accepted_user p form' = None →
  handleSubmit p now nonce r new_response = handleSubmit p now nonce' r' new_response ∧
  W_Cookies (handleSubmit p now nonce r new_response).1 = [].
Proof.
  intros Hip Ha Hf Hf' Hrd Hn Hn'.
  rewrite (handleSubmit_eq p now nonce r _ form Ha Hf), Hn.
  rewrite Hip in Ha. rewrite (handleSubmit_eq p now nonce' r' _ form' Ha Hf'), Hn', Hrd, Hip.
  split; [done|]. cbn [fst]. unfold Login. by rewrite render_cookies.
Qed.


(** C2: the dummy password opens an account that has no password. [New] hashes
    the constant ["pgtoolbox-dummy-password"]; a known user without a hash is
    compared against it and then accepted, so that constant signs in as any
    user of an identity provider once local accounts are enabled too. *)
Theorem dummy_password_signs_in `{L : !GoLibLaws G} salt (e : Env C) now nonce r form u :
  let s := e.(E_Runtime).(RT_Config).(C_Session) in
  let subject := lower (TrimSpace (value_of "username" form)) in
  r.(R_Form) = Some form → value_of "password" form = dummyPassword →
  LookupUser e subject = Some u → u.(U_LocalPasswordBcrypt) = "" →
  aes_key_ok (key0 e.(E_Runtime).(RT_Codec)) = true → cookie_name_ok s.(CookieName) = true →
  ∃ v, Seal e.(E_Runtime).(RT_Codec) nonce
         (Data_obj (NewData now subject u.(U_Level) ModeLocal s.(MaxAge))) = Ok v ∧
       W_Cookies (handleSubmit (NewProvider salt e) now nonce r new_response).1 =
         [session_cookie s.(CookieName) v (CookieSecure s) (seconds s.(MaxAge))].
Proof.
  cbv zeta. intros Hf Hpw Hu Hh Hk Hn.
  assert (accepted_user (NewProvider salt e) form = Some u) as Hacc.
  { apply accepted_user_Some. split; [done|]. unfold hash_for. rewrite Hh, Hpw.
    apply bcrypt_generate. }
  rewrite (handleSubmit_eq (NewProvider salt e) now nonce r _ form eq_refl Hf), Hacc. cbn [P_env NewProvider].
  unfold IssueSession, SetSessionCookie, Seal. rewrite Hk. eexists. split; [done|]. simpl.
  unfold SetCookie. simpl. by rewrite Hn.
Qed.
End provider.

(** ** Witnesses *)

Definition demo_provider : Provider unit := NewProvider "salt" demo_env.

Definition demo_post (user password : string) : Request :=
  mkRequest "POST" "/auth/local/login" "/auth/local/login" "console.example.com" false
    "10.0.0.7:4242" ∅ [] [] (Some [("username", user); ("password", password); ("rd", "/pgadmin")]).

Lemma login_sound_witness :
  ∃ w p', handleSubmit demo_provider 0 demo_nonce (demo_post " Admin " "pw") new_response = (w, p') ∧
    W_Redirect w = Some "/pgadmin".
Proof.
  destruct (handleSubmit demo_provider 0 demo_nonce (demo_post " Admin " "pw") new_response)
    as [w p'] eqn:H.
  exists w, p'. split; [reflexivity|].
  assert (W_Cookies w ≠ []) as Hc.
  { change w with (w, p').1. rewrite <-H. vm_compute. intros Hd. discriminate Hd. }
  destruct (login_sound demo_provider 0 demo_nonce (demo_post " Admin " "pw") w p' H Hc)
    as (form & u & _ & Hf & _ & _ & Hr & _).
  injection Hf as <-. rewrite Hr. vm_compute. reflexivity.
Defined.

Lemma login_failure_uniform_witness :
  handleSubmit demo_provider 0 demo_nonce (demo_post "admin" "wrong") new_response =
  handleSubmit demo_provider 0 demo_nonce (demo_post "nobody" "pw") new_response.
Proof.
  apply (login_failure_uniform demo_provider 0 demo_nonce demo_nonce
    (demo_post "admin" "wrong") (demo_post "nobody" "pw")
    [("username", "admin"); ("password", "wrong"); ("rd", "/pgadmin")]
    [("username", "nobody"); ("password", "pw"); ("rd", "/pgadmin")]); vm_compute; reflexivity.
Defined.

Definition demo_attack : list event :=
  (λ n, ((Z.of_nat n * Second)%Z, demo_nonce, demo_post "admin" "wrong")) <$> seq 0 30.


Lemma dummy_password_signs_in_witness :
  ∃ v, W_Cookies (handleSubmit (NewProvider "salt" demo_env) 0 demo_nonce
         (demo_post "bob" "pgtoolbox-dummy-password") new_response).1 =
       [session_cookie "pgtoolbox_session" v true 28800].
Proof.
  destruct (dummy_password_signs_in "salt" demo_env 0 demo_nonce
    (demo_post "bob" "pgtoolbox-dummy-password")
    [("username", "bob"); ("password", "pgtoolbox-dummy-password"); ("rd", "/pgadmin")]
    (mkUser "bob" LevelView "")) as (v & _ & Hv); try (vm_compute; reflexivity).
  exists v. rewrite Hv. vm_compute. reflexivity.
Defined.
