(* ===== verification/OAuth.v ===== *)
(** * What the two OAuth providers share

    The [oauth2], [go-oidc] and HTTP client calls the providers make are the
    fields of [OAuthLib]: each is the outcome of that call. The transient
    cookie that carries a login flow, its name, its clearing and the random
    tokens are the same in [internal/proxy/oidc] and [internal/proxy/openshift]. *)

From S2P Require Import Prelude GoUtf8 GoStrings GoBytes GoLib ProxyConfig Http Pages Session Server.

(** [oauth2.Config]. *)
Record OAuth2Config := mkOAuth2Config {
  OA_ClientID : string;
  OA_ClientSecret : string;
  OA_AuthURL : string;
  OA_TokenURL : string;
  OA_RedirectURL : string;
  OA_Scopes : list string
}.

(** [oauth2.Token] with the [id_token] of its extra fields, when a string. *)
Record Token := mkToken { AccessToken : string; Extra_id_token : option string }.

(** A verified [oidc.IDToken]; [IDClaims] is [None] when the claims cannot be
    decoded. *)
Record IDToken := mkIDToken { IDNonce : string; IDClaims : option (list (string * JVal)) }.

Class OAuthLib := {
  (** [oidc.NewProvider]: the authorization and token endpoints of an issuer *)
  oidc_NewProvider : string → option (string * string);
  (** [Config.AuthCodeURL(state, options)] *)
  AuthCodeURL : OAuth2Config → string → list (string * string) → string;
  (** [oauth2.S256ChallengeFromVerifier] *)
  S256Challenge : string → string;
  (** [Config.Exchange(code, verifier)] *)
  Exchange : OAuth2Config → string → string → result (option RetrieveError) Token;
  (** [IDTokenVerifier.Verify] for a client, of a raw token *)
  Verify : string → string → option IDToken;
  (** [http.Client.Do] of a GET with an optional bearer token: status, body *)
  http_Get : string → option string → option (Z * string);
  (** decoding of an OpenShift User: [metadata.name] *)
  json_userInfo : string → option string;
  (** [os.ReadFile] *)
  ReadFile : string → option string
}.

Definition transientMaxAge : Duration := 10 * Minute.

Definition transientCookieName (rt : Runtime) : string :=
  rt.(RT_Config).(C_Session).(CookieName) +:+ "_oauth".

(** [b] is what [rand.Read] put into the 32-byte buffer. *)
Definition randomToken (b : string) : string := RawURL_EncodeToString b.

Definition set_transient (rt : Runtime) (v : string) (w : Response) : Response :=
  SetCookie (session_cookie (transientCookieName rt) v (CookieSecure rt.(RT_Config).(C_Session))
               (seconds transientMaxAge)) w.

(** The [clear] closure of the callbacks. *)
Definition clear_transient (rt : Runtime) (w : Response) : Response :=
  SetCookie (session_cookie (transientCookieName rt) "" (CookieSecure rt.(RT_Config).(C_Session))
               (-1)) w.

(** The cookie [clear_transient] sends. *)
Definition cleared (rt : Runtime) : Cookie :=
  session_cookie (transientCookieName rt) "" (CookieSecure rt.(RT_Config).(C_Session)) (-1).

(** ** Lemmas *)

Lemma cookie_name_ok_app n t :
  cookie_name_ok n = true → all_bytes token_byte t = true → cookie_name_ok (n +:+ t) = true.
Proof.
  unfold cookie_name_ok. rewrite !andb_true_iff, !negb_true, !String.eqb_neq.
  intros [Hn Ha] Ht. split; [by destruct n|]. clear Hn.
  induction n as [|a n IH]; [done|]. rewrite append_cons. simpl in *.
  apply andb_true_iff in Ha as [-> Ha]. by apply IH.
Qed.

Lemma SetCookie_new k w :
  cookie_name_ok k.(K_Name) = true → W_Status w = None →
  W_Cookies (SetCookie k w) = W_Cookies w ++ [k] ∧ W_Status (SetCookie k w) = None ∧
  W_Redirect (SetCookie k w) = W_Redirect w.
Proof. intros Hn Hw. unfold SetCookie. by rewrite Hw, Hn. Qed.

Section oauth.
Context `{T : Templates}.

(** The [fail] closure of the callbacks. *)
Definition fail_flow (rt : Runtime) (status : Z) (msg : string) (w : Response) : Response :=
  Error status msg (clear_transient rt w).

(** A failed flow clears the transient cookie and grants nothing. *)
Lemma fail_flow_spec rt status msg :
  cookie_name_ok rt.(RT_Config).(C_Session).(CookieName) = true →
  let w := fail_flow rt status msg new_response in
  W_Redirect w = None ∧
  W_Cookies w = [session_cookie (transientCookieName rt) ""
                   (CookieSecure rt.(RT_Config).(C_Session)) (-1)].
Proof.
  intros Hn. cbv zeta. unfold fail_flow, Error. rewrite render_redirect, render_cookies.
  unfold clear_transient. destruct (SetCookie_new (session_cookie (transientCookieName rt) ""
    (CookieSecure (C_Session (RT_Config rt))) (-1)) new_response) as (-> & _ & ->); try done.
  by apply cookie_name_ok_app.
Qed.

Context `{G : GoLib} {C : Type}.

(** The success branch writes the session and clears the transient cookie. *)
Lemma finish_flow (e : Env C) now nonce subject level mode rd w :
  let rt := e.(E_Runtime) in
  let s := rt.(RT_Config).(C_Session) in
  cookie_name_ok s.(CookieName) = true →
  IssueSession e now nonce subject level mode new_response = Ok w →
  ∃ v, Seal rt.(RT_Codec) nonce (Data_obj (NewData now subject level mode s.(MaxAge))) = Ok v ∧
    W_Redirect (Redirect rd Status.Found (clear_transient rt w)) = Some rd ∧
    W_Cookies (Redirect rd Status.Found (clear_transient rt w)) =
      [session_cookie s.(CookieName) v (CookieSecure s) (seconds s.(MaxAge)); cleared rt].
Proof.
  cbv zeta. intros Hn. unfold IssueSession, SetSessionCookie. rewrite bind_Ok.
  intros (v & Hv & [= <-]). exists v. split; [done|].
  unfold clear_transient, transientCookieName, SetCookie. simpl. rewrite Hn. simpl.
  rewrite cookie_name_ok_app by done. done.
Qed.
End oauth.

(** Collaborators that accept everything: the code is the ID token, and the ID
    token is its nonce. *)
#[export] Instance demo_oauth : OAuthLib := {|
  oidc_NewProvider := λ iss, Some (iss +:+ "/auth", iss +:+ "/token");
  AuthCodeURL := λ c st _, c.(OA_AuthURL) +:+ "?state=" +:+ st;
  S256Challenge := λ v, v;
  Exchange := λ _ code _, Ok (mkToken code (Some code));
  Verify := λ _ raw, Some (mkIDToken raw (Some [("email", JStr "Admin")]));
  http_Get := λ url tok, Some (200%Z, default url tok);
  json_userInfo := Some;
  ReadFile := λ path, Some path
|}.
