(* ===== verification/Oidc.v ===== *)
(** * The OIDC provider ([internal/proxy/oidc])

    The authorization-code flow with PKCE, state and nonce: the login redirect,
    the sealed transient cookie and the callback. *)

From S2P Require Import Prelude GoUtf8 GoStrings GoBytes GoLib ProxyConfig Http Pages Session.
From S2P Require Import Server OAuth.

Record transient := mkTransient {
  T_State : string;
  T_Nonce : string;
  T_Verifier : string;
  T_RedirectTo : string;
  T_Expiry : Z
}.

Definition transient_obj (t : transient) : JObj :=
  [("state", JStr t.(T_State)); ("nonce", JStr t.(T_Nonce)); ("verifier", JStr t.(T_Verifier));
   ("rd", JStr t.(T_RedirectTo)); ("exp", JNum t.(T_Expiry))].

Definition transient_of_obj (o : JObj) : option transient :=
  s ← json_string o "state"; n ← json_string o "nonce"; v ← json_string o "verifier";
  rd ← json_string o "rd"; e ← json_int64 o "exp"; Some (mkTransient s n v rd e).

Record Provider (C : Type) := mkProvider {
  P_env : Env C;
  P_oauth2 : OAuth2Config;
  P_subjectClaim : string
}.
Arguments mkProvider {C} _ _ _.
Arguments P_env {C} _.
Arguments P_oauth2 {C} _.
Arguments P_subjectClaim {C} _.

Definition callbackPath : string := "/auth/oidc/callback".

Definition Register (mux : Mux) : Mux :=
  mux ++ [("GET", "/auth/oidc/login", OIDCLogin); ("GET", callbackPath, OIDCCallback)].

(** The scheme and host the client used. *)
Definition requestOrigin (r : Request) : string :=
  let proto := Header_Get r.(R_Header) "X-Forwarded-Proto" in
  let scheme := if is_empty proto then if r.(R_TLS) then "https" else "http" else proto in
  let fhost := Header_Get r.(R_Header) "X-Forwarded-Host" in
  scheme +:+ "://" +:+ (if is_empty fhost then r.(R_Host) else fhost).

Definition with_redirect (c : OAuth2Config) (u : string) : OAuth2Config :=
  mkOAuth2Config c.(OA_ClientID) c.(OA_ClientSecret) c.(OA_AuthURL) c.(OA_TokenURL) u c.(OA_Scopes).

Definition configFor {C} (p : Provider C) (r : Request) : OAuth2Config :=
  if is_empty p.(P_oauth2).(OA_RedirectURL)
  then with_redirect p.(P_oauth2) (requestOrigin r +:+ callbackPath)
  else p.(P_oauth2).

Definition claim_string (claims : list (string * JVal)) (k : string) : string :=
  match first_such (λ p, String.eqb p.1 k) (rev claims) with
  | Some (_, JStr s) => s
  | _ => ""
  end.

Section provider.
Context `{G : GoLib} `{T : Templates} `{O : OAuthLib} {C : Type}.

(** [None] is a failed discovery of the issuer. *)
Definition NewProvider (e : Env C) (cfg : OIDCConfig) (clientSecret : string) :
    option (Provider C) :=
  '(authURL, tokenURL) ← oidc_NewProvider cfg.(OIDC_IssuerURL);
  Some (mkProvider e
          (mkOAuth2Config cfg.(OIDC_ClientID) clientSecret authURL tokenURL
             cfg.(OIDC_RedirectURL) cfg.(OIDC_Scopes))
          cfg.(OIDC_SubjectClaim)).

(** The flow state [handleLogin] seals; [b1], [b2] and [verifier] are random. *)
Definition new_transient (now : Time) (b1 b2 verifier : string) (r : Request) : transient :=
  mkTransient (randomToken b1) (randomToken b2) verifier (SafeRedirect (Query_Get r "rd"))
    (Unix (now + transientMaxAge)).

Definition handleLogin (p : Provider C) (now : Time) (nonce b1 b2 verifier : string)
    (r : Request) (w : Response) : Response :=
  let rt := p.(P_env).(E_Runtime) in
  let t := new_transient now b1 b2 verifier r in
  match Seal rt.(RT_Codec) nonce (transient_obj t) with
  | Err _ => Error Status.InternalServerError "The login flow could not be started." w
  | Ok v =>
      let w := set_transient rt v w in
      let url := AuthCodeURL (configFor p r) t.(T_State)
                   [("nonce", t.(T_Nonce)); ("code_challenge", S256Challenge t.(T_Verifier))] in
      Redirect url Status.Found w
  end.

Definition readTransient (rt : Runtime) (now : Time) (r : Request) : option transient :=
  v ← Request_Cookie r (transientCookieName rt);
  match Open rt.(RT_Codec) transient_of_obj v with
  | Err _ => None
  | Ok t =>
      if (t.(T_Expiry) <=? Unix now)%Z || is_empty t.(T_State) || is_empty t.(T_Nonce)
         || is_empty t.(T_Verifier) then None
      else Some t
  end.

Definition handleCallback (p : Provider C) (now : Time) (nonce : string) (r : Request)
    (w : Response) : Response :=
  let rt := p.(P_env).(E_Runtime) in
  let fail := fail_flow rt in
  if negb (is_empty (Query_Get r "error")) then
    fail Status.BadRequest "The identity provider returned an error." w
  else
    match readTransient rt now r with
    | None => fail Status.BadRequest "The login flow expired; please try again." w
    | Some t =>
        if negb (String.eqb (Query_Get r "state") t.(T_State)) then
          fail Status.BadRequest "Login state mismatch; please try again." w
        else
          match Exchange (configFor p r) (Query_Get r "code") t.(T_Verifier) with
          | Err err => let '(status, message) := ExchangeFailure err in fail status message w
          | Ok token =>
              let rawIDToken := default "" token.(Extra_id_token) in
              if is_empty rawIDToken then
                fail Status.BadGateway "The identity provider did not return an ID token." w
              else
                match Verify p.(P_oauth2).(OA_ClientID) rawIDToken with
                | None => fail Status.BadRequest "The identity token could not be verified." w
                | Some idToken =>
                    if negb (String.eqb idToken.(IDNonce) t.(T_Nonce)) then
                      fail Status.BadRequest "Login nonce mismatch; please try again." w
                    else
                      match idToken.(IDClaims) with
                      | None =>
                          fail Status.BadGateway "The identity token claims could not be read." w
                      | Some claims =>
                          let subject := claim_string claims p.(P_subjectClaim) in
                          if is_empty subject then
                            fail Status.Forbidden
                              ("The identity token has no " +:+ dquote +:+ p.(P_subjectClaim)
                               +:+ dquote +:+ " claim.") w
                          else
                            let subject := lower subject in
                            let level := from_option U_Level LevelNone
                                           (LookupUser p.(P_env) subject) in
                            match IssueSession p.(P_env) now nonce subject level ModeOIDC w with
                            | Err _ =>
                                fail Status.InternalServerError
                                  "The session could not be created." w
                            | Ok w =>
                                Redirect (SafeRedirect t.(T_RedirectTo)) Status.Found
                                  (clear_transient rt w)
                            end
                      end
                end
          end
    end.

(** ** Lemmas *)

Lemma readTransient_Some rt now r t :
  readTransient rt now r = Some t →
  ∃ v, Request_Cookie r (transientCookieName rt) = Some v ∧
    Open rt.(RT_Codec) transient_of_obj v = Ok t ∧ (Unix now < t.(T_Expiry))%Z ∧
    t.(T_State) ≠ "" ∧ t.(T_Nonce) ≠ "" ∧ t.(T_Verifier) ≠ "".
Proof.
  unfold readTransient. rewrite bind_Some. intros (v & Hv & Ho). exists v.
  destruct (Open _ _ v) as [t'|]; [|done]. case_in Ho; [done|]. injection Ho as ->.
  breflect. by destruct Heqb as [[[? ?] ?] ?].
Qed.

(** ** Theorems *)

(** C10: the OIDC callback either fails, and then sends nobody anywhere, mints
    no session and clears the flow's cookie; or it succeeds, and then the
    transient cookie was opened by a configured key and had not expired, the
    state in the query is the flow's, the code was exchanged with the flow's
    PKCE verifier, the ID token was verified for this client and carries the
    flow's nonce, and the session sealed into the cookie is for the token's
    lower-cased subject claim at that user's configured level (no level for an
    unknown subject). Success too clears the flow's cookie, and redirects to
    the checked target. *)
Theorem callback_sound (p : Provider C) now nonce r :
  let e := p.(P_env) in let rt := e.(E_Runtime) in let s := rt.(RT_Config).(C_Session) in
  cookie_name_ok s.(CookieName) = true →
  let w := handleCallback p now nonce r new_response in
  (W_Redirect w = None ∧ W_Cookies w = [cleared rt]) ∨
  ∃ t cookie token raw idToken claims v,
    let subject := lower (claim_string claims p.(P_subjectClaim)) in
    let level := from_option U_Level LevelNone (LookupUser e subject) in
    Request_Cookie r (transientCookieName rt) = Some cookie ∧
    Open rt.(RT_Codec) transient_of_obj cookie = Ok t ∧ (Unix now < t.(T_Expiry))%Z ∧
    Query_Get r "state" = t.(T_State) ∧ t.(T_State) ≠ "" ∧
    Exchange (configFor p r) (Query_Get r "code") t.(T_Verifier) = Ok token ∧
    token.(Extra_id_token) = Some raw ∧
    Verify p.(P_oauth2).(OA_ClientID) raw = Some idToken ∧
    idToken.(IDNonce) = t.(T_Nonce) ∧ t.(T_Nonce) ≠ "" ∧
    idToken.(IDClaims) = Some claims ∧ claim_string claims p.(P_subjectClaim) ≠ "" ∧
    Seal rt.(RT_Codec) nonce (Data_obj (NewData now subject level ModeOIDC s.(MaxAge))) = Ok v ∧
    W_Redirect w = Some (SafeRedirect t.(T_RedirectTo)) ∧
    W_Cookies w = [session_cookie s.(CookieName) v (CookieSecure s) (seconds s.(MaxAge));
                   cleared rt].
Proof.
  intros e rt s Hn w. unfold w, handleCallback. fold e rt.
  pose proof (fail_flow_spec rt) as Hfail. specialize (λ st msg, Hfail st msg Hn).
  destruct (negb (is_empty (Query_Get r "error"))); [by left; apply Hfail|].
  destruct (readTransient rt now r) as [t|] eqn:Ht; [|by left; apply Hfail].
  apply readTransient_Some in Ht as (cookie & Hc & Ho & He & Hs & Hno & Hve).
  destruct (String.eqb_spec (Query_Get r "state") (T_State t)) as [Hst|]; [|by left; apply Hfail].
  cbn [negb]. destruct (Exchange _ _ _) as [token|err] eqn:Hx.
  2:{ left. destruct (ExchangeFailure err). apply Hfail. }
  destruct (is_empty (default "" (Extra_id_token token))) eqn:Hraw; [by left; apply Hfail|].
  destruct (Extra_id_token token) as [raw|] eqn:Hid; [|done]. simpl in Hraw. cbn [default from_option id].
  destruct (Verify (OA_ClientID (P_oauth2 p)) raw) as [idToken|] eqn:Hver; [|by left; apply Hfail].
  destruct (String.eqb_spec (IDNonce idToken) (T_Nonce t)) as [Hnon|]; [|by left; apply Hfail].
  cbn [negb]. destruct (IDClaims idToken) as [claims|] eqn:Hcl; [|by left; apply Hfail].
  destruct (is_empty (claim_string claims (P_subjectClaim p))) eqn:Hsub; [by left; apply Hfail|].
  destruct (IssueSession _ _ _ _ _ _ _) as [w'|] eqn:Hi; [|by left; apply Hfail].
  right. apply is_empty_false in Hsub.
  destruct (finish_flow e now nonce _ _ _ (SafeRedirect (T_RedirectTo t)) w' Hn Hi) as (v & Hv & Hr & Hck).
  by exists t, cookie, token, raw, idToken, claims, v.
Qed.

Context `{L : !GoLibLaws G}.

Definition coerce_transient (t : transient) : transient :=
  mkTransient (to_valid_utf8 t.(T_State)) (to_valid_utf8 t.(T_Nonce))
    (to_valid_utf8 t.(T_Verifier)) (to_valid_utf8 t.(T_RedirectTo)) t.(T_Expiry).

Lemma transient_of_coerce t :
  int64_range t.(T_Expiry) → transient_of_obj (coerce_obj (transient_obj t)) = Some (coerce_transient t).
Proof.
  destruct t as [s n v rd e]. unfold int64_range. simpl. intros He.
  unfold transient_of_obj, coerce_obj, transient_obj, json_int64, json_string, json_members. simpl.
  replace ((- 2 ^ 63 <=? e) && (e <? 2 ^ 63))%Z with true; [done|].
  symmetry. breflect. lia.
Qed.

(** The two sealed cookies cannot stand in for each other, although the same
    keys seal both: a login flow's cookie presented as the session cookie is
    refused, and a session presented as a login flow is refused. *)
Theorem cookies_not_interchangeable rt secrets nonce now r name t d v :
  NewCodec secrets = Ok rt.(RT_Codec) → slen nonce = NonceSize →
  int64_range t.(T_Expiry) → int64_range d.(Expiry) →
  (Seal rt.(RT_Codec) nonce (transient_obj t) = Ok v → Request_Cookie r name = Some v →
     ReadCookie rt.(RT_Codec) now r name = Err ExpiredOrEmpty) ∧
  (Seal rt.(RT_Codec) nonce (Data_obj d) = Ok v →
     Request_Cookie r (transientCookieName rt) = Some v → readTransient rt now r = None).
Proof.
  intros Hc Hn Ht Hd.
  assert (∃ post, keys (RT_Codec rt) = [] ++ key0 (RT_Codec rt) :: post) as [post Hk].
  { apply NewCodec_Ok in Hc as (Hne & _ & ->). destruct secrets as [|s secrets]; [done|]. by eexists. }
  split; intros Hs Hr.
  - unfold ReadCookie. rewrite Hr.
    rewrite (Open_Seal _ _ _ [] post nonce (transient_obj t) v Hk) by done.
    destruct t as [st n ve rd e]. unfold int64_range in Ht. simpl in Ht.
    unfold Data_of_obj, coerce_obj, transient_obj, json_int64, json_string, json_members. simpl.
    replace ((- 2 ^ 63 <=? e) && (e <? 2 ^ 63))%Z with true by (symmetry; breflect; lia). done.
  - unfold readTransient. rewrite Hr. cbn [mbind option_bind].
    rewrite (Open_Seal _ _ _ [] post nonce (Data_obj d) v Hk) by done.
    destruct d as [su l e pr]. unfold int64_range in Hd. simpl in Hd.
    unfold transient_of_obj, coerce_obj, Data_obj, json_int64, json_string, json_members. simpl.
    replace ((- 2 ^ 63 <=? e) && (e <? 2 ^ 63))%Z with true by (symmetry; breflect; lia).
    simpl. by rewrite orb_true_r.
Qed.

Lemma randomToken_spec b : b ≠ "" → randomToken b ≠ "" ∧ to_valid_utf8 (randomToken b) = randomToken b.
Proof.
  intros Hb. split; [|apply RawURL_valid]. intros H. unfold randomToken in H.
  apply (f_equal RawURL_DecodeString) in H. rewrite RawURL_Decode_Encode in H. change (RawURL_DecodeString "") with (Some "") in H. congruence.
Qed.

(** What the callback reads is what the login sealed. *)
Lemma readTransient_sealed rt secrets nonce t v now r :
  NewCodec secrets = Ok rt.(RT_Codec) → slen nonce = NonceSize → int64_range t.(T_Expiry) →
  Seal rt.(RT_Codec) nonce (transient_obj t) = Ok v →
  Request_Cookie r (transientCookieName rt) = Some v →
  readTransient rt now r =
    let t' := coerce_transient t in
    if (t'.(T_Expiry) <=? Unix now)%Z || is_empty t'.(T_State) || is_empty t'.(T_Nonce)
       || is_empty t'.(T_Verifier) then None else Some t'.
Proof.
  intros Hc Hn Ht Hs Hr.
  assert (∃ post, keys (RT_Codec rt) = [] ++ key0 (RT_Codec rt) :: post) as [post Hk].
  { apply NewCodec_Ok in Hc as (Hne & _ & ->). destruct secrets as [|s secrets]; [done|]. by eexists. }
  unfold readTransient. rewrite Hr. cbn [mbind option_bind].
  rewrite (Open_Seal _ _ _ [] post nonce (transient_obj t) v Hk) by done.
  by rewrite transient_of_coerce.
Qed.

End provider.

(** ** Witnesses *)

Definition demo_oidc : Provider unit :=
  mkProvider demo_env
    (mkOAuth2Config "client" "secret" "https://idp/auth" "https://idp/token" "" ["openid"]) "email".

Definition demo_flow : transient :=
  new_transient 0 "random-1" "random-2" "verifier" (demo_get "/" "").

Definition demo_callback : Request :=
  mkRequest "GET" callbackPath callbackPath "console.example.com" false "10.0.0.7:4242" ∅
    [("pgtoolbox_session_oauth", demo_sealed (transient_obj demo_flow))]
    [("state", demo_flow.(T_State)); ("code", demo_flow.(T_Nonce))] None.

Lemma callback_sound_witness :
  let w := handleCallback demo_oidc 0 demo_nonce demo_callback new_response in
  W_Redirect w = Some "/" ∧ ∃ t, Query_Get demo_callback "state" = t.(T_State) ∧ t.(T_State) ≠ "".
Proof.
  assert (W_Redirect (handleCallback demo_oidc 0 demo_nonce demo_callback new_response) = Some "/")
    as Hw by (vm_compute; reflexivity).
  split; [exact Hw|].
  destruct (callback_sound demo_oidc 0 demo_nonce demo_callback ltac:(vm_compute; reflexivity))
    as [[Hn _]|(t & cookie & token & raw & idToken & claims & v & _ & _ & _ & Hst & Hne & _)].
  - rewrite Hw in Hn. discriminate Hn.
  - exists t. split; [exact Hst|exact Hne].
Defined.

Lemma cookies_not_interchangeable_witness :
  ReadCookie demo_codec 0 (demo_get "/" (demo_sealed (transient_obj demo_flow))) "pgtoolbox_session"
    = Err ExpiredOrEmpty.
Proof.
  apply (cookies_not_interchangeable demo_runtime [demo_secret] demo_nonce 0
    (demo_get "/" (demo_sealed (transient_obj demo_flow))) "pgtoolbox_session" demo_flow demo_session
    (demo_sealed (transient_obj demo_flow))); try (vm_compute; reflexivity);
    split; vm_compute; first [reflexivity | intros H; discriminate H].
Defined.

