(* ===== verification/Openshift.v ===== *)
(** * The OpenShift provider ([internal/proxy/openshift])

    Endpoint discovery, the authorization-code flow with PKCE and state, the
    exchange with the service-account token as client secret, and the
    current-user lookup. Building the HTTP client from the CA file is left to
    [http_Get], the client's GET. *)

From S2P Require Import Prelude GoUtf8 GoStrings GoBytes GoLib ProxyConfig Http Pages Session.
From S2P Require Import Server OAuth.

Definition maxDiscoveryBody : Z := Z.shiftl 1 20.

Definition defaultDiscoveryURL : string :=
  "https://openshift.default.svc/.well-known/oauth-authorization-server".
Definition defaultAPIURL : string := "https://kubernetes.default.svc".
Definition defaultUserInfoPath : string := "/apis/user.openshift.io/v1/users/~".

Record transient := mkTransient {
  T_State : string;
  T_Verifier : string;
  T_RedirectTo : string;
  T_Expiry : Z
}.

Definition transient_obj (t : transient) : JObj :=
  [("state", JStr t.(T_State)); ("verifier", JStr t.(T_Verifier)); ("rd", JStr t.(T_RedirectTo));
   ("exp", JNum t.(T_Expiry))].

Definition transient_of_obj (o : JObj) : option transient :=
  s ← json_string o "state"; v ← json_string o "verifier"; rd ← json_string o "rd";
  e ← json_int64 o "exp"; Some (mkTransient s v rd e).

Record discoveryDocument := mkDiscovery {
  D_Issuer : string;
  D_AuthorizationEndpoint : string;
  D_TokenEndpoint : string
}.

Definition discovery_of_obj (o : JObj) : option discoveryDocument :=
  i ← json_string o "issuer"; a ← json_string o "authorization_endpoint";
  t ← json_string o "token_endpoint"; Some (mkDiscovery i a t).

Record Provider (C : Type) := mkProvider {
  P_env : Env C;
  P_clientSecretFile : string;
  P_oauth2 : OAuth2Config;
  P_userInfoURL : string
}.
Arguments mkProvider {C} _ _ _ _.
Arguments P_env {C} _.
Arguments P_clientSecretFile {C} _.
Arguments P_oauth2 {C} _.
Arguments P_userInfoURL {C} _.

Definition Register (mux : Mux) : Mux :=
  mux ++ [("GET", "/auth/openshift/login", OpenShiftLogin);
          ("GET", "/auth/openshift/callback", OpenShiftCallback)].

Section provider.
Context `{G : GoLib} `{T : Templates} `{O : OAuthLib} {C : Type}.

Definition discover (discoveryURL : string) : option discoveryDocument :=
  '(status, body) ← http_Get discoveryURL None;
  if negb (status =? Status.OK)%Z then None
  else
    doc ← json_Unmarshal (take_str (Z.to_nat maxDiscoveryBody) body) ≫= discovery_of_obj;
    if is_empty doc.(D_AuthorizationEndpoint) || is_empty doc.(D_TokenEndpoint) then None
    else Some doc.

(** [None] is a failed discovery. *)
Definition NewProvider (e : Env C) (cfg : OpenShiftConfig) : option (Provider C) :=
  doc ← discover (or_default cfg.(OS_DiscoveryURL) defaultDiscoveryURL);
  let apiURL := or_default cfg.(OS_APIURL) defaultAPIURL in
  let userInfoPath := or_default cfg.(OS_UserInfoPath) defaultUserInfoPath in
  Some (mkProvider e cfg.(OS_ClientSecretFile)
          (mkOAuth2Config cfg.(OS_ClientID) "" doc.(D_AuthorizationEndpoint)
             doc.(D_TokenEndpoint) cfg.(OS_RedirectURL)
             (or_default_list cfg.(OS_Scopes) ["user:info"]))
          (TrimSuffix apiURL "/" +:+ userInfoPath)).

Definition new_transient (now : Time) (b verifier : string) (r : Request) : transient :=
  mkTransient (randomToken b) verifier (SafeRedirect (Query_Get r "rd"))
    (Unix (now + transientMaxAge)).

Definition handleLogin (p : Provider C) (now : Time) (nonce b verifier : string)
    (r : Request) (w : Response) : Response :=
  let rt := p.(P_env).(E_Runtime) in
  let t := new_transient now b verifier r in
  match Seal rt.(RT_Codec) nonce (transient_obj t) with
  | Err _ => Error Status.InternalServerError "The login flow could not be started." w
  | Ok v =>
      let w := set_transient rt v w in
      let url := AuthCodeURL p.(P_oauth2) t.(T_State)
                   [("code_challenge", S256Challenge t.(T_Verifier))] in
      Redirect url Status.Found w
  end.

Definition readTransient (rt : Runtime) (now : Time) (r : Request) : option transient :=
  v ← Request_Cookie r (transientCookieName rt);
  match Open rt.(RT_Codec) transient_of_obj v with
  | Err _ => None
  | Ok t =>
      if (t.(T_Expiry) <=? Unix now)%Z || is_empty t.(T_State) || is_empty t.(T_Verifier) then None
      else Some t
  end.

Definition readSecretFile (path : string) : option string :=
  raw ← ReadFile path;
  let s := TrimSpace raw in
  if is_empty s then None else Some s.

Definition fetchUser (p : Provider C) (accessToken : string) : option string :=
  '(status, body) ← http_Get p.(P_userInfoURL) (Some accessToken);
  if negb (status =? Status.OK)%Z then None
  else name ← json_userInfo body; if is_empty name then None else Some name.

Definition with_secret (c : OAuth2Config) (s : string) : OAuth2Config :=
  mkOAuth2Config c.(OA_ClientID) s c.(OA_AuthURL) c.(OA_TokenURL) c.(OA_RedirectURL) c.(OA_Scopes).

Definition handleCallback (p : Provider C) (now : Time) (nonce : string) (r : Request)
    (w : Response) : Response :=
  let rt := p.(P_env).(E_Runtime) in
  let fail := fail_flow rt in
  if negb (is_empty (Query_Get r "error")) then
    fail Status.BadRequest "The identity provider returned an error." w
  else
    match readTransient rt now r with
    | None => fail Status.BadRequest "The login flow expired; please try again." w
    | Some t =>
        if negb (String.eqb (Query_Get r "state") t.(T_State)) then
          fail Status.BadRequest "Login state mismatch; please try again." w
        else
          let code := Query_Get r "code" in
          if is_empty code then fail Status.BadRequest "The authorization code is missing." w
          else
            match readSecretFile p.(P_clientSecretFile) with
            | None =>
                fail Status.InternalServerError
                  "This console's OAuth client secret could not be read; an administrator has to check the ServiceAccount token mount." w
            | Some secret =>
                match Exchange (with_secret p.(P_oauth2) secret) code t.(T_Verifier) with
                | Err err => let '(status, message) := ExchangeFailure err in fail status message w
                | Ok token =>
                    if is_empty token.(AccessToken) then
                      fail Status.BadGateway
                        "The identity provider did not return an access token." w
                    else
                      match fetchUser p token.(AccessToken) with
                      | None =>
                          fail Status.BadGateway "The current user could not be resolved." w
                      | Some subject =>
                          let level := from_option U_Level LevelNone
                                         (LookupUser p.(P_env) subject) in
                          match IssueSession p.(P_env) now nonce subject level ModeOpenShift w with
                          | Err _ =>
                              fail Status.InternalServerError
                                "The session could not be created." w
                          | Ok w =>
                              Redirect (SafeRedirect t.(T_RedirectTo)) Status.Found
                                (clear_transient rt w)
                          end
                      end
                end
            end
    end.

(** ** Theorems *)

Lemma openshift_readTransient_Some rt now r t :
  readTransient rt now r = Some t →
  ∃ v, Request_Cookie r (transientCookieName rt) = Some v ∧
    Open rt.(RT_Codec) transient_of_obj v = Ok t ∧ (Unix now < t.(T_Expiry))%Z ∧
    t.(T_State) ≠ "" ∧ t.(T_Verifier) ≠ "".
Proof.
  unfold readTransient. rewrite bind_Some. intros (v & Hv & Ho). exists v.
  destruct (Open _ _ v) as [t'|]; [|done]. case_in Ho; [done|]. injection Ho as ->.
  breflect. by destruct Heqb as [[? ?] ?].
Qed.

Lemma fetchUser_Some p token u :
  fetchUser p token = Some u →
  u ≠ "" ∧ ∃ body, http_Get p.(P_userInfoURL) (Some token) = Some (Status.OK, body) ∧
                   json_userInfo body = Some u.
Proof.
  unfold fetchUser. rewrite bind_Some. intros ([status body] & Hg & H).
  destruct (Z.eqb_spec status Status.OK) as [->|]; [|done]. cbn [negb] in H.
  apply bind_Some in H as (name & Hn & H). case_in H; [done|]. injection H as ->.
  apply is_empty_false in Heqb. eauto.
Qed.

(** C11: the OpenShift callback either fails, sending nobody anywhere, minting no
    session and clearing the flow's cookie; or the transient cookie was opened
    by a configured key and had not expired, the state is the flow's, the code
    was exchanged with the flow's verifier under the service-account token, and
    the session is for the user the API names for that access token, at the
    level configured for that user up to case. The subject keeps the spelling
    of the API. *)
Theorem openshift_callback_sound (p : Provider C) now nonce r :
  let e := p.(P_env) in let rt := e.(E_Runtime) in let s := rt.(RT_Config).(C_Session) in
  cookie_name_ok s.(CookieName) = true →
  let w := handleCallback p now nonce r new_response in
  (W_Redirect w = None ∧ W_Cookies w = [cleared rt]) ∨
  ∃ t cookie secret token subject v,
    let level := from_option U_Level LevelNone (LookupUser e subject) in
    Request_Cookie r (transientCookieName rt) = Some cookie ∧
    Open rt.(RT_Codec) transient_of_obj cookie = Ok t ∧ (Unix now < t.(T_Expiry))%Z ∧
    Query_Get r "state" = t.(T_State) ∧ t.(T_State) ≠ "" ∧
    readSecretFile p.(P_clientSecretFile) = Some secret ∧
    Exchange (with_secret p.(P_oauth2) secret) (Query_Get r "code") t.(T_Verifier) = Ok token ∧
    token.(AccessToken) ≠ "" ∧
    (∃ body, http_Get p.(P_userInfoURL) (Some token.(AccessToken)) = Some (Status.OK, body) ∧
             json_userInfo body = Some subject) ∧ subject ≠ "" ∧
    Seal rt.(RT_Codec) nonce (Data_obj (NewData now subject level ModeOpenShift s.(MaxAge))) = Ok v ∧
    W_Redirect w = Some (SafeRedirect t.(T_RedirectTo)) ∧
    W_Cookies w = [session_cookie s.(CookieName) v (CookieSecure s) (seconds s.(MaxAge));
                   cleared rt].
Proof.
  intros e rt s Hn w. unfold w, handleCallback. fold e rt.
  pose proof (fail_flow_spec rt) as Hfail. specialize (λ st msg, Hfail st msg Hn).
  destruct (negb (is_empty (Query_Get r "error"))); [by left; apply Hfail|].
  destruct (readTransient rt now r) as [t|] eqn:Ht; [|by left; apply Hfail].
  apply openshift_readTransient_Some in Ht as (cookie & Hc & Ho & He & Hs & Hve).
  destruct (String.eqb_spec (Query_Get r "state") (T_State t)) as [Hst|]; [|by left; apply Hfail].
  cbn [negb]. destruct (is_empty (Query_Get r "code")); [by left; apply Hfail|].
  destruct (readSecretFile _) as [secret|] eqn:Hsec; [|by left; apply Hfail].
  destruct (Exchange _ _ _) as [token|err] eqn:Hx.
  2:{ left. destruct (ExchangeFailure err). apply Hfail. }
  destruct (is_empty (AccessToken token)) eqn:Htok; [by left; apply Hfail|].
  destruct (fetchUser p (AccessToken token)) as [subject|] eqn:Hu; [|by left; apply Hfail].
  destruct (IssueSession _ _ _ _ _ _ _) as [w'|] eqn:Hi; [|by left; apply Hfail].
  right. apply fetchUser_Some in Hu as [Hsub Hbody]. apply is_empty_false in Htok.
  destruct (finish_flow e now nonce _ _ _ (SafeRedirect (T_RedirectTo t)) w' Hn Hi)
    as (v & Hv & Hr & Hck).
  by exists t, cookie, secret, token, subject, v.
Qed.
End provider.

(** ** Witness *)

Definition demo_openshift : Provider unit :=
  mkProvider demo_env "token-file"
    (mkOAuth2Config "system:serviceaccount:ns:console" "" "https://oauth/a" "https://oauth/t"
       "https://console.example.com/auth/openshift/callback" ["user:info"]) "https://api/users/~".

Definition demo_flow : transient := new_transient 0 "random" "verifier" (demo_get "/" "").

Definition demo_callback : Request :=
  mkRequest "GET" "/auth/openshift/callback" "/auth/openshift/callback" "console.example.com" false
    "10.0.0.7:4242" ∅ [("pgtoolbox_session_oauth", demo_sealed (transient_obj demo_flow))]
    [("state", demo_flow.(T_State)); ("code", "Kube:Admin")] None.

Lemma openshift_callback_sound_witness :
  W_Redirect (handleCallback demo_openshift 0 demo_nonce demo_callback new_response) = Some "/" ∧
  ∃ subject, subject ≠ "" ∧ json_userInfo subject = Some subject.
Proof.
  assert (W_Redirect (handleCallback demo_openshift 0 demo_nonce demo_callback new_response)
            = Some "/") as Hw by (vm_compute; reflexivity).
  split; [exact Hw|].
  destruct (openshift_callback_sound demo_openshift 0 demo_nonce demo_callback ltac:(vm_compute; reflexivity))
    as [[Hn _]|(t & cookie & secret & token & subject & v & _ & _ & _ & _ & _ & _ & _ & _ & _ & Hs & _)].
  - rewrite Hw in Hn. discriminate Hn.
  - exists subject. split; [exact Hs|reflexivity].
Defined.
