(* ===== verification/Watch.v ===== *)
(** * Watching the configuration file ([internal/proxy/config/watch.go])

    The select loop of [Watcher.Run] as a step function over the events it can
    receive, with the debounce timer as the time it is due. *)

From S2P Require Import Prelude GoUtf8 GoStrings GoLib ProxyConfig Session.

Definition debounceDelay : Duration := Second.

(** [filepath.Base] on a slash-separated path. *)
Fixpoint trim_slashes (fuel : nat) (s : string) : string :=
  match fuel with
  | O => s
  | S fuel => if HasSuffix s "/" then trim_slashes fuel (TrimSuffix s "/") else s
  end.

Definition Base (path : string) : string :=
  if is_empty path then "."
  else
    let s := trim_slashes (slen path) path in
    if is_empty s then "/"
    else match LastIndex s "/" with Some i => drop_str (i + 1) s | None => s end.

(** What the loop selects on. *)
Inductive wevent :=
  | FsEvent (name : string)
  | FsError
  | EventsClosed
  | ErrorsClosed
  | TimerFired
  | CtxDone.

(** When the pending timer is due; [None] is a nil channel. *)
Record wstate := mkWstate { timerC : option Time }.

Inductive woutcome :=
  | Continue
  | Reload
  | Stopped (ok : bool).

(** [relevant]: the event concerns the file or the volume's [..data] link. *)
Definition relevant (path name : string) : bool :=
  String.eqb (Base name) (Base path) || String.eqb (Base name) "..data".

(** One turn of the loop at time [now]; [None] when the event cannot occur: a
    timer only fires when one is pending and due. *)
Definition watch_step (path : string) (s : wstate) (now : Time) (ev : wevent) :
    option (wstate * woutcome) :=
  match ev with
  | CtxDone => Some (s, Stopped true)
  | EventsClosed | ErrorsClosed => Some (s, Stopped false)
  | FsError => Some (s, Continue)
  | FsEvent name =>
      if relevant path name then Some (mkWstate (Some (now + debounceDelay)%Z), Continue)
      else Some (s, Continue)
  | TimerFired =>
      d ← s.(timerC);
      if (d <=? now)%Z then Some (mkWstate None, Reload) else None
  end.

(** A run of the loop that has not stopped. *)
Fixpoint watch_run (path : string) (s : wstate) (evs : list (Time * wevent)) : option wstate :=
  match evs with
  | [] => Some s
  | (now, ev) :: evs =>
      '(s, o) ← watch_step path s now ev;
      match o with Stopped _ => None | _ => watch_run path s evs end
  end.

Definition wstate0 : wstate := mkWstate None.

(** An event that neither schedules nor consumes the timer. *)
Definition quiet (path : string) (ev : Time * wevent) : Prop :=
  match ev.2 with
  | FsEvent name => relevant path name = false
  | TimerFired => False
  | _ => True
  end.

Lemma watch_run_app path s evs evs' :
  watch_run path s (evs ++ evs') = s ← watch_run path s evs; watch_run path s evs'.
Proof.
  revert s. induction evs as [|[now ev] evs IH]; intros s; [done|]. cbn [app watch_run].
  destruct (watch_step path s now ev) as [[s' []]|]; [apply IH..|done|done].
Qed.

(** A pending timer was scheduled by the last relevant event, one delay before
    it is due, and nothing since touched it. *)
Lemma pending_timer path evs s d :
  watch_run path wstate0 evs = Some s → s.(timerC) = Some d →
  ∃ evs1 t0 name evs2, evs = evs1 ++ (t0, FsEvent name) :: evs2 ∧
    relevant path name = true ∧ d = (t0 + debounceDelay)%Z ∧ Forall (quiet path) evs2.
Proof.
  revert s. induction evs as [|[now ev] evs IH] using rev_ind; intros s.
  - intros [= <-] [=].
  - rewrite watch_run_app. destruct (watch_run path wstate0 evs) as [s1|]; [|done].
    cbn [mbind option_bind watch_run].
    assert (quiet path (now, ev) → s1.(timerC) = Some d →
      ∃ evs1 t0 name evs2, evs ++ [(now, ev)] = evs1 ++ (t0, FsEvent name) :: evs2 ∧
        relevant path name = true ∧ d = (t0 + debounceDelay)%Z ∧ Forall (quiet path) evs2) as Hkeep.
    { intros Hq Hd. destruct (IH s1 eq_refl Hd) as (evs1 & t0 & name & evs2 & -> & Hr & Ht & Hf).
      exists evs1, t0, name, (evs2 ++ [(now, ev)]). rewrite <-(assoc_L (++)).
      split_and!; [done..|]. apply Forall_app. split; [done|by constructor]. }
    destruct ev as [name| | | | |]; cbn [watch_step]; try done.
    + destruct (relevant path name) eqn:Hr; cbn [mbind option_bind]; intros [= <-].
      * intros [= <-]. exists evs, now, name, []. split_and!; [done..|constructor].
      * by apply Hkeep.
    + cbn [mbind option_bind]. intros [= <-]. by apply Hkeep.
    + destruct (timerC s1); [|done]. cbn [mbind option_bind]. case_if; [|done].
      cbn [mbind option_bind]. intros [= <-] [=].
Qed.

(** The debounce holds: a reload at time [t] comes at least one second after
    the last relevant file event, with no relevant event and no other reload in
    between; and such a reload is possible: after a relevant event that nothing
    follows, the timer may fire from one second later on. *)
Theorem debounced path evs t s o :
  watch_run path wstate0 evs = Some s →
  (watch_step path s t TimerFired = Some o →
   o = (mkWstate None, Reload) ∧
   ∃ evs1 t0 name evs2, evs = evs1 ++ (t0, FsEvent name) :: evs2 ∧
     relevant path name = true ∧ (t0 + debounceDelay ≤ t)%Z ∧ Forall (quiet path) evs2) ∧
  (∀ t0 name t', relevant path name = true → (t0 + debounceDelay ≤ t')%Z →
     watch_run path s [(t0, FsEvent name); (t', TimerFired)] = Some (mkWstate None)).
Proof.
  intros Hrun. split.
  - cbn [watch_step]. destruct (timerC s) as [d|] eqn:Hd; [|done]. cbn [mbind option_bind].
    destruct (Z.leb_spec d t); [|done]. intros [= <-]. split; [done|].
    destruct (pending_timer path evs s d Hrun Hd) as (evs1 & t0 & name & evs2 & -> & Hr & -> & Hq).
    by exists evs1, t0, name, evs2.
  - intros t0 name t' Hr Ht. simpl. rewrite Hr. simpl.
    by destruct (Z.leb_spec (t0 + debounceDelay) t'); [|lia].
Qed.

Lemma debounced_witness :
  ∃ evs1 t0 name evs2,
    [(0%Z, FsEvent "/etc/proxy/..data"); (5%Z, FsEvent "/etc/proxy/other")]
      = evs1 ++ (t0, FsEvent name) :: evs2 ∧ (t0 + debounceDelay ≤ Second)%Z.
Proof.
  destruct (debounced "/etc/proxy/config.yaml"
    [(0%Z, FsEvent "/etc/proxy/..data"); (5%Z, FsEvent "/etc/proxy/other")] Second
    (mkWstate (Some Second)) (mkWstate None, Reload) ltac:(vm_compute; reflexivity)) as [H _].
  destruct (H ltac:(vm_compute; reflexivity)) as (_ & evs1 & t0 & name & evs2 & He & _ & Ht & _).
  by exists evs1, t0, name, evs2.
Defined.
