(* ===== verification/ProxyMain.v ===== *)
(** * The proxy process ([cmd/proxy/main.go])

    Start-up of the proxy: loading the configuration, building the runtime,
    starting the providers that can start, registering their handlers; then the
    reloads of the watcher and the dispatch of requests. The providers hold the
    environment by pointer in the code; here the current environment is put
    into a provider when it handles a request. *)

From S2P Require Import Local Oidc Openshift.
From S2P Require Import Prelude GoUtf8 GoStrings GoBytes GoLib ProxyConfig Http Pages Session.
From S2P Require Import Server AccessRequest OAuth Watch.

Abbreviation ProxyEnv := (Env AccessRequestCreator).

(** [server.Provider]. *)
Inductive provider :=
  | LocalProvider (p : Local.Provider AccessRequestCreator)
  | OIDCProvider (p : Oidc.Provider AccessRequestCreator)
  | OpenShiftProvider (p : Openshift.Provider AccessRequestCreator).

Definition Mode (p : provider) : string :=
  match p with
  | LocalProvider _ => ModeLocal
  | OIDCProvider _ => ModeOIDC
  | OpenShiftProvider _ => ModeOpenShift
  end.

Definition Register (mux : Mux) (p : provider) : Mux :=
  match p with
  | LocalProvider _ => Local.Register mux
  | OIDCProvider _ => Oidc.Register mux
  | OpenShiftProvider _ => Openshift.Register mux
  end.

Inductive start_error :=
  | NoConfigPath
  | InvalidConfiguration (e : load_error)
  | RuntimeFailed (e : runtime_error)
  | NoProvider.

(** The process once it serves: its environment, its handlers, the providers
    that started, the configuration it started with and the watcher. *)
Record State := mkState {
  S_env : ProxyEnv;
  S_mux : Mux;
  S_providers : list provider;
  S_cfg : Config;
  S_watch : wstate
}.

Section main.
Context `{G : GoLib} `{T : Templates} `{O : OAuthLib}.
(** The YAML decoder, the flag or environment variable, the randomness of the
    dummy hash, and the in-cluster client when there is one. *)
Context (yaml : string → option Config) (configPath salt : string)
  (inCluster : option AccessRequestCreator).

Definition readSecretFile (path : string) : option string :=
  raw ← ReadFile path;
  let s := TrimSpace raw in
  if is_empty s then None else Some s.

(** [None] is an error. A missing block would be a nil dereference; a valid
    configuration has one for every mode it enables. *)
Definition setupProvider (e : ProxyEnv) (cfg : Config) (mode : string) : option provider :=
  if String.eqb mode ModeOIDC then
    o ← cfg.(C_Provider).(OIDC);
    secret ← readSecretFile o.(OIDC_ClientSecretFile);
    OIDCProvider <$> Oidc.NewProvider e o secret
  else if String.eqb mode ModeLocal then Some (LocalProvider (Local.NewProvider salt e))
  else if String.eqb mode ModeOpenShift then
    o ← cfg.(C_Provider).(OpenShift);
    OpenShiftProvider <$> Openshift.NewProvider e o
  else None.

Definition setupProviders (e : ProxyEnv) (cfg : Config) : option (list provider) :=
  match omap (setupProvider e cfg) cfg.(C_Provider).(Modes) with
  | [] => None
  | ps => Some ps
  end.

(** [run] up to the point where it serves. *)
Definition run : result start_error State :=
  if is_empty configPath then Err NoConfigPath
  else
    match Load yaml ReadFile configPath with
    | Err e => Err (InvalidConfiguration e)
    | Ok (cfg, _) =>
        match BuildRuntime cfg with
        | Err e => Err (RuntimeFailed e)
        | Ok rt =>
            let e := mkEnv rt None [] in
            match setupProviders e cfg with
            | None => Err NoProvider
            | Some ps =>
                let mux := foldl Register New ps in
                let creator := if cfg.(C_AccessRequest).(Enabled) then inCluster else None in
                Ok (mkState (mkEnv rt creator (Mode <$> ps)) mux ps cfg wstate0)
            end
        end
    end.

(** [reload] with the callback of [run]: any failure keeps the runtime. [read]
    is the file system at that moment. *)
Definition reload (read : string → option string) (e : ProxyEnv) : ProxyEnv :=
  match Load yaml read configPath with
  | Err _ => e
  | Ok (newCfg, _) =>
      match BuildRuntime newCfg with
      | Err _ => e
      | Ok newRt => Swap e newRt
      end
  end.

(** ** Serving *)

Definition first_local (ps : list provider) : option (Local.Provider AccessRequestCreator) :=
  head (omap (λ p, match p with LocalProvider p => Some p | _ => None end) ps).
Definition first_oidc (ps : list provider) : option (Oidc.Provider AccessRequestCreator) :=
  head (omap (λ p, match p with OIDCProvider p => Some p | _ => None end) ps).
Definition first_openshift (ps : list provider) :
    option (Openshift.Provider AccessRequestCreator) :=
  head (omap (λ p, match p with OpenShiftProvider p => Some p | _ => None end) ps).

Definition local_with (p : Local.Provider AccessRequestCreator) (e : ProxyEnv) :=
  Local.mkProvider e p.(Local.P_limiter) p.(Local.P_dummyHash).
Definition oidc_with (p : Oidc.Provider AccessRequestCreator) (e : ProxyEnv) :=
  Oidc.mkProvider e p.(Oidc.P_oauth2) p.(Oidc.P_subjectClaim).
Definition openshift_with (p : Openshift.Provider AccessRequestCreator) (e : ProxyEnv) :=
  Openshift.mkProvider e p.(Openshift.P_clientSecretFile) p.(Openshift.P_oauth2)
    p.(Openshift.P_userInfoURL).

(** The local provider's new limiter, kept in the list of providers. *)
Definition update_local (p' : Local.Provider AccessRequestCreator) (ps : list provider) :
    list provider :=
  (λ p, match p with LocalProvider _ => LocalProvider p' | _ => p end) <$> ps.

(** The clock and the randomness of one request. *)
Record Input := mkInput {
  I_now : Time;
  I_nonce : string;
  I_b1 : string;
  I_b2 : string;
  I_verifier : string
}.

Definition healthz (w : Response) : Response :=
  write_body ("ok" +:+ str1 (ascii_of_nat 10))
    (set_header "Content-Type" "text/plain; charset=utf-8" w).

Definition serve (upstream : OutRequest → option Response) (st : State) (i : Input) (r : Request) :
    Reply * State :=
  let e := st.(S_env) in
  let w := new_response in
  let answer w := (mkReply None w, st) in
  let missing := answer (Error Status.NotFound "This path is not served by the console." w) in
  match dispatch st.(S_mux) r.(R_Method) r.(R_Path) with
  | Healthz => answer (healthz w)
  | Logout => answer (handleLogout e r w)
  | AccessRequest => answer (handleAccessRequest e i.(I_now) r w).(AccessAnswer)
  | Proxied => (handleProxied upstream e i.(I_now) r w, st)
  | LocalForm =>
      match first_local st.(S_providers) with
      | Some p => answer (Local.handleForm (local_with p e) r w)
      | None => missing
      end
  | LocalSubmit =>
      match first_local st.(S_providers) with
      | Some p =>
          let '(w, p') := Local.handleSubmit (local_with p e) i.(I_now) i.(I_nonce) r w in
          (mkReply None w,
           mkState e st.(S_mux) (update_local p' st.(S_providers)) st.(S_cfg) st.(S_watch))
      | None => missing
      end
  | OIDCLogin =>
      match first_oidc st.(S_providers) with
      | Some p => answer (Oidc.handleLogin (oidc_with p e) i.(I_now) i.(I_nonce) i.(I_b1) i.(I_b2)
                            i.(I_verifier) r w)
      | None => missing
      end
  | OIDCCallback =>
      match first_oidc st.(S_providers) with
      | Some p => answer (Oidc.handleCallback (oidc_with p e) i.(I_now) i.(I_nonce) r w)
      | None => missing
      end
  | OpenShiftLogin =>
      match first_openshift st.(S_providers) with
      | Some p => answer (Openshift.handleLogin (openshift_with p e) i.(I_now) i.(I_nonce) i.(I_b1)
                            i.(I_verifier) r w)
      | None => missing
      end
  | OpenShiftCallback =>
      match first_openshift st.(S_providers) with
      | Some p => answer (Openshift.handleCallback (openshift_with p e) i.(I_now) i.(I_nonce) r w)
      | None => missing
      end
  end.

(** ** Reachable states *)

Inductive step : State → State → Prop :=
  | step_request upstream st i r : step st (serve upstream st i r).2
  | step_watch read st now ev w' o :
      watch_step configPath st.(S_watch) now ev = Some (w', o) →
      step st (mkState (match o with Reload => reload read st.(S_env) | _ => st.(S_env) end)
                 st.(S_mux) st.(S_providers) st.(S_cfg) w').

Inductive reachable : State → Prop :=
  | reachable_run st : run = Ok st → reachable st
  | reachable_step st st' : reachable st → step st st' → reachable st'.

(** ** Lemmas *)

Definition patterns (p : provider) : Mux := Register [] p.

Lemma Register_patterns mux p : Register mux p = mux ++ patterns p.
Proof. by destruct p. Qed.

Lemma foldl_Register mux ps : foldl Register mux ps = mux ++ (ps ≫= patterns).
Proof.
  revert mux. induction ps as [|p ps IH]; intros mux; simpl; [by rewrite app_nil_r|].
  by rewrite IH, Register_patterns, <-(assoc_L (++)).
Qed.

Lemma first_such_app {A} (f : A → bool) l k :
  first_such f (l ++ k) = match first_such f l with Some x => Some x | None => first_such f k end.
Proof. induction l as [|x l IH]; simpl; [done|]. by destruct (f x). Qed.

(** The handler of a provider's login page, and that page's path. *)
Definition login_of (mode : string) : string * handler :=
  if String.eqb mode ModeLocal then ("/auth/local/login", LocalForm)
  else if String.eqb mode ModeOpenShift then ("/auth/openshift/login", OpenShiftLogin)
  else ("/auth/oidc/login", OIDCLogin).

Lemma dispatch_login ps p :
  p ∈ ps → dispatch (foldl Register New ps) "GET" (login_of (Mode p)).1 = (login_of (Mode p)).2.
Proof.
  intros Hp. rewrite foldl_Register. unfold dispatch. rewrite first_such_app.
  replace (first_such (pattern_matches "GET" (login_of (Mode p)).1) New) with
    (@None (string * string * handler)) by (by destruct p).
  induction ps as [|q ps IH]; [by apply not_elem_of_nil in Hp|].
  cbn [mbind list_bind]. change (list_bind _ _ patterns ps) with (ps ≫= patterns).
  rewrite first_such_app. destruct (decide (Mode q = Mode p)) as [Hm|Hm].
  - rewrite <-Hm. by destruct q.
  - apply elem_of_cons in Hp as [->|Hp]; [done|].
    replace (first_such (pattern_matches "GET" (login_of (Mode p)).1) (patterns q)) with
      (@None (string * string * handler)); [by apply IH|].
    by destruct p, q.
Qed.

Lemma update_local_Mode p' ps : Mode <$> update_local p' ps = Mode <$> ps.
Proof.
  unfold update_local. rewrite <-list_fmap_compose. apply list_fmap_ext.
  intros i q _. by destruct q.
Qed.

Lemma foldl_Register_Mode ps qs :
  Mode <$> ps = Mode <$> qs → foldl Register New ps = foldl Register New qs.
Proof.
  rewrite !foldl_Register. intros H. f_equal. revert qs H.
  induction ps as [|p ps IH]; intros [|q qs]; try done. cbn [fmap list_fmap]. intros [= Hm H].
  cbn [mbind list_bind]. f_equal; [by destruct p, q|by apply IH].
Qed.

(** What holds of every state the process can be in. *)
Record invariant (st : State) : Prop := {
  inv_config : ∃ raw ws, Parse yaml raw = Ok (st.(S_env).(E_Runtime).(RT_Config), ws);
  inv_runtime : BuildRuntime st.(S_env).(E_Runtime).(RT_Config) = Ok st.(S_env).(E_Runtime);
  inv_modes : st.(S_env).(E_Available) = Mode <$> st.(S_providers);
  inv_some : st.(S_providers) ≠ [];
  inv_mux : st.(S_mux) = foldl Register New st.(S_providers)
}.

Lemma BuildRuntime_config cfg rt : BuildRuntime cfg = Ok rt → RT_Config rt = cfg.
Proof. by intros (codec & rs & _ & _ & ->)%BuildRuntime_Ok. Qed.

Lemma Load_Parse read c ws :
  Load yaml read configPath = Ok (c, ws) → ∃ raw, Parse yaml raw = Ok (c, ws).
Proof. unfold Load. destruct (read configPath) as [raw|]; [eauto|done]. Qed.

Lemma run_Ok st :
  run = Ok st →
  ∃ cfg ws rt ps, Load yaml ReadFile configPath = Ok (cfg, ws) ∧ BuildRuntime cfg = Ok rt ∧
    setupProviders (mkEnv rt None []) cfg = Some ps ∧
    st = mkState (mkEnv rt (if cfg.(C_AccessRequest).(Enabled) then inCluster else None)
                    (Mode <$> ps)) (foldl Register New ps) ps cfg wstate0.
Proof.
  unfold run. destruct (is_empty configPath); [done|].
  destruct (Load _ _ _) as [[cfg ws]|]; [|done].
  destruct (BuildRuntime cfg) as [rt|] eqn:Hrt; [|done].
  destruct (setupProviders _ _) as [ps|] eqn:Hps; [|done]. intros [= <-].
  by exists cfg, ws, rt, ps.
Qed.

Lemma setupProviders_some e cfg ps : setupProviders e cfg = Some ps → ps ≠ [].
Proof. unfold setupProviders. destruct (omap _ _); [done|]. by intros [= <-]. Qed.

Lemma run_invariant st : run = Ok st → invariant st.
Proof.
  intros (cfg & ws & rt & ps & Hl & Hrt & Hps & ->)%run_Ok.
  pose proof (BuildRuntime_config _ _ Hrt) as Hc. apply Load_Parse in Hl as [raw Hraw].
  constructor; cbn [S_env S_providers S_mux E_Runtime E_Available];
    [rewrite Hc; by exists raw, ws|by rewrite Hc|done|by eapply setupProviders_some|done].
Qed.

(** The states of the process change the runtime or the local limiter only. *)
Lemma serve_state upstream st i r :
  (serve upstream st i r).2 = st ∨
  ∃ p', (serve upstream st i r).2 =
        mkState st.(S_env) st.(S_mux) (update_local p' st.(S_providers)) st.(S_cfg) st.(S_watch).
Proof.
  unfold serve. destruct (dispatch _ _ _); try (left; reflexivity);
    try (case_match; left; reflexivity).
  destruct (first_local _) as [p|]; [|by left]. right.
  destruct (Local.handleSubmit _ _ _ _ _) as [w p']. by exists p'.
Qed.

Lemma reload_invariant read st w' :
  invariant st →
  invariant (mkState (reload read st.(S_env)) st.(S_mux) st.(S_providers) st.(S_cfg) w').
Proof.
  intros [H1 H2 H3 H4 H5]. unfold reload.
  destruct (Load yaml read configPath) as [[c ws]|] eqn:Hl; [|by constructor].
  destruct (BuildRuntime c) as [rt|] eqn:Hrt; [|by constructor].
  pose proof (BuildRuntime_config _ _ Hrt) as Hc. apply Load_Parse in Hl as [raw Hraw].
  constructor; cbn [Swap S_env S_providers S_mux E_Runtime E_Available];
    [rewrite Hc; by exists raw, ws|by rewrite Hc|done..].
Qed.

Lemma reachable_invariant st : reachable st → invariant st.
Proof.
  induction 1 as [st H|st st' _ IH Hstep]; [by apply run_invariant|].
  destruct Hstep as [upstream st i r|read st now ev w' o _].
  - destruct (serve_state upstream st i r) as [->|[p' ->]]; [done|].
    destruct IH as [H1 H2 H3 H4 H5]. constructor; cbn [S_env S_providers S_mux]; [done..| | |].
    + by rewrite update_local_Mode.
    + by destruct (S_providers st).
    + rewrite H5. apply foldl_Register_Mode. symmetry. apply update_local_Mode.
  - destruct o; [|by apply reload_invariant|]; destruct IH; by constructor.
Qed.

(** ** Theorems *)

(** C13: in every state the process can reach, by serving requests and reloading
    whatever the file holds at that moment, the runtime in use was built from a
    configuration that [Parse] accepted: it is well formed and carries its
    defaults. A file that does not load never changes the runtime. *)
Theorem runtime_always_valid st :
  reachable st →
  let rt := st.(S_env).(E_Runtime) in
  wf_config rt.(RT_Config) ∧ setDefaults rt.(RT_Config) = rt.(RT_Config) ∧
  BuildRuntime rt.(RT_Config) = Ok rt ∧
  (∀ read, (∀ c ws, Load yaml read configPath ≠ Ok (c, ws)) →
     reload read st.(S_env) = st.(S_env)).
Proof.
  intros [(raw & ws & Hp) Hrt _ _ _]%reachable_invariant rt.
  apply Parse_Ok in Hp as (c0 & _ & Hc & Hwf & _). split_and!; [done| |done|].
  - unfold rt. rewrite Hc. apply setDefaults_idemp_aux.
  - intros read Hl. unfold reload. by destruct (Load yaml read configPath) as [[c ws']|] eqn:H;
      [destruct (Hl c ws')|].
Qed.

(** In every reachable state the page a visitor is sent to for signing in,
    and every button on it, is served by the handler of a provider that
    started; with local accounts enabled the proxy starts whatever the external
    providers do, and the page is the local form. *)
Theorem login_always_served :
  (∀ st, reachable st →
     let e := st.(S_env) in
     (∃ p, p ∈ st.(S_providers) ∧ login_of (Mode p) = (LoginPath e, (login_of (Mode p)).2) ∧
           dispatch st.(S_mux) "GET" (LoginPath e) = (login_of (Mode p)).2) ∧
     (∀ l, l ∈ ExternalLogins e →
        ∃ p, p ∈ st.(S_providers) ∧ dispatch st.(S_mux) "GET" l.(Path) = (login_of (Mode p)).2)) ∧
  (∀ cfg ws, configPath ≠ "" → Load yaml ReadFile configPath = Ok (cfg, ws) →
     ModeLocal ∈ cfg.(C_Provider).(Modes) →
     ∃ st, run = Ok st ∧ LoginPath st.(S_env) = "/auth/local/login").
Proof.
  assert (∀ e : ProxyEnv, E_Available e ≠ [] → available e = E_Available e) as Hav.
  { intros e He. unfold available. by destruct (E_Available e). }
  assert (∀ e : ProxyEnv, ModeLocal ∈ available e → LoginPath e = "/auth/local/login") as Hlocal.
  { intros e He. unfold LoginPath.
    assert (existsb (String.eqb ModeLocal) (available e) = true) as ->; [|done].
    apply existsb_exists. exists ModeLocal. by rewrite <-list_elem_of_In. }
  split.
  - intros st [_ _ Hm Hs Hmux]%reachable_invariant e.
    assert (available e = Mode <$> S_providers st) as Hmodes.
    { unfold e. rewrite Hav by (rewrite Hm; by destruct (S_providers st)). done. }
    assert (∀ m, m ∈ available e → ∃ p, p ∈ S_providers st ∧ m = Mode p) as Hprov.
    { intros m. rewrite Hmodes, list_elem_of_fmap. naive_solver. }
    split.
    + unfold LoginPath. destruct (existsb (String.eqb ModeLocal) (available e)) eqn:Hl.
      { apply existsb_exists in Hl as (m & Hin%list_elem_of_In & <-%String.eqb_eq).
        destruct (Hprov _ Hin) as (p & Hp & Hmp). exists p.
        pose proof (dispatch_login _ p Hp) as Hd. rewrite <-Hmp in *. by rewrite Hmux. }
      destruct (existsb (String.eqb ModeOpenShift) (available e)) eqn:Ho.
      { apply existsb_exists in Ho as (m & Hin%list_elem_of_In & <-%String.eqb_eq).
        destruct (Hprov _ Hin) as (p & Hp & Hmp). exists p.
        pose proof (dispatch_login _ p Hp) as Hd. rewrite <-Hmp in *. by rewrite Hmux. }
      destruct (S_providers st) as [|p ps] eqn:Hps; [done|]. exists p.
      assert (p ∈ S_providers st) as Hp by (rewrite Hps; apply list_elem_of_here).
      pose proof (dispatch_login _ p Hp) as Hd. rewrite Hps in Hp, Hd. rewrite Hmux.
      rewrite Hmodes in Hl, Ho. destruct p; [by simpl in Hl|by split_and!|by simpl in Ho].
    + intros l (m & Hl & Hin)%list_elem_of_bind. destruct (Hprov _ Hin) as (p & Hp & ->).
      exists p. split; [done|]. pose proof (dispatch_login _ p Hp) as Hd. rewrite Hmux, <-Hd.
      destruct p; cbn in Hl; [by apply not_elem_of_nil in Hl|..];
        by apply list_elem_of_singleton in Hl as ->.
  - intros cfg ws Hpath Hload Hin.
    apply is_empty_false in Hpath.
    destruct (Load_Parse _ _ _ Hload) as [raw (c0 & _ & _ & Hwf & _)%Parse_Ok].
    destruct (wf_NewCodec cfg Hwf) as [codec Hc], (wf_build_routes cfg Hwf) as [rs Hrs].
    assert (BuildRuntime cfg = Ok (mkRuntime cfg codec (build_users (C_Users cfg)) (sort_routes rs)))
      as Hrt by (apply BuildRuntime_Ok; by exists codec, rs).
    unfold run. rewrite Hpath, Hload, Hrt.
    set (rt := mkRuntime _ _ _ _). unfold setupProviders.
    assert (LocalProvider (Local.NewProvider salt (mkEnv rt None [])) ∈
              omap (setupProvider (mkEnv rt None []) cfg) (Modes (C_Provider cfg))) as Hps.
    { apply list_elem_of_omap. by exists ModeLocal. }
    destruct (omap _ _) as [|p ps] eqn:He; [by apply not_elem_of_nil in Hps|].
    eexists. split; [done|]. apply Hlocal. rewrite Hav by done. cbn [E_Available S_env].
    apply list_elem_of_fmap. eexists. split; [|exact Hps]. done.
Qed.
End main.

(** ** Witnesses *)

Lemma demo_started : ∃ st, run demo_yaml "demo" "salt" None = Ok st.
Proof. eexists. vm_compute. reflexivity. Qed.

Lemma runtime_always_valid_witness :
  ∃ st, reachable demo_yaml "demo" "salt" None st ∧
    BuildRuntime st.(S_env).(E_Runtime).(RT_Config) = Ok st.(S_env).(E_Runtime).
Proof.
  destruct demo_started as [st Hst]. exists st.
  assert (reachable demo_yaml "demo" "salt" None st) as Hr by (apply reachable_run; exact Hst).
  split; [exact Hr|].
  destruct (runtime_always_valid demo_yaml "demo" "salt" None st Hr) as (_ & _ & H & _). exact H.
Defined.

Lemma login_always_served_witness :
  ∃ st, run demo_yaml "demo" "salt" None = Ok st ∧ LoginPath st.(S_env) = "/auth/local/login".
Proof.
  apply (proj2 (login_always_served demo_yaml "demo" "salt" None) demo_config []).
  - intros H. discriminate H.
  - vm_compute. reflexivity.
  - apply list_elem_of_here.
Defined.
