(* ===== verification/ApiTypes.v ===== *)
(** * The API objects ([api/v1alpha1] and the core kinds the controllers use)

    The fields of each kind that the modelled controllers read or write, with
    the labels, annotations and levels of [common_types.go]. Metadata keeps the
    controlling owner's UID, what [metav1.GetControllerOf] answers with. *)

From S2P Require Import Prelude GoStrings.

(** ** Constants of [common_types.go] and [conditions.go] *)

Definition ManagedByLabelValue : string := "pgtoolbox".
Definition PgConsoleLabelKey : string := "pgtoolbox.fyannk.dev/pgconsole".
Definition PgConsoleFinalizer : string := "pgtoolbox.fyannk.dev/pgconsole".
Definition ConfigChecksumAnnotation : string := "pgtoolbox.fyannk.dev/config-checksum".
Definition AdminSyncSecretVersionAnnotation : string := "pgtoolbox.fyannk.dev/admin-sync-secret-version".
Definition EvidenceTokenLabelKey : string := "pgtoolbox.fyannk.dev/evidence-token".
Definition RotateEvidenceTokenAnnotation : string := "pgtoolbox.fyannk.dev/rotate-evidence-token".
Definition ReconcileAnnotation : string := "pgtoolbox.fyannk.dev/reconcile".

Abbreviation RoleLevel := string (only parsing).
Definition RoleLevelView : RoleLevel := "view".
Definition RoleLevelPowerUser : RoleLevel := "poweruser".
Definition RoleLevelDBA : RoleLevel := "dba".

Definition AccessRequestStatePending : string := "pending".
Definition AccessRequestStateApproved : string := "approved".
Definition AccessRequestStateDenied : string := "denied".

Definition NetworkPolicyTypesFull : string := "full".
Definition NetworkPolicyTypesIngress : string := "ingress".

Abbreviation ExposureType := string (only parsing).
Definition ExposureTypeClusterIP : ExposureType := "clusterIP".
Definition ExposureTypeRoute : ExposureType := "route".
Definition ExposureTypeIngress : ExposureType := "ingress".
Definition ExposureTypeGateway : ExposureType := "gateway".

(** ** Metadata *)

Record ObjectMeta := mkMeta {
  M_Name : string;
  M_Namespace : string;
  M_UID : string;
  M_Labels : gmap string string;
  M_Annotations : gmap string string;
  M_Controller : option string;
  M_ResourceVersion : string;
  M_Generation : Z;
  M_Deleting : bool;          (** the deletion timestamp is set *)
  M_Finalizers : list string
}.

#[export] Instance ObjectMeta_eq_dec : EqDecision ObjectMeta.
Proof. solve_decision. Defined.

Definition ObjectKey : Type := string * string.

Definition key_of (m : ObjectMeta) : ObjectKey := (m.(M_Namespace), m.(M_Name)).

(** The metadata of an object a controller builds: owned by [owner], with
    nothing the API server fills in. *)
Definition new_meta (name namespace : string) (labels : gmap string string)
    (owner : option string) : ObjectMeta :=
  mkMeta name namespace "" labels ∅ owner "" 0 false [].

Definition set_labels (l : gmap string string) (m : ObjectMeta) : ObjectMeta :=
  mkMeta m.(M_Name) m.(M_Namespace) m.(M_UID) l m.(M_Annotations) m.(M_Controller)
    m.(M_ResourceVersion) m.(M_Generation) m.(M_Deleting) m.(M_Finalizers).
Definition set_annotations (a : gmap string string) (m : ObjectMeta) : ObjectMeta :=
  mkMeta m.(M_Name) m.(M_Namespace) m.(M_UID) m.(M_Labels) a m.(M_Controller)
    m.(M_ResourceVersion) m.(M_Generation) m.(M_Deleting) m.(M_Finalizers).
Definition set_controller (o : option string) (m : ObjectMeta) : ObjectMeta :=
  mkMeta m.(M_Name) m.(M_Namespace) m.(M_UID) m.(M_Labels) m.(M_Annotations) o
    m.(M_ResourceVersion) m.(M_Generation) m.(M_Deleting) m.(M_Finalizers).

Definition set_finalizers (f : list string) (m : ObjectMeta) : ObjectMeta :=
  mkMeta m.(M_Name) m.(M_Namespace) m.(M_UID) m.(M_Labels) m.(M_Annotations) m.(M_Controller)
    m.(M_ResourceVersion) m.(M_Generation) m.(M_Deleting) f.

(** [metav1.Condition]. *)
Record Condition := mkCondition {
  Cd_Type : string;
  Cd_Status : string;
  Cd_ObservedGeneration : Z;
  Cd_Reason : string;
  Cd_Message : string
}.

#[export] Instance Condition_eq_dec : EqDecision Condition.
Proof. solve_decision. Defined.

Record SecretKeyReference := mkSecretKeyRef { SR_Name : string; SR_Key : string }.

#[export] Instance SecretKeyReference_eq_dec : EqDecision SecretKeyReference.
Proof. solve_decision. Defined.

(** ** Kinds *)

Record Secret := mkSecret {
  Sec_Meta : ObjectMeta;
  Sec_Type : string;
  Sec_Immutable : bool;
  Sec_Data : gmap string string
}.

Definition SecretTypeOpaque : string := "Opaque".

Record PgToolBoxUserSpec := mkUserSpec {
  PU_PgConsoleRef : string;
  PU_Subject : string;
  PU_Level : RoleLevel;
  PU_LocalPasswordSecretRef : option SecretKeyReference
}.

#[export] Instance PgToolBoxUserSpec_eq_dec : EqDecision PgToolBoxUserSpec.
Proof. solve_decision. Defined.

Record PgToolBoxUserStatus := mkUserStatus {
  PU_ObservedGeneration : Z;
  PU_ProxySynced : bool;
  PU_Conditions : list Condition
}.

Record PgToolBoxUser := mkPgToolBoxUser {
  PU_Meta : ObjectMeta;
  PU_Spec : PgToolBoxUserSpec;
  PU_Status : PgToolBoxUserStatus
}.

Record AccessRequestSpec := mkRequestSpec {
  Rq_PgConsoleRef : string;
  Rq_Subject : string;
  Rq_Message : string
}.

Record AccessRequestStatus := mkRequestStatus {
  Rq_ObservedGeneration : Z;
  Rq_State : string;
  Rq_RequestedLevel : RoleLevel;
  Rq_DecidedBy : string;
  Rq_Conditions : list Condition
}.

#[export] Instance AccessRequestStatus_eq_dec : EqDecision AccessRequestStatus.
Proof. solve_decision. Defined.

Record PgToolBoxAccessRequest := mkAccessRequest {
  Rq_Meta : ObjectMeta;
  Rq_Spec : AccessRequestSpec;
  Rq_Status : AccessRequestStatus
}.

Record BootstrapAdminSpec := mkBootstrapAdminSpec {
  BA_Subject : string;
  BA_PasswordSecretRef : option SecretKeyReference
}.

Record ProxyOIDCSpec := mkProxyOIDCSpec {
  PO_IssuerURL : string;
  PO_ClientID : string;
  PO_ClientSecretRef : SecretKeyReference
}.

(** [Local] and [OpenShift] are empty structs behind pointers. *)
Record ProxyAuthenticationSpec := mkProxyAuthenticationSpec {
  PA_BootstrapAdmin : BootstrapAdminSpec;
  PA_Local : option unit;
  PA_OIDC : option ProxyOIDCSpec;
  PA_OpenShift : option unit
}.

(** [ImageSpec]; nothing reads its pull secrets. *)
Record ImageSpec := mkImage {
  I_Repository : string;
  I_Tag : string;
  I_Digest : string;
  I_PullPolicy : string
}.

(** [corev1.ResourceRequirements]: quantities by their text. *)
Record Resources := mkResources {
  RS_Requests : gmap string string;
  RS_Limits : gmap string string
}.

#[export] Instance Resources_eq_dec : EqDecision Resources.
Proof. solve_decision. Defined.

Definition no_resources : Resources := mkResources ∅ ∅.

(** The size is [None] when it is zero. *)
Record PgAdminSpec := mkPgAdminSpec {
  PG_Enabled : option bool;
  PG_Image : option ImageSpec;
  PG_AccessMinLevel : string;
  PG_StorageSize : option string;
  PG_StorageClass : string;
  PG_Resources : Resources
}.

(** [ConsoleSpec] with its three blocks; durations are nanoseconds. *)
Record ConsoleLogTailSpec := mkLogTail { LT_Lines : option Z; LT_MaxBytes : option Z }.

Record ConsoleMetricsSpec := mkMetrics {
  ME_Enabled : option bool;
  ME_Interval : option Z;
  ME_Retention : option Z
}.

Record ConsoleHistorySpec := mkHistory {
  HI_Enabled : option bool;
  HI_MaxRevisions : option Z;
  HI_MaxBytes : option Z;
  HI_PerObjectRevisions : option Z;
  HI_CoalesceWindow : option Z
}.

Record ConsoleSpec := mkConsoleSpec {
  CO_AllowOperations : option bool;
  CO_AllowLogs : option bool;
  CO_AllowAccessReview : option bool;
  CO_AllowClusterCatalogs : option bool;
  CO_AllowInsecureLinks : option bool;
  CO_MonitoringURL : string;
  CO_APIRequestTimeout : option Z;
  CO_EventsMaxAge : option Z;
  CO_LogTail : ConsoleLogTailSpec;
  CO_Metrics : ConsoleMetricsSpec;
  CO_History : ConsoleHistorySpec
}.

Record EvidenceSpec := mkEvidenceSpec {
  EV_Enabled : option bool;
  EV_Image : option ImageSpec;
  EV_Resources : Resources
}.

Record ExposureTLSSpec := mkExposureTLS { ET_Termination : string; ET_CertificateSecretRef : option string }.

Record GatewayParentRef := mkGatewayParent { GP_Name : string; GP_Namespace : string; GP_SectionName : string }.

Record ExposureSpec := mkExposure {
  EX_Type : ExposureType;
  EX_Hostname : string;
  EX_TLS : option ExposureTLSSpec;
  EX_IngressClassName : string;
  EX_Gateway : option GatewayParentRef;
  EX_Annotations : gmap string string;
  EX_Labels : gmap string string
}.

(** [intstr.IntOrString]. *)
Inductive PortValue :=
  | PortNumber (n : Z)
  | PortName (s : string).

(** A peer of a rule: the Pods of the namespace with these labels, or a peer of
    another form, kept as it was written. *)
Inductive PolicyPeer :=
  | PodPeer (labels : gmap string string)
  | OtherPeer (raw : string).

(** [networkingv1.NetworkPolicyPort] and [NetworkPolicyEgressRule]. *)
Record PolicyPort := mkPolicyPort {
  PP_Protocol : option string;
  PP_Port : option PortValue;
  PP_EndPort : option Z
}.

Record EgressRule := mkEgressRule {
  ER_Ports : list PolicyPort;
  ER_To : list PolicyPeer
}.

#[export] Instance PortValue_eq_dec : EqDecision PortValue.
Proof. solve_decision. Defined.
#[export] Instance PolicyPeer_eq_dec : EqDecision PolicyPeer.
Proof. solve_decision. Defined.
#[export] Instance PolicyPort_eq_dec : EqDecision PolicyPort.
Proof. solve_decision. Defined.
#[export] Instance EgressRule_eq_dec : EqDecision EgressRule.
Proof. solve_decision. Defined.

Record NetworkPolicySpec := mkNetworkPolicyConfig {
  NP_Enabled : option bool;
  NP_PolicyTypes : string;
  NP_ExtraEgress : list EgressRule
}.

Record PgConsoleSpec := mkPgConsoleSpec {
  CS_CNPGClusterRef : string;
  CS_Image : option ImageSpec;
  CS_ProxyImage : option ImageSpec;
  CS_Authentication : ProxyAuthenticationSpec;
  CS_ProxyResources : Resources;
  CS_PgAdmin : PgAdminSpec;
  CS_Console : ConsoleSpec;
  CS_Evidence : EvidenceSpec;
  CS_Exposure : ExposureSpec;
  CS_NetworkPolicy : NetworkPolicySpec;
  CS_FSGroup : option Z;
  CS_Resources : Resources
}.

Definition CS_Hostname (s : PgConsoleSpec) : string := s.(CS_Exposure).(EX_Hostname).

(** [PgConsoleStatus]; nothing reads or writes its user counters. *)
Record PgConsoleStatus := mkConsoleStatus {
  PS_ObservedGeneration : Z;
  PS_URL : string;
  PS_ConfigRevision : string;
  PS_EvidenceEnabled : bool;
  PS_EvidenceTokenSecretName : string;
  PS_Conditions : list Condition
}.

#[export] Instance PgConsoleStatus_eq_dec : EqDecision PgConsoleStatus.
Proof. solve_decision. Defined.

Definition no_console_status : PgConsoleStatus := mkConsoleStatus 0 "" "" false "" [].

Record PgConsole := mkPgConsole {
  PC_Meta : ObjectMeta;
  PC_Spec : PgConsoleSpec;
  PC_Status : PgConsoleStatus
}.

Definition PC_TokenSecretName (c : PgConsole) : string := c.(PC_Status).(PS_EvidenceTokenSecretName).
Definition PC_Name (c : PgConsole) : string := c.(PC_Meta).(M_Name).
Definition PC_Namespace (c : PgConsole) : string := c.(PC_Meta).(M_Namespace).
Definition PC_UID (c : PgConsole) : string := c.(PC_Meta).(M_UID).

(** *** Pods

    The fields of a Pod template that the operator renders. *)
Record EnvVar := mkEnv { EN_Name : string; EN_Value : string }.

Record ContainerPort := mkContainerPort { CP_Name : string; CP_Port : Z; CP_Protocol : string }.

Inductive Probe :=
  | HTTPProbe (path : string) (port : Z)
  | TCPProbe (port initialDelay period : Z)
  | ExecProbe (command : list string).

Record SecurityContext := mkSecurity {
  SX_AllowPrivilegeEscalation : option bool;
  SX_ReadOnlyRootFilesystem : option bool;
  SX_Drop : list string
}.

Record VolumeMount := mkMount {
  VM_Name : string;
  VM_MountPath : string;
  VM_SubPath : string;
  VM_ReadOnly : bool
}.

Record Container := mkContainer {
  CT_Name : string;
  CT_Image : string;
  CT_PullPolicy : string;
  CT_Command : list string;
  CT_Args : list string;
  CT_Env : list EnvVar;
  CT_Ports : list ContainerPort;
  CT_Liveness : option Probe;
  CT_Readiness : option Probe;
  CT_Resources : Resources;
  CT_Security : SecurityContext;
  CT_Mounts : list VolumeMount
}.

(** Key and path of [corev1.KeyToPath]. *)
Abbreviation KeyToPath := (string * string)%type (only parsing).

Inductive VolumeProjection :=
  | ProjectedToken (path : string) (expiration : Z)
  | ProjectedConfigMap (name : string) (items : list KeyToPath)
  | ProjectedField (path fieldPath : string)
  | ProjectedSecret (name : string) (items : list KeyToPath).

Inductive VolumeSource :=
  | EmptyDir
  | SecretSource (name : string) (mode : option Z) (items : list KeyToPath)
  | ClaimSource (claim : string)
  | ProjectedSource (mode : option Z) (sources : list VolumeProjection).

Record Volume := mkVolume { V_Name : string; V_Source : VolumeSource }.

#[export] Instance EnvVar_eq_dec : EqDecision EnvVar.
Proof. solve_decision. Defined.
#[export] Instance ContainerPort_eq_dec : EqDecision ContainerPort.
Proof. solve_decision. Defined.
#[export] Instance Probe_eq_dec : EqDecision Probe.
Proof. solve_decision. Defined.
#[export] Instance SecurityContext_eq_dec : EqDecision SecurityContext.
Proof. solve_decision. Defined.
#[export] Instance VolumeMount_eq_dec : EqDecision VolumeMount.
Proof. solve_decision. Defined.
#[export] Instance Container_eq_dec : EqDecision Container.
Proof. solve_decision. Defined.
#[export] Instance VolumeProjection_eq_dec : EqDecision VolumeProjection.
Proof. solve_decision. Defined.
#[export] Instance VolumeSource_eq_dec : EqDecision VolumeSource.
Proof. solve_decision. Defined.
#[export] Instance Volume_eq_dec : EqDecision Volume.
Proof. solve_decision. Defined.

Record PodSecurityContext := mkPodSecurity {
  PX_RunAsNonRoot : option bool;
  PX_SeccompProfile : string;
  PX_FSGroup : option Z
}.

#[export] Instance PodSecurityContext_eq_dec : EqDecision PodSecurityContext.
Proof. solve_decision. Defined.

Record PodSpec := mkPodSpec {
  PX_ServiceAccountName : string;
  PX_AutomountServiceAccountToken : option bool;
  PX_RestartPolicy : string;
  PX_DNSPolicy : string;
  PX_SecurityContext : PodSecurityContext;
  PX_InitContainers : list Container;
  PX_Containers : list Container;
  PX_Volumes : list Volume
}.

Record DeploymentSpec := mkDeploymentSpec {
  DS_Replicas : option Z;
  DS_Strategy : string;
  DS_Selector : gmap string string;
  DS_TemplateLabels : gmap string string;
  DS_TemplateAnnotations : gmap string string;
  DS_Pod : PodSpec
}.

Record Deployment := mkDeployment {
  D_Meta : ObjectMeta;
  D_Spec : DeploymentSpec;
  D_ObservedGeneration : Z;
  D_UpdatedReplicas : Z;
  D_ReadyReplicas : Z
}.

(** The Secret a volume mounts, if it mounts one. *)
Definition volume_secret (v : Volume) : option string :=
  match v.(V_Source) with SecretSource name _ _ => Some name | _ => None end.

Definition D_Volumes (d : Deployment) : list (string * option string) :=
  (λ v, (v.(V_Name), volume_secret v)) <$> d.(D_Spec).(DS_Pod).(PX_Volumes).

(** The selector, the policy types and the rules of a NetworkPolicy. *)
Record PolicySpec := mkPolicySpec {
  NPS_PodSelector : gmap string string;
  NPS_PolicyTypes : list string;
  NPS_Ingress : list (list PolicyPort);
  NPS_Egress : list EgressRule
}.

#[export] Instance PolicySpec_eq_dec : EqDecision PolicySpec.
Proof. solve_decision. Defined.

Record NetworkPolicy := mkNetworkPolicy {
  NP_Meta : ObjectMeta;
  NP_Spec : PolicySpec
}.

(** ** Authority *)

Record PolicyRule := mkRule {
  RL_APIGroups : list string;
  RL_Resources : list string;
  RL_Verbs : list string;
  RL_ResourceNames : list string
}.

#[export] Instance PolicyRule_eq_dec : EqDecision PolicyRule.
Proof. solve_decision. Defined.

(** A [Role], or a [ClusterRole] when it has no namespace. *)
Record Role := mkRole { RO_Meta : ObjectMeta; RO_Rules : list PolicyRule }.

Record RoleRef := mkRoleRef { RR_APIGroup : string; RR_Kind : string; RR_Name : string }.
Record Subject := mkSubject { SU_Kind : string; SU_Name : string; SU_Namespace : string }.

#[export] Instance RoleRef_eq_dec : EqDecision RoleRef.
Proof. solve_decision. Defined.
#[export] Instance Subject_eq_dec : EqDecision Subject.
Proof. solve_decision. Defined.

Record RoleBinding := mkRoleBinding {
  RB_Meta : ObjectMeta;
  RB_RoleRef : RoleRef;
  RB_Subjects : list Subject
}.

Record ServiceAccount := mkServiceAccount { SA_Meta : ObjectMeta }.

(** ** The Service, the claim and the three kinds of exposure *)

Record ServicePort := mkServicePort {
  SP_Name : string;
  SP_Protocol : string;
  SP_Port : Z;
  SP_TargetPort : PortValue
}.

#[export] Instance ServicePort_eq_dec : EqDecision ServicePort.
Proof. solve_decision. Defined.

Record Service := mkService {
  SV_Meta : ObjectMeta;
  SV_Type : string;
  SV_Selector : gmap string string;
  SV_Ports : list ServicePort
}.

Record PersistentVolumeClaim := mkPVC {
  PV_Meta : ObjectMeta;
  PV_AccessModes : list string;
  PV_Storage : string;
  PV_StorageClass : option string
}.

(** One rule with one path: host, path, path type, Service and port. *)
Record IngressSpec := mkIngressSpec {
  IN_ClassName : option string;
  IN_Host : string;
  IN_Path : string;
  IN_PathType : string;
  IN_Service : string;
  IN_Port : Z;
  IN_TLS : list (list string * string)
}.

#[export] Instance IngressSpec_eq_dec : EqDecision IngressSpec.
Proof. solve_decision. Defined.

Record Ingress := mkIngress {
  IN_Meta : ObjectMeta;
  IN_Spec : IngressSpec;
  IN_LoadBalancer : list string
}.

Record RouteTLS := mkRouteTLS { RT_Termination : string; RT_InsecurePolicy : string }.

Record RouteSpec := mkRouteSpec {
  RT_Host : string;
  RT_ToKind : string;
  RT_ToName : string;
  RT_Weight : Z;
  RT_TargetPort : PortValue;
  RT_TLS : option RouteTLS;
  RT_WildcardPolicy : string
}.

#[export] Instance RouteTLS_eq_dec : EqDecision RouteTLS.
Proof. solve_decision. Defined.
#[export] Instance RouteSpec_eq_dec : EqDecision RouteSpec.
Proof. solve_decision. Defined.

Record RouteCondition := mkRouteCondition {
  RC_Type : string;
  RC_Status : string;
  RC_Reason : string;
  RC_Message : string
}.

(** The verdicts of the routers: a host and its conditions. *)
Record Route := mkRoute {
  RT_Meta : ObjectMeta;
  RT_Spec : RouteSpec;
  RT_Ingress : list (string * list RouteCondition)
}.

Record ParentReference := mkParentRef {
  PR_Group : option string;
  PR_Kind : option string;
  PR_Name : string;
  PR_Namespace : option string;
  PR_SectionName : option string
}.

#[export] Instance ParentReference_eq_dec : EqDecision ParentReference.
Proof. solve_decision. Defined.

(** One rule with one backend: group, kind, name, port and weight. *)
Record HTTPRouteSpec := mkHTTPRouteSpec {
  HR_ParentRefs : list ParentReference;
  HR_Hostnames : list string;
  HR_BackendGroup : string;
  HR_BackendKind : string;
  HR_BackendName : string;
  HR_BackendPort : Z;
  HR_Weight : Z
}.

#[export] Instance HTTPRouteSpec_eq_dec : EqDecision HTTPRouteSpec.
Proof. solve_decision. Defined.

Record HTTPRoute := mkHTTPRoute {
  HR_Meta : ObjectMeta;
  HR_Spec : HTTPRouteSpec;
  HR_Parents : list (ParentReference * list Condition)
}.

(** [AllowedRoutes]: the kinds (group and kind) and the namespaces, from where
    and by which selector, kept as it was written. *)
Record RouteNamespaces := mkRouteNamespaces { RN_From : option string; RN_Selector : option string }.
Record AllowedRoutes := mkAllowedRoutes {
  AR_Namespaces : option RouteNamespaces;
  AR_Kinds : list (option string * string)
}.

Record Listener := mkListener {
  LI_Name : string;
  LI_Protocol : string;
  LI_Hostname : option string;
  LI_AllowedRoutes : option AllowedRoutes
}.

Record Gateway := mkGateway { GW_Meta : ObjectMeta; GW_Listeners : list Listener }.

Record Namespace := mkNamespace { NS_Meta : ObjectMeta }.

(** ** What CloudNativePG and Barman publish *)

Record ClusterPlugin := mkPlugin {
  CP_PluginName : string;
  CP_Enabled : option bool;
  CP_Parameters : gmap string string
}.

(** The Secret of [bootstrap.initdb] is [None] when any pointer to it is nil. *)
Record Cluster := mkCluster {
  CL_Meta : ObjectMeta;
  CL_Plugins : list ClusterPlugin;
  CL_InitDBSecret : option string;
  CL_SuperuserSecret : option string;
  CL_WriteService : string
}.

Record DatabaseRole := mkDatabaseRole {
  DR_Meta : ObjectMeta;
  DR_ClusterRef : string;
  DR_PasswordSecret : option string;
  DR_RoleName : string
}.

Record AWSCredentials := mkAWS {
  AW_InheritFromIAMRole : bool;
  AW_AccessKeyID : option SecretKeyReference;
  AW_SecretAccessKey : option SecretKeyReference;
  AW_SessionToken : option SecretKeyReference
}.

Record BarmanConfiguration := mkBarman {
  BC_Azure : bool;                   (** not nil *)
  BC_Google : bool;
  BC_AWS : option AWSCredentials;
  BC_DestinationPath : string;
  BC_EndpointURL : string;
  BC_EndpointCA : option SecretKeyReference;
  BC_ServerName : string
}.

(** The configuration of an ObjectStore as it decodes: absent, or refused with
    a message. *)
Record ObjectStore := mkObjectStore {
  OB_Meta : ObjectMeta;
  OB_Configuration : option (result string BarmanConfiguration)
}.
