(* ===== verification/AdminSync.v ===== *)
(** * pgAdmin provisioning ([internal/adminsync])

    The sidecar that writes the credential files of the pgAdmin accounts and
    runs [setup.py load-servers] for each ([sidecar_server.go]), its HTTP
    handler with the bearer token, and the client in the operator that picks a
    ready Pod and posts the desired connections to it ([sidecar_client.go],
    [adminsync.go]). pgAdmin and its CLI are third-party code: a command line
    is [exec_run] of [GoOs.OS], and [PgAdminLaws] states what the
    documentation of [load-servers --replace] says. Errors are their texts. *)

From S2P Require Import Prelude GoUtf8 GoStrings GoBytes GoLib GoOs Http ApiTypes.

(** ** Data *)

(** [adminsync.Server]. *)
Record Server := mkServer {
  S_Name : string;
  S_Group : string;
  S_Host : string;
  S_Port : Z;
  S_MaintenanceDB : string;
  S_Username : string;
  S_PassFile : string;
  S_SSLMode : string;
  S_Password : string
}.

(** The shape [setup.py load-servers] reads. *)
Record serverEntry := mkEntry {
  E_Name : string;
  E_Group : string;
  E_Host : string;
  E_Port : Z;
  E_MaintenanceDB : string;
  E_Username : string;
  E_ConnectionParameters : gmap string string
}.

Abbreviation serverDocument := (gmap string serverEntry).

Definition pythonPath : string := "/venv/bin/python3".
Definition setupPath : string := "/pgadmin4/setup.py".
Definition SidecarServerName : string := "pgadmin-admin-sync".
Definition SidecarPort : Z := 9600.
Definition DefaultPassFilePath : string := "/run/pgadmin/passfile/pgpass".
Definition DefaultSettingsDBPath : string := "/var/lib/pgadmin/pgadmin4.db".
Definition pgpassAnyHost : string := "*".
Definition storageRelativePassFile : string := "/pgpass".
Definition pgAdminStorageRoot : string := "/var/lib/pgadmin/storage".
Definition revisionFileName : string := ".pgtoolbox-revision".
Definition maxBody : Z := 2 ^ 20.
Definition StatusNoContent : Z := 204.

(** The fields of [SidecarOptions] that [apply] reads. *)
Record SidecarOptions := mkOptions {
  O_PythonPath : string;
  O_SetupPath : string;
  O_PassFile : string;
  O_SettingsDB : string
}.

Definition or_default (d s : string) : string := if is_empty s then d else s.

(** The defaults at the start of [RunSidecar]. *)
Definition with_defaults (o : SidecarOptions) : SidecarOptions :=
  mkOptions (or_default pythonPath o.(O_PythonPath)) (or_default setupPath o.(O_SetupPath))
    (or_default DefaultPassFilePath o.(O_PassFile)) (or_default DefaultSettingsDBPath o.(O_SettingsDB)).

(** [encoding/json] on the types above, and [x509]'s reading of a CA bundle. *)
Class AdminLib := {
  marshal_servers : list Server → string;
  marshal_document : serverDocument → string;
  marshal_request : list Server → string;
  decode_request : string → option (list Server);
  usable_CA : string → bool
}.

Definition coerce_server (s : Server) : Server :=
  mkServer (to_valid_utf8 s.(S_Name)) (to_valid_utf8 s.(S_Group)) (to_valid_utf8 s.(S_Host)) s.(S_Port)
    (to_valid_utf8 s.(S_MaintenanceDB)) (to_valid_utf8 s.(S_Username)) (to_valid_utf8 s.(S_PassFile))
    (to_valid_utf8 s.(S_SSLMode)) (to_valid_utf8 s.(S_Password)).

Class AdminLibLaws (A : AdminLib) : Prop := {
  request_roundtrip l : decode_request (marshal_request l) = Some (coerce_server <$> l)
}.

(** ** The credential file *)

Definition pgpassEscape (s : string) : string :=
  ReplaceAll (ReplaceAll s "\" "\\") ":" "\:".

Definition pgpassLine (host : string) (port : Z) (database username password : string) : string :=
  Join [pgpassEscape host; Itoa port; pgpassEscape database; pgpassEscape username; pgpassEscape password] ":".

Definition pgpass_line (s : Server) : string :=
  pgpassLine pgpassAnyHost s.(S_Port) s.(S_MaintenanceDB) s.(S_Username) s.(S_Password).

Definition newline : ascii := Zbyte 10.

(** The content [writePassfile] and [writeLegacyPassfile] build. *)
Definition pgpass_content (servers : list Server) : string :=
  let content := Join (pgpass_line <$> servers) (str1 newline) in
  if is_empty content then content else content +:+ str1 newline.

(** The documented reading of a line: fields end at a colon and a backslash
    takes the next character literally. *)
Fixpoint pgpass_fields (s : string) : list string :=
  match s with
  | EmptyString => [EmptyString]
  | String a s =>
      if Ascii.eqb a ":" then EmptyString :: pgpass_fields s
      else
        let literal b s := match pgpass_fields s with
                           | [] => [str1 b]
                           | f :: l => String b f :: l
                           end in
        match Ascii.eqb a "\", s with
        | true, String b s' => literal b s'
        | _, _ => literal a s
        end
  end.

(** ** Where an account keeps its files *)

Definition userStorageDirectory (subject : string) : string :=
  filepath_Join [pgAdminStorageRoot; ReplaceAll subject "@" "_"].

Definition account_file (account base : string) : string :=
  filepath_Join [userStorageDirectory account; base].
Definition passfile (account : string) : string := account_file account "pgpass".
Definition revision_file (account : string) : string := account_file account revisionFileName.

Section sidecar.
Context `{G : GoLib} {AL : AdminLib} {D : Type} `{O : OS D}.

Definition serversRevision (servers : list Server) : string :=
  hex_EncodeToString (sha256_Sum256 (marshal_servers servers)).

Definition appliedRevision (account : string) : IO D string :=
  raw ← ReadFile (revision_file account); mret (TrimSpace raw).

Definition quoted (account : string) : string := strconv_Quote account.

Definition recordRevision (account revision : string) : IO D unit :=
  wrapped ("record revision for " +:+ quoted account)
    (WriteFile (revision_file account) (revision +:+ str1 newline)).

Definition writePassfile (account : string) (servers : list Server) : IO D unit :=
  let directory := userStorageDirectory account in
  wrapped ("create storage directory for " +:+ quoted account) (MkdirAll directory) ≫= λ _,
  let target := filepath_Join [directory; "pgpass"] in
  let temporary := target +:+ ".tmp" in
  wrapped ("write passfile for " +:+ quoted account)
    (WriteFile temporary (pgpass_content servers)) ≫= λ _,
  wrapped ("replace passfile for " +:+ quoted account) (Rename temporary target).

Definition writeLegacyPassfile (o : SidecarOptions) (servers : list Server) : IO D unit :=
  wrapped "create passfile directory" (MkdirAll (Dir o.(O_PassFile))) ≫= λ _,
  let tempFile := o.(O_PassFile) +:+ ".tmp" in
  wrapped "write passfile" (WriteFile tempFile (pgpass_content servers)) ≫= λ _,
  Rename tempFile o.(O_PassFile).

(** The entry of one connection. *)
Definition server_entry (s : Server) : serverEntry :=
  mkEntry s.(S_Name) s.(S_Group) s.(S_Host) s.(S_Port) s.(S_MaintenanceDB) s.(S_Username)
    (<["sslmode" := s.(S_SSLMode)]> (<["passfile" := storageRelativePassFile]> ∅)).

(** [document.Servers[strconv.Itoa(i+1)] = ...] over the list. *)
Definition server_document (servers : list Server) : serverDocument :=
  list_to_map (imap (λ i s, (Itoa (Z.of_nat (i + 1)), server_entry s)) servers).

(** [defer func() { _ = os.Remove(name) }()] around the rest of a function. *)
Definition removing {A} (name : string) (m : IO D A) : IO D A :=
  attempt m ≫= λ r, attempt (Remove name) ≫= λ _, of_result r.

Definition load_argv (o : SidecarOptions) (file account : string) : list string :=
  [o.(O_PythonPath); o.(O_SetupPath); "load-servers"; file; "--user"; account;
   "--auth-source"; "webserver"; "--replace"].

Definition loadServers (o : SidecarOptions) (account : string) (servers : list Server) : IO D unit :=
  let payload := marshal_document (server_document servers) in
  file ← wrapped ("create server JSON temp file for " +:+ quoted account)
           (CreateTemp "pgadmin-servers-" ".json");
  removing file (
    wrapped ("write server JSON temp file for " +:+ quoted account) (WriteFile file payload) ≫= λ _,
    wrapped ("close server JSON temp file for " +:+ quoted account) (CloseFile file) ≫= λ _,
    out ← CombinedOutput (load_argv o file account);
    match out with
    | (_, None) => mret ()
    | (output, Some err) => throw ("load servers for " +:+ quoted account +:+ ": " +:+ err +:+ ": " +:+ output)
    end).

(** The Python program that prints the rows of a query. *)
Definition query_script : string :=
  Join ["import sqlite3,sys"; "c=sqlite3.connect(sys.argv[1])";
        "print('\n'.join(str(r[0]) for r in c.execute(sys.argv[2]) if r[0] is not None))"; ""] (str1 newline).

Definition accounts_query : string := "SELECT username FROM user WHERE auth_source = 'webserver'".

Definition query_argv (o : SidecarOptions) (query : string) : list string :=
  [o.(O_PythonPath); "-c"; query_script; o.(O_SettingsDB); query].

Definition querySettingsDB (o : SidecarOptions) (query : string) : IO D string :=
  out ← CombinedOutput (query_argv o query);
  match out with
  | (output, None) => mret output
  | (output, Some err) => throw (err +:+ ": " +:+ output)
  end.

(** The account names in the output of the query. *)
Definition account_lines (output : string) : list string :=
  base.filter (λ a, is_empty a = false) (TrimSpace <$> Split (TrimSpace output) newline).

Definition accounts (o : SidecarOptions) : IO D (list string) :=
  r ← attempt (querySettingsDB o accounts_query);
  match r with
  | Err err => if Contains err "no such table" then mret [] else throw ("list pgAdmin accounts: " +:+ err)
  | Ok output => mret (account_lines output)
  end.

(** The body of the loop of [apply] for one account. *)
Definition provision (o : SidecarOptions) (servers : list Server) (desired account : string) : IO D unit :=
  applied ← attempt (appliedRevision account);
  if match applied with Ok revision => String.eqb revision desired | Err _ => false end then mret ()
  else
    writePassfile account servers ≫= λ _,
    loadServers o account servers ≫= λ _,
    recordRevision account desired.

Definition apply (o : SidecarOptions) (servers : list Server) : IO D unit :=
  names ← accounts o;
  let desired := serversRevision servers in
  for_range (provision o servers desired) names ≫= λ _,
  writeLegacyPassfile o servers.

(** ** The HTTP handler *)

Definition http_Error (msg : string) (code : Z) (w : Response) : Response :=
  write_body (msg +:+ str1 newline)
    (WriteHeader code
      (set_header "X-Content-Type-Options" "nosniff"
        (set_header "Content-Type" "text/plain; charset=utf-8" w))).

(** [http.MaxBytesReader]: the decoder sees at most [n] bytes. *)
Definition MaxBytes (n : Z) (body : string) : string :=
  if (Z.of_nat (slen body) <=? n)%Z then body else take_str (Z.to_nat n) body.

(** The token [RunSidecar] reads at its start, or why it does not serve. *)
Definition sidecar_token (file : string) (content : result string string) : result string string :=
  match content with
  | Err e => Err ("read sidecar token: " +:+ e)
  | Ok token =>
      let expected := TrimSpace token in
      if (slen expected <? 32)%nat then Err ("sidecar token in " +:+ file +:+ " is too short")
      else Ok expected
  end.

(** The handler of [POST /v1/sync]. *)
Definition handleSync (o : SidecarOptions) (expected : string) (r : Request) (body : string)
    (w : world D) : Response * world D :=
  let presented := TrimPrefix (Header_Get r.(R_Header) "Authorization") "Bearer " in
  if negb (String.eqb presented expected) then
    (http_Error "unauthorized" Status.Unauthorized new_response, w)
  else match decode_request (MaxBytes maxBody body) with
  | None => (http_Error "invalid payload" Status.BadRequest new_response, w)
  | Some servers =>
      match apply o servers w with
      | (Err err, w') => (http_Error err Status.InternalServerError new_response, w')
      | (Ok _, w') => (WriteHeader StatusNoContent new_response, w')
      end
  end.
End sidecar.

(** ** The client in the operator *)

Record Pod := mkPod {
  P_Namespace : string;
  P_Name : string;
  P_Annotations : gmap string string;
  P_Phase : string;
  P_Conditions : list (string * string);   (** type and status *)
  P_PodIP : string
}.

Definition podReady (p : Pod) : bool :=
  if negb (String.eqb p.(P_Phase) "Running") then false
  else match first_such (λ c, String.eqb c.1 "Ready") p.(P_Conditions) with
       | Some c => String.eqb c.2 "True"
       | None => false
       end.

(** [sort.Slice] by name; the names of the Pods of a namespace differ. *)
Definition sort_pods : list Pod → list Pod :=
  merge_sort (λ p q, String.le p.(P_Name) q.(P_Name)).

Definition eligible (checksum : string) (p : Pod) : bool :=
  String.eqb (default "" (p.(P_Annotations) !! ConfigChecksumAnnotation)) checksum && podReady p.

Definition selectReadyPod (pods : list Pod) (checksum : string) : result string Pod :=
  result_of_option "no ready pgAdmin pod found at requested configuration revision"
    (first_such (eligible checksum) (sort_pods pods)).

(** [adminsync.Request]. *)
Record SyncInput := mkInput {
  Q_Namespace : string;
  Q_ConsoleName : string;
  Q_Selector : gmap string string;
  Q_Checksum : string;
  Q_Servers : list Server
}.

Definition SidecarSecretName (consoleName : string) : string := consoleName +:+ "-pgconsole-pgadmin-sync".
Definition SidecarSecretCAKey : string := "ca.crt".
Definition SidecarSecretTokenKey : string := "token".

(** What is posted, over TLS to a server that must present [Post_ServerName]
    under the CA [Post_CA]. *)
Record Post := mkPost {
  Post_URL : string;
  Post_Header : Header;
  Post_Body : string;
  Post_CA : string;
  Post_ServerName : string
}.

Section client.
Context `{G : GoLib} {AL : AdminLib}.
Context (list_pods : string → gmap string string → result string (list Pod))
        (read_secret : string → string → result string (gmap string string)).

Definition readyPod (q : SyncInput) : result string Pod :=
  match list_pods q.(Q_Namespace) q.(Q_Selector) with
  | Err e => Err ("list pgAdmin pods for admin sync: " +:+ e)
  | Ok pods => selectReadyPod pods q.(Q_Checksum)
  end.

(** The request [Sync] sends, or why it sends none. *)
Definition sync_post (q : SyncInput) : result string Post :=
  pod ← readyPod q;
  if is_empty pod.(P_PodIP) then
    Err ("pgAdmin pod " +:+ pod.(P_Namespace) +:+ "/" +:+ pod.(P_Name) +:+ " has no IP yet")
  else
    match read_secret q.(Q_Namespace) (SidecarSecretName q.(Q_ConsoleName)) with
    | Err e => Err ("read admin-sync secret: " +:+ e)
    | Ok data =>
        let ca := default "" (data !! SidecarSecretCAKey) in
        if negb (usable_CA ca) then
          Err ("admin-sync secret " +:+ q.(Q_Namespace) +:+ "/" +:+ SidecarSecretName q.(Q_ConsoleName)
                 +:+ " has no usable CA")
        else
          let token := TrimSpace (default "" (data !! SidecarSecretTokenKey)) in
          Ok (mkPost
                ("https://" +:+ pod.(P_PodIP) +:+ ":" +:+ Itoa SidecarPort +:+ "/v1/sync")
                (Header_Set "Content-Type" "application/json"
                  (Header_Set "Authorization" ("Bearer " +:+ token) ∅))
                (marshal_request q.(Q_Servers)) ca SidecarServerName)
    end.

(** [SidecarClient.Sync]: [Do] is the exchange over the network. *)
Definition Sync {W} (Do : Post → W → result string (Z * string) * W) (q : SyncInput) (w : W)
    : result string unit * W :=
  match sync_post q with
  | Err e => (Err e, w)
  | Ok post =>
      match Do post w with
      | (Err e, w') => (Err ("call pgAdmin admin-sync API: " +:+ e), w')
      | (Ok (status, message), w') =>
          if (status =? StatusNoContent)%Z then (Ok tt, w')
          else (Err ("pgAdmin admin-sync API returned " +:+ Itoa status +:+ ": " +:+ MaxBytes 4096 message), w')
      end
  end.
End client.

(** ** The credential file reads back *)

Lemma ReplaceAll_app s t a new : ReplaceAll (s +:+ t) a new = ReplaceAll s a new +:+ ReplaceAll t a new.
Proof.
  induction s as [|b s IH]; [done|]. rewrite append_cons. cbn [ReplaceAll]. by rewrite IH, append_assoc.
Qed.

Lemma pgpassEscape_cons a s :
  pgpassEscape (String a s) =
  (if Ascii.eqb a "\" then "\\" else if Ascii.eqb a ":" then "\:" else str1 a) +:+ pgpassEscape s.
Proof.
  unfold pgpassEscape. cbn [ReplaceAll]. rewrite ReplaceAll_app. f_equal.
  destruct (Ascii.eqb_spec a "\") as [->|Ha]; [done|]. cbn. by destruct (Ascii.eqb a ":").
Qed.

Definition cons_field (s : string) (l : list string) : list string :=
  match l with [] => [s] | f :: l => (s +:+ f) :: l end.

Lemma pgpass_fields_nonempty s : pgpass_fields s ≠ [].
Proof.
  assert (∀ n s, (slen s < n)%nat → pgpass_fields s ≠ []) as H; [|by apply (H (S (slen s))); lia].
  clear s. induction n as [|n IH]; [lia|]. intros [|a s] Hs; [done|]. cbn [String.length] in Hs.
  cbn [pgpass_fields]. destruct (Ascii.eqb a ":"); [done|].
  destruct (Ascii.eqb a "\"), s as [|b s]; cbn [String.length] in Hs; try done; by case_match.
Qed.

(** Reading an escaped field stops where it ends. *)
Lemma pgpass_fields_escape s t : pgpass_fields (pgpassEscape s +:+ t) = cons_field s (pgpass_fields t).
Proof.
  pose proof (pgpass_fields_nonempty t) as Ht. induction s as [|a s IH].
  - change (pgpassEscape "") with "". rewrite append_nil. by destruct (pgpass_fields t).
  - rewrite pgpassEscape_cons. destruct (Ascii.eqb_spec a "\") as [->|Ha1];
      [|destruct (Ascii.eqb_spec a ":") as [->|Ha2]];
      rewrite append_assoc; unfold str1; rewrite !append_cons, append_nil; cbn [pgpass_fields].
    + cbn [Ascii.eqb Bool.eqb]. rewrite IH. by destruct (pgpass_fields t).
    + cbn [Ascii.eqb Bool.eqb]. rewrite IH. by destruct (pgpass_fields t).
    + apply Ascii.eqb_neq in Ha1, Ha2. rewrite Ha1, Ha2, IH. by destruct (pgpass_fields t).
Qed.

Lemma pgpassEscape_digits n : pgpassEscape (Itoa n) = Itoa n.
Proof.
  assert (H : ∀ a s t, in_string a s = false → ReplaceAll s a t = s).
  { intros a s t. induction s as [|b s IH]; [done|]. cbn [in_string ReplaceAll].
    intros [Hb Hs]%orb_false_iff. rewrite (Ascii.eqb_sym b a), Hb, IH by done. done. }
  unfold pgpassEscape. rewrite (H "\"%char) by (by apply Itoa_free). apply H. by apply Itoa_free.
Qed.

Lemma pgpass_fields_line h p d u pw :
  pgpass_fields (pgpassLine h p d u pw) = [h; Itoa p; d; u; pw].
Proof.
  unfold pgpassLine. rewrite <-(pgpassEscape_digits p) at 1.
  cbn [Join]. rewrite !append_cons, !append_nil. rewrite !pgpass_fields_escape. cbn [pgpass_fields].
  rewrite <-(append_nil_r (pgpassEscape pw)).
  repeat (rewrite pgpass_fields_escape; cbn [pgpass_fields Ascii.eqb Bool.eqb cons_field]).
  by rewrite ?append_nil_r.
Qed.

(** The entries of a credential file, one per line that is not empty. *)
Definition pgpass_entries (content : string) : list (list string) :=
  pgpass_fields <$> base.filter (λ l, is_empty l = false) (Split content newline).

Definition one_line (s : Server) : Prop :=
  in_string newline s.(S_MaintenanceDB) = false ∧ in_string newline s.(S_Username) = false
  ∧ in_string newline s.(S_Password) = false.

Lemma escape_one_line s : in_string newline s = false → in_string newline (pgpassEscape s) = false.
Proof.
  induction s as [|a s IH]; [done|]. rewrite pgpassEscape_cons, in_string_app. cbn [in_string].
  intros [Ha Hs]%orb_false_iff. rewrite IH by done. rewrite orb_false_r.
  destruct (Ascii.eqb a "\"); [done|]. destruct (Ascii.eqb a ":"); [done|]. unfold str1. cbn [in_string]. by rewrite Ha.
Qed.

Lemma line_one_line s : one_line s → in_string newline (pgpass_line s) = false.
Proof.
  intros (Hd & Hu & Hp). unfold pgpass_line, pgpassLine. cbn [Join].
  rewrite !in_string_app, !escape_one_line, Itoa_free by done. done.
Qed.

Lemma line_nonempty s : is_empty (pgpass_line s) = false.
Proof. done. Qed.

Lemma filter_lines (servers : list Server) :
  base.filter (λ l, is_empty l = false) (pgpass_line <$> servers) = pgpass_line <$> servers.
Proof.
  induction servers as [|s l IH]; [done|]. cbn [fmap list_fmap].
  rewrite filter_cons_True by apply line_nonempty. by f_equal.
Qed.

(** C28: the credential file reads back under the documented rules of [.pgpass]:
    a rendered line has exactly the fields it was built from, whatever colons
    and backslashes they hold; and when no field holds a line break, the
    entries of the file are, in order, one per server with the wildcard host
    and that server's port, database, user and password. (A password with a
    line break cannot be written in that format at all.) *)
Theorem pgpass_roundtrip :
  (∀ host port database username password,
     pgpass_fields (pgpassLine host port database username password)
     = [host; Itoa port; database; username; password])
  ∧ ∀ servers, Forall one_line servers →
     pgpass_entries (pgpass_content servers)
     = (λ s, [pgpassAnyHost; Itoa s.(S_Port); s.(S_MaintenanceDB); s.(S_Username); s.(S_Password)]) <$> servers.
Proof.
  split; [apply pgpass_fields_line|]. intros [|s servers] H; [done|].
  assert (Hlines : Forall (λ c, in_string newline c = false) (pgpass_line <$> s :: servers))
    by (apply Forall_fmap; eapply Forall_impl; [done|]; apply line_one_line).
  unfold pgpass_entries, pgpass_content.
  replace (is_empty (Join _ _)) with false by (by destruct servers).
  unfold str1 at 2. rewrite Split_app, Split_Join by done. cbn [Split].
  rewrite filter_app, filter_lines. cbn [base.filter list_filter]. rewrite app_nil_r, <-list_fmap_compose.
  apply list_fmap_ext. intros ? ? _. apply pgpass_fields_line.
Qed.

(** ** The files of an account *)

Definition storage (account : string) : list string :=
  clean_components true (pgAdminStorageRoot +:+ "/" +:+ ReplaceAll account "@" "_").

Definition file_of (account base : string) : string := rooted_path (storage account ++ [base]).

Lemma storage_plain account : Forall (λ c, plain c = true) (storage account).
Proof. apply clean_components_plain. Qed.

Lemma userStorageDirectory_path account : userStorageDirectory account = rooted_path (storage account).
Proof.
  unfold userStorageDirectory, storage. rewrite <-Clean_rooted; [done|]. apply HasPrefix_true. by eexists.
Qed.

Lemma account_file_path account base : plain base = true → account_file account base = file_of account base.
Proof.
  intros Hb. unfold account_file. rewrite userStorageDirectory_path.
  apply Join_plain; [apply storage_plain|done].
Qed.

Lemma Join_last l c t sep : Join (l ++ [c]) sep +:+ t = Join (l ++ [c +:+ t]) sep.
Proof.
  induction l as [|d l IH]; [done|]. destruct l as [|e l]; cbn [app Join].
  - by rewrite !append_assoc.
  - cbn [app Join] in IH. by rewrite !append_assoc, IH.
Qed.

Lemma file_of_suffix account base t : file_of account base +:+ t = file_of account (base +:+ t).
Proof. unfold file_of, rooted_path. by rewrite append_assoc, Join_last. Qed.

Lemma file_of_inj a b base base' : plain base = true → plain base' = true →
  file_of a base = file_of b base' → storage a = storage b ∧ base = base'.
Proof.
  intros H H' E. apply rooted_path_inj in E.
  - by apply app_inj_tail in E.
  - apply Forall_app. by split; [apply storage_plain|repeat constructor].
  - apply Forall_app. by split; [apply storage_plain|repeat constructor].
Qed.

(** The names the sidecar uses in an account's directory. *)
Definition account_names : list string := ["pgpass"; "pgpass.tmp"; revisionFileName].

Definition temporary (p : string) : Prop :=
  ∃ r, in_string "/" r = false ∧ p = TempDir +:+ String "/" ("pgadmin-servers-" +:+ r).

Lemma account_names_plain base : base ∈ account_names → plain base = true.
Proof. unfold account_names. rewrite !elem_of_cons, elem_of_nil. intros [->|[->|[->|[]]]]; done. Qed.

Lemma file_not_temporary a base : base ∈ account_names → ¬ temporary (file_of a base).
Proof.
  intros Hb (r & Hr & E).
  change (TempDir +:+ String "/" ("pgadmin-servers-" +:+ r))
    with (rooted_path (["tmp"] ++ ["pgadmin-servers-" +:+ r])) in E.
  assert (Hp : plain ("pgadmin-servers-" +:+ r) = true).
  { unfold plain. rewrite in_string_app, Hr. by rewrite !append_cons. }
  apply rooted_path_inj in E; [|apply Forall_app; split; [apply storage_plain|]|];
    [|by repeat constructor; apply account_names_plain|by repeat constructor].
  apply app_inj_tail in E as [_ E]. revert Hb E. unfold account_names.
  rewrite !elem_of_cons, elem_of_nil. intros [->|[->|[->|[]]]]; by rewrite append_cons.
Qed.

(** ** Provisioning

    [imported d a] is the file the server list of account [a] was last loaded
    from; [load-servers --replace] makes it the list of that account alone, and
    the query of the settings database only reads. *)
Class PgAdmin (D : Type) := imported : D → string → string.

Class PgAdminLaws {D} (O : OS D) (P : PgAdmin D) (o : SidecarOptions) : Prop := {
  load_others n f a fs d b : b ≠ a →
    imported (exec_run n (load_argv o f a) fs d).2 b = imported d b;
  load_done n f a fs d out d' payload :
    exec_run n (load_argv o f a) fs d = (out, None, d') → fs !! f = Some payload → imported d' a = payload;
  query_reads n fs d : (exec_run n (query_argv o accounts_query) fs d).2 = d
}.

Section provisioning.
Context `{G : GoLib} {AL : AdminLib} {D : Type} `{O : OS D} {OL : OSLaws O} {P : PgAdmin D}.
Context (o : SidecarOptions) {PL : PgAdminLaws O P o}.

(** What a step for account [a] may change. *)
Definition touches (a : string) (w w' : world D) : Prop :=
  (∀ p, p ∉ file_of a <$> account_names → ¬ temporary p → w'.(files) !! p = w.(files) !! p)
  ∧ ∀ b, b ≠ a → imported w'.(program) b = imported w.(program) b.

#[local] Instance touches_preorder a : PreOrder (touches a).
Proof.
  split; [by split|]. intros w1 w2 w3 [F1 I1] [F2 I2]. split; intros;
    [rewrite F2 by done; by apply F1|rewrite I2 by done; by apply I1].
Qed.

Lemma touches_file a w fs : (∀ p, p ∉ file_of a <$> account_names → ¬ temporary p → fs !! p = w.(files) !! p) →
  touches a w (tick fs w).
Proof. by split. Qed.

Lemma in_account_files a base : base ∈ account_names → file_of a base ∈ file_of a <$> account_names.
Proof. intros. apply list_elem_of_fmap. eauto. Qed.

Lemma passfile_path a : passfile a = file_of a "pgpass".
Proof. exact (account_file_path a "pgpass" eq_refl). Qed.
Lemma revision_path a : revision_file a = file_of a revisionFileName.
Proof. exact (account_file_path a revisionFileName eq_refl). Qed.
Lemma tmp_path a : passfile a +:+ ".tmp" = file_of a "pgpass.tmp".
Proof. rewrite passfile_path. exact (file_of_suffix a "pgpass" ".tmp"). Qed.

Lemma names_in : "pgpass" ∈ account_names ∧ "pgpass.tmp" ∈ account_names ∧ revisionFileName ∈ account_names.
Proof. unfold account_names. rewrite !elem_of_cons. tauto. Qed.

Lemma write_touches a p c : p ∈ file_of a <$> account_names ∨ temporary p →
  always (touches a) (WriteFile p c).
Proof.
  intros Hp. apply always_WriteFile. intros w fs c' [->| ->]; apply touches_file; [done|].
  intros q Hq Ht. apply lookup_insert_ne. intros <-. tauto.
Qed.

Lemma writePassfile_touches a servers : always (touches a) (writePassfile a servers).
Proof.
  destruct names_in as (H1 & H2 & H3). unfold writePassfile. fold (account_file a "pgpass"). fold (passfile a).
  apply (always_bind _); [apply always_wrapped, always_call; by intros w fs [->| ->]|intros _].
  apply (always_bind _); [|intros _].
  { apply always_wrapped, write_touches. left. rewrite tmp_path. by apply in_account_files. }
  apply always_wrapped, always_call. intros w fs [->| ->]; [by split|].
  destruct (files w !! _); [|by split]. apply touches_file. intros p Hp _. cbn [snd].
  rewrite lookup_insert_ne, lookup_delete_ne; [done|..]; intros <-; apply Hp;
    rewrite ?tmp_path, ?passfile_path; by apply in_account_files.
Qed.

Lemma temp_temporary fs : temporary (temp_name "pgadmin-servers-" ".json" fs).
Proof.
  destruct (temp_shape "pgadmin-servers-" ".json" fs) as (r & Hr & ->); [done|].
  exists (r +:+ ".json"). by rewrite in_string_app, Hr.
Qed.

Lemma CreateTemp_temporary w p w' :
  CreateTemp "pgadmin-servers-" ".json" w = (Ok p, w') → temporary p ∧ w.(files) !! p = None.
Proof.
  intros [-> _]%CreateTemp_run. split; [apply temp_temporary|apply temp_fresh].
Qed.

(** Loading servers leaves no trace but temporary files and the list itself. *)
Definition loads (a : string) (w w' : world D) : Prop :=
  (∀ p, ¬ temporary p → w'.(files) !! p = w.(files) !! p)
  ∧ ∀ b, b ≠ a → imported w'.(program) b = imported w.(program) b.

#[local] Instance loads_preorder a : PreOrder (loads a).
Proof.
  split; [by split|]. intros w1 w2 w3 [F1 I1] [F2 I2]. split; intros;
    [rewrite F2 by done; by apply F1|rewrite I2 by done; by apply I1].
Qed.

Lemma loads_file a w fs : (∀ p, ¬ temporary p → fs !! p = w.(files) !! p) → loads a w (tick fs w).
Proof. by split. Qed.

Lemma temporary_write_loads a p c : temporary p → always (loads a) (WriteFile p c).
Proof.
  intros Hp. apply always_WriteFile. intros w fs c' [->| ->]; apply loads_file; [done|].
  intros q Ht. apply lookup_insert_ne. by intros <-.
Qed.

Lemma loadServers_loads a servers : always (loads a) (loadServers o a servers).
Proof.
  unfold loadServers, removing. apply (always_bind_post _ temporary).
  - apply always_wrapped, always_call. intros w fs [->| ->]; [by split|]. apply loads_file.
    intros p Hp. apply lookup_insert_ne. intros <-. apply Hp, temp_temporary.
  - intros w p w' [Hp _]%wrapped_run%CreateTemp_temporary. done.
  - intros p Hp. apply (always_bind _); [apply always_attempt|intros r].
    + apply (always_bind _); [by apply always_wrapped, temporary_write_loads|intros _].
      apply (always_bind _); [apply always_wrapped, always_call; by intros w fs [->| ->]|intros _].
      apply (always_bind _); [|by intros [out [err|]]; [apply always_throw|apply always_ret]; try apply _].
      apply always_CombinedOutput. intros w. split; [done|]. intros b Hb. by apply load_others.
    + apply (always_bind _); [|intros _; by intros w].
      apply always_attempt, always_call. intros w fs [->| ->]; [by split|].
      destruct (files w !! p); [|by split]. apply loads_file. intros q Hq. cbn [snd].
      apply lookup_delete_ne. by intros <-.
Qed.
Lemma loadServers_touches a servers : always (touches a) (loadServers o a servers).
Proof. intros w. destruct (loadServers_loads a servers w) as [Hf Hi]. split; auto. Qed.

Lemma provision_touches servers desired a : always (touches a) (provision o servers desired a).
Proof.
  destruct names_in as (_ & _ & H). unfold provision. apply (always_bind _).
  - apply always_attempt. unfold appliedRevision. apply (always_bind _); [|intros r w; by split].
    apply always_call. intros w fs [->| ->]; by split.
  - intros applied. case_match; [intros w; by split|].
    apply (always_bind _); [apply writePassfile_touches|intros _].
    apply (always_bind _); [apply loadServers_touches|intros _].
    apply always_wrapped, write_touches. left. rewrite revision_path. by apply in_account_files.
Qed.

(** *** The state of an account *)

Definition payload (servers : list Server) : string := marshal_document (server_document servers).

(** The account has these connections and their credentials. *)
Definition holds (w : world D) (a : string) (servers : list Server) : Prop :=
  w.(files) !! file_of a "pgpass" = Some (pgpass_content servers)
  ∧ imported w.(program) a = payload servers.

Definition revision_of (w : world D) (a : string) : option string :=
  TrimSpace <$> w.(files) !! file_of a revisionFileName.

Definition provisioned (w : world D) (a : string) (servers : list Server) : Prop :=
  revision_of w a = Some (serversRevision servers) ∧ holds w a servers.

(** The recorded revision describes what the account holds. *)
Definition coherent (w : world D) (a : string) : Prop :=
  ∀ r, revision_of w a = Some r → ∃ servers, r = serversRevision servers ∧ holds w a servers.

Definition same_account (w w' : world D) (a : string) : Prop :=
  (∀ base, base ∈ account_names → w'.(files) !! file_of a base = w.(files) !! file_of a base)
  ∧ imported w'.(program) a = imported w.(program) a.

Lemma same_provisioned w w' a servers : same_account w w' a → provisioned w a servers → provisioned w' a servers.
Proof.
  destruct names_in as (H1 & _ & H3). unfold provisioned, holds, revision_of.
  intros [Hf Hi]. by rewrite !Hf, Hi by done.
Qed.

Lemma same_coherent w w' a : same_account w w' a → coherent w a → coherent w' a.
Proof.
  destruct names_in as (H1 & _ & H3). unfold coherent, holds, revision_of.
  intros [Hf Hi]. by rewrite !Hf, Hi by done.
Qed.

Lemma touches_same a b w w' : storage a ≠ storage b → touches b w w' → same_account w w' a.
Proof.
  intros Hab [Hf Hi]. split; [|apply Hi; congruence]. intros base Hb.
  apply Hf; [|by apply file_not_temporary]. intros (base' & E & Hb')%list_elem_of_fmap.
  apply file_of_inj in E as [E _]; [done|by apply account_names_plain..].
Qed.

Lemma revision_recorded servers : TrimSpace (serversRevision servers +:+ str1 newline) = serversRevision servers.
Proof. apply TrimSpace_line, hex_Encode_printing. Qed.

Lemma writePassfile_run a servers w w' : writePassfile a servers w = (Ok (), w') →
  w'.(files) !! file_of a "pgpass" = Some (pgpass_content servers).
Proof.
  unfold writePassfile. fold (account_file a "pgpass"). fold (passfile a).
  intros ([] & w1 & H1%wrapped_run%MkdirAll_run & ([] & w2 & H2%wrapped_run%WriteFile_run & H)%bind_run)%bind_run.
  apply wrapped_run, Rename_run in H as (c & Hc & ->). rewrite H2 in Hc. cbn [files tick] in *.
  rewrite lookup_insert_eq in Hc. rewrite passfile_path, lookup_insert_eq. congruence.
Qed.

Lemma loadServers_run a servers w w' : loadServers o a servers w = (Ok (), w') →
  imported w'.(program) a = payload servers.
Proof.
  unfold loadServers, removing.
  intros (p & w1 & [_ Hw1]%wrapped_run%CreateTemp_run & (r & w2 & H1 & (r' & w3 & H2 & H3)%bind_run)%bind_run)%bind_run.
  unfold of_result in H3. injection H3 as -> <-.
  unfold attempt in H1. destruct (mbind (M := IO D) _ _ w1) as [r1 w4] eqn:E. injection H1 as -> ->.
  apply bind_run in E as ([] & w5 & H5%wrapped_run%WriteFile_run & E).
  apply bind_run in E as ([] & w6 & H6%wrapped_run%CloseFile_run & E).
  apply bind_run in E as ([out err] & w7 & [H7 _]%CombinedOutput_run & E).
  destruct err; [done|]. apply ret_run in E as [_ <-].
  assert (Hp : imported w7.(program) a = payload servers).
  { eapply load_done; [exact H7|]. rewrite H6, H5. cbn [files tick]. apply lookup_insert_eq. }
  unfold attempt in H2. destruct (Remove p w7) as [r2 w8] eqn:E8. injection H2 as <- <-.
  pose proof (Remove_program p w7) as Hr. rewrite E8 in Hr. cbn [snd] in Hr. by rewrite Hr.
Qed.
Lemma appliedRevision_run a w r w1 : attempt (appliedRevision a) w = (Ok r, w1) →
  w1 = tick w.(files) w ∧ ∀ rev, r = Ok rev → revision_of w a = Some rev.
Proof.
  unfold attempt, appliedRevision, revision_of. rewrite <-revision_path.
  pose proof (ReadFile_world (revision_file a) w) as Hw.
  destruct (ReadFile (revision_file a) w) as [[raw|e] w2] eqn:E; cbn [snd] in Hw; subst w2.
  - rewrite (bind_Ok_run _ _ _ _ _ E). intros [= <- <-]. split; [done|].
    apply ReadFile_run in E as [-> _]. by intros rev [= <-].
  - rewrite (bind_Err_run _ _ _ _ _ E). intros [= <- <-]. by split.
Qed.

Lemma provision_run servers a w w' : coherent w a →
  provision o servers (serversRevision servers) a w = (Ok (), w') →
  ∃ held, serversRevision held = serversRevision servers ∧ provisioned w' a held.
Proof.
  destruct names_in as (Hn1 & _ & Hn3). intros Hc (r & w1 & [-> Hr]%appliedRevision_run & H)%bind_run.
  assert (Hwork : (writePassfile a servers ≫= λ _, loadServers o a servers ≫= λ _,
      recordRevision a (serversRevision servers)) (tick (files w) w) = (Ok (), w') →
    ∃ held, serversRevision held = serversRevision servers ∧ provisioned w' a held).
  { clear H. intros ([] & w2 & H2%writePassfile_run & ([] & w3 & H3 & H)%bind_run)%bind_run.
    apply wrapped_run, WriteFile_run in H as ->. exists servers. split; [done|].
    pose proof (loadServers_loads a servers w2) as [Hf _]. rewrite H3 in Hf. cbn [snd] in Hf.
    apply loadServers_run in H3. unfold provisioned, holds, revision_of. cbn [files program tick].
    rewrite revision_path, lookup_insert_eq. cbn [fmap option_fmap option_map].
    rewrite revision_recorded, lookup_insert_ne, Hf by
      (by apply file_not_temporary) || (by intros [_ E]%file_of_inj). done. }
  destruct r as [rev|e]; [|by apply Hwork]. destruct (String.eqb_spec rev (serversRevision servers)) as [->|];
    [|by apply Hwork].
  apply ret_run in H as [_ <-]. destruct (Hc _ (Hr _ eq_refl)) as (held & He & Hh).
  exists held. split; [done|]. split; [|exact Hh]. rewrite <-He. by apply Hr.
Qed.

Lemma provisioned_coherent w a servers : provisioned w a servers → coherent w a.
Proof. intros [Hr Hh] r. rewrite Hr. intros [= <-]. eauto. Qed.

(** The loop over the accounts: each gets the desired state, and when one
    fails the others are as coherent as they were. *)
Lemma provision_all servers names w r w' :
  NoDup (storage <$> names) → Forall (coherent w) names →
  for_range (provision o servers (serversRevision servers)) names w = (r, w') →
  match r with
  | Ok _ => ∀ a, a ∈ names →
      ∃ held, serversRevision held = serversRevision servers ∧ provisioned w' a held
  | Err _ => ∃ b, b ∈ names ∧ ∀ a, a ∈ names → a ≠ b → coherent w' a
  end ∧ ∀ a, storage a ∉ storage <$> names → same_account w w' a.
Proof.
  revert w. induction names as [|b names IH]; intros w Hnd Hc H.
  { apply pair_equal_spec in H as [<- <-]. split; [by intros a ?%elem_of_nil|]. intros a _. by split. }
  apply NoDup_cons in Hnd as [Hb Hnd]. apply Forall_cons in Hc as [Hcb Hc]. cbn [for_range] in H.
  pose proof (provision_touches servers (serversRevision servers) b w) as Ht.
  destruct (provision o servers (serversRevision servers) b w) as [[[]|e] w1] eqn:E; cbn [snd] in Ht.
  - rewrite (bind_Ok_run _ _ _ _ _ E) in H. apply provision_run in E as (held & He & Hp); [|done].
    assert (Hc1 : Forall (coherent w1) names).
    { apply Forall_forall. intros a Ha. rewrite Forall_forall in Hc. apply (same_coherent w); [|by apply Hc].
      apply (touches_same a b); [|done]. intros Hab. apply Hb, list_elem_of_fmap. eauto. }
    destruct (IH _ Hnd Hc1 H) as [Hr Hsame]. split.
    + destruct r as [[]|e].
      * intros a [->|Ha]%elem_of_cons; [|auto]. exists held. split; [done|].
        eapply same_provisioned; [by apply Hsame|done].
      * destruct Hr as (b' & Hb' & Hr). exists b'. split; [by apply elem_of_cons; right|].
        intros a [->|Ha]%elem_of_cons Hne; [|auto].
        eapply same_coherent; [by apply Hsame|by eapply provisioned_coherent].
    + intros a. cbn [fmap list_fmap]. rewrite not_elem_of_cons. intros [Hab Ha].
      destruct (touches_same a b w w1 Hab Ht) as [Hf Hi], (Hsame a Ha) as [Hf' Hi'].
      split; [intros base Hn; by rewrite Hf', Hf|by rewrite Hi'].
  - rewrite (bind_Err_run _ _ _ _ _ E) in H. injection H as <- <-. split.
    + exists b. split; [by apply elem_of_cons; left|]. intros a [->|Ha]%elem_of_cons Hne; [done|].
      rewrite Forall_forall in Hc. eapply same_coherent; [|by apply Hc].
      apply (touches_same a b); [|done]. intros Hab. apply Hb, list_elem_of_fmap. eauto.
    + intros a. cbn [fmap list_fmap]. rewrite not_elem_of_cons. intros [Hab _]. by apply (touches_same a b).
Qed.
(** *** The whole pass *)

Lemma accounts_run w r w0 : accounts o w = (r, w0) → w0.(files) = w.(files) ∧ w0.(program) = w.(program).
Proof.
  unfold accounts, attempt, querySettingsDB. intros H.
  destruct (CombinedOutput (query_argv o accounts_query) w) as [[out|e] w1] eqn:E.
  - assert (w1.(files) = w.(files) ∧ w1.(program) = w.(program)) as Hw.
    { apply CombinedOutput_run in E as [E Hf]. split; [done|].
      pose proof (query_reads (step w) (files w) (program w)) as Hq. by rewrite E in Hq. }
    revert H. unfold mbind, IO_bind. rewrite E. destruct out as [out [err|]]; cbn; [case_match|];
      by intros [= _ <-].
  - by apply CombinedOutput_total in E.
Qed.

(** The combined credential file is none of the account's own. *)
Definition apart (a : string) : Prop :=
  ∀ base, base ∈ account_names →
    o.(O_PassFile) ≠ file_of a base ∧ o.(O_PassFile) +:+ ".tmp" ≠ file_of a base.

Lemma legacy_same servers a w : apart a → same_account w (writeLegacyPassfile o servers w).2 a.
Proof.
  intros Ha. pose (R := λ w w' : world D, w'.(program) = w.(program) ∧
    ∀ p, o.(O_PassFile) ≠ p → o.(O_PassFile) +:+ ".tmp" ≠ p → w'.(files) !! p = w.(files) !! p).
  assert (PreOrder R).
  { split; [by split|]. intros w1 w2 w3 [I1 F1] [I2 F2]. split; [congruence|].
    intros. rewrite F2 by done. by apply F1. }
  assert (HR : always R (writeLegacyPassfile o servers)).
  { apply (always_bind _); [apply always_wrapped, always_call; by intros w1 fs [->| ->]|intros _].
    apply (always_bind _); [apply always_wrapped, always_WriteFile|intros _].
    - intros w1 fs c [->| ->]; [done|]. split; [done|]. intros p _ Hp. by apply lookup_insert_ne.
    - apply always_call. intros w1 fs [->| ->]; [done|]. destruct (files w1 !! _); [|done]. split; [done|].
      intros p H1 H2. cbn. by rewrite lookup_insert_ne, lookup_delete_ne. }
  destruct (HR w) as [Hp Hf]. split; [|by rewrite Hp]. intros base [? ?]%Ha. by apply Hf.
Qed.

Lemma always_program servers w : (writeLegacyPassfile o servers w).2.(program) = w.(program).
Proof.
  pose (R := λ w w' : world D, w'.(program) = w.(program)).
  assert (PreOrder R) by (split; [by intros ?|intros ? ? ? H1 H2; unfold R in *; congruence]).
  assert (HR : always R (writeLegacyPassfile o servers)); [|exact (HR w)].
  apply (always_bind _); [by apply always_wrapped, always_call|intros _].
  apply (always_bind _); [by apply always_wrapped, always_WriteFile|intros _]. by apply always_call.
Qed.

Lemma others_imported servers desired names w w' b :
  for_range (provision o servers desired) names w = (Ok (), w') → b ∉ names →
  imported w'.(program) b = imported w.(program) b.
Proof.
  revert w. induction names as [|c l IH]; intros w H Hb; cbn [for_range] in H.
  - by apply ret_run in H as [_ <-].
  - apply bind_run in H as ([] & w1 & H1 & H). apply not_elem_of_cons in Hb as [Hbc Hb].
    rewrite (IH _ H Hb). pose proof (provision_touches servers desired c w) as [_ Hi].
    rewrite H1 in Hi. by apply Hi.
Qed.

Lemma for_range_app (f : string → IO D unit) l k w w' :
  for_range f (l ++ k) w = (Ok (), w') → ∃ w1, for_range f l w = (Ok (), w1) ∧ for_range f k w1 = (Ok (), w').
Proof.
  revert w. induction l as [|x l IH]; intros w H; cbn [for_range app] in *; [by exists w|].
  apply bind_run in H as ([] & w1 & H1 & (w2 & H2 & H)%IH). exists w2. split; [|done].
  by rewrite (bind_Ok_run _ _ _ _ _ H1).
Qed.

Lemma legacy_run servers w w' : writeLegacyPassfile o servers w = (Ok (), w') →
  w'.(files) !! o.(O_PassFile) = Some (pgpass_content servers).
Proof.
  unfold writeLegacyPassfile.
  intros ([] & w1 & _ & ([] & w2 & H2%wrapped_run%WriteFile_run & H)%bind_run)%bind_run.
  apply Rename_run in H as (c & Hc & ->). rewrite H2 in Hc. cbn [files tick] in *.
  rewrite lookup_insert_eq in Hc. rewrite lookup_insert_eq. congruence.
Qed.

Lemma world_coherent w w' a : w'.(files) = w.(files) → w'.(program) = w.(program) → coherent w a → coherent w' a.
Proof. unfold coherent, revision_of, holds. by intros -> ->. Qed.

(** *** On a file system that does not fail *)

Section reliable_disk.
Context (Hdisk : reliable (D := D)).

Lemma appliedRevision_reliable a w rev : revision_of w a = Some rev →
  attempt (appliedRevision a) w = (Ok (Ok rev), tick w.(files) w).
Proof.
  unfold revision_of, attempt, appliedRevision. rewrite <-revision_path. intros H.
  destruct (files w !! revision_file a) as [raw|] eqn:E; [|done]. cbn in H. injection H as <-.
  assert (Hr : ReadFile (revision_file a) w = (Ok raw, tick (files w) w)).
  { unfold ReadFile. rewrite call_reliable by done. cbn [fst snd]. by rewrite E. }
  by rewrite (bind_Ok_run _ _ _ _ _ Hr).
Qed.

(** An account whose file has the desired revision is left alone. *)
Lemma provision_skips servers desired a w : revision_of w a = Some desired →
  provision o servers desired a w = (Ok (), tick w.(files) w).
Proof.
  intros H. unfold provision. rewrite (bind_Ok_run _ _ _ _ _ (appliedRevision_reliable a w desired H)).
  by rewrite String.eqb_refl.
Qed.

Lemma provision_works servers desired rev a w : revision_of w a = Some rev → rev ≠ desired →
  provision o servers desired a w =
  (writePassfile a servers ≫= λ _, loadServers o a servers ≫= λ _, recordRevision a desired) (tick w.(files) w).
Proof.
  intros H Hne. unfold provision. rewrite (bind_Ok_run _ _ _ _ _ (appliedRevision_reliable a w rev H)).
  by apply String.eqb_neq in Hne as ->.
Qed.

Lemma MkdirAll_reliable p w : MkdirAll p w = (Ok (), tick w.(files) w).
Proof. unfold MkdirAll. by rewrite call_reliable. Qed.

(** Writing a file beside its place and moving it there. *)
Definition replaced (p q c : string) (fs : gmap string string) : gmap string string :=
  <[q := c]> (delete p (<[p := c]> fs)).

Lemma writePassfile_reliable a servers w :
  ∃ n, writePassfile a servers w
       = (Ok (), mkWorld (replaced (passfile a +:+ ".tmp") (passfile a) (pgpass_content servers) w.(files))
                   w.(program) n).
Proof.
  unfold writePassfile. fold (account_file a "pgpass"). fold (passfile a). eexists.
  rewrite (bind_Ok_run _ _ _ _ _ (wrapped_Ok _ _ _ _ _ (MkdirAll_reliable _ _))).
  rewrite (bind_Ok_run _ _ _ _ _ (wrapped_Ok _ _ _ _ _ (WriteFile_reliable _ _ _ Hdisk))).
  apply wrapped_Ok. rewrite (Rename_reliable _ _ (pgpass_content servers)) by (done || by apply lookup_insert_eq).
  reflexivity.
Qed.

Lemma legacy_reliable servers w : ∃ w', writeLegacyPassfile o servers w = (Ok (), w').
Proof.
  unfold writeLegacyPassfile. eexists.
  rewrite (bind_Ok_run _ _ _ _ _ (wrapped_Ok _ _ _ _ _ (MkdirAll_reliable _ _))).
  rewrite (bind_Ok_run _ _ _ _ _ (wrapped_Ok _ _ _ _ _ (WriteFile_reliable _ _ _ Hdisk))).
  apply (Rename_reliable _ _ (pgpass_content servers)); [done|]. apply lookup_insert_eq.
Qed.

(** C29: an interrupted pass can leave credentials nobody asks for. With one
    account provisioned for the connections [old], a pass for [new] that fails
    (at [load-servers], the only step that can) leaves the credential file of
    [new] under the recorded revision of [old]; and when the desired state is
    [old] again, the next pass succeeds, skips the account, and keeps the
    credentials of [new] for as long as [old] stays desired. The comment of
    [recordRevision] promises the account would look unprovisioned. *)
Theorem interrupted_sync_masked a old new w w0 e w1 w1' :
  accounts o w = (Ok [a], w0) →
  accounts o w1 = (Ok [a], w1') →
  apart a →
  provisioned w a old →
  serversRevision old ≠ serversRevision new →
  apply o new w = (Err e, w1) →
  ∃ w2, apply o old w1 = (Ok (), w2)
    ∧ revision_of w2 a = Some (serversRevision old)
    ∧ w2.(files) !! file_of a "pgpass" = Some (pgpass_content new).
Proof.
  destruct names_in as (Hn1 & _ & Hn3). intros Hw Hw1 Hap [Hrev _] Hne H. unfold apply in H.
  rewrite (bind_Ok_run _ _ _ _ _ Hw) in H. cbn [for_range] in H. apply accounts_run in Hw as [Hf0 _].
  assert (Hrev0 : revision_of w0 a = Some (serversRevision old)) by (unfold revision_of; by rewrite Hf0).
  destruct (writePassfile_reliable a new (tick (files w0) w0)) as [m Hp].
  set (wp := mkWorld _ _ m) in Hp.
  assert (Hwork := provision_works new _ _ a w0 Hrev0 Hne). rewrite (bind_Ok_run _ _ _ _ _ Hp) in Hwork.
  pose proof (loadServers_loads a new wp) as [Hf _].
  destruct (loadServers o a new wp) as [[[]|e'] wl] eqn:El; cbn [snd] in Hf.
  { exfalso. rewrite (bind_Ok_run _ _ _ _ _ El) in Hwork. unfold recordRevision in Hwork.
    rewrite (wrapped_Ok _ _ _ _ _ (WriteFile_reliable _ _ _ Hdisk)) in Hwork.
    unfold mbind, IO_bind in H. rewrite Hwork in H. cbn in H.
    edestruct (legacy_reliable new) as [wf Hl]. rewrite Hl in H. done. }
  rewrite (bind_Err_run _ _ _ _ _ El) in Hwork. unfold mbind, IO_bind in H. rewrite Hwork in H.
  injection H as _ <-.
  assert (Hrl : revision_of wl a = Some (serversRevision old)).
  { rewrite <-Hrev0. unfold revision_of. rewrite Hf by (by apply file_not_temporary). unfold wp, replaced. cbn [files tick].
    rewrite passfile_path, file_of_suffix.
    rewrite lookup_insert_ne, lookup_delete_ne, lookup_insert_ne; [done|..]; by intros [_ E]%file_of_inj. }
  assert (Hpl : files wl !! file_of a "pgpass" = Some (pgpass_content new)).
  { rewrite Hf by (by apply file_not_temporary). unfold wp, replaced. cbn [files].
    rewrite passfile_path. apply lookup_insert_eq. }
  unfold apply. rewrite (bind_Ok_run _ _ _ _ _ Hw1). cbn [for_range]. apply accounts_run in Hw1 as [Hf1 _].
  rename w1' into w2. assert (Hr2 : revision_of w2 a = Some (serversRevision old)) by (unfold revision_of; by rewrite Hf1).
  assert (Hs := provision_skips old _ a w2 Hr2). unfold mbind, IO_bind. rewrite Hs. cbn [mret IO_ret].
  edestruct (legacy_reliable old) as [wf Hl]. rewrite Hl. exists wf. split; [done|].
  pose proof (legacy_same old a (tick (files w2) w2) Hap) as [Hfl _]. rewrite Hl in Hfl. cbn [snd] in Hfl.
  split; [unfold revision_of; rewrite Hfl by done; exact Hr2|]. rewrite Hfl by done. cbn [files tick]. by rewrite Hf1.
Qed.

Lemma provision_stays servers desired a c w w' :
  revision_of w a = Some desired → provision o servers desired c w = (Ok (), w') →
  revision_of w' a = Some desired.
Proof.
  destruct names_in as (_ & _ & Hn). intros Hr H.
  destruct (decide (storage c = storage a)) as [Hs|Hs].
  - assert (Hrc : revision_of w c = Some desired) by (unfold revision_of, file_of; by rewrite Hs).
    rewrite (provision_skips _ _ _ _ Hrc) in H. by injection H as <-.
  - pose proof (provision_touches servers desired c w) as Ht. rewrite H in Ht. cbn [snd] in Ht.
    apply (touches_same a c) in Ht as [Hf _]; [|done]. unfold revision_of. by rewrite Hf.
Qed.

Lemma provision_records servers desired a w w' :
  provision o servers (serversRevision servers) a w = (Ok (), w') → desired = serversRevision servers →
  revision_of w' a = Some desired.
Proof.
  intros H ->. unfold provision in H. apply bind_run in H as (r & w1 & [-> Hr]%appliedRevision_run & H).
  destruct (match r with Ok _ => _ | Err _ => _ end) eqn:E.
  - apply ret_run in H as [_ <-]. destruct r as [rev|]; [|done]. apply String.eqb_eq in E as <-. by apply Hr.
  - apply bind_run in H as ([] & w2 & _ & H). apply bind_run in H as ([] & w3 & _ & H).
    apply wrapped_run, WriteFile_run in H as ->. unfold revision_of. cbn [files tick].
    rewrite revision_path, lookup_insert_eq. cbn. by rewrite revision_recorded.
Qed.

(** C30: two accounts whose names map to one storage directory ([a@b] and
    [a_b]) share the file of the recorded revision, so a pass that succeeds
    loads servers for the first one listed only: the second keeps the list it
    had, whatever the pass was asked for, on every pass. *)
Theorem shared_directory_skipped servers before a between b after w w0 w' :
  accounts o w = (Ok (before ++ a :: between ++ b :: after), w0) →
  storage a = storage b →
  b ∉ before ++ a :: between ++ after →
  apply o servers w = (Ok (), w') →
  imported w'.(program) b = imported w.(program) b.
Proof.
  intros Hacc Hab Hb H. unfold apply in H. rewrite (bind_Ok_run _ _ _ _ _ Hacc) in H.
  apply accounts_run in Hacc as [_ <-]. apply bind_run in H as ([] & wl & H & Hl).
  assert (Hlegacy : imported w'.(program) b = imported wl.(program) b).
  { f_equal. pose proof (always_program servers wl) as E. by rewrite Hl in E. }
  rewrite Hlegacy. clear Hlegacy Hl.
  apply for_range_app in H as (w1 & H1 & H). cbn [for_range] in H. apply bind_run in H as ([] & w2 & H2 & H).
  apply for_range_app in H as (w3 & H3 & H). cbn [for_range] in H. apply bind_run in H as ([] & w4 & H4 & H5).
  rewrite not_elem_of_app, not_elem_of_cons, not_elem_of_app in Hb. destruct Hb as (Hb1 & Hba & Hb3 & Hb5).
  rewrite (others_imported _ _ _ _ _ _ H5 Hb5), <-(others_imported _ _ _ _ _ _ H1 Hb1).
  pose proof (provision_records _ _ _ _ _ H2 eq_refl) as Hr.
  pose proof (provision_touches servers (serversRevision servers) a w1) as [_ Hi]. rewrite H2 in Hi. cbn [snd] in Hi.
  rewrite <-(Hi b Hba), <-(others_imported _ _ _ _ _ _ H3 Hb3).
  assert (Hr3 : revision_of w3 b = Some (serversRevision servers)).
  { unfold revision_of, file_of. rewrite <-Hab. fold (file_of a revisionFileName). fold (revision_of w3 a).
    clear -Hr H3 Hdisk OL PL. revert w2 Hr H3. induction between as [|c l IH]; intros w2 Hr H3; cbn [for_range] in H3.
    - by apply ret_run in H3 as [_ <-].
    - apply bind_run in H3 as ([] & w4 & H4 & H3). eapply IH; [|done]. by eapply provision_stays. }
  rewrite (provision_skips _ _ _ _ Hr3) in H4. by injection H4 as <-.
Qed.
End reliable_disk.
End provisioning.

(** ** Client and sidecar together *)

Section end_to_end.
Context `{G : GoLib} {AL : AdminLib} {ALL : AdminLibLaws AL} {D : Type} `{O : OS D}.
Context (o : SidecarOptions) (expected : string).

(** What [net/http] makes of a post: the request the sidecar's handler gets,
    and the status and body the client reads. *)
Definition sync_request (post : Post) : Request :=
  mkRequest Method.Post "/v1/sync" "/v1/sync" "" true "" post.(Post_Header) [] [] None.

Definition sidecar_Do (post : Post) (w : world D) : result string (Z * string) * world D :=
  let '(response, w') := handleSync o expected (sync_request post) post.(Post_Body) w in
  (Ok (default Status.OK response.(W_Status), response.(W_Body)), w').

Lemma Bearer_token t : TrimPrefix ("Bearer " +:+ t) "Bearer " = t.
Proof. unfold TrimPrefix. by rewrite (proj2 (CutPrefix_Some ("Bearer " +:+ t) "Bearer " t)). Qed.

Lemma sync_post_token list_pods read_secret q post :
  sync_post list_pods read_secret q = Ok post →
  ∃ data, read_secret q.(Q_Namespace) (SidecarSecretName q.(Q_ConsoleName)) = Ok data
    ∧ Header_Get post.(Post_Header) "Authorization"
      = "Bearer " +:+ TrimSpace (default "" (data !! SidecarSecretTokenKey))
    ∧ post.(Post_Body) = marshal_request q.(Q_Servers).
Proof.
  unfold sync_post. intros (pod & _ & H)%bind_Ok. destruct (is_empty _); [done|].
  destruct (read_secret _ _) as [data|]; [|done]. destruct (negb _); [done|]. injection H as <-.
  exists data. split; [done|]. split; [|done]. unfold Header_Get, Post_Header.
  by rewrite Header_Set_lookup_ne, Header_Set_lookup.
Qed.

End end_to_end.

(** ** A concrete pgAdmin *)

Record demo_pgadmin := mkDemo { accts : list string; lists : gmap string string }.

(** Loads any file but one that mentions a server called [broken]. *)
Definition demo_exec (n : nat) (argv : list string) (fs : gmap string string) (d : demo_pgadmin)
    : string * option string * demo_pgadmin :=
  match argv with
  | [_; _; "load-servers"; f; _; a; _; _; _] =>
      match fs !! f with
      | Some p => if Contains p "broken" then ("no such group", Some "exit status 1", d)
                  else ("", None, mkDemo d.(accts) (<[a := p]> d.(lists)))
      | None => (no_such_file, Some "exit status 2", d)
      end
  | _ => (Join d.(accts) (str1 newline) +:+ str1 newline, None, d)
  end%string.

#[export] Instance demo_PgAdmin : PgAdmin demo_pgadmin := λ d a, default "" (d.(lists) !! a).

(** A name longer than every name in use. *)
Definition demo_temp (pre suf : string) (fs : gmap string string) : string :=
  TempDir +:+ String "/" (pre +:+ repeat_str (map_fold (λ k _ n, Nat.max (slen k) n) 0 fs) "0" +:+ suf).

#[export] Instance demo_OS : OS demo_pgadmin := {|
  faults := λ _, None;
  temp_name := demo_temp;
  exec_run := demo_exec
|}.

Lemma longest_key (fs : gmap string string) k v : fs !! k = Some v →
  (slen k ≤ map_fold (λ k _ n, Nat.max (slen k) n) 0 fs)%nat.
Proof.
  revert k v. apply (map_fold_weak_ind (λ n m, ∀ k v, m !! k = Some v → (slen k ≤ n)%nat)); [done|].
  intros k' v' m n _ IH k v. destruct (decide (k' = k)) as [->|Hne]; [lia|].
  rewrite lookup_insert_ne by done. intros H%IH. lia.
Qed.

Lemma repeat_free a b n : a ≠ b → in_string a (repeat_str n b) = false.
Proof. intros H. induction n as [|n IH]; [done|]. cbn. rewrite IH. by apply Ascii.eqb_neq in H as ->. Qed.

#[export] Instance demo_OSLaws : OSLaws demo_OS.
Proof.
  split.
  - intros pre suf fs. apply eq_None_not_Some. intros [v H]. apply longest_key in H. revert H. cbn.
    unfold demo_temp, TempDir. rewrite !append_cons, append_nil. cbn [String.length].
    rewrite !slen_append, repeat_str_length. lia.
  - intros pre suf fs H. eexists. split; [|done]. by apply repeat_free.
Qed.

#[export] Instance demo_PgAdminLaws o : PgAdminLaws demo_OS demo_PgAdmin o.
Proof.
  split; cbn.
  - intros n f a fs d b Hb. destruct (fs !! f); [|done]. destruct (Contains _ _); [done|]. cbn.
    unfold imported, demo_PgAdmin. cbn. by rewrite lookup_insert_ne.
  - intros n f a fs d out d' p H Hp. rewrite Hp in H. destruct (Contains _ _); [done|]. injection H as <- <-.
    unfold imported, demo_PgAdmin. cbn. by rewrite lookup_insert_eq.
  - done.
Qed.

Definition server_tuple (s : Server) : list string * Z :=
  ([s.(S_Name); s.(S_Group); s.(S_Host); s.(S_MaintenanceDB); s.(S_Username); s.(S_PassFile); s.(S_SSLMode);
    s.(S_Password)], s.(S_Port)).
Definition tuple_server (t : list string * Z) : option Server :=
  match t with
  | ([n; g; h; d; u; f; m; p], port) => Some (mkServer n g h port d u f m p)
  | _ => None
  end.

Definition demo_text (s : Server) : string := Join ((server_tuple s).1 ++ [Itoa s.(S_Port)]) ",".

#[export] Instance demo_AdminLib : AdminLib := {|
  marshal_servers := λ l, Join (demo_text <$> l) ";";
  marshal_document := λ d, Join ((λ p, p.1 +:+ "=" +:+ E_Username p.2) <$> map_to_list d) ";";
  marshal_request := λ l, pos_to_bits (encode (server_tuple <$> (coerce_server <$> l)));
  decode_request := λ s, p ← bits_to_pos s; l ← decode (A := list (list string * Z)) p; mapM tuple_server l;
  usable_CA := λ s, negb (is_empty s)
|}.

#[export] Instance demo_AdminLibLaws : AdminLibLaws demo_AdminLib.
Proof.
  split. intros l. cbn. rewrite bits_to_pos_to_bits. cbn. rewrite countable.decode_encode. cbn.
  apply mapM_Some. rewrite Forall2_fmap_l. apply Forall_Forall2_diag, Forall_true. by intros [].
Qed.

(** ** Witnesses *)

Definition demo_options : SidecarOptions := with_defaults (mkOptions "" "" "" "").
Definition demo_server (user password : string) : Server :=
  mkServer user "pgToolBox" "orders-rw.db.svc" 5432 "app" user "" "require" password.
Definition app_old : list Server := [demo_server "app" "old:secret"].
Definition app_broken : list Server := [demo_server "broken" "new"].

Definition demo_world (a : list string) : world demo_pgadmin := mkWorld ∅ (mkDemo a ∅) 0.

Lemma pgpass_roundtrip_witness :
  Forall one_line app_old
  ∧ pgpass_entries (pgpass_content app_old) = [["*"; "5432"; "app"; "app"; "old:secret"]].
Proof.
  assert (H : Forall one_line app_old) by (repeat constructor).
  split; [exact H|]. exact (proj2 pgpass_roundtrip app_old H).
Defined.

(** The world after a first pass over one account. *)
Definition provisioned_world : world demo_pgadmin :=
  (apply demo_options app_old (demo_world ["alice@example.com"])).2.

Lemma demo_apart a : storage a = ["var"; "lib"; "pgadmin"; "storage"; "alice_example.com"] → apart demo_options a.
Proof.
  intros Ha base. unfold account_names, file_of. rewrite Ha, !elem_of_cons, elem_of_nil.
  by intros [->|[->|[->|[]]]].
Qed.


Lemma demo_reliable : reliable (D := demo_pgadmin).
Proof. done. Qed.

Lemma interrupted_sync_masked_witness :
  let w1 := (apply demo_options app_broken provisioned_world).2 in
  ∃ w2, apply demo_options app_old w1 = (Ok (), w2)
    ∧ revision_of w2 "alice@example.com" = Some (serversRevision app_old)
    ∧ w2.(files) !! file_of "alice@example.com" "pgpass" = Some (pgpass_content app_broken).
Proof.
  eapply (interrupted_sync_masked demo_options demo_reliable "alice@example.com" app_old app_broken provisioned_world).
  - vm_compute. reflexivity.
  - vm_compute. reflexivity.
  - by apply demo_apart.
  - split; [|split]; vm_compute; reflexivity.
  - vm_compute. discriminate.
  - vm_compute. reflexivity.
Defined.

Lemma shared_directory_skipped_witness :
  let w := demo_world ["a@b.c"; "a_b.c"] in
  let w' := (apply demo_options app_old w).2 in
  imported w'.(program) "a_b.c" = imported w.(program) "a_b.c" ∧ imported w'.(program) "a@b.c" = payload app_old.
Proof.
  split; [|vm_compute; reflexivity].
  eapply (shared_directory_skipped demo_options demo_reliable app_old [] "a@b.c" [] "a_b.c" []).
  - vm_compute. reflexivity.
  - reflexivity.
  - by intros [[=]|?%elem_of_nil]%elem_of_cons.
  - vm_compute. reflexivity.
Defined.

Definition demo_token : string := "0123456789abcdef0123456789abcdef".
Definition demo_pod : Pod :=
  mkPod "db" "console-0" {[ConfigChecksumAnnotation := "r1"]} "Running" [("Ready", "True")] "10.0.0.9".
Definition demo_pods (_ : string) (_ : gmap string string) : result string (list Pod) := Ok [demo_pod].
Definition demo_secret (_ _ : string) : result string (gmap string string) :=
  Ok {["ca.crt" := "PEM"; "token" := demo_token +:+ str1 newline]}.
Definition demo_input : SyncInput := mkInput "db" "console" ∅ "r1" app_old.

