(* ===== verification/Kube.v ===== *)
(** * The Kubernetes API as the controllers see it

    A controller runs in a state-and-error monad over a client. [Client] gives
    the calls of [client.Client], one per verb, for each kind, and the live
    [APIReader]; [view] is what the API server stores, [cached] what the
    informer cache answers with, and [log] the writes that were sent.
    [ClientLaws] states what the documentation of the API promises: reads
    change nothing; a successful write stores the object that was sent, up to
    the fields the server fills in, and touches no other object; a write that
    fails stored nothing, or its answer was lost and it was stored all the same;
    a delete removes an object without finalizers and only marks one that has
    some. The cache may be behind the server by any amount: a theorem that
    needs an entry to have caught up says so with [in_sync]. [Machinery] gathers the helpers of apimachinery and
    controller-runtime that the controllers call. [demo_client] is a server
    that obeys the laws and fails on request. *)

From stdpp Require Import pretty.
From S2P Require Import Prelude ApiTypes.

Inductive kind :=
  | KSecret
  | KUser
  | KRequest
  | KConsole
  | KDeployment
  | KNetworkPolicy
  | KRole
  | KRoleBinding
  | KClusterRole
  | KClusterRoleBinding
  | KServiceAccount
  | KService
  | KPVC
  | KIngress
  | KRoute
  | KHTTPRoute
  | KGateway
  | KNamespace
  | KCluster
  | KDatabaseRole
  | KObjectStore.

#[export] Instance kind_eq_dec : EqDecision kind.
Proof. solve_decision. Defined.

Definition object (k : kind) : Type :=
  match k with
  | KSecret => Secret
  | KUser => PgToolBoxUser
  | KRequest => PgToolBoxAccessRequest
  | KConsole => PgConsole
  | KDeployment => Deployment
  | KNetworkPolicy => NetworkPolicy
  | KRole => Role
  | KRoleBinding => RoleBinding
  | KClusterRole => Role
  | KClusterRoleBinding => RoleBinding
  | KServiceAccount => ServiceAccount
  | KService => Service
  | KPVC => PersistentVolumeClaim
  | KIngress => Ingress
  | KRoute => Route
  | KHTTPRoute => HTTPRoute
  | KGateway => Gateway
  | KNamespace => Namespace
  | KCluster => Cluster
  | KDatabaseRole => DatabaseRole
  | KObjectStore => ObjectStore
  end.

Definition meta {k : kind} : object k → ObjectMeta :=
  match k with
  | KSecret => Sec_Meta
  | KUser => PU_Meta
  | KRequest => Rq_Meta
  | KConsole => PC_Meta
  | KDeployment => D_Meta
  | KNetworkPolicy => NP_Meta
  | KRole => RO_Meta
  | KRoleBinding => RB_Meta
  | KClusterRole => RO_Meta
  | KClusterRoleBinding => RB_Meta
  | KServiceAccount => SA_Meta
  | KService => SV_Meta
  | KPVC => PV_Meta
  | KIngress => IN_Meta
  | KRoute => RT_Meta
  | KHTTPRoute => HR_Meta
  | KGateway => GW_Meta
  | KNamespace => NS_Meta
  | KCluster => CL_Meta
  | KDatabaseRole => DR_Meta
  | KObjectStore => OB_Meta
  end.

Definition set_meta {k : kind} (m : ObjectMeta) : object k → object k :=
  match k with
  | KSecret => λ o, mkSecret m o.(Sec_Type) o.(Sec_Immutable) o.(Sec_Data)
  | KUser => λ o, mkPgToolBoxUser m o.(PU_Spec) o.(PU_Status)
  | KRequest => λ o, mkAccessRequest m o.(Rq_Spec) o.(Rq_Status)
  | KConsole => λ o, mkPgConsole m o.(PC_Spec) o.(PC_Status)
  | KDeployment => λ o, mkDeployment m o.(D_Spec) o.(D_ObservedGeneration)
                          o.(D_UpdatedReplicas) o.(D_ReadyReplicas)
  | KNetworkPolicy => λ o, mkNetworkPolicy m o.(NP_Spec)
  | KRole => λ o, mkRole m o.(RO_Rules)
  | KRoleBinding => λ o, mkRoleBinding m o.(RB_RoleRef) o.(RB_Subjects)
  | KClusterRole => λ o, mkRole m o.(RO_Rules)
  | KClusterRoleBinding => λ o, mkRoleBinding m o.(RB_RoleRef) o.(RB_Subjects)
  | KServiceAccount => λ o, mkServiceAccount m
  | KService => λ o, mkService m o.(SV_Type) o.(SV_Selector) o.(SV_Ports)
  | KPVC => λ o, mkPVC m o.(PV_AccessModes) o.(PV_Storage) o.(PV_StorageClass)
  | KIngress => λ o, mkIngress m o.(IN_Spec) o.(IN_LoadBalancer)
  | KRoute => λ o, mkRoute m o.(RT_Spec) o.(RT_Ingress)
  | KHTTPRoute => λ o, mkHTTPRoute m o.(HR_Spec) o.(HR_Parents)
  | KGateway => λ o, mkGateway m o.(GW_Listeners)
  | KNamespace => λ o, mkNamespace m
  | KCluster => λ o, mkCluster m o.(CL_Plugins) o.(CL_InitDBSecret) o.(CL_SuperuserSecret) o.(CL_WriteService)
  | KDatabaseRole => λ o, mkDatabaseRole m o.(DR_ClusterRef) o.(DR_PasswordSecret) o.(DR_RoleName)
  | KObjectStore => λ o, mkObjectStore m o.(OB_Configuration)
  end.

(** The status subresource of each kind: its own endpoint writes it, and the
    main one leaves it alone. *)
Definition Status (k : kind) : Type :=
  match k with
  | KUser => PgToolBoxUserStatus
  | KRequest => AccessRequestStatus
  | KConsole => PgConsoleStatus
  | KDeployment => Z * Z * Z
  | KIngress => list string
  | KRoute => list (string * list RouteCondition)
  | KHTTPRoute => list (ParentReference * list Condition)
  | _ => unit
  end.

Definition status {k : kind} : object k → Status k :=
  match k with
  | KUser => PU_Status
  | KRequest => Rq_Status
  | KConsole => PC_Status
  | KDeployment => λ o, (o.(D_ObservedGeneration), o.(D_UpdatedReplicas), o.(D_ReadyReplicas))
  | KIngress => IN_LoadBalancer
  | KRoute => RT_Ingress
  | KHTTPRoute => HR_Parents
  | _ => λ _, ()
  end.

Definition set_status {k : kind} : Status k → object k → object k :=
  match k with
  | KUser => λ s o, mkPgToolBoxUser o.(PU_Meta) o.(PU_Spec) s
  | KRequest => λ s o, mkAccessRequest o.(Rq_Meta) o.(Rq_Spec) s
  | KConsole => λ s o, mkPgConsole o.(PC_Meta) o.(PC_Spec) s
  | KDeployment => λ s o, mkDeployment o.(D_Meta) o.(D_Spec) s.1.1 s.1.2 s.2
  | KIngress => λ s o, mkIngress o.(IN_Meta) o.(IN_Spec) s
  | KRoute => λ s o, mkRoute o.(RT_Meta) o.(RT_Spec) s
  | KHTTPRoute => λ s o, mkHTTPRoute o.(HR_Meta) o.(HR_Spec) s
  | _ => λ _ o, o
  end.

Definition zero_status (k : kind) : Status k :=
  match k with
  | KUser => mkUserStatus 0 false []
  | KRequest => mkRequestStatus 0 "" "" "" []
  | KConsole => no_console_status
  | KDeployment => (0, 0, 0)%Z
  | KIngress => []
  | KRoute => []
  | KHTTPRoute => []
  | _ => ()
  end.

(** What the main endpoint stores of an object: everything but its status and
    the fields the server fills in. *)
Definition unstamp (m : ObjectMeta) : ObjectMeta :=
  mkMeta m.(M_Name) m.(M_Namespace) "" m.(M_Labels) m.(M_Annotations) m.(M_Controller) "" 0
    m.(M_Deleting) m.(M_Finalizers).

Definition content {k : kind} (o : object k) : object k :=
  set_status (zero_status k) (set_meta (unstamp (meta o)) o).

Arguments content : simpl never.
Arguments status : simpl never.

(** An object that is being deleted lasts as long as it has a finalizer. *)
Definition gone (m : ObjectMeta) : bool := m.(M_Deleting) && bool_decide (m.(M_Finalizers) = []).

(** ** Errors *)

(** Beside the answers of the server, [NoMatch]: the kind is not served. *)
Inductive api_error := NotFound | AlreadyExists | Conflict | OtherError | NoMatch.

#[export] Instance api_error_eq_dec : EqDecision api_error.
Proof. solve_decision. Defined.

(** The errors of the controllers: an answer of the API server, a message, an
    error wrapped with [%w], a Secret that holds no usable credential, and a
    panic, which the workqueue reports like an error. *)
Inductive error :=
  | ApiErr (e : api_error)
  | FmtErr (msg : string)
  | WrapErr (msg : string) (e : error)
  | SecretFormatErr (key : ObjectKey)
  | Panic (msg : string).

(** The class [apierrors] sees, through any wrapping. *)
Fixpoint api_class (e : error) : option api_error :=
  match e with
  | ApiErr e => Some e
  | WrapErr _ e => api_class e
  | FmtErr _ | SecretFormatErr _ | Panic _ => None
  end.

Definition IsNotFound (e : error) : bool := bool_decide (api_class e = Some NotFound).
Definition IsAlreadyExists (e : error) : bool := bool_decide (api_class e = Some AlreadyExists).

(** [meta.IsNoMatchError]. *)
Definition IsNoMatchError (e : error) : bool := bool_decide (api_class e = Some NoMatch).

(** ** The monad of a controller *)

Definition M (W A : Type) : Type := W → result error A * W.

#[export] Instance M_ret {W} : MRet (M W) := λ A a w, (Ok a, w).
#[export] Instance M_bind {W} : MBind (M W) := λ A B f m w,
  match m w with
  | (Ok a, w) => f a w
  | (Err e, w) => (Err e, w)
  end.

Definition throw {W A} (e : error) : M W A := λ w, (Err e, w).

Definition of_result {W A} (r : result error A) : M W A := λ w, (r, w).

(** A call whose error is inspected rather than propagated. *)
Definition try {W A} (m : M W A) : M W (result error A) := λ w,
  let '(r, w) := m w in (Ok r, w).

(** A call whose error is wrapped with a message. *)
Definition wrap {W A} (msg : string) (m : M W A) : M W A := λ w,
  match m w with
  | (Ok a, w) => (Ok a, w)
  | (Err e, w) => (Err (WrapErr msg e), w)
  end.

(** [client.IgnoreNotFound]. *)
Definition ignore_not_found {W} (m : M W ()) : M W () := λ w,
  match m w with
  | (Err e, w) => (if IsNotFound e then Ok () else Err e, w)
  | r => r
  end.

(** The object a read answered with, [None] when there is none. *)
Definition found {W A} (r : result error A) : M W (option A) :=
  match r with
  | Ok a => mret (Some a)
  | Err e => if IsNotFound e then mret None else throw e
  end.

(** A loop over the elements of a list, left at the first error. *)
Fixpoint forM {W A} (l : list A) (f : A → M W ()) : M W () :=
  match l with
  | [] => mret ()
  | x :: l => f x ≫= λ _, forM l f
  end.

Fixpoint mapM {W A B} (f : A → M W B) (l : list A) : M W (list B) :=
  match l with
  | [] => mret []
  | x :: l => f x ≫= λ y, mapM f l ≫= λ ys, mret (y :: ys)
  end.

(** ** The client *)

Inductive verb := VCreate | VUpdate | VPatch | VStatusPatch | VDelete | VApply.

#[export] Instance verb_eq_dec : EqDecision verb.
Proof. solve_decision. Defined.

Class Client (W : Type) := {
  view : W → ∀ k : kind, ObjectKey → option (object k);
  cached : W → ∀ k : kind, ObjectKey → option (object k);
  log : W → list (verb * kind * ObjectKey);
  Get : ∀ k : kind, ObjectKey → M W (object k);
  LiveGet : ∀ k : kind, ObjectKey → M W (object k);
  List : ∀ k : kind, string → M W (list (object k));
  Create : ∀ k : kind, object k → M W ();
  Update : ∀ k : kind, object k → M W ();
  (** [Patch(after, MergeFrom(before))]: [before], then [after] *)
  Patch : ∀ k : kind, object k → object k → M W ();
  (** the same on the status subresource *)
  StatusPatch : ∀ k : kind, object k → object k → M W ();
  Delete : ∀ k : kind, ObjectKey → M W ();
  (** [Patch(desired, apply patch, field owner)]: it answers with what is
      stored then *)
  Apply : ∀ k : kind, object k → M W (object k)
}.

(** What a kind holds beside its metadata and its status. *)
Definition payload {k : kind} (o : object k) : object k :=
  set_status (zero_status k) (set_meta (new_meta "" "" ∅ None) o).
Arguments payload : simpl never.

(** The kinds all of whose lists are atomic and whose fields the operator sets
    all: nothing of another field owner can be merged in. *)
Definition atomic_kind (k : kind) : bool :=
  match k with KRole | KRoleBinding | KClusterRole | KClusterRoleBinding => true | _ => false end.

(** [o'] has what a server-side apply of [o] asks for. *)
Record applied {k : kind} (o o' : object k) : Prop := {
  applied_key : key_of (meta o') = key_of (meta o);
  applied_labels : M_Labels (meta o) ⊆ M_Labels (meta o');
  applied_annotations : M_Annotations (meta o) ⊆ M_Annotations (meta o');
  applied_controller u : M_Controller (meta o) = Some u → M_Controller (meta o') = Some u;
  applied_payload : atomic_kind k = true → payload o' = payload o
}.

(** Everything but one object is as it was. *)
Definition elsewhere `{Client W} (w w' : W) (k : kind) (key : ObjectKey) : Prop :=
  ∀ (k' : kind) (key' : ObjectKey), k' ≠ k ∨ key' ≠ key → view w' k' key' = view w k' key'.

Definition same_view `{Client W} (w w' : W) : Prop :=
  ∀ (k : kind) (key : ObjectKey), view w' k key = view w k key.

(** Nothing was written. *)
Record untouched `{Client W} (w w' : W) : Prop := {
  untouched_view : same_view w w';
  untouched_log : log w' = log w;
  untouched_cached : cached w' = cached w
}.

(** The answer to a read of what is stored, or cached, under a key. *)
Definition read_answer {A} (stored : option A) (r : result error A) : Prop :=
  match r with
  | Ok o => stored = Some o
  | Err e => IsNotFound e = true → stored = None
  end.

(** A write of an object whose stored form is related by [P] to the one
    before: it is logged and touches no other object; when it fails the object
    is as it was, or the answer was lost and it was written all the same. *)
Definition write_answer `{Client W} (w w' : W) (v : verb) (k : kind) (key : ObjectKey)
    (r : result error ()) (P : option (object k) → option (object k) → Prop) : Prop :=
  log w' = log w ++ [(v, k, key)] ∧
  match r with
  | Ok _ => P (view w k key) (view w' k key) ∧ elsewhere w w' k key
  | Err _ => (view w' k key = view w k key ∨ P (view w k key) (view w' k key)) ∧ elsewhere w w' k key
  end.

(** The cache entry of an object is what the server stores. *)
Definition in_sync `{Client W} (w : W) (k : kind) (key : ObjectKey) : Prop := cached w k key = view w k key.

Definition synced_on `{Client W} (w : W) (l : list (kind * ObjectKey)) : Prop :=
  ∀ k key, (k, key) ∈ l → in_sync w k key.

(** The informers are late, by any amount: all that is known of the cache after
    a write is that an entry that had caught up before stays or follows. *)
Definition lagging `{Client W} (w w' : W) : Prop :=
  ∀ (k : kind) (key : ObjectKey), in_sync w k key →
    cached w' k key = view w k key ∨ in_sync w' k key.

(** An object that is as it was, its cache entry no worse than it was. *)
Definition kept `{Client W} (w w' : W) (k : kind) (key : ObjectKey) : Prop :=
  view w' k key = view w k key ∧ (in_sync w k key → in_sync w' k key).

(** What a delete leaves of an object: nothing when it has no finalizer;
    otherwise it is marked for deletion, once, and stays. *)
Definition deleted {k : kind} (cur : object k) (new : option (object k)) : Prop :=
  if bool_decide (M_Finalizers (meta cur) = []) then new = None
  else ∃ o, new = Some o ∧ M_Deleting (meta o) = true ∧ M_Finalizers (meta o) = M_Finalizers (meta cur)
         ∧ M_Controller (meta o) = M_Controller (meta cur) ∧ M_Labels (meta o) = M_Labels (meta cur)
         ∧ payload o = payload cur ∧ status o = status cur
         ∧ (M_Deleting (meta cur) = true → o = cur).

(** Absent, or on its way out and held by a finalizer only. *)
Definition released `{Client W} (w : W) (k : kind) (key : ObjectKey) : Prop :=
  ∀ o, view w k key = Some o → M_Deleting (meta o) = true.

Class ClientLaws `(C : Client W) : Prop := {
  view_key (w : W) (k : kind) key o : view w k key = Some o → key_of (meta o) = key;
  cached_key (w : W) (k : kind) key o : cached w k key = Some o → key_of (meta o) = key;
  view_kept (w : W) (k : kind) key o : view w k key = Some o → gone (meta o) = false;
  cached_kept (w : W) (k : kind) key o : cached w k key = Some o → gone (meta o) = false;
  Get_spec (w : W) (k : kind) key r w' : Get k key w = (r, w') →
    untouched w w' ∧ read_answer (cached w k key) r;
  LiveGet_spec (w : W) (k : kind) key r w' : LiveGet k key w = (r, w') →
    untouched w w' ∧ read_answer (view w k key) r;
  List_spec (w : W) (k : kind) ns r w' : List k ns w = (r, w') →
    untouched w w' ∧
    ∀ l, r = Ok l →
      NoDup (key_of ∘ meta <$> l) ∧ ∀ o, o ∈ l ↔ ∃ name, cached w k (ns, name) = Some o;
  Create_spec (w : W) (k : kind) o r w' : Create k o w = (r, w') →
    write_answer w w' VCreate k (key_of (meta o)) r (λ old new,
      old = None ∧ ∃ o', new = Some o' ∧ content o' = content o);
  Create_exists (w : W) (k : kind) o e w' : Create k o w = (Err e, w') →
    IsAlreadyExists e = true → is_Some (view w k (key_of (meta o)));
  Update_spec (w : W) (k : kind) o r w' : Update k o w = (r, w') →
    write_answer w w' VUpdate k (key_of (meta o)) r (λ old new,
      ∃ cur o', old = Some cur ∧ new = (if gone (meta o) then None else Some o') ∧
        (M_ResourceVersion (meta o) = "" ∨
         M_ResourceVersion (meta o) = M_ResourceVersion (meta cur)) ∧
        content o' = content o ∧ status o' = status cur);
  Patch_spec (w : W) (k : kind) before after r w' : Patch k before after w = (r, w') →
    write_answer w w' VPatch k (key_of (meta after)) r (λ old new,
      ∃ cur o', old = Some cur ∧ new = Some o' ∧ status o' = status cur ∧
        (content cur = content before → content o' = content after));
  StatusPatch_spec (w : W) (k : kind) before after r w' :
    StatusPatch k before after w = (r, w') →
    write_answer w w' VStatusPatch k (key_of (meta after)) r (λ old new,
      ∃ cur o', old = Some cur ∧ new = Some o' ∧ content o' = content cur ∧
        M_Generation (meta o') = M_Generation (meta cur) ∧
        (status cur = status before → status o' = status after));
  Delete_spec (w : W) (k : kind) key r w' : Delete k key w = (r, w') →
    write_answer w w' VDelete k key r (λ old new,
      match old with None => new = None | Some cur => deleted cur new end);
  Apply_spec (w : W) (k : kind) o r w' : Apply k o w = (r, w') →
    log w' = log w ++ [(VApply, k, key_of (meta o))] ∧
    match r with
    | Ok o' => view w' k (key_of (meta o)) = Some o' ∧ elsewhere w w' k (key_of (meta o)) ∧ applied o o'
               ∧ status o' = default (zero_status k) (status <$> view w k (key_of (meta o)))
    | Err _ => (view w' k (key_of (meta o)) = view w k (key_of (meta o)) ∨
                ∃ o', view w' k (key_of (meta o)) = Some o' ∧ applied o o')
               ∧ elsewhere w w' k (key_of (meta o))
    end;
  Create_lag (w : W) (k : kind) o r w' : Create k o w = (r, w') → lagging w w';
  Update_lag (w : W) (k : kind) o r w' : Update k o w = (r, w') → lagging w w';
  Patch_lag (w : W) (k : kind) o o' r w' : Patch k o o' w = (r, w') → lagging w w';
  StatusPatch_lag (w : W) (k : kind) o o' r w' : StatusPatch k o o' w = (r, w') → lagging w w';
  Delete_lag (w : W) (k : kind) key r w' : Delete k key w = (r, w') → lagging w w';
  Apply_lag (w : W) (k : kind) o r w' : Apply k o w = (r, w') → lagging w w';
  Delete_missing (w : W) (k : kind) key e w' : Delete k key w = (Err e, w') →
    IsNotFound e = true → view w k key = None ∧ view w' k key = None
}.

(** ** The helpers of apimachinery and controller-runtime *)

Class Machinery := {
  (** [controllerutil.SetControllerReference(owner, object, scheme)] *)
  SetControllerReference : ObjectMeta → ∀ k : kind, object k → result error (object k);
  (** [meta.SetStatusCondition] *)
  SetStatusCondition : list Condition → Condition → list Condition;
  (** [apiequality.Semantic.DeepEqual], on the types it is used on *)
  DeepEqual_policy : PolicySpec → PolicySpec → bool;
  DeepEqual_request : AccessRequestStatus → AccessRequestStatus → bool;
  DeepEqual_console : PgConsoleStatus → PgConsoleStatus → bool;
  (** [controllerutil.ContainsFinalizer], [AddFinalizer], [RemoveFinalizer],
      on the finalizers of an object *)
  ContainsFinalizer : list string → string → bool;
  AddFinalizer : list string → string → list string;
  RemoveFinalizer : list string → string → list string
}.

(** The condition of a type, as [meta.FindStatusCondition] finds it. *)
Definition condition (t : string) (l : list Condition) : option Condition :=
  first_such (λ c, bool_decide (c.(Cd_Type) = t)) l.

Class MachineryLaws `(K : Machinery) : Prop := {
  SetControllerReference_ok owner (k : kind) o :
    M_Controller (meta o) = None → M_Namespace (meta o) = M_Namespace owner →
    SetControllerReference owner k o =
      Ok (set_meta (set_controller (Some (M_UID owner)) (meta o)) o);
  SetStatusCondition_set l c : condition c.(Cd_Type) (SetStatusCondition l c) = Some c;
  SetStatusCondition_other l c t :
    t ≠ c.(Cd_Type) → condition t (SetStatusCondition l c) = condition t l;
  SetStatusCondition_same l c : condition c.(Cd_Type) l = Some c → SetStatusCondition l c = l;
  DeepEqual_policy_true a b : DeepEqual_policy a b = true ↔ a = b;
  DeepEqual_request_true a b : DeepEqual_request a b = true ↔ a = b;
  DeepEqual_console_true a b : DeepEqual_console a b = true ↔ a = b;
  ContainsFinalizer_true l f : ContainsFinalizer l f = true ↔ f ∈ l;
  AddFinalizer_elem l f g : g ∈ AddFinalizer l f ↔ g = f ∨ g ∈ l;
  RemoveFinalizer_elem l f g : g ∈ RemoveFinalizer l f ↔ g ≠ f ∧ g ∈ l
}.

(** ** Running a program *)

Lemma run_bind {W A B} (f : A → M W B) (m : M W A) w :
  (m ≫= f) w = match m w with (Ok a, w) => f a w | (Err e, w) => (Err e, w) end.
Proof. done. Qed.
Lemma run_try {W A} (m : M W A) w : try m w = match m w with (r, w) => (Ok r, w) end.
Proof. done. Qed.
Lemma run_ret {W A} (a : A) (w : W) : (mret a : M W A) w = (Ok a, w).
Proof. done. Qed.
Lemma run_throw {W A} (e : error) (w : W) : (throw e : M W A) w = (Err e, w).
Proof. done. Qed.
Lemma run_wrap {W A} msg (m : M W A) w :
  wrap msg m w = match m w with (Ok a, w) => (Ok a, w) | (Err e, w) => (Err (WrapErr msg e), w) end.
Proof. done. Qed.
Lemma run_ignore_not_found {W} (m : M W ()) w :
  ignore_not_found m w =
  match m w with
  | (Err e, w) => (if IsNotFound e then Ok () else Err e, w)
  | r => r
  end.
Proof. done. Qed.
Lemma run_of_result {W A} (r : result error A) (w : W) : of_result r w = (r, w).
Proof. done. Qed.

(** Reading an object that may be absent: the read fails, or [found] answers
    what is stored. *)
Lemma run_found {W A} (r : result error A) (stored : option A) (w : W) :
  match r with Ok o => stored = Some o | Err e => IsNotFound e = true → stored = None end →
  (∃ e, found r w = (Err e, w)) ∨ found r w = (Ok stored, w).
Proof.
  unfold found. destruct r as [a|e]; [by intros ->; right|].
  destruct (IsNotFound e); [intros H; rewrite (H eq_refl); by right|left; by exists e].
Qed.

Create Rewrite HintDb run.
#[export] Hint Rewrite @run_try @run_bind @run_ret @run_throw @run_wrap @run_ignore_not_found
  @run_of_result : run.

(** Runs the program of [H] up to its next call, keeping what the call
    answered. *)
Ltac run_in H :=
  repeat (autorewrite with run in H; cbn [fst snd] in H;
    try case_in H; simplify_eq; cbn [fst snd] in H).

Lemma same_view_refl `{Client W} (w : W) : same_view w w.
Proof. by intros k key. Qed.
Lemma same_view_trans `{Client W} (w1 w2 w3 : W) :
  same_view w1 w2 → same_view w2 w3 → same_view w1 w3.
Proof. intros H12 H23 k key. by rewrite H23, H12. Qed.

#[export] Instance untouched_preorder `{Client W} : PreOrder untouched.
Proof.
  split.
  - intros w. split; [apply same_view_refl|done..].
  - intros w1 w2 w3 [V1 L1 C1] [V2 L2 C2].
    split; [by eapply same_view_trans|by rewrite L2|by rewrite C2].
Qed.

Lemma untouched_lookup `{Client W} (w w' : W) (k : kind) key :
  untouched w w' → view w' k key = view w k key.
Proof. intros [V _ _]. apply V. Qed.

#[export] Hint Resolve same_view_refl : pgtb.

(** A loop that only reads only reads, and collects what its body answers. *)
Lemma mapM_untouched `{C : Client W} {A B} (f : A → M W B) (P : W → A → B → Prop) l w r w' :
  (∀ x w r w', f x w = (r, w') → untouched w w' ∧ ∀ y, r = Ok y → P w x y) →
  (∀ w w' x y, untouched w w' → P w' x y → P w x y) →
  mapM f l w = (r, w') → untouched w w' ∧
  match r with
  | Ok ys => Forall2 (P w) l ys
  | Err e => ∃ x w1 w2, x ∈ l ∧ f x w1 = (Err e, w2)
  end.
Proof.
  intros Hf HP. revert w r w'. induction l as [|x l IH]; intros w r w' H; cbn [mapM] in H.
  - rewrite run_ret in H. simplify_eq. split; [done|]. constructor.
  - rewrite run_bind in H. destruct (f x w) as [[y|e] w1] eqn:Hx.
    + pose proof Hx as [U1 H1]%Hf. rewrite run_bind in H.
      destruct (mapM f l w1) as [[ys|e] w2] eqn:Hl; apply IH in Hl as [U2 H2].
      * rewrite run_ret in H. simplify_eq. split; [by etrans|]. constructor; [by apply H1|].
        eapply Forall2_impl; [done|]. intros a b. by apply HP.
      * simplify_eq. split; [by etrans|]. destruct H2 as (x' & ? & ? & ? & ?).
        eexists x', _, _. split; [by apply list_elem_of_further|done].
    + pose proof Hx as [U1 _]%Hf. simplify_eq. split; [done|].
      eexists x, _, _. split; [apply list_elem_of_here|done].
Qed.

(** A loop whose steps are related relates its ends, and ran every step when it
    came to its end. *)
Lemma forM_related {W A} (R : W → W → Prop) `{!PreOrder R} (f : A → M W ()) l w r w' :
  (∀ x w r w', x ∈ l → f x w = (r, w') → R w w') →
  forM l f w = (r, w') →
  R w w' ∧ (r = Ok () → ∀ x, x ∈ l → ∃ w1 w2, R w w1 ∧ f x w1 = (Ok (), w2) ∧ R w2 w').
Proof.
  revert w. induction l as [|x l IH]; intros w Hf H; cbn [forM] in H.
  - rewrite run_ret in H. simplify_eq. split; [done|]. by intros _ x ?%not_elem_of_nil.
  - rewrite run_bind in H. destruct (f x w) as [[[]|e] w1] eqn:Hx.
    + assert (R w w1) as H1 by (eapply Hf; [apply list_elem_of_here|done]).
      apply IH in H as [H2 Hl]; [|intros; eapply Hf; [by apply list_elem_of_further|done]].
      split; [by etrans|]. intros Hr y [->|Hy]%elem_of_cons.
      * by exists w, w1.
      * destruct (Hl Hr y Hy) as (v1 & v2 & ? & ? & ?). exists v1, v2. split_and!; [by etrans|done..].
    + simplify_eq. split; [|done]. eapply Hf; [apply list_elem_of_here|done].
Qed.

(** Records what the laws say of every call a run made. *)
Ltac learn :=
  repeat match goal with
  | H : Get ?k ?key ?w = (?r, ?w') |- _ =>
      pose proof (Get_spec w k key r w' H) as [?Hu ?Hr]; clear H
  | H : LiveGet ?k ?key ?w = (?r, ?w') |- _ =>
      pose proof (LiveGet_spec w k key r w' H) as [?Hu ?Hr]; clear H
  | H : List ?k ?ns ?w = (?r, ?w') |- _ =>
      pose proof (List_spec w k ns r w' H) as [?Hu ?Hr]; clear H
  | H : Create ?k ?o ?w = (?r, ?w') |- _ =>
      pose proof (Create_spec w k o r w' H) as [?Hl ?Hw];
      try (pose proof (Create_exists w k o _ w' H)); clear H
  | H : Update ?k ?o ?w = (?r, ?w') |- _ =>
      pose proof (Update_spec w k o r w' H) as [?Hl ?Hw]; clear H
  | H : Patch ?k ?o ?o' ?w = (?r, ?w') |- _ =>
      pose proof (Patch_spec w k o o' r w' H) as [?Hl ?Hw]; clear H
  | H : StatusPatch ?k ?o ?o' ?w = (?r, ?w') |- _ =>
      pose proof (StatusPatch_spec w k o o' r w' H) as [?Hl ?Hw]; clear H
  | H : Apply ?k ?o ?w = (?r, ?w') |- _ =>
      pose proof (Apply_spec w k o r w' H) as [?Hl ?Hw]; clear H
  | H : Delete ?k ?key ?w = (?r, ?w') |- _ =>
      pose proof (Delete_spec w k key r w' H) as [?Hl ?Hw];
      try (pose proof (Delete_missing w k key _ w' H)); clear H
  end;
  unfold read_answer, write_answer in *.

Lemma untouched_elsewhere `{C : Client W} (w1 w2 w3 : W) (k : kind) key :
  untouched w1 w2 → elsewhere w2 w3 k key → elsewhere w1 w3 k key.
Proof. intros Hu He k' key' Hne. rewrite He by done. by apply untouched_lookup. Qed.

Lemma untouched_same_view `{C : Client W} (w1 w2 w3 : W) :
  untouched w1 w2 → same_view w2 w3 → same_view w1 w3.
Proof. intros Hu. apply same_view_trans, Hu. Qed.

Lemma same_view_elsewhere `{C : Client W} (w w' : W) (k : kind) key :
  same_view w w' → elsewhere w w' k key.
Proof. intros H k' key' _. apply H. Qed.

Lemma untouched_kept `{C : Client W} (w w' : W) (k : kind) key : untouched w w' → kept w w' k key.
Proof. intros [V _ Hc]. split; [apply V|]. unfold in_sync. by rewrite Hc, V. Qed.

Lemma kept_trans `{C : Client W} (w1 w2 w3 : W) (k : kind) key :
  kept w1 w2 k key → kept w2 w3 k key → kept w1 w3 k key.
Proof. intros [V1 S1] [V2 S2]. split; [by rewrite V2|auto]. Qed.

Lemma lagging_kept `{C : Client W} (w w' : W) (k : kind) key :
  lagging w w' → view w' k key = view w k key → kept w w' k key.
Proof. intros Hl V. split; [done|]. intros [Hs|Hs]%Hl; [|done]. unfold in_sync. by rewrite Hs, V. Qed.

Lemma synced_on_kept `{C : Client W} (w w' : W) l :
  synced_on w l → (∀ k key, (k, key) ∈ l → kept w w' k key) → synced_on w' l.
Proof. intros H Hk k key Hin. apply (Hk _ _ Hin), H, Hin. Qed.

#[export] Hint Resolve same_view_elsewhere untouched_view untouched_log untouched_kept : pgtb.

(** What a delete makes of an object: [deleted], and nothing of nothing. *)
Definition delete_made {k : kind} (old new : option (object k)) : Prop :=
  match old with None => new = None | Some cur => deleted cur new end.

(** What is left after a delete that was answered is held by a finalizer. *)
Lemma delete_left {k : kind} (old new : option (object k)) :
  delete_made old new → ∀ o, new = Some o →
  ∃ cur, old = Some cur ∧ M_Finalizers (meta cur) ≠ [] ∧ M_Finalizers (meta o) = M_Finalizers (meta cur) ∧
    M_Deleting (meta o) = true ∧ M_Controller (meta o) = M_Controller (meta cur).
Proof.
  unfold delete_made, deleted. destruct old as [cur|]; [|by intros ->]. case_bool_decide; [by intros ->|].
  intros (o & -> & ? & ? & ? & _) ? [= <-]. eauto 10.
Qed.

Lemma delete_made_trans {k : kind} (o1 o2 o3 : option (object k)) :
  delete_made o1 o2 → delete_made o2 o3 → delete_made o1 o3.
Proof.
  unfold delete_made, deleted. destruct o1 as [a|]; [|by intros ->].
  case_bool_decide as Hf; [by intros ->|]. intros (b & -> & H1 & H2 & H3 & H4 & H5 & H6 & H7).
  rewrite H2, bool_decide_eq_false_2 by done. intros (c & -> & _ & _ & _ & _ & _ & _ & Hc).
  rewrite (Hc H1). exists b. by split_and!.
Qed.

Lemma delete_released `{C : Client W} (w w' : W) k key :
  delete_made (view w k key) (view w' k key) → released w' k key.
Proof. intros H o Ho. by destruct (delete_left _ _ H o Ho) as (? & _ & _ & _ & ? & _). Qed.

Lemma delete_idle `{C : Client W} {CL : ClientLaws C} (w w' : W) k key :
  delete_made (view w k key) (view w' k key) → released w k key → view w' k key = view w k key.
Proof.
  unfold delete_made. intros H HP. destruct (view w k key) as [cur|] eqn:Hv; [|done]. specialize (HP _ Hv).
  pose proof (view_kept _ _ _ _ Hv) as Hk. unfold gone in Hk. rewrite HP in Hk. cbn in Hk.
  unfold deleted in H. rewrite Hk in H. destruct H as (o & -> & _ & _ & _ & _ & _ & _ & Ho). by rewrite Ho.
Qed.

(** Refers everything a run learned to the world it started from. *)
Ltac rebase :=
  repeat match goal with
  | H : _ ∧ _ |- _ => destruct H
  | H : ∃ _, _ |- _ => destruct H
  end;
  repeat match goal with
  | Hu : untouched ?w ?w', Hu' : untouched ?w' ?w'' |- _ =>
      lazymatch goal with
      | _ : untouched w w'' |- _ => fail
      | _ => pose proof (transitivity Hu Hu' : untouched w w'')
      end
  end;
  repeat match goal with
  | Hu : untouched ?w ?w', He : elsewhere ?w' _ _ _ |- _ =>
      apply (untouched_elsewhere w w' _ _ _ Hu) in He
  | Hu : untouched ?w ?w', He : same_view ?w' _ |- _ =>
      apply (untouched_same_view w w' _ Hu) in He
  | Hu : untouched ?w ?w', H : context [view ?w' ?k ?key] |- _ =>
      rewrite (untouched_lookup w w' k key Hu) in H
  | Hu : untouched ?w ?w', H : context [log ?w'] |- _ =>
      lazymatch type of H with untouched _ _ => fail | _ => rewrite (untouched_log w w' Hu) in H end
  | Hu : untouched ?w ?w', H : context [cached ?w'] |- _ =>
      lazymatch type of H with untouched _ _ => fail | _ => rewrite (untouched_cached w w' Hu) in H end
  end.

(** ** A server that obeys the laws *)

Record demo := mkDemo {
  store : ∀ k : kind, gmap ObjectKey (object k);
  informer : ∀ k : kind, gmap ObjectKey (object k);
  sent : list (verb * kind * ObjectKey);
  (** what each of the next calls fails with, if it does *)
  faults : list (option api_error);
  clock : nat
}.

Definition empty_store (k : kind) : gmap ObjectKey (object k) := ∅.

Definition kind_insert {k : kind} (key : ObjectKey) (o : option (object k))
    (s : ∀ k : kind, gmap ObjectKey (object k)) (k' : kind) : gmap ObjectKey (object k') :=
  match decide (k = k') with
  | left e => match e in _ = k' return gmap ObjectKey (object k') with
              | eq_refl => partial_alter (λ _, o) key (s k)
              end
  | right _ => s k'
  end.

(** An entry counts when it is stored under its own name, and kept. *)
Definition stored_as {k : kind} (key : ObjectKey) (o : object k) : Prop :=
  key_of (meta o) = key ∧ gone (meta o) = false.

#[export] Instance stored_as_dec {k : kind} key (o : object k) : Decision (stored_as key o).
Proof. unfold stored_as. apply _. Defined.

Definition entry {k : kind} (s : ∀ k : kind, gmap ObjectKey (object k)) (key : ObjectKey)
    : option (object k) :=
  o ← s k !! key; if bool_decide (stored_as key o) then Some o else None.

Definition stamp {k : kind} (n : nat) (o : object k) : object k :=
  let m := meta o in
  set_meta (mkMeta m.(M_Name) m.(M_Namespace) (if String.eqb m.(M_UID) "" then pretty n else m.(M_UID))
    m.(M_Labels) m.(M_Annotations) m.(M_Controller) (pretty n) m.(M_Generation) m.(M_Deleting) m.(M_Finalizers)) o.

Definition demo_fault (d : demo) : option api_error := from_option id None (head d.(faults)).

Definition demo_read {k : kind} (live : bool) (key : ObjectKey) : M demo (object k) := λ d,
  let d' := mkDemo d.(store) d.(informer) d.(sent) (tail d.(faults)) d.(clock) in
  match demo_fault d with
  | Some NotFound => (Err (ApiErr OtherError), d')
  | Some e => (Err (ApiErr e), d')
  | None =>
      (result_of_option (ApiErr NotFound) (entry (if live then d.(store) else d.(informer)) key), d')
  end.

Definition demo_list (live : bool) (k : kind) (ns : string) : M demo (list (object k)) := λ d,
  let d' := mkDemo d.(store) d.(informer) d.(sent) (tail d.(faults)) d.(clock) in
  match demo_fault d with
  | Some e => (Err (ApiErr e), d')
  | None =>
      (Ok (filter (λ p, p.1.1 = ns ∧ stored_as p.1 p.2) (map_to_list ((if live then d.(store) else d.(informer)) k))).*2, d')
  end.

(** A write puts [f cur] where [cur] was, or refuses. *)
Definition demo_write (v : verb) (k : kind) (key : ObjectKey)
    (f : option (object k) → result api_error (option (object k))) : M demo () := λ d,
  let d' := mkDemo d.(store) d.(informer) (d.(sent) ++ [(v, k, key)]) (tail d.(faults)) d.(clock) in
  match demo_fault d with
  | Some NotFound | Some AlreadyExists => (Err (ApiErr OtherError), d')
  | Some e => (Err (ApiErr e), d')
  | None =>
      match f (entry d.(store) key) with
      | Err e => (Err (ApiErr e), d')
      | Ok o =>
          if from_option (gone ∘ meta) false o then (Err (ApiErr OtherError), d') else
          (Ok (), mkDemo (kind_insert key (stamp d.(clock) <$> o) d.(store)) d.(informer)
                  (d.(sent) ++ [(v, k, key)]) (tail d.(faults)) (S d.(clock)))
      end
  end.

(** The metadata of an apply over what is stored. *)
Definition apply_meta (m : ObjectMeta) (cur : option ObjectMeta) : ObjectMeta :=
  match cur with
  | None => m
  | Some c =>
      mkMeta m.(M_Name) m.(M_Namespace) c.(M_UID) (m.(M_Labels) ∪ c.(M_Labels))
        (m.(M_Annotations) ∪ c.(M_Annotations))
        (match m.(M_Controller) with Some u => Some u | None => c.(M_Controller) end)
        c.(M_ResourceVersion) c.(M_Generation) c.(M_Deleting) c.(M_Finalizers)
  end.

Definition apply_over {k : kind} (o : object k) (cur : option (object k)) : object k :=
  set_status (default (zero_status k) (status <$> cur)) (set_meta (apply_meta (meta o) (meta <$> cur)) o).

Definition demo_apply (k : kind) (o : object k) : M demo (object k) := λ d,
  let key := key_of (meta o) in
  match demo_write VApply k key (λ cur, Ok (Some (apply_over o cur))) d with
  | (Err e, d') => (Err e, d')
  | (Ok _, d') => (Ok (stamp d.(clock) (apply_over o (entry d.(store) key))), d')
  end.

Definition set_deleting (m : ObjectMeta) : ObjectMeta :=
  mkMeta m.(M_Name) m.(M_Namespace) m.(M_UID) m.(M_Labels) m.(M_Annotations) m.(M_Controller)
    m.(M_ResourceVersion) m.(M_Generation) true m.(M_Finalizers).

(** With [live], the cache answers with what is stored. *)
Definition demo_client_of (live : bool) : Client demo := {|
  view d k key := entry d.(store) key;
  cached d k key := entry (if live then d.(store) else d.(informer)) key;
  log := sent;
  Get k := demo_read live;
  LiveGet k := demo_read true;
  List := demo_list live;
  Create k o := demo_write VCreate k (key_of (meta o)) (λ cur,
    match cur with
    | Some _ => Err AlreadyExists
    | None => Ok (Some (set_status (zero_status k) o))
    end);
  Update k o := demo_write VUpdate k (key_of (meta o)) (λ cur,
    match cur with
    | None => Err NotFound
    | Some cur =>
        if bool_decide (M_ResourceVersion (meta o) ∈ [""; M_ResourceVersion (meta cur)]) then
          Ok (if gone (meta o) then None else Some (set_status (status cur) o))
        else Err Conflict
    end);
  Patch k before after := demo_write VPatch k (key_of (meta after)) (λ cur,
    match cur with
    | None => Err NotFound
    | Some cur => Ok (Some (set_status (status cur) after))
    end);
  StatusPatch k before after := demo_write VStatusPatch k (key_of (meta after)) (λ cur,
    match cur with
    | None => Err NotFound
    | Some cur => Ok (Some (set_status (status after) cur))
    end);
  Delete k key := demo_write VDelete k key (λ cur,
    match cur with
    | None => Err NotFound
    | Some cur =>
        if bool_decide (M_Finalizers (meta cur) = []) then Ok None
        else if M_Deleting (meta cur) then Err Conflict
        else Ok (Some (set_meta (set_deleting (meta cur)) cur))
    end);
  Apply := demo_apply
|}.

#[export] Instance demo_client : Client demo := demo_client_of false.

Lemma meta_set_status {k : kind} (s : Status k) (o : object k) : meta (set_status s o) = meta o.
Proof. by destruct k. Qed.
Lemma meta_set_meta {k : kind} m (o : object k) : meta (set_meta m o) = m.
Proof. by destruct k. Qed.
Lemma set_meta_meta {k : kind} (o : object k) : set_meta (meta o) o = o.
Proof. by destruct k, o. Qed.
Lemma status_set_status {k : kind} (s : Status k) (o : object k) : status (set_status s o) = s.
Proof. destruct k; try done; (by destruct s) || by destruct s as [[]]. Qed.
Lemma status_set_meta {k : kind} m (o : object k) : status (set_meta m o) = status o.
Proof. by destruct k. Qed.
Lemma content_set_status {k : kind} (s : Status k) (o : object k) :
  content (set_status s o) = content o.
Proof. unfold content. rewrite meta_set_status. by destruct k. Qed.
Lemma content_set_meta {k : kind} m (o : object k) :
  unstamp m = unstamp (meta o) → content (set_meta m o) = content o.
Proof. unfold content. rewrite meta_set_meta. intros ->. by destruct k. Qed.

(** What two objects with the same content have in common. *)
Lemma content_meta {k : kind} (a b : object k) :
  content a = content b → unstamp (meta a) = unstamp (meta b).
Proof. intros H%(f_equal meta). unfold content in H. by rewrite !meta_set_status, !meta_set_meta in H. Qed.

Lemma content_key {k : kind} (a b : object k) :
  content a = content b → key_of (meta a) = key_of (meta b).
Proof.
  intros H%content_meta. unfold unstamp in H. injection H as Hn Hns _.
  unfold key_of. by rewrite Hn, Hns.
Qed.

Lemma content_user_spec (a b : PgToolBoxUser) :
  content (k := KUser) a = content (k := KUser) b → a.(PU_Spec) = b.(PU_Spec).
Proof. by intros [= _ _ _ _ _ _ _ ->]. Qed.

Lemma content_stamp {k : kind} n (o : object k) : content (stamp n o) = content o.
Proof. unfold stamp. by apply content_set_meta. Qed.
Lemma status_stamp {k : kind} n (o : object k) : status (stamp n o) = status o.
Proof. apply status_set_meta. Qed.
Lemma key_stamp {k : kind} n (o : object k) : key_of (meta (stamp n o)) = key_of (meta o).
Proof. unfold stamp. by rewrite meta_set_meta. Qed.

Lemma entry_ok {k : kind} s key (o : object k) : entry s key = Some o → stored_as key o.
Proof.
  unfold entry. destruct (s k !! key) as [o'|]; simpl; [|done].
  case_bool_decide; naive_solver.
Qed.

Lemma entry_key {k : kind} s key (o : object k) : entry s key = Some o → key_of (meta o) = key.
Proof. by intros [? _]%entry_ok. Qed.

Lemma entry_insert {k : kind} s key (o : option (object k)) :
  (∀ x, o = Some x → stored_as key x) → entry (kind_insert key o s) key = o.
Proof.
  intros H. unfold entry, kind_insert. destruct (decide (k = k)) as [e|]; [|done].
  rewrite (proof_irrel e eq_refl), lookup_partial_alter_eq. destruct o as [x|]; simpl; [|done].
  by rewrite bool_decide_eq_true_2 by auto.
Qed.

Lemma entry_insert_ne {k k' : kind} s key key' (o : option (object k)) :
  k' ≠ k ∨ key' ≠ key → entry (k := k') (kind_insert key o s) key' = entry s key'.
Proof.
  intros H. unfold entry, kind_insert. destruct (decide (k = k')) as [e|]; [|done].
  destruct e. rewrite lookup_partial_alter_ne by naive_solver. done.
Qed.

Lemma demo_write_spec live v k key f d r d' :
  demo_write v k key f d = (r, d') →
  (∀ o, f (entry d.(store) key) = Ok (Some o) → key_of (meta o) = key) →
  write_answer (H := demo_client_of live) d d' v k key r (λ old new,
    ∃ o, f old = Ok o ∧ new = stamp d.(clock) <$> o) ∧
  ∀ e, r = Err e → api_class e = Some AlreadyExists ∨ api_class e = Some NotFound →
    ∃ e', api_class e = Some e' ∧ f (entry d.(store) key) = Err e'.
Proof.
  intros H Hkey. unfold demo_write in H. unfold write_answer. cbn [log view demo_client_of].
  destruct (demo_fault d) as [e|] eqn:Hf.
  - assert (∃ e', e' ≠ NotFound ∧ e' ≠ AlreadyExists ∧ r = Err (ApiErr e') ∧
      d' = mkDemo d.(store) d.(informer) (d.(sent) ++ [(v, k, key)]) (tail d.(faults)) d.(clock))
      as (e' & Hn & Ha & -> & ->) by (destruct e; simplify_eq;
        [exists OtherError|exists OtherError|exists Conflict|exists OtherError|exists NoMatch]; by split_and!).
    split; [split; [done|]; split; [by left|done]|]. intros ? [= <-] Hin. cbn in Hin.
    destruct Hin; congruence.
  - destruct (f _) as [o|e] eqn:Ho; [destruct (from_option (gone ∘ meta) false o) eqn:Hg|]; simplify_eq.
    + split; [split; [done|]; split; [by left|done]|]. intros ? [= <-] Hin. cbn in Hin. destruct Hin; congruence.
    + split; [|done]. split; [done|]. split.
      * exists o. cbn [store]. split; [done|]. apply entry_insert. intros x Hx.
        destruct o as [y|]; simplify_eq/=. split; [rewrite key_stamp; by apply Hkey|].
        unfold stamp. by rewrite meta_set_meta.
      * intros k' key' Hne. cbn [view demo_client_of store]. by apply entry_insert_ne.
    + split; [split; [done|]; split; [by left|done]|]. intros ? [= <-] _. eauto.
Qed.

Lemma demo_list_keys {k : kind} (s : gmap ObjectKey (object k)) ns :
  key_of ∘ meta <$> (filter (λ p, p.1.1 = ns ∧ stored_as p.1 p.2) (map_to_list s)).*2 =
  (filter (λ p, p.1.1 = ns ∧ stored_as p.1 p.2) (map_to_list s)).*1.
Proof.
  rewrite <-list_fmap_compose. apply list_fmap_ext. intros i p Hp%list_elem_of_lookup_2.
  apply list_elem_of_filter in Hp as [[_ [? _]] _]. done.
Qed.

Lemma demo_list_elem {k : kind} (s : ∀ k : kind, gmap ObjectKey (object k)) ns o :
  o ∈ (filter (λ p, p.1.1 = ns ∧ stored_as p.1 p.2) (map_to_list (s k))).*2 ↔
  ∃ name, entry s (ns, name) = Some o.
Proof.
  rewrite list_elem_of_fmap. unfold entry. split.
  - intros ([[ns' name] o'] & -> & [[Hn Hk] Hin]%list_elem_of_filter). simpl in *. subst ns'.
    apply elem_of_map_to_list in Hin. exists name.
    assert ((s k : gmap ObjectKey (object k)) !! ((ns, name) : ObjectKey) = Some o') as -> by apply Hin.
    simpl.
    by rewrite bool_decide_eq_true_2.
  - intros [name H]. destruct (_ !! _) as [o'|] eqn:Ho in H; simpl in H; [|done].
    case_bool_decide; simplify_eq. exists ((ns, name), o). split; [done|].
    apply list_elem_of_filter. split; [done|]. by apply elem_of_map_to_list.
Qed.

(** A write whose outcome is a function of what was stored keeps its law. *)
Lemma demo_write_law live v k key f d r d' (P : option (object k) → option (object k) → Prop) :
  demo_write v k key f d = (r, d') →
  (∀ o, f (entry d.(store) key) = Ok (Some o) → key_of (meta o) = key) →
  (∀ n o, f (entry d.(store) key) = Ok o → P (entry d.(store) key) (stamp n <$> o)) →
  write_answer (H := demo_client_of live) d d' v k key r P.
Proof.
  intros H Hkey HP. destruct (demo_write_spec live _ _ _ _ _ _ _ H Hkey) as [[Hl Hw] _].
  split; [done|]. destruct r as [[]|e]; cbn [view demo_client_of] in *.
  - destruct Hw as [(o & Ho & Hn) He]. split; [|done]. rewrite Hn. by apply HP.
  - destruct Hw as [[Hv|(o & Ho & Hn)] He]; (split; [|done]); [by left|right]. rewrite Hn. by apply HP.
Qed.

Lemma demo_write_lag live v k key f d r d' :
  demo_write v k key f d = (r, d') → lagging (H := demo_client_of live) d d'.
Proof.
  intros H k' key' Hs. unfold in_sync in *. cbn [cached view demo_client_of] in *.
  destruct live; [by right|]. left. rewrite <-Hs.
  assert (informer d' = informer d) as ->; [|done].
  unfold demo_write in H. destruct (demo_fault d) as [[]|]; [by simplify_eq..|].
  destruct (f _) as [o|]; [destruct (from_option _ _ _)|]; by simplify_eq.
Qed.

Ltac demo_write_case :=
  match goal with H : _ = (_, _) |- _ => apply (demo_write_law _ _ _ _ _ _ _ _ _ H) end;
  [intros o' Ho'; case_all Ho'; rewrite ?meta_set_status; try done; by eapply entry_key
  |intros n o' Ho'; case_all Ho'].

Lemma apply_over_key {k : kind} (o : object k) cur : key_of (meta (apply_over o cur)) = key_of (meta o).
Proof. unfold apply_over. rewrite meta_set_status, meta_set_meta. by destruct cur. Qed.

Lemma payload_stamp {k : kind} n (o : object k) : payload (stamp n o) = payload o.
Proof. by destruct k. Qed.

Lemma apply_over_applied {k : kind} n (o : object k) cur : applied o (stamp n (apply_over o cur)).
Proof.
  split.
  - by rewrite key_stamp, apply_over_key.
  - unfold stamp. rewrite meta_set_meta. cbn [M_Labels]. unfold apply_over.
    rewrite meta_set_status, meta_set_meta. destruct cur; [|done]. cbn. apply map_union_subseteq_l.
  - unfold stamp. rewrite meta_set_meta. cbn [M_Annotations]. unfold apply_over.
    rewrite meta_set_status, meta_set_meta. destruct cur; [|done]. cbn. apply map_union_subseteq_l.
  - intros u Hu. unfold stamp. rewrite meta_set_meta. cbn [M_Controller]. unfold apply_over.
    rewrite meta_set_status, meta_set_meta. destruct cur; [|done]. cbn. by rewrite Hu.
  - intros Hk. rewrite payload_stamp. by destruct k.
Qed.

Lemma demo_apply_law live k o d r d' : demo_apply k o d = (r, d') →
  d'.(sent) = d.(sent) ++ [(VApply, k, key_of (meta o))] ∧
  match r with
  | Ok o' => entry d'.(store) (key_of (meta o)) = Some o' ∧
             elsewhere (H := demo_client_of live) d d' k (key_of (meta o)) ∧ applied o o'
             ∧ status o' = default (zero_status k) (status <$> entry d.(store) (key_of (meta o)))
  | Err _ => (entry (k := k) d'.(store) (key_of (meta o)) = entry d.(store) (key_of (meta o)) ∨
              ∃ o', entry d'.(store) (key_of (meta o)) = Some o' ∧ applied o o')
             ∧ elsewhere (H := demo_client_of live) d d' k (key_of (meta o))
  end.
Proof.
  unfold demo_apply. destruct (demo_write _ _ _ _ d) as [r1 d1] eqn:E. intros H.
  apply (demo_write_spec live) in E as [[Hl Hw] _]; [|intros ? [= <-]; apply apply_over_key].
  cbn [view demo_client_of] in *. destruct r1 as [[]|e]; simplify_eq; (split; [done|]).
  - destruct Hw as [(x & Hx & Hn) He]. injection Hx as <-. rewrite Hn. split; [done|]. split; [done|].
    split; [apply apply_over_applied|]. rewrite status_stamp. unfold apply_over. by rewrite status_set_status.
  - destruct Hw as [[Hv|(x & Hx & Hn)] He]; (split; [|done]); [by left|right]. injection Hx as <-.
    eexists. split; [exact Hn|apply apply_over_applied].
Qed.

Lemma demo_client_laws live : ClientLaws (demo_client_of live).
Proof.
  split.
  - intros *. apply entry_key.
  - intros *. apply entry_key.
  - by intros w k key o [_ ?]%entry_ok.
  - by intros w k key o [_ ?]%entry_ok.
  - intros w k key r w' H. unfold Get in H. cbn in H. unfold demo_read in H.
    destruct (demo_fault w) as [[]|]; simplify_eq; (split; [done|]); try done.
    unfold read_answer. cbn. by destruct (entry _ _).
  - intros w k key r w' H. unfold LiveGet in H. cbn in H. unfold demo_read in H.
    destruct (demo_fault w) as [[]|]; simplify_eq; (split; [done|]); try done.
    unfold read_answer. cbn. by destruct (entry _ _).
  - intros w k ns r w' H. unfold List in H. cbn in H. unfold demo_list in H.
    destruct (demo_fault w) as [e|]; simplify_eq; (split; [done|]); try done.
    intros l [= <-]. split.
    + rewrite demo_list_keys. pose proof (NoDup_fst_map_to_list ((if live then store w else informer w) k)) as Hd.
      refine (sublist_NoDup _ _ Hd _). apply fmap_sublist, sublist_filter.
    + intros o. apply demo_list_elem.
  - intros w k o r w' H. demo_write_case. split; [done|]. eexists. split; [done|].
    by rewrite content_stamp, content_set_status.
  - intros w k o e w' H He. unfold Create in H. cbn in H.
    destruct (demo_write_spec live _ _ _ _ _ _ _ H) as [_ Hx].
    { intros o' Ho'. case_all Ho'. by rewrite meta_set_status. }
    apply bool_decide_eq_true in He. destruct (Hx e eq_refl) as (e' & ? & Hf).
    { by auto. }
    cbn [view demo_client_of]. case_all Hf; eauto; naive_solver.
  - intros w k o r w' H. demo_write_case.
    eexists _, (stamp n (set_status (status _) o)). split_and!; [done|by destruct (gone (meta o))|..].
    + case_bool_decide; set_solver.
    + by rewrite content_stamp, content_set_status.
    + by rewrite status_stamp, status_set_status.
  - intros w k before after r w' H. demo_write_case. eexists _, _. split_and!; [done..| |].
    + by rewrite status_stamp, status_set_status.
    + by rewrite content_stamp, content_set_status.
  - intros w k before after r w' H. demo_write_case. eexists _, _. split_and!; [done..| | |].
    + by rewrite content_stamp, content_set_status.
    + unfold stamp. by rewrite meta_set_meta, meta_set_status.
    + by rewrite status_stamp, status_set_status.
  - intros w k key r w' H. apply (demo_write_law _ _ _ _ _ _ _ _ _ H); unfold deleted; [intros o Ho|intros n o Ho];
      destruct (entry (store w) key) as [cur|] eqn:He; try done; case_bool_decide as Hf; simplify_eq; try done;
      destruct (M_Deleting (meta cur)) eqn:Hd; simplify_eq.
    + rewrite meta_set_meta. by apply entry_key in He.
    + eexists. split; [done|]. unfold stamp. rewrite !meta_set_meta, !status_set_meta.
      split_and!; try done. by destruct k.
  - intros w k o r w' H. by apply demo_apply_law.
  - intros w k o r w' H. eapply demo_write_lag. exact H.
  - intros w k o r w' H. eapply demo_write_lag. exact H.
  - intros w k o o' r w' H. eapply demo_write_lag. exact H.
  - intros w k o o' r w' H. eapply demo_write_lag. exact H.
  - intros w k key r w' H. eapply demo_write_lag. exact H.
  - intros w k o r w' H. unfold Apply in H. cbn in H. unfold demo_apply in H.
    destruct (demo_write _ _ _ _ w) as [[[]|e] w1] eqn:E; simplify_eq; by eapply demo_write_lag.
  - intros w k key e w' H He. unfold Delete in H. cbn in H.
    destruct (demo_write_spec live _ _ _ _ _ _ _ H) as [[_ [Hv _]] Hx].
    { intros o Ho. destruct (entry (store w) key) as [cur|] eqn:Hc; [|done]. case_bool_decide; [done|].
      destruct (M_Deleting (meta cur)); simplify_eq. rewrite meta_set_meta. by apply entry_key in Hc. }
    apply bool_decide_eq_true in He. destruct (Hx e eq_refl) as (e' & Hc & Hf); [by auto|].
    cbn [view demo_client_of] in *. destruct (entry (store w) key) as [cur|] eqn:Hc'.
    + case_bool_decide; [done|]. by destruct (M_Deleting (meta cur)); simplify_eq.
    + split; [done|]. destruct Hv as [->|(o & Ho & _)]; done.
Qed.

#[export] Instance demo_laws_kube : ClientLaws demo_client.
Proof. apply demo_client_laws. Qed.

Definition demo_live : Client demo := demo_client_of true.

Lemma demo_live_laws : ClientLaws demo_live.
Proof. apply demo_client_laws. Qed.
Lemma demo_live_synced w l : synced_on (H := demo_live) w l.
Proof. done. Qed.

(** The helpers, as simple functions that obey their laws. *)
Fixpoint demo_set_condition (l : list Condition) (c : Condition) : list Condition :=
  match l with
  | [] => [c]
  | d :: l => if bool_decide (d.(Cd_Type) = c.(Cd_Type)) then c :: l else d :: demo_set_condition l c
  end.

#[export] Instance demo_machinery : Machinery := {|
  SetControllerReference owner k o :=
    match M_Controller (meta o) with
    | None => Ok (set_meta (set_controller (Some (M_UID owner)) (meta o)) o)
    | Some _ => Err (FmtErr "already owned")
    end;
  SetStatusCondition := demo_set_condition;
  DeepEqual_policy a b := bool_decide (a = b);
  DeepEqual_request a b := bool_decide (a = b);
  DeepEqual_console a b := bool_decide (a = b);
  ContainsFinalizer l f := bool_decide (f ∈ l);
  AddFinalizer l f := if bool_decide (f ∈ l) then l else l ++ [f];
  RemoveFinalizer l f := filter (λ g, g ≠ f) l
|}.

#[export] Instance demo_machinery_laws : MachineryLaws demo_machinery.
Proof.
  split; simpl.
  - intros owner k o -> _. done.
  - intros l c. unfold condition. induction l as [|d l IH]; simpl.
    + by rewrite bool_decide_eq_true_2.
    + case_bool_decide; simpl; [by rewrite bool_decide_eq_true_2|].
      by rewrite bool_decide_eq_false_2.
  - intros l c t Ht. unfold condition. induction l as [|d l IH]; simpl.
    + by rewrite bool_decide_eq_false_2 by congruence.
    + case_bool_decide as Hd; simpl.
      * rewrite (bool_decide_eq_false_2 (Cd_Type c = t)) by congruence.
        by rewrite (bool_decide_eq_false_2 (Cd_Type d = t)) by congruence.
      * by rewrite IH.
  - intros l c. unfold condition. induction l as [|d l IH]; simpl; [done|].
    case_bool_decide; [by intros [= ->]|]. intros Hc. by rewrite IH.
  - intros a b. apply bool_decide_eq_true.
  - intros a b. apply bool_decide_eq_true.
  - intros a b. apply bool_decide_eq_true.
  - intros l f. apply bool_decide_eq_true.
  - intros l f g. case_bool_decide; set_solver.
  - intros l f g. by rewrite list_elem_of_filter.
Qed.

(** ** What a program may write

    [writes_in P m]: whatever happens, every write [m] sends satisfies [P]. *)

Definition write : Type := verb * kind * ObjectKey.

Definition writes_in `{C : Client W} {A} (P : write → Prop) (m : M W A) : Prop :=
  ∀ w r w', m w = (r, w') → ∃ l, log w' = log w ++ l ∧ Forall P l.

Section writes.
Context `{C : Client W} {CL : ClientLaws C} (P : write → Prop).

Lemma writes_none {A} (m : M W A) : (∀ w r w', m w = (r, w') → log w' = log w) → writes_in P m.
Proof. intros H w r w' Hm. exists []. by rewrite (H _ _ _ Hm), app_nil_r. Qed.

Lemma writes_one {A} (m : M W A) x :
  P x → (∀ w r w', m w = (r, w') → log w' = log w ++ [x]) → writes_in P m.
Proof. intros Hx H w r w' Hm. exists [x]. split; [by eapply H|by repeat constructor]. Qed.

Lemma writes_pure {A} (m : M W A) : (∀ w, (m w).2 = w) → writes_in P m.
Proof. intros H. apply writes_none. intros w r w' Hm. pose proof (H w) as E. by rewrite Hm in E; simplify_eq/=. Qed.

Lemma writes_ret {A} (a : A) : writes_in P (mret a).
Proof. by apply writes_pure. Qed.
Lemma writes_throw {A} e : writes_in P (@throw W A e).
Proof. by apply writes_pure. Qed.
Lemma writes_of_result {A} (r : result error A) : writes_in P (of_result r).
Proof. by apply writes_pure. Qed.
Lemma writes_found {A} (r : result error A) : writes_in P (found r).
Proof. apply writes_pure. intros w. unfold found. destruct r; [done|]. by destruct (IsNotFound e). Qed.

Lemma writes_bind {A B} (m : M W A) (f : A → M W B) :
  writes_in P m → (∀ a, writes_in P (f a)) → writes_in P (m ≫= f).
Proof.
  intros Hm Hf w r w' H. rewrite run_bind in H. destruct (m w) as [[a|e] w1] eqn:E.
  - apply Hm in E as (l1 & E1 & H1). apply Hf in H as (l2 & E2 & H2).
    exists (l1 ++ l2). rewrite E2, E1, app_assoc. split; [done|]. by apply Forall_app.
  - simplify_eq. by eapply Hm.
Qed.

Lemma writes_try {A} (m : M W A) : writes_in P m → writes_in P (try m).
Proof.
  intros Hm w r w' H. rewrite run_try in H. destruct (m w) as [r1 w1] eqn:E. simplify_eq. by eapply Hm.
Qed.

Lemma writes_wrap {A} msg (m : M W A) : writes_in P m → writes_in P (wrap msg m).
Proof.
  intros Hm w r w' H. rewrite run_wrap in H. destruct (m w) as [[] w1] eqn:E; simplify_eq; by eapply Hm.
Qed.

Lemma writes_ignore (m : M W ()) : writes_in P m → writes_in P (ignore_not_found m).
Proof.
  intros Hm w r w' H. rewrite run_ignore_not_found in H.
  destruct (m w) as [[] w1] eqn:E; simplify_eq; by eapply Hm.
Qed.

Lemma writes_forM {A} (f : A → M W ()) l : (∀ x, x ∈ l → writes_in P (f x)) → writes_in P (forM l f).
Proof.
  induction l as [|x l IH]; intros H; [apply writes_ret|]. cbn [forM].
  apply writes_bind; [apply H, list_elem_of_here|]. intros _. apply IH. intros y Hy.
  by apply H, list_elem_of_further.
Qed.

Lemma writes_mapM {A B} (f : A → M W B) l : (∀ x, writes_in P (f x)) → writes_in P (mapM f l).
Proof.
  intros H. induction l as [|x l IH]; [apply writes_ret|]. cbn [mapM].
  apply writes_bind; [done|]. intros y. apply writes_bind; [done|]. intros ys. apply writes_ret.
Qed.

Lemma writes_Get k key : writes_in P (Get k key).
Proof. apply writes_none. intros w r w' [[] _]%Get_spec. done. Qed.
Lemma writes_LiveGet k key : writes_in P (LiveGet k key).
Proof. apply writes_none. intros w r w' [[] _]%LiveGet_spec. done. Qed.
Lemma writes_List k ns : writes_in P (List k ns).
Proof. apply writes_none. intros w r w' [[] _]%List_spec. done. Qed.

Lemma writes_Create k o : P (VCreate, k, key_of (meta o)) → writes_in P (Create k o).
Proof. intros H. eapply writes_one; [done|]. by intros w r w' [? _]%Create_spec. Qed.
Lemma writes_Update k o : P (VUpdate, k, key_of (meta o)) → writes_in P (Update k o).
Proof. intros H. eapply writes_one; [done|]. by intros w r w' [? _]%Update_spec. Qed.
Lemma writes_Patch k o o' : P (VPatch, k, key_of (meta o')) → writes_in P (Patch k o o').
Proof. intros H. eapply writes_one; [done|]. by intros w r w' [? _]%Patch_spec. Qed.
Lemma writes_StatusPatch k o o' : P (VStatusPatch, k, key_of (meta o')) → writes_in P (StatusPatch k o o').
Proof. intros H. eapply writes_one; [done|]. by intros w r w' [? _]%StatusPatch_spec. Qed.
Lemma writes_Delete k key : P (VDelete, k, key) → writes_in P (Delete k key).
Proof. intros H. eapply writes_one; [done|]. by intros w r w' [? _]%Delete_spec. Qed.
Lemma writes_Apply k o : P (VApply, k, key_of (meta o)) → writes_in P (Apply k o).
Proof. intros H. eapply writes_one; [done|]. by intros w r w' [? _]%Apply_spec. Qed.
End writes.

Lemma writes_impl `{C : Client W} {A} (P Q : write → Prop) (m : M W A) :
  writes_in P m → (∀ x, P x → Q x) → writes_in Q m.
Proof.
  intros H HPQ w r w' Hm. destruct (H _ _ _ Hm) as (l & E & Hl). exists l. split; [done|].
  eapply Forall_impl; eauto.
Qed.

Create HintDb writes.
#[export] Hint Resolve writes_ret writes_throw writes_of_result writes_found writes_Get writes_LiveGet
  writes_List writes_Create writes_Update writes_Patch writes_StatusPatch writes_Delete writes_Apply : writes.

(** Follows a program through its binds and branches; what is left are the
    writes it sends and the programs it calls. *)
Ltac writes_step :=
  match goal with
  | |- writes_in _ (mbind _ _) => apply writes_bind; [|intros ?]
  | |- writes_in _ (try _) => apply writes_try
  | |- writes_in _ (wrap _ _) => apply writes_wrap
  | |- writes_in _ (ignore_not_found _) => apply writes_ignore
  | |- writes_in _ (mapM _ _) => apply writes_mapM; intros ?
  | |- writes_in _ (match ?x with _ => _ end) => destruct x eqn:?
  | |- writes_in _ (let '_ := ?x in _) => destruct x eqn:?
  end.
Ltac writes := repeat (writes_step || solve [eauto with writes]).
