(* ===== verification/Shared.v ===== *)
(** * What the reconcilers share ([internal/controller/shared])

    The identity of the application with the names and labels derived from it,
    the reading of credentials from Secrets, and the ownership comparisons. *)

From S2P Require Import Prelude GoUtf8 GoStrings GoBytes GoLib ApiTypes Kube.

(** ** [application.go] *)

Definition reservedKeyPrefix : string := "pgtoolbox.fyannk.dev/".

Definition FilteredOverlay (values : gmap string string) : gmap string string :=
  filter (λ p, negb (HasPrefix p.1 reservedKeyPrefix) = true) values.

Definition maxResourceNameLength : nat := 63.
Definition truncatedNameStem : nat := 54.

Section names.
Context `{G : GoLib}.

Definition BoundedName (base suffix : string) : string :=
  let fullName := base +:+ suffix in
  if Nat.leb (slen fullName) maxResourceNameLength then fullName
  else
    let digest := sha256_Sum256 fullName in
    take_str truncatedNameStem fullName +:+ "-" +:+ hex_EncodeToString (take_str 4 digest).

Record Application := mkApplication {
  App_Name : string;
  ResourceInfix : string;
  InstanceLabelKey : string;
  Finalizer : string
}.

Definition PgConsoleApplication : Application :=
  mkApplication "pgconsole" "-pgconsole" PgConsoleLabelKey PgConsoleFinalizer.

Definition ResourceName (a : Application) (instance suffix : string) : string :=
  BoundedName instance (a.(ResourceInfix) +:+ suffix).

Definition CommonLabels (a : Application) (instance : string) : gmap string string :=
  <["app.kubernetes.io/name" := a.(App_Name)]>
  (<["app.kubernetes.io/instance" := instance]>
  (<["app.kubernetes.io/managed-by" := ManagedByLabelValue]>
  {[a.(InstanceLabelKey) := instance]})).

Definition SelectorLabels (a : Application) (instance : string) : gmap string string :=
  <["app.kubernetes.io/name" := a.(App_Name)]>
  {["app.kubernetes.io/instance" := instance]}.

(** ** [objects.go] *)

Definition ControllerOwnerMatches (existing desired : ObjectMeta) : bool :=
  match existing.(M_Controller), desired.(M_Controller) with
  | Some existingOwner, Some desiredOwner => String.eqb existingOwner desiredOwner
  | _, _ => false
  end.

(** Reading an absent key of a Go map gives the empty string. *)
Definition LabelsContain (existing desired : gmap string string) : bool :=
  forallb (λ p, String.eqb (default "" (existing !! p.1)) p.2) (map_to_list desired).

(** ** [credentials.go] *)

Record BasicAuthCredential := mkCredential {
  Cred_Username : string;
  Cred_Password : string;
  Cred_ResourceVersion : string
}.

Definition line_breaks : string := String (ascii_of_nat 13) (String (ascii_of_nat 10) EmptyString).

(** A byte slice of a Secret that is empty or spans lines is no credential. *)
Definition unusable (value : string) : bool :=
  String.eqb value "" || ContainsAny value line_breaks.

Context {W : Type} `{C : Client W}.

Definition ReadCredential (key : ObjectKey) (usernameKey passwordKey : string)
    : M W BasicAuthCredential :=
  let usernameKey := if String.eqb usernameKey "" then "username" else usernameKey in
  let passwordKey := if String.eqb passwordKey "" then "password" else passwordKey in
  secret ← LiveGet KSecret key;
  let username := default "" (secret.(Sec_Data) !! usernameKey) in
  let password := default "" (secret.(Sec_Data) !! passwordKey) in
  if unusable username || unusable password then throw (SecretFormatErr key)
  else mret (mkCredential username password secret.(Sec_Meta).(M_ResourceVersion)).

Definition ReadBasicAuthCredential (key : ObjectKey) : M W BasicAuthCredential :=
  ReadCredential key "username" "password".

Definition ReadLocalPasswordHash (secretKey : ObjectKey) (key : string)
    : M W (string * string) :=
  let key := if String.eqb key "" then "password" else key in
  secret ← LiveGet KSecret secretKey;
  let hash := default "" (secret.(Sec_Data) !! key) in
  if unusable hash then throw (SecretFormatErr secretKey)
  else match bcrypt_Cost hash with
       | None => throw (SecretFormatErr secretKey)
       | Some _ => mret (hash, secret.(Sec_Meta).(M_ResourceVersion))
       end.
End names.

Abbreviation application := PgConsoleApplication.

(** ** Lemmas *)

Section lemmas.
Context `{G : GoLib} `{L : !GoLibLaws G}.

Lemma BoundedName_short base suffix :
  slen base + slen suffix ≤ maxResourceNameLength → BoundedName base suffix = base +:+ suffix.
Proof. intros H. unfold BoundedName. rewrite slen_append, leb_correct by lia. done. Qed.

Lemma BoundedName_long base suffix :
  maxResourceNameLength < slen base + slen suffix →
  BoundedName base suffix =
  take_str truncatedNameStem (base +:+ suffix) +:+ "-" +:+
  hex_EncodeToString (take_str 4 (sha256_Sum256 (base +:+ suffix))).
Proof. intros H. unfold BoundedName. rewrite slen_append, leb_correct_conv by lia. done. Qed.

Lemma digest_length s : slen (hex_EncodeToString (take_str 4 (sha256_Sum256 s))) = 8.
Proof using L.
  rewrite hex_Encode_length, take_str_length; [done|]. rewrite sha256_length. lia.
Qed.

Lemma BoundedName_length base suffix : slen (BoundedName base suffix) ≤ maxResourceNameLength.
Proof using L.
  destruct (decide (slen base + slen suffix ≤ maxResourceNameLength)) as [H|H].
  - by rewrite BoundedName_short, slen_append.
  - rewrite BoundedName_long, !slen_append, digest_length, take_str_length by
      (rewrite ?slen_append; unfold maxResourceNameLength, truncatedNameStem in *; lia).
    unfold truncatedNameStem, maxResourceNameLength. simpl. lia.
Qed.

Lemma ControllerOwnerMatches_true a b :
  ControllerOwnerMatches a b = true ↔ ∃ uid, a.(M_Controller) = Some uid ∧ b.(M_Controller) = Some uid.
Proof.
  unfold ControllerOwnerMatches. destruct (M_Controller a), (M_Controller b); try (split; [done|naive_solver]).
  rewrite String.eqb_eq. naive_solver.
Qed.

Lemma LabelsContain_true existing desired :
  LabelsContain existing desired = true ↔
  ∀ k v, desired !! k = Some v → default "" (existing !! k) = v.
Proof.
  unfold LabelsContain. rewrite forallb_forall. split.
  - intros H k v Hk. apply String.eqb_eq, (H (k, v)), list_elem_of_In. by apply elem_of_map_to_list.
  - intros H [k v] Hk%list_elem_of_In%elem_of_map_to_list. by apply String.eqb_eq, H.
Qed.

Lemma LabelsContain_refl labels : LabelsContain labels labels = true.
Proof. apply LabelsContain_true. by intros k v ->. Qed.

(** Generated object names fit the 63-character limit; a name that fits is
    the plain concatenation, so two instances share one only if they are the
    same; and two truncated names can only coincide for different full names
    when the names agree on their first 54 bytes and their SHA-256 digests on
    the first four. *)
Theorem BoundedName_spec base suffix base' suffix' :
  slen (BoundedName base suffix) ≤ maxResourceNameLength ∧
  (slen base + slen suffix ≤ maxResourceNameLength →
   slen base' + slen suffix ≤ maxResourceNameLength →
   BoundedName base suffix = BoundedName base' suffix → base = base') ∧
  (maxResourceNameLength < slen base + slen suffix →
   maxResourceNameLength < slen base' + slen suffix' →
   BoundedName base suffix = BoundedName base' suffix' →
   take_str truncatedNameStem (base +:+ suffix) = take_str truncatedNameStem (base' +:+ suffix') ∧
   take_str 4 (sha256_Sum256 (base +:+ suffix)) = take_str 4 (sha256_Sum256 (base' +:+ suffix'))).
Proof using L.
  split; [apply BoundedName_length|split].
  - intros H H'. rewrite !BoundedName_short by done. intros Heq.
    assert (slen base = slen base') as Hl by (apply (f_equal slen) in Heq; rewrite !slen_append in Heq; lia).
    by apply append_inj in Heq as [? _].
  - intros H H'. rewrite !BoundedName_long by done. intros [Ht Heq]%append_inj.
    + split; [done|]. apply append_inj in Heq as [_ Heq]; [|done]. by apply hex_Encode_inj.
    + unfold maxResourceNameLength, truncatedNameStem in *.
      rewrite !take_str_length; rewrite ?slen_append; lia.
Qed.

Lemma lookup_CommonLabels_selector a instance k v :
  a.(InstanceLabelKey) ≠ "app.kubernetes.io/name" → a.(InstanceLabelKey) ≠ "app.kubernetes.io/instance" →
  SelectorLabels a instance !! k = Some v → CommonLabels a instance !! k = Some v.
Proof.
  intros Hn Hi. unfold SelectorLabels, CommonLabels.
  rewrite !lookup_insert_Some, lookup_singleton_Some. naive_solver.
Qed.

(** The selector of a console's Pods is a strict part of the labels its
    objects carry, metadata a user supplies is kept except for the operator's
    own keys, and the labels of a console contain those of no other one. *)
Theorem labels_consistent instance instance' values :
  SelectorLabels application instance ⊂ CommonLabels application instance ∧
  (LabelsContain (CommonLabels application instance) (SelectorLabels application instance') = true →
   instance = instance') ∧
  (∀ k, FilteredOverlay values !! k = if HasPrefix k reservedKeyPrefix then None else values !! k) ∧
  HasPrefix application.(InstanceLabelKey) reservedKeyPrefix = true.
Proof.
  clear L. assert (∀ k, FilteredOverlay values !! k = if HasPrefix k reservedKeyPrefix then None else values !! k) as Hf.
  { intros k. unfold FilteredOverlay. rewrite map_lookup_filter.
    destruct (values !! k); simpl; [|by case_if]. case_guard; destruct (HasPrefix k _); simpl in *; done. }
  split_and!; [split| |done|done].
  - apply map_subseteq_spec. intros k v. by apply lookup_CommonLabels_selector.
  - intros Hsub. apply (map_subseteq_spec _ _) with (i := PgConsoleLabelKey) (x := instance) in Hsub.
    + by vm_compute in Hsub.
    + done.
  - intros H. rewrite LabelsContain_true in H.
    apply (H "app.kubernetes.io/instance" instance'). done.
Qed.
End lemmas.

Lemma BoundedName_spec_witness :
  slen (BoundedName "console" "-pgconsole-proxy") ≤ 63 ∧
  BoundedName "console" "-pgconsole-proxy" = "console-pgconsole-proxy".
Proof.
  split; [|reflexivity].
  apply (BoundedName_spec "console" "-pgconsole-proxy" "console" "-pgconsole-proxy").
Defined.
