(* ===== verification/Platform.v ===== *)
(** * The settings of the console reconciler and its write helpers

    The fields of [pgconsole.Reconciler] and [shared.Runtime], the images and
    budgets of a container, the server-side apply, and the pattern all its
    [apply...] functions follow: write only when the live object differs. *)

From S2P Require Import Prelude GoUtf8 GoStrings GoLib ApiTypes Kube Shared.

Record DefaultImages := mkDefaultImages {
  DI_PgConsole : string;
  DI_Proxy : string;
  DI_PgAdmin : string;
  DI_ObjectStoreViewer : string
}.

(** [Reconciler] and the discovery flags of [Runtime]; the clients are the
    class [Client] and [AdminSync] is an argument of the sync. *)
Record Reconciler := mkReconciler {
  RE_DefaultImages : DefaultImages;
  RE_OperatorImage : string;
  RE_BarmanObjectStoreAvailable : bool;
  RE_RouteAPIAvailable : bool;
  RE_GatewayAPIAvailable : bool
}.

(** ** Images and budgets *)

Definition PullIfNotPresent : string := "IfNotPresent".

Definition imageReference (image : ImageSpec) : string :=
  if is_empty image.(I_Digest) then image.(I_Repository) +:+ ":" +:+ image.(I_Tag)
  else image.(I_Repository) +:+ "@" +:+ image.(I_Digest).

Definition resolveImage (spec : option ImageSpec) (fallback : string) : result string string :=
  match spec with
  | Some image =>
      if negb (is_empty image.(I_Repository)) then Ok (imageReference image)
      else if negb (is_empty fallback) then Ok fallback
      else Err "no image configured (spec image and operator default are both empty)"
  | None =>
      if negb (is_empty fallback) then Ok fallback
      else Err "no image configured (spec image and operator default are both empty)"
  end.

Definition imagePullPolicy (image : option ImageSpec) : string :=
  match image with
  | Some i => if is_empty i.(I_PullPolicy) then PullIfNotPresent else i.(I_PullPolicy)
  | None => PullIfNotPresent
  end.

Definition has_budget (r : Resources) : bool :=
  bool_decide (r.(RS_Requests) ≠ ∅) || bool_decide (r.(RS_Limits) ≠ ∅).

Definition budget (cpu memory cpuLimit memoryLimit : string) : Resources :=
  mkResources (<["cpu" := cpu]> {["memory" := memory]}) (<["cpu" := cpuLimit]> {["memory" := memoryLimit]}).

Definition adminSyncResources (r : Resources) : Resources :=
  if has_budget r then r else budget "50m" "256Mi" "1" "1Gi".

Definition containerResources (r : Resources) : Resources :=
  if has_budget r then r else budget "25m" "64Mi" "500m" "256Mi".

(** ** Writes *)

Definition metadataMatches (existing desired : ObjectMeta) : bool :=
  LabelsContain existing.(M_Labels) desired.(M_Labels)
  && LabelsContain existing.(M_Annotations) desired.(M_Annotations)
  && ControllerOwnerMatches existing desired.

Section writes.
Context {W : Type} `{C : Client W}.

(** The object is what the server answers with, as the apply decodes it into
    [desired]. *)
Definition ApplyObject (k : kind) (desired : object k) : M W (object k) :=
  let '(namespace, name) := key_of (meta desired) in
  wrap ("apply " +:+ namespace +:+ "/" +:+ name) (Apply k desired).

(** The common body of [applyRole], [applyService], ...: read from the cache,
    keep what matches, apply what is missing or differs. *)
Definition apply_unless (k : kind) (matches : object k → object k → bool) (desired : object k) : M W (object k) :=
  existing ← try (Get k (key_of (meta desired)));
  match existing with
  | Ok e => if matches e desired then mret e else ApplyObject k desired
  | Err e => if IsNotFound e then ApplyObject k desired else throw e
  end.

(** [if err := f(...); err != nil { return err }]. *)
Definition discard {A} (m : M W A) : M W () := m ≫= λ _, mret ().
End writes.

(** ** What they do *)

Lemma applied_metadata {k : kind} (desired o : object k) :
  is_Some (M_Controller (meta desired)) → applied desired o → metadataMatches (meta o) (meta desired) = true.
Proof.
  intros [u Hu] Ha. unfold metadataMatches. rewrite !andb_true_iff, !LabelsContain_true, ControllerOwnerMatches_true.
  split_and!.
  - intros i v Hv. by rewrite (lookup_weaken _ _ _ _ Hv (applied_labels _ _ Ha)).
  - intros i v Hv. by rewrite (lookup_weaken _ _ _ _ Hv (applied_annotations _ _ Ha)).
  - exists u. split; [by apply (applied_controller _ _ Ha)|done].
Qed.

Section lemmas.
Context {W : Type} `{C : Client W} {CL : ClientLaws C}.

Lemma ApplyObject_run k desired w r w' : ApplyObject k desired w = (r, w') →
  log w' = log w ++ [(VApply, k, key_of (meta desired))] ∧ elsewhere w w' k (key_of (meta desired)) ∧
  lagging w w' ∧
  ∀ o, r = Ok o → view w' k (key_of (meta desired)) = Some o ∧ applied desired o.
Proof.
  unfold ApplyObject. destruct (key_of (meta desired)) as [ns n] eqn:Hk. rewrite run_wrap.
  destruct (Apply k desired w) as [r1 w1] eqn:E. pose proof (Apply_lag _ _ _ _ _ E) as Hlag.
  apply Apply_spec in E as [Hl H]. rewrite Hk in *.
  destruct r1 as [o|e]; intros; simplify_eq.
  - destruct H as (Hv & He & Ha & _). split_and!; [done..|]. intros ? [= <-]. done.
  - by split_and!; [| apply H| |].
Qed.

Lemma elsewhere_kept (w w' : W) k key k' key' :
  elsewhere w w' k key → lagging w w' → (k', key') ∉ [(k, key)] → kept w w' k' key'.
Proof.
  intros He Hlag Hne. apply lagging_kept; [done|]. apply He.
  destruct (decide (k' = k)) as [->|]; [right|by left]. intros ->. by apply Hne, list_elem_of_singleton.
Qed.

(** Read, then at most one apply of that object. What it leaves there is known
    when the cache had caught up with the object: a stale entry that matches
    stops the write. *)
Lemma apply_unless_any k matches desired w r w' :
  apply_unless k matches desired w = (r, w') →
  (∀ k' key', (k', key') ∉ [(k, key_of (meta desired))] → kept w w' k' key') ∧
  (in_sync w k (key_of (meta desired)) →
   (∀ o, r = Ok o → view w' k (key_of (meta desired)) = Some o ∧ (matches o desired = true ∨ applied desired o)) ∧
   (∀ o, view w k (key_of (meta desired)) = Some o → matches o desired = true → untouched w w')).
Proof.
  unfold apply_unless. rewrite run_bind, run_try.
  destruct (Get k _ w) as [r1 w1] eqn:E. apply Get_spec in E as [Hu Hr].
  assert (Happly : ∀ r w', ApplyObject k desired w1 = (r, w') →
    (∀ k' key', (k', key') ∉ [(k, key_of (meta desired))] → kept w w' k' key') ∧
    ∀ o, r = Ok o → view w' k (key_of (meta desired)) = Some o ∧ applied desired o).
  { intros r2 w2 H. apply ApplyObject_run in H as (Hl & He & Hlag & Ho). split; [|done].
    intros k' key' Hne. eapply kept_trans; [by apply untouched_kept|by eapply elsewhere_kept]. }
  destruct r1 as [e|e]; cbn in Hr.
  - destruct (matches e desired) eqn:Hme.
    + rewrite run_ret. intros [= <- <-]. split; [intros; by apply untouched_kept|]. intros Hs. rewrite Hs in Hr.
      split; [|done]. intros ? [= <-]. split; [by rewrite (untouched_lookup _ _ _ _ Hu)|by left].
    + intros [He Ho]%Happly. split; [done|]. intros Hs. split; [intros o [? ?]%Ho; by auto|].
      intros o Hv Ho'. rewrite Hs in Hr. congruence.
  - destruct (IsNotFound e) eqn:Hnf.
    + intros [He Ho]%Happly. split; [done|]. intros Hs. split; [intros o [? ?]%Ho; by auto|].
      intros o Hv _. rewrite Hs, Hv in Hr. by specialize (Hr eq_refl).
    + rewrite run_throw. intros [= <- <-]. split; [intros; by apply untouched_kept|by split].
Qed.

(** When what the server stores of an apply matches, the object matches after
    any pass that succeeds. *)
Lemma apply_unless_run k matches desired w r w' :
  (∀ o, applied desired o → matches o desired = true) →
  apply_unless k matches desired w = (r, w') →
  (∀ k' key', (k', key') ∉ [(k, key_of (meta desired))] → kept w w' k' key') ∧
  (in_sync w k (key_of (meta desired)) →
   (∀ o, r = Ok o → view w' k (key_of (meta desired)) = Some o ∧ matches o desired = true) ∧
   (∀ o, view w k (key_of (meta desired)) = Some o → matches o desired = true → untouched w w')).
Proof.
  intros Hm (He & Ho)%apply_unless_any. split; [done|]. intros [Ho' Hu]%Ho. split; [|done].
  intros o [Hv [?|?]]%Ho'; auto.
Qed.

(** [settles p F P]: [p] touches the objects [F] alone. From a state where the
    cache has caught up with those: when [p] succeeds [P], a property of them,
    holds; and once [P] holds it changes nothing and sends nothing but deletes,
    of objects that are gone or going already. *)
Record settles (p : M W ()) (F : list (kind * ObjectKey)) (P : W → Prop) : Prop := {
  settles_frame w r w' : p w = (r, w') → ∀ k key, (k, key) ∉ F → kept w w' k key;
  settles_done w w' : p w = (Ok (), w') → synced_on w F → P w';
  settles_again w r w' : p w = (r, w') → synced_on w F → P w →
    same_view w w' ∧ ∃ l, log w' = log w ++ l ∧ Forall (λ x : write, x.1.1 = VDelete) l;
  settles_local w w' : (∀ k key, (k, key) ∈ F → view w' k key = view w k key) → P w → P w'
}.

Lemma synced_on_app (w : W) F G : synced_on w (F ++ G) ↔ synced_on w F ∧ synced_on w G.
Proof.
  split; [intros H; split; intros k key Hk; apply H, elem_of_app; auto|].
  by intros [HF HG] k key [?%HF|?%HG]%elem_of_app.
Qed.

Lemma settles_bind p q F G P Q : settles p F P → settles q G Q → F ## G →
  settles (p ≫= λ _, q) (F ++ G) (λ w, P w ∧ Q w).
Proof.
  intros [F1 D1 A1 L1] [F2 D2 A2 L2] Hd.
  assert (Hs : ∀ w r w1, p w = (r, w1) → synced_on w G → synced_on w1 G).
  { intros w r w1 E HG. eapply synced_on_kept; [done|]. intros k key Hk. eapply F1; [done|].
    intros Hf. by eapply Hd. }
  split.
  - intros w r w' H k key [Hf Hg]%not_elem_of_app. rewrite run_bind in H. destruct (p w) as [[[]|e] w1] eqn:E.
    + eapply kept_trans; [by eapply F1|by eapply F2].
    + simplify_eq. by eapply F1.
  - intros w w' H [HF HG]%synced_on_app. rewrite run_bind in H. destruct (p w) as [[[]|e] w1] eqn:E; [|done].
    split; [|by eauto]. eapply L1; [|by eapply D1]. intros k key Hk. eapply F2; [done|]. intros Hg. by eapply Hd.
  - intros w r w' H [HF HG]%synced_on_app [HP HQ]. rewrite run_bind in H. destruct (p w) as [r1 w1] eqn:E.
    destruct (A1 _ _ _ E HF HP) as (V1 & l1 & E1 & H1). destruct r1 as [[]|e].
    + destruct (A2 _ _ _ H) as (V2 & l2 & E2 & H2); [by eauto|eapply L2; [intros k key _; apply V1|done]|].
      split; [by eapply same_view_trans|]. exists (l1 ++ l2). rewrite E2, E1, app_assoc.
      split; [done|]. by apply Forall_app.
    + simplify_eq. by eauto.
  - intros w w' H [HP HQ]. split; [apply (L1 w); [|done]|apply (L2 w); [|done]]; intros k key Hk; apply H, elem_of_app; auto.
Qed.

Lemma settles_of_result {A} (r : result error A) a p F P :
  r = Ok a → settles (p a) F P → settles (x ← of_result r; p x) F P.
Proof. by intros ->. Qed.

Lemma settles_delete k key :
  settles (ignore_not_found (Delete k key)) [(k, key)] (λ w, released w k key).
Proof.
  split.
  - intros w r w' H k' key' Hk. rewrite run_ignore_not_found in H. destruct (Delete k key w) as [r1 w1] eqn:E.
    assert (w1 = w') as -> by (destruct r1; by simplify_eq). pose proof (Delete_lag _ _ _ _ _ E) as Hlag.
    eapply elsewhere_kept; [|done..]. apply Delete_spec in E as [_ E]. destruct r1; apply E.
  - intros w w' H _. rewrite run_ignore_not_found in H. destruct (Delete k key w) as [r1 w1] eqn:E.
    destruct r1 as [[]|e].
    + apply Delete_spec in E as [_ [E _]]. simplify_eq. by eapply delete_released.
    + pose proof (Delete_missing _ _ _ _ _ E) as Hm. destruct (IsNotFound e); [|done]. simplify_eq.
      destruct (Hm eq_refl) as [_ Hn]. intros ? Ho. congruence.
  - intros w r w' H _ HP. rewrite run_ignore_not_found in H. destruct (Delete k key w) as [r1 w1] eqn:E.
    apply Delete_spec in E as [El E]. assert (w1 = w') as -> by (destruct r1; by simplify_eq).
    assert (view w' k key = view w k key ∧ elsewhere w w' k key) as [Hn He].
    { destruct r1 as [[]|e]; destruct E as [E He]; (split; [|done]); [by eapply delete_idle|].
      destruct E as [E|E]; [done|by eapply delete_idle]. }
    split; [|by eauto]. intros k' key'. destruct (decide (k' = k)) as [->|]; [|by apply He; left].
    destruct (decide (key' = key)) as [->|]; [done|by apply He; right].
  - intros w w' H HP. unfold released. rewrite H; [done|]. by apply list_elem_of_singleton.
Qed.

Lemma settles_apply k matches desired :
  (∀ o, applied desired o → matches o desired = true) →
  settles (discard (apply_unless k matches desired)) [(k, key_of (meta desired))]
    (λ w, ∃ o, view w k (key_of (meta desired)) = Some o ∧ matches o desired = true).
Proof.
  intros Hm.
  assert (Hrun : ∀ w r w', discard (apply_unless k matches desired) w = (r, w') →
    ∃ r1, apply_unless k matches desired w = (r1, w') ∧ (r = Ok () → ∃ o, r1 = Ok o)).
  { intros w r w' H. unfold discard in H. rewrite run_bind in H.
    destruct (apply_unless k matches desired w) as [r1 w1].
    exists r1. destruct r1 as [o|e]; [rewrite run_ret in H|]; simplify_eq; split; eauto. done. }
  assert (Hin : ∀ w, synced_on w [(k, key_of (meta desired))] → in_sync w k (key_of (meta desired))).
  { intros w Hs. apply Hs, list_elem_of_here. }
  split.
  - intros w r w' (r1 & H & _)%Hrun k' key' Hk. by apply (apply_unless_run _ _ _ _ _ _ Hm) in H as [He _]; apply He.
  - intros w w' (r1 & H & Ho)%Hrun Hs%Hin. destruct (Ho eq_refl) as [o ->].
    apply (apply_unless_run _ _ _ _ _ _ Hm) in H as (_ & H). exists o. by apply (H Hs).
  - intros w r w' (r1 & H & _)%Hrun Hs%Hin (o & Hv & Hmo).
    apply (apply_unless_run _ _ _ _ _ _ Hm) in H as (_ & H). destruct (H Hs) as [_ U]. destruct (U o Hv Hmo) as [V L _].
    split; [done|]. exists []. by rewrite app_nil_r.
  - intros w w' H HP. rewrite H; [done|]. by apply list_elem_of_singleton.
Qed.

Lemma settles_impl p F G P Q : settles p F P → (∀ w, P w ↔ Q w) → (∀ x, x ∈ F ↔ x ∈ G) → settles p G Q.
Proof.
  intros [S1 S2 S3 S4] HQ HF.
  assert (Hs : ∀ w, synced_on w G → synced_on w F) by (intros w Hg k key Hk; by apply Hg, HF).
  split.
  - intros w r w' H k key Hk. eapply S1; [done|]. by rewrite HF.
  - intros w w' H ?%Hs. apply HQ. by eapply S2.
  - intros w r w' H ?%Hs HP%HQ. by eapply S3.
  - intros w w' H HP%HQ. apply HQ. eapply S4; [|done]. intros k key Hk. by apply H, HF.
Qed.

Lemma writes_ApplyObject (P : write → Prop) k desired :
  P (VApply, k, key_of (meta desired)) → writes_in P (ApplyObject k desired).
Proof.
  intros H. unfold ApplyObject. destruct (key_of (meta desired)) as [ns n] eqn:E.
  apply writes_wrap, writes_Apply. by rewrite E.
Qed.

Lemma writes_apply_unless (P : write → Prop) k matches desired :
  P (VApply, k, key_of (meta desired)) → writes_in P (apply_unless k matches desired).
Proof. intros H. unfold apply_unless. writes; by apply writes_ApplyObject. Qed.
End lemmas.

#[export] Hint Resolve writes_ApplyObject writes_apply_unless : writes.
