(* ===== verification/Render.v ===== *)
(** * Deterministic rendering helpers ([internal/render/render.go])

    The checksum of a set of rendered files and the short revision made of it.
    A [hash.Hash] is the string of the bytes written to it so far. *)

From S2P Require Import Prelude GoUtf8 GoStrings GoBytes GoLib.

Section render.
Context `{G : GoLib}.

Definition writeChecksumUint64 (digest : string) (value : Z) : string :=
  digest +:+ big_endian 8 value.

Definition writeChecksumPart (digest value : string) : string :=
  writeChecksumUint64 digest (Z.of_nat (slen value)) +:+ value.

(** [sort.Strings]. *)
Definition sort_Strings (l : list string) : list string := merge_sort String.le l.

Definition write_entry (values : gmap string string) (digest key : string) : string :=
  writeChecksumPart (writeChecksumPart digest key) (default "" (values !! key)).

Definition writeChecksumMap (digest : string) (values : gmap string string) : string :=
  let keys := sort_Strings (map_to_list values).*1 in
  foldl (write_entry values) (writeChecksumUint64 digest (Z.of_nat (length keys))) keys.

Definition checksum_domain : string := "pgtoolbox-checksum-v1".

Definition checksum_stream (rendered : gmap string string) : string :=
  writeChecksumMap (writeChecksumPart "" checksum_domain) rendered.

Definition Checksum (rendered : gmap string string) : string :=
  hex_EncodeToString (sha256_Sum256 (checksum_stream rendered)).

Definition Revision (checksum : string) : string :=
  let checksum := if Nat.ltb 8 (slen checksum) then take_str 8 checksum else checksum in
  "cfg-" +:+ checksum.

(** ** The framing is injective *)

(** A Go string or map is no longer than an [int]. *)
Definition fits (n : nat) : Prop := (Z.of_nat n < 2 ^ 63)%Z.

Definition files_fit (m : gmap string string) : Prop :=
  fits (size m) ∧ ∀ k v, m !! k = Some v → fits (slen k) ∧ fits (slen v).

Lemma frame_inj n m s t :
  fits n → fits m → big_endian 8 (Z.of_nat n) +:+ s = big_endian 8 (Z.of_nat m) +:+ t →
  n = m ∧ s = t.
Proof.
  intros Hn Hm [Hb ?]%append_inj; [|by rewrite !big_endian_length]. split; [|done].
  apply big_endian_inj in Hb; unfold fits in *; lia.
Qed.

Lemma part_inj x y s t :
  fits (slen x) → fits (slen y) →
  big_endian 8 (Z.of_nat (slen x)) +:+ x +:+ s = big_endian 8 (Z.of_nat (slen y)) +:+ y +:+ t →
  x = y ∧ s = t.
Proof. intros Hx Hy [Hl H]%frame_inj; [|done..]. by apply append_inj in H. Qed.

(** The bytes a list of entries adds to the digest. *)
Fixpoint entries_stream (values : gmap string string) (keys : list string) : string :=
  match keys with
  | [] => EmptyString
  | k :: keys =>
      let v := default "" (values !! k) in
      big_endian 8 (Z.of_nat (slen k)) +:+ k +:+ big_endian 8 (Z.of_nat (slen v)) +:+ v +:+
      entries_stream values keys
  end.

Lemma foldl_entries values keys digest :
  foldl (write_entry values) digest keys = digest +:+ entries_stream values keys.
Proof.
  revert digest. induction keys as [|k keys IH]; intros digest; simpl.
  - by rewrite append_nil_r.
  - rewrite IH. unfold write_entry, writeChecksumPart, writeChecksumUint64.
    by rewrite !append_assoc.
Qed.

Lemma entries_inj a b keys keys' :
  length keys = length keys' → files_fit a → files_fit b →
  (∀ k, k ∈ keys → is_Some (a !! k)) → (∀ k, k ∈ keys' → is_Some (b !! k)) →
  entries_stream a keys = entries_stream b keys' →
  keys = keys' ∧ ∀ k, k ∈ keys → a !! k = b !! k.
Proof.
  intros Hl [_ Ha] [_ Hb]. revert keys' Hl.
  induction keys as [|k keys IH]; intros [|k' keys'] Hl Hka Hkb H; try done.
  { split; [done|]. by intros ? ?%not_elem_of_nil. }
  destruct (Hka k (list_elem_of_here _ _)) as [v Hv], (Hkb k' (list_elem_of_here _ _)) as [v' Hv'].
  simpl in H. rewrite Hv, Hv' in H. simpl in H.
  destruct (Ha _ _ Hv), (Hb _ _ Hv').
  apply part_inj in H as [-> H]; [|done..]. apply part_inj in H as [-> H]; [|done..].
  apply IH in H as [-> HI]; [|by injection Hl|by intros; apply Hka, list_elem_of_further
    |by intros; apply Hkb, list_elem_of_further].
  split; [done|]. intros x [->|?]%elem_of_cons; [congruence|auto].
Qed.

Lemma sorted_keys_elem (m : gmap string string) k :
  k ∈ sort_Strings (map_to_list m).*1 ↔ is_Some (m !! k).
Proof.
  unfold sort_Strings. rewrite merge_sort_Permutation, list_elem_of_fmap. split.
  - intros ([? v] & -> & H%elem_of_map_to_list). by exists v.
  - intros [v Hv]. exists (k, v). split; [done|]. by apply elem_of_map_to_list.
Qed.

Lemma sorted_keys_length (m : gmap string string) :
  length (sort_Strings (map_to_list m).*1) = size m.
Proof. unfold sort_Strings. by rewrite merge_sort_Permutation, length_fmap, length_map_to_list. Qed.

Lemma checksum_stream_inj a b :
  files_fit a → files_fit b → checksum_stream a = checksum_stream b → a = b.
Proof.
  intros Ha Hb. unfold checksum_stream, writeChecksumMap. rewrite !foldl_entries, !sorted_keys_length.
  unfold writeChecksumUint64. rewrite !append_assoc. intros H%append_inj_l.
  apply frame_inj in H as [Hn H]; [|apply Ha|apply Hb].
  apply entries_inj in H as [Hk Hv]; try done.
  - apply map_eq. intros k. destruct (decide (is_Some (a !! k))) as [Hs|Hs].
    + by apply Hv, sorted_keys_elem.
    + assert (¬ is_Some (b !! k)) as Hs'.
      { rewrite <-sorted_keys_elem, <-Hk. by rewrite sorted_keys_elem. }
      apply eq_None_not_Some in Hs as ->. by apply eq_None_not_Some in Hs' as ->.
  - by rewrite !sorted_keys_length.
  - intros k. apply sorted_keys_elem.
  - intros k. apply sorted_keys_elem.
Qed.

(** Two sets of files have the same checksum only if they are the same, or
    their framed streams are a SHA-256 collision; and the checksum hashes the
    files in the sorted order of their names, whatever order a map is
    traversed in. *)
Theorem Checksum_collision a b :
  files_fit a → files_fit b →
  (Checksum a = Checksum b → a = b ∨ checksum_stream a ≠ checksum_stream b ∧
     sha256_Sum256 (checksum_stream a) = sha256_Sum256 (checksum_stream b)) ∧
  ∀ keys, keys ≡ₚ (map_to_list a).*1 → Sorted String.le keys →
    checksum_stream a =
    writeChecksumPart "" checksum_domain +:+ big_endian 8 (Z.of_nat (size a)) +:+
    entries_stream a keys.
Proof.
  intros Ha Hb. split.
  - intros H%hex_Encode_inj. destruct (decide (checksum_stream a = checksum_stream b)) as [He|He]; [left|by right].
    by apply checksum_stream_inj.
  - intros keys Hp Hs. unfold checksum_stream, writeChecksumMap.
    rewrite foldl_entries, sorted_keys_length. unfold writeChecksumUint64. rewrite append_assoc.
    do 3 f_equal. apply (Sorted_unique String.le); [by apply Sorted_merge_sort, _|done|].
    unfold sort_Strings. by rewrite merge_sort_Permutation, Hp.
Qed.
End render.

Definition demo_files (content : string) : gmap string string := {["config.yaml" := content]}.

Lemma demo_files_fit content : slen content = 4 → files_fit (demo_files content).
Proof.
  intros H. split; [done|]. unfold demo_files. intros k v [<- <-]%lookup_singleton_Some. unfold fits. rewrite H. done.
Qed.

Lemma Checksum_collision_witness :
  demo_files "aaaa" ≠ demo_files "bbbb" ∧
  checksum_stream (demo_files "aaaa") ≠ checksum_stream (demo_files "bbbb") ∧
  sha256_Sum256 (checksum_stream (demo_files "aaaa")) =
  sha256_Sum256 (checksum_stream (demo_files "bbbb")).
Proof.
  assert (demo_files "aaaa" ≠ demo_files "bbbb") as Hne.
  { intros H. apply (f_equal (lookup "config.yaml")) in H. by vm_compute in H. }
  split; [exact Hne|].
  destruct (proj1 (Checksum_collision (G := demo_lib) (demo_files "aaaa") (demo_files "bbbb")
    (demo_files_fit "aaaa" eq_refl) (demo_files_fit "bbbb" eq_refl)) ltac:(vm_compute; reflexivity))
    as [H|H]; [destruct (Hne H)|exact H].
Defined.
