(* ===== verification/Conditions.v ===== *)
(** * Status conditions ([internal/conditions], [api/v1alpha1/conditions.go])

    The reasons the API knows, and the single write path behind the [Mark]
    helpers, which panics on an unknown reason. The message is the formatted
    text. *)

From S2P Require Import Prelude GoStrings ApiTypes Kube.

Definition ReasonAsExpected : string := "AsExpected".
Definition ReasonReconciling : string := "Reconciling".
Definition ReasonReconciliationSkipped : string := "ReconciliationSkipped".
Definition ReasonRolloutInProgress : string := "RolloutInProgress".
Definition ReasonRolloutStuck : string := "RolloutStuck".
Definition ReasonConfigurationInvalid : string := "ConfigurationInvalid".
Definition ReasonSecretNotFound : string := "SecretNotFound".
Definition ReasonSecretKeyMissing : string := "SecretKeyMissing".
Definition ReasonSecretFormatInvalid : string := "SecretFormatInvalid".
Definition ReasonRenderFailed : string := "RenderFailed".
Definition ReasonNotAdmitted : string := "NotAdmitted".
Definition ReasonNotAccepted : string := "NotAccepted".
Definition ReasonGatewayNotFound : string := "GatewayNotFound".
Definition ReasonHostnameConflict : string := "HostnameConflict".
Definition ReasonNotRequested : string := "NotRequested".
Definition ReasonAllApplied : string := "AllApplied".
Definition ReasonSomeDegraded : string := "SomeDegraded".
Definition ReasonNoneConfigured : string := "NoneConfigured".
Definition ReasonPgConsoleNotFound : string := "PgConsoleNotFound".
Definition ReasonClusterNotFound : string := "ClusterNotFound".
Definition ReasonClusterNotReady : string := "ClusterNotReady".
Definition ReasonRoleNotFound : string := "RoleNotFound".
Definition ReasonCredentialLost : string := "CredentialLost".
Definition ReasonDatabaseRolePending : string := "DatabaseRolePending".
Definition ReasonDatabaseRoleFailed : string := "DatabaseRoleFailed".
Definition ReasonPendingRollout : string := "PendingRollout".
Definition ReasonSyncFailed : string := "SyncFailed".
Definition ReasonCNPGAPIMissing : string := "CNPGAPIMissing".
Definition ReasonDatabaseRoleAPIMissing : string := "DatabaseRoleAPIMissing".
Definition ReasonPending : string := "Pending".
Definition ReasonApproved : string := "Approved".
Definition ReasonDenied : string := "Denied".
Definition ReasonEvidenceDisabled : string := "EvidenceDisabled".
Definition ReasonImageRequired : string := "ImageRequired".
Definition ReasonObjectStoreNotFound : string := "ObjectStoreNotFound".
Definition ReasonUnsupportedCredentialMode : string := "UnsupportedCredentialMode".
Definition ReasonUnsupportedAuthMode : string := "UnsupportedAuthMode".

Definition knownReasons : list string :=
  [ReasonAsExpected; ReasonReconciling; ReasonReconciliationSkipped; ReasonRolloutInProgress;
   ReasonRolloutStuck; ReasonConfigurationInvalid; ReasonSecretNotFound; ReasonSecretKeyMissing;
   ReasonSecretFormatInvalid; ReasonRenderFailed; ReasonNotAdmitted; ReasonNotAccepted;
   ReasonGatewayNotFound; ReasonHostnameConflict; ReasonNotRequested; ReasonAllApplied;
   ReasonSomeDegraded; ReasonNoneConfigured; ReasonPgConsoleNotFound; ReasonClusterNotFound;
   ReasonClusterNotReady; ReasonRoleNotFound; ReasonCredentialLost; ReasonDatabaseRolePending;
   ReasonDatabaseRoleFailed; ReasonPendingRollout; ReasonSyncFailed; ReasonCNPGAPIMissing;
   ReasonDatabaseRoleAPIMissing; ReasonPending; ReasonApproved; ReasonDenied;
   ReasonEvidenceDisabled; ReasonImageRequired; ReasonObjectStoreNotFound;
   ReasonUnsupportedCredentialMode; ReasonUnsupportedAuthMode].

Definition PgConsoleConditionReady : string := "Ready".
Definition PgConsoleConditionProgressing : string := "Progressing".
Definition PgConsoleConditionConfigurationValid : string := "ConfigurationValid".
Definition PgConsoleConditionRouteReady : string := "RouteReady".
Definition PgConsoleConditionRepositoryEvidenceReady : string := "RepositoryEvidenceReady".
Definition PgConsoleConditionProxyConfigReady : string := "ProxyConfigReady".
Definition PgConsoleConditionClusterReady : string := "ClusterReady".
Definition PgConsoleConditionPgAdminSynced : string := "PgAdminSynced".
Definition UserConditionProxySynced : string := "ProxySynced".
Definition AccessRequestConditionDecided : string := "Decided".
Definition AccessRequestConditionUserReady : string := "UserReady".

Definition ConditionTrue : string := "True".
Definition ConditionFalse : string := "False".
Definition ConditionUnknown : string := "Unknown".

(** The kinds [statusConditions] supports: their conditions and generation. *)
Class Conditioned (T : Type) := {
  statusConditions : T → list Condition * Z;
  with_conditions : list Condition → T → T
}.

Definition set_console_status (s : PgConsoleStatus) (c : PgConsole) : PgConsole :=
  mkPgConsole c.(PC_Meta) c.(PC_Spec) s.

#[export] Instance console_conditioned : Conditioned PgConsole := {|
  statusConditions c := (c.(PC_Status).(PS_Conditions), c.(PC_Meta).(M_Generation));
  with_conditions l c := set_console_status
    (mkConsoleStatus c.(PC_Status).(PS_ObservedGeneration) c.(PC_Status).(PS_URL)
       c.(PC_Status).(PS_ConfigRevision) c.(PC_Status).(PS_EvidenceEnabled)
       c.(PC_Status).(PS_EvidenceTokenSecretName) l) c
|}.

#[export] Instance user_conditioned : Conditioned PgToolBoxUser := {|
  statusConditions u := (u.(PU_Status).(PU_Conditions), u.(PU_Meta).(M_Generation));
  with_conditions l u := mkPgToolBoxUser u.(PU_Meta) u.(PU_Spec)
    (mkUserStatus u.(PU_Status).(PU_ObservedGeneration) u.(PU_Status).(PU_ProxySynced) l)
|}.

#[export] Instance request_conditioned : Conditioned PgToolBoxAccessRequest := {|
  statusConditions r := (r.(Rq_Status).(Rq_Conditions), r.(Rq_Meta).(M_Generation));
  with_conditions l r := mkAccessRequest r.(Rq_Meta) r.(Rq_Spec)
    (mkRequestStatus r.(Rq_Status).(Rq_ObservedGeneration) r.(Rq_Status).(Rq_State)
       r.(Rq_Status).(Rq_RequestedLevel) r.(Rq_Status).(Rq_DecidedBy) l)
|}.

Section mark.
Context `{K : Machinery} {T : Type} `{!Conditioned T}.

Definition assertKnownReason (reason : string) : result error () :=
  if existsb (String.eqb reason) knownReasons then Ok ()
  else Err (Panic ("unknown condition reason " +:+ reason)).

Definition mark (obj : T) (conditionType status reason message : string) : result error T :=
  _ ← assertKnownReason reason;
  let '(conditions, generation) := statusConditions obj in
  Ok (with_conditions (SetStatusCondition conditions
    (mkCondition conditionType status generation reason message)) obj).

Definition MarkTrue (obj : T) (conditionType reason message : string) : result error T :=
  mark obj conditionType ConditionTrue reason message.
Definition MarkFalse (obj : T) (conditionType reason message : string) : result error T :=
  mark obj conditionType ConditionFalse reason message.
Definition MarkUnknown (obj : T) (conditionType reason message : string) : result error T :=
  mark obj conditionType ConditionUnknown reason message.
End mark.

(** The laws of the three kinds: writing the conditions is reading them back. *)
Class ConditionedLaws {T : Type} (X : Conditioned T) : Prop := {
  statusConditions_with l (o : T) : statusConditions (with_conditions l o) = (l, (statusConditions o).2);
  with_conditions_twice l l' (o : T) : with_conditions l (with_conditions l' o) = with_conditions l o
}.

#[export] Instance console_conditioned_laws : ConditionedLaws console_conditioned.
Proof. by split. Qed.
#[export] Instance user_conditioned_laws : ConditionedLaws user_conditioned.
Proof. by split. Qed.
#[export] Instance request_conditioned_laws : ConditionedLaws request_conditioned.
Proof. by split. Qed.

Section mark_lemmas.
Context `{K : Machinery} `{KL : !MachineryLaws K} {T : Type} `{X : Conditioned T} `{XL : !ConditionedLaws X}.

Lemma mark_known obj t st reason message :
  reason ∈ knownReasons →
  mark obj t st reason message =
  Ok (with_conditions (SetStatusCondition (statusConditions obj).1
        (mkCondition t st (statusConditions obj).2 reason message)) obj).
Proof.
  intros H. unfold mark, assertKnownReason.
  assert (existsb (String.eqb reason) knownReasons = true) as ->.
  { apply existsb_exists. exists reason. split; [by apply list_elem_of_In|apply String.eqb_refl]. }
  simpl. by destruct (statusConditions obj).
Qed.

(** Marking an object fails exactly on a reason outside the closed
    vocabulary; otherwise its condition of that type becomes the one marked,
    stamped with the current generation, every other condition is kept, and
    marking again changes nothing. *)
Theorem mark_spec obj t st reason message :
  match mark obj t st reason message with
  | Ok obj' =>
      reason ∈ knownReasons ∧
      condition t (statusConditions obj').1 =
        Some (mkCondition t st (statusConditions obj).2 reason message) ∧
      (∀ t', t' ≠ t → condition t' (statusConditions obj').1 = condition t' (statusConditions obj).1) ∧
      mark obj' t st reason message = Ok obj'
  | Err e => e = Panic ("unknown condition reason " +:+ reason) ∧ reason ∉ knownReasons
  end.
Proof using KL XL.
  destruct (decide (reason ∈ knownReasons)) as [Hk|Hk].
  - rewrite mark_known by done. set (c := mkCondition _ _ _ _ _).
    split; [done|]. rewrite statusConditions_with. cbn [fst].
    pose proof (SetStatusCondition_set (statusConditions obj).1 c) as Hc.
    split_and!; [done|intros t' Ht; by apply (SetStatusCondition_other _ c)|].
    rewrite mark_known, statusConditions_with, with_conditions_twice by done. cbn [fst snd].
    do 2 f_equal. by apply SetStatusCondition_same.
  - unfold mark, assertKnownReason. destruct (existsb _ _) eqn:He; [|done].
    apply existsb_exists in He as (x & Hx%list_elem_of_In & ->%String.eqb_eq). done.
Qed.
End mark_lemmas.

Definition demo_plain_user : PgToolBoxUser :=
  mkPgToolBoxUser (mkMeta "bob" "ns" "" ∅ ∅ None "" 4 false []) (mkUserSpec "c" "bob" "view" None)
    (mkUserStatus 0 false []).

Lemma mark_spec_witness :
  ∃ u, mark demo_plain_user "ProxySynced" "True" ReasonAsExpected "" = Ok u ∧
    condition "ProxySynced" (statusConditions u).1 =
      Some (mkCondition "ProxySynced" "True" 4 ReasonAsExpected "").
Proof.
  pose proof (mark_spec demo_plain_user "ProxySynced" "True" ReasonAsExpected "") as H.
  eexists. split; [reflexivity|]. exact (proj1 (proj2 H)).
Defined.
