(* ===== verification/Users.v ===== *)
(** * The users of a console ([internal/controller/pgconsole/users.go])

    Every [PgToolBoxUser] of a console is resolved into an entry of the proxy
    configuration or excluded with a reason; the statuses report which. *)

From S2P Require Import Prelude GoUtf8 GoStrings GoLib ProxyConfig ApiTypes Kube Shared Conditions.

(** [bootstrapadmin.go]: the name of the user the operator owns. *)
Definition bootstrapAdminUserName (console : PgConsole) : string :=
  PC_Name console +:+ "-bootstrap-admin".

Record resolvedConsoleUser := mkResolved {
  RU_user : PgToolBoxUser;
  RU_proxyUser : User;
  RU_proxyExcluded : bool;
  RU_proxyExcludeReason : string
}.

Definition proxyIncluded (u : resolvedConsoleUser) : bool := negb u.(RU_proxyExcluded).

Definition RU_Name (u : resolvedConsoleUser) : string := u.(RU_user).(PU_Meta).(M_Name).
Definition RU_Subject (u : resolvedConsoleUser) : string := u.(RU_user).(PU_Spec).(PU_Subject).

Definition excluded (user : PgToolBoxUser) (reason : string) : resolvedConsoleUser :=
  mkResolved user (mkUser "" "" "") true reason.

Section users.
Context `{G : GoLib} `{K : Machinery} {W : Type} `{C : Client W}.

(** The password reference that counts: local accounts are enabled and the
    user names a Secret. *)
Definition password_ref (console : PgConsole) (user : PgToolBoxUser) : option SecretKeyReference :=
  match console.(PC_Spec).(CS_Authentication).(PA_Local), user.(PU_Spec).(PU_LocalPasswordSecretRef) with
  | Some _, Some ref => if is_empty ref.(SR_Name) then None else Some ref
  | _, _ => None
  end.

Definition resolveConsoleUser (console : PgConsole) (user : PgToolBoxUser)
    : M W resolvedConsoleUser :=
  let level := user.(PU_Spec).(PU_Level) in
  if negb (Level_Valid level) then
    mret (excluded user ("user has invalid level " +:+ strconv_Quote level))
  else
    let included hash :=
      mkResolved user (mkUser user.(PU_Spec).(PU_Subject) level hash) false "" in
    match password_ref console user with
    | None => mret (included "")
    | Some ref =>
        r ← try (ReadLocalPasswordHash (PC_Namespace console, ref.(SR_Name)) ref.(SR_Key));
        match r with
        | Err e =>
            if IsNotFound e then
              mret (excluded user ("local password secret " +:+ ref.(SR_Name) +:+ " was not found"))
            else
              mret (excluded user ("local password secret " +:+ ref.(SR_Name) +:+ " is invalid"))
        | Ok (hash, _) => mret (included hash)
        end
    end.

(** The comparison of [sort.Slice]. *)
Definition user_less (bootstrap : string) (a b : resolvedConsoleUser) : bool :=
  let is_bootstrap u := String.eqb (RU_Name u) bootstrap in
  if xorb (is_bootstrap a) (is_bootstrap b) then is_bootstrap a
  else String.ltb (RU_Name a) (RU_Name b).

Definition user_before (bootstrap : string) (a b : resolvedConsoleUser) : Prop :=
  user_less bootstrap b a = false.

#[export] Instance user_before_dec bootstrap : RelDecision (user_before bootstrap).
Proof. intros a b. unfold user_before. apply _. Defined.

Definition sort_users (bootstrap : string) : list resolvedConsoleUser → list resolvedConsoleUser :=
  merge_sort (user_before bootstrap).

(** The loop that drops a second claim to a subject. *)
Fixpoint reject_duplicates (bootstrap : string) (seen : gset string) (l : list resolvedConsoleUser)
    : list resolvedConsoleUser :=
  match l with
  | [] => []
  | u :: l =>
      if u.(RU_proxyExcluded) then
        u :: reject_duplicates bootstrap
               (if String.eqb (RU_Name u) bootstrap then {[lower (RU_Subject u)]} ∪ seen else seen) l
      else
        let subject := u.(RU_proxyUser).(U_Subject) in
        if bool_decide (lower subject ∈ seen) then
          mkResolved u.(RU_user) u.(RU_proxyUser) true ("duplicate subject " +:+ strconv_Quote subject)
          :: reject_duplicates bootstrap seen l
        else u :: reject_duplicates bootstrap ({[lower subject]} ∪ seen) l
  end.

Definition belongs (console : PgConsole) (user : PgToolBoxUser) : bool :=
  String.eqb user.(PU_Spec).(PU_PgConsoleRef) (PC_Name console).

Definition resolveConsoleUsers (console : PgConsole) : M W (list resolvedConsoleUser) :=
  items ← List KUser (PC_Namespace console);
  result ← mapM (resolveConsoleUser console) (filter (λ u, belongs console u = true) items);
  let bootstrap := bootstrapAdminUserName console in
  mret (reject_duplicates bootstrap ∅ (sort_users bootstrap result)).

Definition proxyUsers (resolved : list resolvedConsoleUser) : list User :=
  RU_proxyUser <$> filter (λ u, proxyIncluded u = true) resolved.

Definition set_generation_seen (u : PgToolBoxUser) : PgToolBoxUser :=
  mkPgToolBoxUser u.(PU_Meta) u.(PU_Spec)
    (mkUserStatus u.(PU_Meta).(M_Generation) u.(PU_Status).(PU_ProxySynced) u.(PU_Status).(PU_Conditions)).

Definition set_synced (b : bool) (u : PgToolBoxUser) : PgToolBoxUser :=
  mkPgToolBoxUser u.(PU_Meta) u.(PU_Spec)
    (mkUserStatus u.(PU_Status).(PU_ObservedGeneration) b u.(PU_Status).(PU_Conditions)).

(** The object one turn of [applyUserStatuses] patches to. *)
Definition reported_user (u : resolvedConsoleUser) : result error PgToolBoxUser :=
  let user := set_generation_seen u.(RU_user) in
  if u.(RU_proxyExcluded) then
    set_synced false <$>
      MarkFalse user UserConditionProxySynced ReasonSomeDegraded u.(RU_proxyExcludeReason)
  else
    set_synced true <$>
      MarkTrue user UserConditionProxySynced ReasonAsExpected "user rendered into proxy configuration".

Definition applyUserStatuses (resolved : list resolvedConsoleUser) : M W () :=
  forM resolved (λ u,
    user ← of_result (reported_user u);
    wrap ("patch PgToolBoxUser " +:+ user.(PU_Meta).(M_Namespace) +:+ "/" +:+ user.(PU_Meta).(M_Name) +:+ " status")
      (StatusPatch KUser u.(RU_user) user)).
End users.

(** ** Sorting *)

Section sorting.
Context `{G : GoLib}.

Lemma ltb_leb s t : String.ltb s t = false ↔ String.leb t s = true.
Proof.
  unfold String.ltb, String.leb. rewrite (String.compare_antisym t s).
  by destruct (String.compare s t).
Qed.

Lemma user_before_iff bs a b :
  user_before bs a b ↔ RU_Name a = bs ∨ RU_Name b ≠ bs ∧ String.le (RU_Name a) (RU_Name b).
Proof.
  unfold user_before, user_less, String.le.
  destruct (String.eqb_spec (RU_Name a) bs) as [Ha|Ha], (String.eqb_spec (RU_Name b) bs) as [Hb|Hb]; simpl.
  - rewrite ltb_leb, Ha, Hb. split; [by left|]. intros _.
    destruct (String.leb_total bs bs); done.
  - naive_solver.
  - split; [done|]. intros [?|[? _]]; done.
  - rewrite ltb_leb. rewrite Is_true_true. naive_solver.
Qed.

#[export] Instance user_before_trans bs : Transitive (user_before bs).
Proof.
  intros a b c. rewrite !user_before_iff. intros [?|[? Hab]] [?|[? Hbc]]; try naive_solver.
  right. split; [done|]. by etrans.
Qed.

#[export] Instance user_before_total bs : Total (user_before bs).
Proof.
  intros a b. rewrite !user_before_iff.
  destruct (decide (RU_Name a = bs)), (decide (RU_Name b = bs)); auto.
  destruct (total String.le (RU_Name a) (RU_Name b)); auto.
Qed.

Lemma user_before_antisymm bs a b :
  user_before bs a b → user_before bs b a → RU_Name a = RU_Name b.
Proof.
  rewrite !user_before_iff. intros [Ha|[Hb Hab]] [Hb'|[Ha' Hba]]; try congruence.
  by apply (anti_symm String.le).
Qed.

Lemma sort_users_perm bs l : sort_users bs l ≡ₚ l.
Proof. apply merge_sort_Permutation. Qed.

Lemma sort_users_sorted bs l : StronglySorted (user_before bs) (sort_users bs l).
Proof. apply StronglySorted_merge_sort; apply _. Qed.

(** Distinct names leave the sort no choice. *)
Lemma sort_users_unique bs l l' :
  NoDup (RU_Name <$> l) → l ≡ₚ l' → sort_users bs l = sort_users bs l'.
Proof.
  intros Hn Hp. apply (StronglySorted_unique_strong (user_before bs)); try apply sort_users_sorted.
  - intros a b. rewrite !sort_users_perm, <-Hp. intros Ha Hb Hab Hba.
    pose proof (user_before_antisymm _ _ _ Hab Hba) as He.
    by apply (NoDup_fmap_inj RU_Name l).
  - by rewrite !sort_users_perm.
Qed.

(** ** Duplicates *)

Lemma reject_users bs seen l : RU_user <$> reject_duplicates bs seen l = RU_user <$> l.
Proof.
  revert seen. induction l as [|u l IH]; intros seen; [done|]. simpl.
  destruct (RU_proxyExcluded u); [by rewrite fmap_cons, IH|].
  case_if; by rewrite fmap_cons, IH.
Qed.

(** What is still included was, with its entry, and no subject twice. *)
Lemma reject_included bs seen l u :
  u ∈ reject_duplicates bs seen l → RU_proxyExcluded u = false →
  u ∈ l ∧ lower u.(RU_proxyUser).(U_Subject) ∉ seen.
Proof.
  revert seen. induction l as [|v l IH]; intros seen Hu He; simpl in Hu; [by apply not_elem_of_nil in Hu|].
  destruct (RU_proxyExcluded v) eqn:Hv; [|case_bool_decide as Hs].
  - apply elem_of_cons in Hu as [->|Hu]; [congruence|]. apply IH in Hu as [? ?]; [|done].
    split; [by apply list_elem_of_further|]. revert H0. case_if; set_solver.
  - apply elem_of_cons in Hu as [->|Hu]; [done|]. apply IH in Hu as [? ?]; [|done].
    split; [by apply list_elem_of_further|done].
  - apply elem_of_cons in Hu as [->|Hu]; [split; [apply list_elem_of_here|done]|].
    apply IH in Hu as [? ?]; [|done]. split; [by apply list_elem_of_further|set_solver].
Qed.

Lemma proxyUsers_reject bs seen l :
  NoDup ((λ u, lower u.(U_Subject)) <$> proxyUsers (reject_duplicates bs seen l)) ∧
  ∀ k, k ∈ (λ u, lower u.(U_Subject)) <$> proxyUsers (reject_duplicates bs seen l) → k ∉ seen.
Proof.
  revert seen. induction l as [|u l IH]; intros seen; simpl.
  { split; [constructor|]. by intros k ?%not_elem_of_nil. }
  unfold proxyUsers in *. destruct (RU_proxyExcluded u) eqn:Hu; [|case_bool_decide as Hs].
  - rewrite filter_cons_False by (unfold proxyIncluded; by rewrite Hu).
    case_if; [|apply IH]. destruct (IH ({[lower (RU_Subject u)]} ∪ seen)) as [? H2].
    split; [done|]. intros k Hk. apply H2 in Hk. set_solver.
  - by rewrite filter_cons_False.
  - rewrite filter_cons_True by (unfold proxyIncluded; by rewrite Hu).
    destruct (IH ({[lower (U_Subject (RU_proxyUser u))]} ∪ seen)) as [H1 H2].
    rewrite !fmap_cons. split.
    + constructor; [|done]. intros Hk%H2. set_solver.
    + intros k [->|Hk]%elem_of_cons; [done|]. apply H2 in Hk. set_solver.
Qed.
End sorting.

(** ** Resolution *)

Section resolution.
Context `{G : GoLib} {W : Type} `{C : Client W} `{CL : !ClientLaws C}.

(** The entry a user is rendered with: the subject and level of its spec, and
    the hash its password Secret holds. *)
Definition entry_of (console : PgConsole) (w : W) (user : PgToolBoxUser) (entry : User) : Prop :=
  entry.(U_Subject) = user.(PU_Spec).(PU_Subject) ∧
  entry.(U_Level) = user.(PU_Spec).(PU_Level) ∧
  Level_Valid entry.(U_Level) = true ∧
  match password_ref console user with
  | None => entry.(U_LocalPasswordBcrypt) = ""
  | Some ref => ∃ secret,
      view w KSecret (PC_Namespace console, ref.(SR_Name)) = Some secret ∧
      secret.(Sec_Data) !! (if is_empty ref.(SR_Key) then "password" else ref.(SR_Key)) =
        Some entry.(U_LocalPasswordBcrypt) ∧
      is_Some (bcrypt_Cost entry.(U_LocalPasswordBcrypt))
  end.

Definition resolved_as (console : PgConsole) (w : W) (user : PgToolBoxUser) (u : resolvedConsoleUser)
    : Prop :=
  u.(RU_user) = user ∧
  (u.(RU_proxyExcluded) = false → entry_of console w user u.(RU_proxyUser)) ∧
  (Level_Valid user.(PU_Spec).(PU_Level) = true → password_ref console user = None →
   u.(RU_proxyExcluded) = false).

Lemma ReadLocalPasswordHash_run key k w r w' :
  ReadLocalPasswordHash key k w = (r, w') →
  untouched w w' ∧
  ∀ hash v, r = Ok (hash, v) → ∃ secret, view w KSecret key = Some secret ∧
    secret.(Sec_Data) !! (if is_empty k then "password" else k) = Some hash ∧
    is_Some (bcrypt_Cost hash).
Proof using CL.
  unfold ReadLocalPasswordHash. fold (is_empty k).
  generalize (if is_empty k then "password" else k). intros field H.
  run_in H; learn; (split; [done|]); intros ? ? ?; simplify_eq.
  exists a. split_and!; [done| |done]. by destruct (Sec_Data a !! field).
Qed.

Lemma resolveConsoleUser_run console user w r w' :
  resolveConsoleUser console user w = (r, w') →
  untouched w w' ∧ ∃ u, r = Ok u ∧ resolved_as console w user u.
Proof using CL.
  unfold resolveConsoleUser, resolved_as, entry_of. intros H.
  destruct (Level_Valid _) eqn:Hlevel; simpl in H.
  2: { rewrite run_ret in H. simplify_eq. split; [done|]. by eexists. }
  destruct (password_ref console user) as [ref|] eqn:Href.
  - rewrite run_bind, run_try in H. destruct (ReadLocalPasswordHash _ _ w) as [[[hash v]|e] w1] eqn:Hr;
      apply ReadLocalPasswordHash_run in Hr as [Hu Hr]; run_in H; split; try done;
      (eexists; split; [done|]); try done.
    destruct (Hr _ _ eq_refl) as (secret & ? & ? & ?). naive_solver.
  - rewrite run_ret in H. simplify_eq. split; [done|]. by eexists.
Qed.

Lemma resolved_as_untouched console w w' user u :
  untouched w w' → resolved_as console w' user u → resolved_as console w user u.
Proof.
  intros [V _ _] (H1 & H2 & H3). split_and!; [done| |done]. intros He.
  destruct (H2 He) as (? & ? & ? & Hp). split_and!; [done..|].
  destruct (password_ref _ _); [|done]. by rewrite V in Hp.
Qed.

(** What a run of [resolveConsoleUsers] promises of its result. *)
Record users_resolved (console : PgConsole) (w : W) (rs : list resolvedConsoleUser) : Prop := {
  ur_users u : u ∈ RU_user <$> rs ↔
    ∃ name, cached w KUser (PC_Namespace console, name) = Some u ∧ belongs console u = true;
  ur_names : NoDup (RU_Name <$> rs);
  ur_sorted : StronglySorted (user_before (bootstrapAdminUserName console)) rs;
  ur_entries u : u ∈ rs → u.(RU_proxyExcluded) = false →
    entry_of console w u.(RU_user) u.(RU_proxyUser);
  ur_subjects : NoDup ((λ u, lower u.(U_Subject)) <$> proxyUsers rs);
  ur_bootstrap b u : b ∈ rs → RU_Name b = bootstrapAdminUserName console →
    u ∈ rs → u.(RU_proxyExcluded) = false → lower (RU_Subject u) = lower (RU_Subject b) → u = b;
  ur_included u : u ∈ rs →
    Level_Valid u.(RU_user).(PU_Spec).(PU_Level) = true → password_ref console u.(RU_user) = None →
    (∀ v, v ∈ rs → lower (RU_Subject v) = lower (RU_Subject u) → v = u) →
    u.(RU_proxyExcluded) = false
}.

Lemma reject_sorted bs (R : relation resolvedConsoleUser) seen l :
  (∀ a b a' b', RU_user a = RU_user a' → RU_user b = RU_user b' → R a b → R a' b') →
  StronglySorted R l → StronglySorted R (reject_duplicates bs seen l).
Proof.
  intros HR Hs. assert (∀ l l', RU_user <$> l = RU_user <$> l' → StronglySorted R l → StronglySorted R l') as Hgen.
  { clear l Hs seen. induction l as [|a l IH]; intros [|a' l'] He Hs; try discriminate He; [constructor|].
    rewrite !fmap_cons in He. injection He as Ha Hl. apply StronglySorted_cons in Hs as [Hf Hs].
    apply StronglySorted_cons. split; [|by eapply IH].
    apply Forall_forall. intros b' Hb'.
    assert (RU_user b' ∈ RU_user <$> l) as (b & Hbe & Hb)%list_elem_of_fmap.
    { rewrite Hl. by apply list_elem_of_fmap_2. }
    rewrite Forall_forall in Hf. eapply HR; [done|done|by apply Hf]. }
  eapply Hgen; [|done]. by rewrite reject_users.
Qed.

Lemma belongs_names console w items (l : list resolvedConsoleUser) :
  NoDup (key_of ∘ PU_Meta <$> items) →
  (∀ o, o ∈ items ↔ ∃ name, cached w KUser (PC_Namespace console, name) = Some o) →
  Forall2 (resolved_as console w) (filter (λ u, belongs console u = true) items) l →
  RU_user <$> l = filter (λ u, belongs console u = true) items ∧ NoDup (RU_Name <$> l).
Proof using CL.
  intros Hn Hin Hl. assert (RU_user <$> l = filter (λ u, belongs console u = true) items) as He.
  { clear Hn Hin. induction Hl as [|u v us vs Huv _ IH]; [done|].
    rewrite fmap_cons, IH. f_equal. apply Huv. }
  split; [done|].
  replace (RU_Name <$> l) with (snd ∘ key_of ∘ PU_Meta <$> filter (λ u, belongs console u = true) items).
  2:{ rewrite <-He, <-list_fmap_compose. done. }
  assert (∀ us, (∀ o, o ∈ us → ∃ name, cached w KUser (PC_Namespace console, name) = Some o) →
    NoDup (key_of ∘ PU_Meta <$> us) → NoDup (snd ∘ key_of ∘ PU_Meta <$> us)) as Hgen.
  { clear -CL. induction us as [|u us IH]; intros Hk Hn; [constructor|].
    rewrite fmap_cons in *. apply NoDup_cons in Hn as [Hu Hn].
    constructor; [|apply IH; [|done]; intros; by apply Hk, list_elem_of_further].
    intros (v & Hv & Hin)%list_elem_of_fmap. apply Hu. apply list_elem_of_fmap. exists v.
    split; [|done].
    destruct (Hk u (list_elem_of_here _ _)) as [n1 H1%(cached_key w KUser)].
    destruct (Hk v (list_elem_of_further _ _ _ Hin)) as [n2 H2%(cached_key w KUser)].
    unfold compose in *. cbn [meta] in H1, H2. rewrite H1, H2 in Hv |- *. simpl in Hv. by subst. }
  apply Hgen.
  - intros o [_ Ho]%list_elem_of_filter. by apply Hin.
  - eapply sublist_NoDup; [done|]. apply fmap_sublist, sublist_filter.
Qed.

Lemma settled_included bs seen l u :
  Forall (λ v, v.(RU_proxyExcluded) = false → v.(RU_proxyUser).(U_Subject) = RU_Subject v) l →
  u ∈ l → u.(RU_proxyExcluded) = false → lower (RU_Subject u) ∉ seen →
  NoDup (RU_Name <$> l) →
  (∀ v, v ∈ l → lower (RU_Subject v) = lower (RU_Subject u) → RU_Name v = RU_Name u) →
  u ∈ reject_duplicates bs seen l.
Proof.
  clear CL. revert seen. induction l as [|v l IH]; intros seen Hs Hu He Hseen Hn Honly; [done|].
  apply Forall_cons in Hs as [Hv Hs]. rewrite fmap_cons in Hn. apply NoDup_cons in Hn as [Hvn Hn].
  assert (∀ x, x ∈ l → lower (RU_Subject x) = lower (RU_Subject u) → RU_Name x = RU_Name u) as Honly'.
  { intros x Hx. by apply Honly, list_elem_of_further. }
  simpl. apply elem_of_cons in Hu as [->|Hu].
  - rewrite He, Hv, bool_decide_eq_false_2 by done. apply list_elem_of_here.
  - assert (lower (RU_Subject v) ≠ lower (RU_Subject u)) as Hne.
    { intros H. apply Hvn. rewrite (Honly v (list_elem_of_here _ _) H).
      by apply list_elem_of_fmap_2. }
    destruct (RU_proxyExcluded v) eqn:Hve; [|case_bool_decide]; apply list_elem_of_further;
      apply IH; try done.
    + case_if; set_solver.
    + rewrite Hv by done. set_solver.
Qed.

Lemma settled_bootstrap bs l b u :
  Forall (λ v, v.(RU_proxyExcluded) = false → v.(RU_proxyUser).(U_Subject) = RU_Subject v) l →
  StronglySorted (user_before bs) l → NoDup (RU_Name <$> l) →
  b ∈ l → RU_Name b = bs →
  u ∈ reject_duplicates bs ∅ l → u.(RU_proxyExcluded) = false →
  lower (RU_Subject u) = lower (RU_Subject b) → RU_Name u = bs.
Proof.
  clear CL. intros Hs Hsort Hn Hb Hbs Hu He Heq.
  destruct l as [|h l]; [by apply not_elem_of_nil in Hb|].
  apply StronglySorted_cons in Hsort as [Hh _]. rewrite Forall_forall in Hh.
  assert (h = b) as ->.
  { apply elem_of_cons in Hb as [->|Hb]; [done|].
    pose proof (Hh b Hb) as Hhb. apply user_before_iff in Hhb.
    apply (NoDup_fmap_inj RU_Name (h :: l)); [done|apply list_elem_of_here
      |by apply list_elem_of_further|naive_solver]. }
  assert (∀ seen, u ∈ reject_duplicates bs seen l → lower (RU_Subject b) ∉ seen) as Hrest.
  { intros seen Hin. apply reject_included in Hin as [Hin Hseen]; [|done].
    rewrite Forall_cons, Forall_forall in Hs. destruct Hs as [_ Hs]. rewrite (Hs u Hin He) in Hseen.
    by rewrite <-Heq. }
  apply Forall_cons in Hs as [Hsb _]. simpl in Hu.
  destruct (RU_proxyExcluded b) eqn:Hbe; [|rewrite bool_decide_eq_false_2 in Hu by set_solver];
    apply elem_of_cons in Hu as [->|Hu]; try done; apply Hrest in Hu.
  - rewrite Hbs, String.eqb_refl in Hu. set_solver.
  - rewrite Hsb in Hu by done. set_solver.
Qed.

(** The elements change only in whether they are excluded. *)
Lemma reject_elem bs seen l u :
  u ∈ reject_duplicates bs seen l → ∃ u0, u0 ∈ l ∧ RU_user u0 = RU_user u.
Proof.
  clear CL. intros Hu%(list_elem_of_fmap_2 RU_user). rewrite reject_users in Hu.
  apply list_elem_of_fmap in Hu as (u0 & ? & ?). by exists u0.
Qed.

Lemma elem_reject bs seen l u :
  u ∈ l → ∃ u0, u0 ∈ reject_duplicates bs seen l ∧ RU_user u0 = RU_user u.
Proof.
  clear CL. intros Hu%(list_elem_of_fmap_2 RU_user). rewrite <-(reject_users bs seen) in Hu.
  apply list_elem_of_fmap in Hu as (u0 & ? & ?). by exists u0.
Qed.

Lemma reject_names bs seen l : RU_Name <$> reject_duplicates bs seen l = RU_Name <$> l.
Proof.
  clear CL. pose proof (reject_users bs seen l) as He.
  apply (f_equal (fmap (λ u, M_Name (PU_Meta u)))) in He. by rewrite <-!list_fmap_compose in He.
Qed.

(** The sorted resolution of the users of a console, before duplicates are
    dropped. *)
Section settled.
Context (console : PgConsole) (w : W) (bs : string) (s : list resolvedConsoleUser).
Hypothesis names : NoDup (RU_Name <$> s).
Hypothesis resolved : ∀ v, v ∈ s → resolved_as console w v.(RU_user) v.

Lemma settled_subjects :
  Forall (λ v, v.(RU_proxyExcluded) = false → v.(RU_proxyUser).(U_Subject) = RU_Subject v) s.
Proof using resolved. apply Forall_forall. intros v Hv He. by apply (resolved v Hv). Qed.

Lemma settled_claim b u :
  StronglySorted (user_before bs) s →
  b ∈ reject_duplicates bs ∅ s → RU_Name b = bs → u ∈ reject_duplicates bs ∅ s →
  u.(RU_proxyExcluded) = false → lower (RU_Subject u) = lower (RU_Subject b) → u = b.
Proof using names resolved.
  intros Hsort Hb Hbn Hu He Heq.
  apply (NoDup_fmap_inj RU_Name (reject_duplicates bs ∅ s)); [by rewrite reject_names|done|done|].
  rewrite Hbn. destruct (reject_elem _ _ _ _ Hb) as (b0 & Hb0 & Hbe).
  apply (settled_bootstrap bs s b0); try done; [apply settled_subjects| |].
  - unfold RU_Name. by rewrite Hbe.
  - unfold RU_Subject at 2. by rewrite Hbe.
Qed.

Lemma settled_kept u :
  u ∈ reject_duplicates bs ∅ s →
  Level_Valid u.(RU_user).(PU_Spec).(PU_Level) = true → password_ref console u.(RU_user) = None →
  (∀ v, v ∈ reject_duplicates bs ∅ s → lower (RU_Subject v) = lower (RU_Subject u) → v = u) →
  u.(RU_proxyExcluded) = false.
Proof using names resolved.
  intros Hu Hlevel Href Honly. destruct (reject_elem _ _ _ _ Hu) as (u0 & Hu0 & He0).
  assert (RU_proxyExcluded u0 = false) as Hex.
  { destruct (resolved u0 Hu0) as (_ & _ & H). rewrite He0 in H. by apply H. }
  assert (u0 ∈ reject_duplicates bs ∅ s) as Hin0.
  { apply settled_included; try done; [apply settled_subjects|]. intros v Hv Hsub.
    destruct (elem_reject bs ∅ _ _ Hv) as (v' & Hv' & Hve). unfold RU_Subject, RU_Name in *.
    rewrite He0 in *. rewrite <-Hve in *. by rewrite (Honly v' Hv' Hsub). }
  replace u with u0; [done|].
  apply (NoDup_fmap_inj RU_Name (reject_duplicates bs ∅ s)); try done; [by rewrite reject_names|].
  unfold RU_Name. by rewrite He0.
Qed.
End settled.

Lemma settle_resolved console w items l :
  NoDup (key_of ∘ PU_Meta <$> items) →
  (∀ o, o ∈ items ↔ ∃ name, cached w KUser (PC_Namespace console, name) = Some o) →
  Forall2 (resolved_as console w) (filter (λ u, belongs console u = true) items) l →
  users_resolved console w
    (reject_duplicates (bootstrapAdminUserName console) ∅
       (sort_users (bootstrapAdminUserName console) l)).
Proof using CL.
  intros Hn Hin Hl. destruct (belongs_names _ _ _ _ Hn Hin Hl) as [Hu Hnames].
  set (bs := bootstrapAdminUserName console).
  assert (∀ v, v ∈ sort_users bs l → resolved_as console w v.(RU_user) v) as Hres.
  { intros v Hv. rewrite sort_users_perm in Hv. apply list_elem_of_lookup in Hv as [i Hi].
    destruct (Forall2_lookup_r _ _ _ _ _ Hl Hi) as (x & _ & Hx).
    pose proof (proj1 Hx). by subst x. }
  assert (NoDup (RU_Name <$> sort_users bs l)) as Hns by by rewrite sort_users_perm.
  pose proof (sort_users_sorted bs l) as Hsort.
  split.
  - intros u. rewrite reject_users, sort_users_perm, Hu, list_elem_of_filter, Hin. naive_solver.
  - by rewrite reject_names.
  - apply reject_sorted; [|done]. intros a b a' b' Ha Hb.
    rewrite !user_before_iff. unfold RU_Name. by rewrite Ha, Hb.
  - intros u Hu' He. apply reject_included in Hu' as [Hu' _]; [|done]. by apply (Hres u Hu').
  - apply proxyUsers_reject.
  - intros b u. by apply (settled_claim console w).
  - intros u. by apply (settled_kept console w).
Qed.

Lemma resolveConsoleUsers_run console w r w' :
  resolveConsoleUsers console w = (r, w') →
  untouched w w' ∧
  match r with
  | Ok rs => users_resolved console w rs
  | Err e => (List KUser (PC_Namespace console) w).1 = Err e
  end.
Proof using CL.
  unfold resolveConsoleUsers. intros H. rewrite run_bind in H.
  destruct (List KUser _ w) as [[items|e] w1] eqn:Hlist; learn; [|by simplify_eq].
  destruct (Hr items eq_refl) as [Hn Hin]. rewrite run_bind in H.
  destruct (mapM _ _ w1) as [r2 w2] eqn:Hmap.
  apply (mapM_untouched _ (resolved_as console)) in Hmap as [Hu2 Hmap].
  - destruct r2 as [l|e]; [rewrite run_ret in H|]; simplify_eq; (split; [by etrans|]).
    + eapply settle_resolved; [done|done|].
      eapply Forall2_impl; [done|]. intros x y. by apply resolved_as_untouched.
    + destruct Hmap as (x & w2 & w3 & _ & Hx%resolveConsoleUser_run). naive_solver.
  - intros x v1 r' v2 Hx%resolveConsoleUser_run. naive_solver.
  - intros v1 v2 x y. apply resolved_as_untouched.
Qed.

End resolution.

(** ** What the proxy makes of the rendered users, and what the users see *)

Section consequences.
Context `{G : GoLib} `{K : Machinery} {W : Type} `{C : Client W} `{CL : !ClientLaws C}.
Context `{KL : !MachineryLaws K}.

Lemma proxyUsers_elem rs e :
  e ∈ proxyUsers rs ↔ ∃ u, u ∈ rs ∧ u.(RU_proxyExcluded) = false ∧ e = u.(RU_proxyUser).
Proof.
  unfold proxyUsers, proxyIncluded. rewrite list_elem_of_fmap.
  setoid_rewrite list_elem_of_filter. setoid_rewrite negb_true. naive_solver.
Qed.

(** C15: The users a console renders are always accepted by the proxy: for users
    with a subject, as admission requires, and a provider block that lists the
    local mode whenever the console enables it, [validateUsers] reports
    nothing. *)
Theorem rendered_users_accepted console w rs w' c :
  resolveConsoleUsers console w = (Ok rs, w') →
  (∀ u, u ∈ rs → RU_Subject u ≠ "") →
  c.(C_Users) = proxyUsers rs →
  (is_Some console.(PC_Spec).(CS_Authentication).(PA_Local) → ModeLocal ∈ c.(C_Provider).(Modes)) →
  validateUsers c = [].
Proof using CL.
  intros [_ Hrs]%resolveConsoleUsers_run Hsub Hc Hlocal. apply validateUsers_nil. rewrite Hc. split; [|apply (ur_subjects _ _ _ Hrs)].
  apply Forall_forall. intros e (u & Hu & He & ->)%proxyUsers_elem.
  destruct (ur_entries _ _ _ Hrs u Hu He) as (Hs & Hl & Hv & Hp). split.
  - rewrite Hs. by apply Hsub.
  - by apply level_elem.
  - destruct (password_ref console (RU_user u)) as [ref|] eqn:Hr; [|by left]. right.
    destruct Hp as (_ & _ & _ & Hcost). split; [|done]. apply Hlocal.
    unfold password_ref in Hr. by destruct (PA_Local _).
Qed.

Lemma reported_ok u : ∃ user, reported_user u = Ok user ∧ user.(PU_Meta) = u.(RU_user).(PU_Meta) ∧
  user.(PU_Status).(PU_ProxySynced) = proxyIncluded u ∧
  user.(PU_Status).(PU_ObservedGeneration) = u.(RU_user).(PU_Meta).(M_Generation) ∧
  condition UserConditionProxySynced user.(PU_Status).(PU_Conditions) = Some (
    mkCondition UserConditionProxySynced (if u.(RU_proxyExcluded) then ConditionFalse else ConditionTrue)
      u.(RU_user).(PU_Meta).(M_Generation)
      (if u.(RU_proxyExcluded) then ReasonSomeDegraded else ReasonAsExpected)
      (if u.(RU_proxyExcluded) then u.(RU_proxyExcludeReason) else "user rendered into proxy configuration")).
Proof using KL.
  unfold reported_user, MarkFalse, MarkTrue, proxyIncluded.
  destruct (RU_proxyExcluded u);
    (rewrite mark_known by (unfold knownReasons; repeat (apply list_elem_of_here || apply list_elem_of_further));
     eexists; split; [done|]; split_and!; [done|done|done|];
     apply (SetStatusCondition_set _ (mkCondition _ _ _ _ _))).
Qed.

(** Patching the statuses of users with distinct names, in order. *)
Lemma applyUserStatuses_run rs w r w' :
  applyUserStatuses rs w = (r, w') →
  NoDup ((λ u, key_of u.(RU_user).(PU_Meta)) <$> rs) →
  (∃ n, log w' = log w ++ take n ((λ u, (VStatusPatch, KUser, key_of u.(RU_user).(PU_Meta))) <$> rs)) ∧
  (∀ (k : kind) key, (k = KUser → ∀ u, u ∈ rs → key_of u.(RU_user).(PU_Meta) ≠ key) →
     view w' k key = view w k key) ∧
  (r = Ok () → ∀ u cur, u ∈ rs → view w KUser (key_of u.(RU_user).(PU_Meta)) = Some cur →
     cur.(PU_Status) = u.(RU_user).(PU_Status) →
     ∃ o user, view w' KUser (key_of u.(RU_user).(PU_Meta)) = Some o ∧ reported_user u = Ok user ∧
       content (k := KUser) o = content (k := KUser) cur ∧ o.(PU_Status) = user.(PU_Status)).
Proof using CL KL.
  unfold applyUserStatuses. revert w r w'. induction rs as [|u rs IH]; intros w r w' H Hn; cbn [forM] in H.
  { rewrite run_ret in H. simplify_eq. split_and!; [exists 0; by rewrite app_nil_r|done|].
    by intros _ u ? ?%not_elem_of_nil. }
  rewrite fmap_cons in Hn. apply NoDup_cons in Hn as [Hu Hn].
  destruct (reported_ok u) as (user & Huser & Hmeta & _). rewrite Huser in H.
  run_in H; learn; cbn [meta] in *; rewrite Hmeta in *.
  - destruct Hw as [(cur & o & Hcur & Ho & Hcont & _ & Hst) Helse].
    destruct (IH _ _ _ H Hn) as ([n Hlog] & Hview & Hok). split_and!.
    + exists (S n). by rewrite Hlog, Hl, <-app_assoc.
    + intros k key Hk. rewrite Hview; [|by intros -> v Hv; apply Hk; [|apply list_elem_of_further]].
      apply Helse. destruct (decide (k = KUser)) as [->|]; [|by left]. right.
      intros ->. by apply (Hk eq_refl u (list_elem_of_here _ _)).
    + intros Hr v c Hv Hc Hs. apply elem_of_cons in Hv as [->|Hv].
      * rewrite Hc in Hcur. injection Hcur as ->. exists o, user. split_and!; [|done..|by apply Hst].
        rewrite Hview; [done|]. intros _ x Hx Hkey. apply Hu. rewrite <-Hkey.
        by apply (list_elem_of_fmap_2 (λ u, key_of (PU_Meta (RU_user u)))).
      * apply Hok; try done. rewrite Helse; [done|]. right. intros Hkey. apply Hu. rewrite <-Hkey.
        by apply (list_elem_of_fmap_2 (λ u, key_of (PU_Meta (RU_user u)))).
  - split_and!; [exists 1; by rewrite Hl| |done]. intros k key Hk. apply Hw.
    destruct (decide (k = KUser)) as [->|]; [right|by left]. intros ->.
    by apply (Hk eq_refl u (list_elem_of_here _ _)).
Qed.

(** Reporting never panics and only sends status patches, one per user and in
    the order of the resolution; once it succeeds, a user whose stored status
    is the one that was resolved carries the current generation, a [ProxySynced]
    flag and a [ProxySynced] condition saying whether the proxy renders it and,
    if not, why; and nothing else of any object changed. *)
Theorem statuses_reported rs w r w' :
  applyUserStatuses rs w = (r, w') →
  NoDup ((λ u, key_of u.(RU_user).(PU_Meta)) <$> rs) →
  (∀ msg, r ≠ Err (Panic msg)) ∧
  (∃ n, log w' = log w ++ take n ((λ u, (VStatusPatch, KUser, key_of u.(RU_user).(PU_Meta))) <$> rs)) ∧
  (r = Ok () → ∀ u cur, u ∈ rs → view w KUser (key_of u.(RU_user).(PU_Meta)) = Some cur →
     cur.(PU_Status) = u.(RU_user).(PU_Status) →
     ∃ o, view w' KUser (key_of u.(RU_user).(PU_Meta)) = Some o ∧
       content (k := KUser) o = content (k := KUser) cur ∧
       o.(PU_Status).(PU_ProxySynced) = proxyIncluded u ∧
       o.(PU_Status).(PU_ObservedGeneration) = u.(RU_user).(PU_Meta).(M_Generation) ∧
       (Cd_Status <$> condition UserConditionProxySynced o.(PU_Status).(PU_Conditions)) =
         Some (if proxyIncluded u then ConditionTrue else ConditionFalse) ∧
       (u.(RU_proxyExcluded) = true →
        Cd_Message <$> condition UserConditionProxySynced o.(PU_Status).(PU_Conditions) =
        Some u.(RU_proxyExcludeReason))) ∧
  (∀ (k : kind) key, (k = KUser → ∀ u, u ∈ rs → key_of u.(RU_user).(PU_Meta) ≠ key) →
     view w' k key = view w k key).
Proof using CL KL.
  intros H Hn. destruct (applyUserStatuses_run _ _ _ _ H Hn) as (Hlog & Hview & Hok).
  split_and!; [|done| |done].
  - intros msg ->. clear Hlog Hview Hok. revert w H Hn. induction rs as [|u rs IH]; intros w H Hn; [done|].
    unfold applyUserStatuses in H. cbn [forM] in H.
    destruct (reported_ok u) as (user & Huser & _). rewrite Huser in H.
    rewrite fmap_cons, NoDup_cons in Hn. run_in H. eapply IH; [done|]. by destruct Hn.
  - intros -> u cur Hu Hc Hs. destruct (Hok eq_refl u cur Hu Hc Hs) as (o & user & Ho & Hrep & Hcont & Hst).
    destruct (reported_ok u) as (user' & Hrep' & _ & H1 & H2 & H3).
    rewrite Hrep in Hrep'. injection Hrep' as <-. exists o. rewrite Hst, H1, H2, H3.
    split_and!; [done..| |].
    + unfold proxyIncluded. simpl. by destruct (RU_proxyExcluded u).
    + simpl. by intros ->.
Qed.
End consequences.

(** ** A console with four users *)

Definition demo_user (name subject level : string) (ref : option SecretKeyReference) : PgToolBoxUser :=
  mkPgToolBoxUser (new_meta name "ns" ∅ None) (mkUserSpec "c" subject level ref) (mkUserStatus 0 false []).

Definition demo_console_spec : ConsoleSpec :=
  mkConsoleSpec None None None None None "" None None (mkLogTail None None) (mkMetrics None None None)
    (mkHistory None None None None None).

Definition demo_console_with (auth : ProxyAuthenticationSpec) (hostname : string) : PgConsole :=
  mkPgConsole (mkMeta "c" "ns" "uid-c" ∅ ∅ None "1" 3 false [])
    (mkPgConsoleSpec "pg" None None auth no_resources (mkPgAdminSpec None None "" None "" no_resources)
       demo_console_spec (mkEvidenceSpec None None no_resources)
       (mkExposure ExposureTypeClusterIP hostname None "" None ∅ ∅)
       (mkNetworkPolicyConfig None "" []) None no_resources)
    no_console_status.

Definition demo_admin : BootstrapAdminSpec := mkBootstrapAdminSpec "Ada" (Some (mkSecretKeyRef "pw" "")).

Definition demo_console : PgConsole :=
  demo_console_with (mkProxyAuthenticationSpec demo_admin (Some ()) None None) "".

Definition demo_users : list PgToolBoxUser :=
  [demo_user "zed" "zed@x" "view" None; demo_user "mallory" "ADA" "dba" None;
   demo_user "c-bootstrap-admin" "Ada" "dba" (Some (mkSecretKeyRef "pw" ""));
   demo_user "bob" "bob@x" "root" None].

Definition demo_secret_of (name key value : string) : Secret :=
  mkSecret (new_meta name "ns" ∅ None) SecretTypeOpaque false {[key := value]}.

(** A world that stores, and has cached, some objects of each kind. *)
Definition store_of {k : kind} (l : list (object k)) : gmap ObjectKey (object k) :=
  list_to_map ((λ o, (key_of (meta o), o)) <$> l).

Definition demo_objects (users : list PgToolBoxUser) (secrets : list Secret)
    (consoles : list PgConsole) (requests : list PgToolBoxAccessRequest) (k : kind)
    : gmap ObjectKey (object k) :=
  match k with
  | KSecret => store_of (k := KSecret) secrets
  | KUser => store_of (k := KUser) users
  | KConsole => store_of (k := KConsole) consoles
  | KRequest => store_of (k := KRequest) requests
  | _ => ∅
  end.

Definition demo_world_of (objects : ∀ k : kind, gmap ObjectKey (object k)) : demo :=
  mkDemo objects objects [] [] 100.

Definition demo_world : demo :=
  demo_world_of (demo_objects demo_users [demo_secret_of "pw" "password" "$2a$secret"] [demo_console] []).

(** The same console before any user exists. *)
Definition demo_empty : demo := demo_world_of (demo_objects [] [] [demo_console] []).

Definition demo_resolved : list resolvedConsoleUser :=
  match (resolveConsoleUsers demo_console demo_world).1 with Ok rs => rs | Err _ => [] end.

Example demo_order : (λ u, (RU_Name u, RU_proxyExcludeReason u)) <$> demo_resolved =
  [("c-bootstrap-admin", ""); ("bob", "user has invalid level " +:+ strconv_Quote "root");
   ("mallory", "duplicate subject " +:+ strconv_Quote "ADA"); ("zed", "")].
Proof. vm_compute. reflexivity. Qed.

Lemma demo_resolves :
  resolveConsoleUsers demo_console demo_world = (Ok demo_resolved, (resolveConsoleUsers demo_console demo_world).2).
Proof.
  rewrite (surjective_pairing (resolveConsoleUsers demo_console demo_world)) at 1.
  apply (f_equal2 pair); [vm_compute|]; reflexivity.
Qed.


Definition demo_rendered : Config :=
  mkConfig (mkSessionConfig "" [] 0 None) (mkServerConfig "" 0 0) (mkProviderConfig [ModeLocal] None None)
    (proxyUsers demo_resolved) [] (mkAccessRequestConfig false "" "").

Lemma rendered_users_accepted_witness :
  U_Subject <$> C_Users demo_rendered = ["Ada"; "zed@x"] ∧ validateUsers demo_rendered = [].
Proof.
  split; [vm_compute; reflexivity|].
  apply (rendered_users_accepted demo_console demo_world demo_resolved _ demo_rendered demo_resolves).
  - apply Forall_forall. compute_decide.
  - reflexivity.
  - intros _. apply list_elem_of_here.
Defined.

Lemma statuses_reported_witness :
  (∀ msg, (applyUserStatuses demo_resolved demo_world).1 ≠ Err (Panic msg)) ∧
  (∃ n, log (applyUserStatuses demo_resolved demo_world).2 = take n
    ((λ u, (VStatusPatch, KUser, key_of u.(RU_user).(PU_Meta))) <$> demo_resolved)).
Proof.
  destruct (statuses_reported demo_resolved demo_world _ _ (surjective_pairing _)) as (H1 & H2 & _).
  - compute_decide.
  - split; [exact H1|exact H2].
Defined.
