(* ===== verification/BootstrapAdmin.v ===== *)
(** * The bootstrap administrator ([internal/controller/pgconsole/bootstrapadmin.go])

    The [PgToolBoxUser] the operator derives from the console and keeps
    matching it. *)

From S2P Require Import Prelude GoStrings GoLib ApiTypes Kube Shared Users.

Definition equalBootstrapAdminSpec (a b : PgToolBoxUserSpec) : bool :=
  if negb (String.eqb a.(PU_PgConsoleRef) b.(PU_PgConsoleRef))
     || negb (String.eqb a.(PU_Subject) b.(PU_Subject))
     || negb (String.eqb a.(PU_Level) b.(PU_Level)) then false
  else
    match a.(PU_LocalPasswordSecretRef), b.(PU_LocalPasswordSecretRef) with
    | None, None => true
    | None, Some _ | Some _, None => false
    | Some r, Some r' => bool_decide (r = r')
    end.

Section bootstrap.
Context `{G : GoLib} `{K : Machinery} {W : Type} `{C : Client W}.

(** The user before an owner is set on it. *)
Definition desiredBootstrapAdmin (console : PgConsole) : PgToolBoxUser :=
  let admin := console.(PC_Spec).(CS_Authentication).(PA_BootstrapAdmin) in
  mkPgToolBoxUser
    (new_meta (bootstrapAdminUserName console) (PC_Namespace console)
       (CommonLabels application (PC_Name console)) None)
    (mkUserSpec (PC_Name console) admin.(BA_Subject) RoleLevelDBA admin.(BA_PasswordSecretRef))
    (zero_status KUser).

(** The existing user with the desired spec, labels and owner. *)
Definition refreshedBootstrapAdmin (desired existing : PgToolBoxUser) : PgToolBoxUser :=
  mkPgToolBoxUser
    (set_controller desired.(PU_Meta).(M_Controller)
       (set_labels desired.(PU_Meta).(M_Labels) existing.(PU_Meta)))
    desired.(PU_Spec) existing.(PU_Status).

Definition reconcileBootstrapAdmin (console : PgConsole) : M W () :=
  desired ← wrap "setting owner on bootstrap admin"
    (of_result (SetControllerReference console.(PC_Meta) KUser (desiredBootstrapAdmin console)));
  r ← try (Get KUser (key_of desired.(PU_Meta)));
  match r with
  | Err e =>
      if IsNotFound e then
        c ← try (Create KUser desired);
        match c with
        | Err e => if IsAlreadyExists e then mret () else throw (WrapErr "creating bootstrap admin" e)
        | Ok _ => mret ()
        end
      else throw (WrapErr "reading bootstrap admin" e)
  | Ok existing =>
      if equalBootstrapAdminSpec existing.(PU_Spec) desired.(PU_Spec) then mret ()
      else
        wrap "updating bootstrap admin"
          (Update KUser (refreshedBootstrapAdmin desired existing))
  end.
End bootstrap.

Lemma equalBootstrapAdminSpec_true a b : equalBootstrapAdminSpec a b = true ↔ a = b.
Proof.
  unfold equalBootstrapAdminSpec. destruct a as [c s l p], b as [c' s' l' p']; simpl.
  destruct (String.eqb_spec c c'), (String.eqb_spec s s'), (String.eqb_spec l l'); simpl; subst;
    try (split; [done|congruence]).
  destruct p as [r|], p' as [r'|]; rewrite ?bool_decide_eq_true; (split; [|congruence]); try done; congruence.
Qed.

Section theorems.
Context `{G : GoLib} `{K : Machinery} {W : Type} `{C : Client W}.
Context `{CL : !ClientLaws C} `{KL : !MachineryLaws K}.

Definition bootstrapAdminKey (console : PgConsole) : ObjectKey :=
  (PC_Namespace console, bootstrapAdminUserName console).

(** What the console asks of its first administrator. *)
Definition bootstrap_spec (console : PgConsole) : PgToolBoxUserSpec :=
  (desiredBootstrapAdmin console).(PU_Spec).

Definition ownedBootstrapAdmin (console : PgConsole) : PgToolBoxUser :=
  mkPgToolBoxUser (set_controller (Some (PC_UID console)) (PU_Meta (desiredBootstrapAdmin console)))
    (bootstrap_spec console) (zero_status KUser).

Lemma desired_owned console :
  SetControllerReference console.(PC_Meta) KUser (desiredBootstrapAdmin console) =
  Ok (ownedBootstrapAdmin console).
Proof using KL. by rewrite SetControllerReference_ok. Qed.

Lemma refreshed_key console (a : PgToolBoxUser) :
  key_of (PU_Meta (refreshedBootstrapAdmin (ownedBootstrapAdmin console) a)) = key_of (PU_Meta a).
Proof. done. Qed.

Lemma refreshed_gone console (a : PgToolBoxUser) :
  gone (PU_Meta (refreshedBootstrapAdmin (ownedBootstrapAdmin console) a)) = gone (PU_Meta a).
Proof. done. Qed.

Lemma equal_refl console : equalBootstrapAdminSpec (bootstrap_spec console) (bootstrap_spec console) = true.
Proof. by apply equalBootstrapAdminSpec_true. Qed.

(** C19: A pass of the bootstrap-administrator reconcile over a synced cache that
    returns no error leaves the user the console names: its subject and
    password reference, always at level dba, on this console; if it already
    was, nothing is written at all. A pass that writes nothing leaves no other
    trace, an object other than this user is never touched, and the only writes
    ever sent are one creation or one update of it. *)
Theorem bootstrap_converges console w r w' :
  reconcileBootstrapAdmin console w = (r, w') →
  cached w KUser (bootstrapAdminKey console) = view w KUser (bootstrapAdminKey console) →
  (r = Ok () → ∃ u, view w' KUser (bootstrapAdminKey console) = Some u ∧
     u.(PU_Spec) = bootstrap_spec console) ∧
  (∀ u, view w KUser (bootstrapAdminKey console) = Some u → u.(PU_Spec) = bootstrap_spec console →
     untouched w w') ∧
  (untouched w w' ∨
   ∃ v, v ∈ [VCreate; VUpdate] ∧ log w' = log w ++ [(v, KUser, bootstrapAdminKey console)] ∧
     elsewhere w w' KUser (bootstrapAdminKey console)).
Proof using CL KL.
  intros H Hsync. unfold reconcileBootstrapAdmin in H. rewrite desired_owned in H.
  change (key_of (PU_Meta (ownedBootstrapAdmin console))) with (bootstrapAdminKey console) in H.
  run_in H; learn; rebase; cbn [meta] in *;
    change (key_of (PU_Meta (ownedBootstrapAdmin console))) with (bootstrapAdminKey console) in *;
    change (PU_Spec (ownedBootstrapAdmin console)) with (bootstrap_spec console) in *;
    rewrite ?refreshed_key, ?Hsync in *;
    rewrite ?refreshed_gone in *; try rewrite (view_kept w KUser _ _ Hr : gone (PU_Meta a) = false) in *;
    try rewrite (view_key w KUser _ _ Hr : key_of (PU_Meta a) = _) in *.
  - apply equalBootstrapAdminSpec_true in Heqb. split_and!; [|done|by left]. intros _. exists a.
    split; [|done]. by rewrite (untouched_lookup w w' KUser).
  - split_and!.
    + intros _. eexists. split; [done|]. by etrans; [by apply content_user_spec|].
    + intros u Hv Hs. simplify_eq. by rewrite Hs, equal_refl in Heqb.
    + right. exists VUpdate. split_and!; [set_solver|done|done].
  - split_and!; [done| |].
    + intros u Hv Hs. simplify_eq. by rewrite Hs, equal_refl in Heqb.
    + right. exists VUpdate. split_and!; [set_solver|done|done].
  - split_and!.
    + intros _. eexists. split; [done|]. by etrans; [by apply content_user_spec|].
    + intros u Hv. congruence.
    + right. exists VCreate. split_and!; [set_solver|done|done].
  - destruct (H Heqb0). specialize (Hr Heqb). congruence.
  - split_and!; [done|intros; specialize (Hr Heqb); congruence|].
    right. exists VCreate. split_and!; [set_solver|done|done].
  - split_and!; [done| |by left].
    intros. done.
Qed.
End theorems.

(** The world of the console, before and after its administrator exists. *)
Lemma bootstrap_converges_witness :
  (∃ u, view (reconcileBootstrapAdmin demo_console demo_empty).2 KUser ("ns", "c-bootstrap-admin") = Some u ∧
     u.(PU_Spec) = mkUserSpec "c" "Ada" "dba" (Some (mkSecretKeyRef "pw" ""))) ∧
  untouched demo_world (reconcileBootstrapAdmin demo_console demo_world).2.
Proof.
  split.
  - apply (bootstrap_converges demo_console demo_empty _ _ (surjective_pairing _)); reflexivity.
  - destruct (bootstrap_converges demo_console demo_world _ _ (surjective_pairing _)) as (_ & H & _).
    + reflexivity.
    + eapply H; vm_compute; reflexivity.
Defined.
