(* ===== verification/RequestReview.v ===== *)
(** * Review of access requests ([internal/controller/pgtoolboxaccessrequest])

    The reconciler that turns an approved [PgToolBoxAccessRequest] into a
    [PgToolBoxUser] and reports the decision in the request's conditions. *)

From S2P Require Import Prelude GoUtf8 GoStrings GoBytes GoLib ApiTypes Kube Shared Conditions Users.

Definition nul : string := str1 (Zbyte 0).

Section review.
Context `{G : GoLib} `{K : Machinery} {W : Type} `{C : Client W}.

Definition userNameFor (console : PgConsole) (subject : string) : string :=
  let digest := sha256_Sum256 (PC_Name console +:+ nul +:+ subject) in
  BoundedName (PC_Name console) ("-pguser-" +:+ hex_EncodeToString (take_str 8 digest)).

Definition resolvePgConsole (request : PgToolBoxAccessRequest) : M W (option PgConsole) :=
  r ← try (Get KConsole (request.(Rq_Meta).(M_Namespace), request.(Rq_Spec).(Rq_PgConsoleRef)));
  match r with
  | Err e => if IsNotFound e then mret None else throw e
  | Ok console => mret (Some console)
  end.

(** The user an approval creates. *)
Definition approvedUser (console : PgConsole) (request : PgToolBoxAccessRequest) (level : RoleLevel)
    : PgToolBoxUser :=
  mkPgToolBoxUser
    (new_meta (userNameFor console request.(Rq_Spec).(Rq_Subject)) request.(Rq_Meta).(M_Namespace)
       (CommonLabels PgConsoleApplication (PC_Name console)) None)
    (mkUserSpec (PC_Name console) request.(Rq_Spec).(Rq_Subject) level None) (zero_status KUser).

(** The existing user with the granted level, on the console. *)
Definition regrantedUser (console : PgConsole) (level : RoleLevel) (user : PgToolBoxUser) : PgToolBoxUser :=
  mkPgToolBoxUser user.(PU_Meta)
    (mkUserSpec (PC_Name console) user.(PU_Spec).(PU_Subject) level
       user.(PU_Spec).(PU_LocalPasswordSecretRef)) user.(PU_Status).

Definition reconcileApprovedUser (request : PgToolBoxAccessRequest) : M W PgToolBoxAccessRequest :=
  let level := request.(Rq_Status).(Rq_RequestedLevel) in
  if String.eqb level "" then
    of_result (MarkFalse request AccessRequestConditionUserReady ReasonConfigurationInvalid
      "approved access request grants no level")
  else
    found ← resolvePgConsole request;
    match found with
    | None =>
        of_result (MarkFalse request AccessRequestConditionUserReady ReasonPgConsoleNotFound
          ("referenced PgConsole " +:+ request.(Rq_Spec).(Rq_PgConsoleRef) +:+ " was not found"))
    | Some console =>
        let userName := userNameFor console request.(Rq_Spec).(Rq_Subject) in
        let key := (request.(Rq_Meta).(M_Namespace), userName) in
        let ready := of_result (MarkTrue request AccessRequestConditionUserReady ReasonAsExpected
          ("PgToolBoxUser " +:+ userName +:+ " is ready")) in
        r ← try (LiveGet KUser key);
        match r with
        | Err e =>
            if IsNotFound e then
              c ← try (Create KUser (approvedUser console request level));
              match c with
              | Err e =>
                  if IsAlreadyExists e then mret request
                  else throw (WrapErr ("create PgToolBoxUser " +:+ key.1 +:+ "/" +:+ key.2) e)
              | Ok _ => ready
              end
            else throw e
        | Ok user =>
            if negb (String.eqb user.(PU_Spec).(PU_Level) level)
               || negb (String.eqb user.(PU_Spec).(PU_PgConsoleRef) (PC_Name console)) then
              _ ← wrap ("update PgToolBoxUser " +:+ key.1 +:+ "/" +:+ key.2)
                    (Patch KUser user (regrantedUser console level user));
              ready
            else ready
        end
    end.

Definition updateStatus (before after : PgToolBoxAccessRequest) : M W () :=
  if DeepEqual_request before.(Rq_Status) after.(Rq_Status) then mret ()
  else StatusPatch KRequest before after.

(** The request with the generation it was seen at. *)
Definition observed (r : PgToolBoxAccessRequest) : PgToolBoxAccessRequest :=
  let s := r.(Rq_Status) in
  mkAccessRequest r.(Rq_Meta) r.(Rq_Spec)
    (mkRequestStatus r.(Rq_Meta).(M_Generation) s.(Rq_State) s.(Rq_RequestedLevel) s.(Rq_DecidedBy)
       s.(Rq_Conditions)).

Definition decide_request (request : PgToolBoxAccessRequest) : M W PgToolBoxAccessRequest :=
  if String.eqb request.(Rq_Status).(Rq_State) AccessRequestStateApproved then
    request ← of_result (MarkTrue request AccessRequestConditionDecided ReasonApproved
      "access request approved");
    reconcileApprovedUser request
  else if String.eqb request.(Rq_Status).(Rq_State) AccessRequestStateDenied then
    request ← of_result (MarkTrue request AccessRequestConditionDecided ReasonDenied
      "access request denied");
    of_result (MarkFalse request AccessRequestConditionUserReady ReasonDenied
      "access request denied; no user was created")
  else
    request ← of_result (MarkFalse request AccessRequestConditionDecided ReasonPending
      "access request is pending review");
    of_result (MarkUnknown request AccessRequestConditionUserReady ReasonNotRequested
      "access request is pending review").

Definition Reconcile (key : ObjectKey) : M W () :=
  r ← try (Get KRequest key);
  match r with
  | Err e => if IsNotFound e then mret () else throw e
  | Ok request =>
      if request.(Rq_Meta).(M_Deleting) then mret ()
      else if String.eqb (default "" (request.(Rq_Meta).(M_Annotations) !! ReconcileAnnotation)) "skip" then
        mret ()
      else
        after ← decide_request (observed request);
        updateStatus request after
  end.
End review.

(** ** What the review decides *)

Section spec.
Context `{G : GoLib} `{K : Machinery}.

Definition set_conditions_twice (q : PgToolBoxAccessRequest) (c1 c2 : Condition) : PgToolBoxAccessRequest :=
  with_conditions (SetStatusCondition (SetStatusCondition (statusConditions q).1 c1) c2) q.

(** The verdict on a request, given the console it names: its status, reason
    and message for the user. *)
Definition user_verdict (q : PgToolBoxAccessRequest) (console : option PgConsole) : string * string * string :=
  if String.eqb q.(Rq_Status).(Rq_State) AccessRequestStateApproved then
    if String.eqb q.(Rq_Status).(Rq_RequestedLevel) "" then
      (ConditionFalse, ReasonConfigurationInvalid, "approved access request grants no level")
    else match console with
         | None => (ConditionFalse, ReasonPgConsoleNotFound,
                    "referenced PgConsole " +:+ q.(Rq_Spec).(Rq_PgConsoleRef) +:+ " was not found")
         | Some c => (ConditionTrue, ReasonAsExpected,
                      "PgToolBoxUser " +:+ userNameFor c q.(Rq_Spec).(Rq_Subject) +:+ " is ready")
         end
  else if String.eqb q.(Rq_Status).(Rq_State) AccessRequestStateDenied then
    (ConditionFalse, ReasonDenied, "access request denied; no user was created")
  else (ConditionUnknown, ReasonNotRequested, "access request is pending review").

Definition decision (q : PgToolBoxAccessRequest) : string * string * string :=
  if String.eqb q.(Rq_Status).(Rq_State) AccessRequestStateApproved then
    (ConditionTrue, ReasonApproved, "access request approved")
  else if String.eqb q.(Rq_Status).(Rq_State) AccessRequestStateDenied then
    (ConditionTrue, ReasonDenied, "access request denied")
  else (ConditionFalse, ReasonPending, "access request is pending review").

Definition condition_of (q : PgToolBoxAccessRequest) (t : string) (v : string * string * string) : Condition :=
  mkCondition t v.1.1 q.(Rq_Meta).(M_Generation) v.1.2 v.2.

Definition reviewed (q : PgToolBoxAccessRequest) (console : option PgConsole) : PgToolBoxAccessRequest :=
  set_conditions_twice q (condition_of q AccessRequestConditionDecided (decision q))
    (condition_of q AccessRequestConditionUserReady (user_verdict q console)).

(** The level an approved request grants, if it grants one. *)
Definition granted (q : PgToolBoxAccessRequest) : option RoleLevel :=
  if String.eqb q.(Rq_Status).(Rq_State) AccessRequestStateApproved then
    if String.eqb q.(Rq_Status).(Rq_RequestedLevel) "" then None
    else Some q.(Rq_Status).(Rq_RequestedLevel)
  else None.

(** What an approval makes of the user stored under its name. *)
Definition provisioned (c : PgConsole) (q : PgToolBoxAccessRequest) (level : RoleLevel)
    (old new : option PgToolBoxUser) : Prop :=
  ∃ u, new = Some u ∧ u.(PU_Spec).(PU_Level) = level ∧ u.(PU_Spec).(PU_PgConsoleRef) = PC_Name c ∧
    match old with
    | None => u.(PU_Spec).(PU_Subject) = q.(Rq_Spec).(Rq_Subject) ∧
              u.(PU_Spec).(PU_LocalPasswordSecretRef) = None
    | Some v => u.(PU_Spec).(PU_Subject) = v.(PU_Spec).(PU_Subject) ∧
                u.(PU_Spec).(PU_LocalPasswordSecretRef) = v.(PU_Spec).(PU_LocalPasswordSecretRef)
    end.
End spec.

Section theorems.
Context `{G : GoLib} `{K : Machinery} {W : Type} `{C : Client W}.
Context `{CL : !ClientLaws C} `{KL : !MachineryLaws K}.

Definition consoleKey (q : PgToolBoxAccessRequest) : ObjectKey :=
  (q.(Rq_Meta).(M_Namespace), q.(Rq_Spec).(Rq_PgConsoleRef)).
Definition userKey (c : PgConsole) (q : PgToolBoxAccessRequest) : ObjectKey :=
  (q.(Rq_Meta).(M_Namespace), userNameFor c q.(Rq_Spec).(Rq_Subject)).

(** The user a review may write to. *)
Definition grants (w : W) (q : PgToolBoxAccessRequest) (key : ObjectKey) (level : RoleLevel) (c : PgConsole) : Prop :=
  granted q = Some level ∧ cached w KConsole (consoleKey q) = Some c ∧ key = userKey c q.

Ltac known := unfold knownReasons; repeat (apply list_elem_of_here || apply list_elem_of_further).

Lemma marked_request (q : PgToolBoxAccessRequest) t st reason message :
  reason ∈ knownReasons →
  mark q t st reason message =
  Ok (with_conditions (SetStatusCondition (statusConditions q).1 (condition_of q t (st, reason, message))) q).
Proof. intros H. by rewrite mark_known. Qed.

(** A run that at most wrote the granted user. *)
Definition review_writes (w w' : W) (q : PgToolBoxAccessRequest) : Prop :=
  untouched w w' ∨
  ∃ key level c v, v ∈ [VCreate; VPatch] ∧ grants w q key level c ∧
    log w' = log w ++ [(v, KUser, key)] ∧ elsewhere w w' KUser key ∧
    ¬ ∃ u, view w KUser key = Some u ∧ u.(PU_Spec).(PU_Level) = level ∧
           u.(PU_Spec).(PU_PgConsoleRef) = PC_Name c.

Definition user_marked (q : PgToolBoxAccessRequest) (console : option PgConsole) : PgToolBoxAccessRequest :=
  with_conditions (SetStatusCondition (statusConditions q).1
    (condition_of q AccessRequestConditionUserReady (user_verdict q console))) q.

Lemma resolvePgConsole_run q w r w' :
  resolvePgConsole q w = (r, w') →
  untouched w w' ∧ ∀ o, r = Ok o → o = cached w KConsole (consoleKey q).
Proof using CL.
  unfold resolvePgConsole. intros H. run_in H; learn; (split; [done|]); intros o ?; simplify_eq.
  - by symmetry.
  - symmetry. by apply Hr.
Qed.

Lemma approved_key c q level : key_of (PU_Meta (approvedUser c q level)) = userKey c q.
Proof. done. Qed.

Lemma needs_grant (u : PgToolBoxUser) level c :
  negb (String.eqb u.(PU_Spec).(PU_Level) level)
  || negb (String.eqb u.(PU_Spec).(PU_PgConsoleRef) (PC_Name c)) = false ↔
  u.(PU_Spec).(PU_Level) = level ∧ u.(PU_Spec).(PU_PgConsoleRef) = PC_Name c.
Proof.
  destruct (String.eqb_spec u.(PU_Spec).(PU_Level) level),
    (String.eqb_spec u.(PU_Spec).(PU_PgConsoleRef) (PC_Name c)); simpl; naive_solver.
Qed.

Lemma reconcileApprovedUser_run q w r w' :
  q.(Rq_Status).(Rq_State) = AccessRequestStateApproved →
  reconcileApprovedUser q w = (r, w') →
  review_writes w w' q ∧
  ∀ q', r = Ok q' → q' = user_marked q (cached w KConsole (consoleKey q)) ∧
    ∀ key level c, grants w q key level c →
      provisioned c q level (view w KUser key) (view w' KUser key).
Proof using CL KL.
  intros Hstate H. unfold reconcileApprovedUser, MarkFalse, MarkTrue in H.
  rewrite !marked_request in H by known.
  unfold user_marked, user_verdict, review_writes, grants, granted. rewrite Hstate, String.eqb_refl.
  destruct (String.eqb_spec (Rq_RequestedLevel (Rq_Status q)) "") as [Hl|Hl].
  { rewrite run_of_result in H. simplify_eq. split; [by left|]. intros q' [= <-].
    split; [done|]. by intros ??? []. }
  rewrite run_bind in H. destruct (resolvePgConsole q w) as [[found|e] w1] eqn:Hf.
  2:{ apply resolvePgConsole_run in Hf as [Hu _]. simplify_eq. split; [by left|done]. }
  apply resolvePgConsole_run in Hf as [Hu Hc]. rewrite <-(Hc found eq_refl).
  destruct found as [c|].
  2:{ rewrite run_of_result in H. simplify_eq. split; [by left|]. intros q' [= <-].
    split; [done|]. by intros ??? (_ & ? & _). }
  rewrite marked_request in H by known.
  set (level := Rq_RequestedLevel (Rq_Status q)) in *.
  run_in H; learn; rebase; cbn [meta] in *; rewrite ?approved_key in *;
    change (M_Namespace (Rq_Meta q), userNameFor c (Rq_Subject (Rq_Spec q))) with (userKey c q) in *;
    try (change (key_of (PU_Meta (regrantedUser c level a))) with (key_of (PU_Meta a)) in *;
         rewrite (view_key w KUser _ _ Hr : key_of (PU_Meta a) = _) in *).
  - assert (x = a) as -> by congruence. specialize (H3 eq_refl). split.
    + right. exists (userKey c q), level, c, VPatch. split_and!; try done; [set_solver|].
      intros (u & Hu' & Hn%needs_grant). congruence.
    + intros q' [= <-]. split; [done|]. intros key l c' ([= <-] & [= <-] & ->).
      exists x0. rewrite Hr, (content_user_spec _ _ H3). by split_and!.
  - split; [|done].
    right. exists (userKey c q), level, c, VPatch. split_and!; try done; [set_solver|].
    intros (u & Hu' & Hn%needs_grant). congruence.
  - split; [left; by etrans|]. intros q' [= <-]. split; [done|].
    intros key l c' ([= <-] & [= <-] & ->). apply needs_grant in Heqb as [? ?].
    exists a. rewrite Hr. split_and!; try done. rewrite (untouched_lookup w w' KUser); [done|by etrans].
  - split.
    + right. exists (userKey c q), level, c, VCreate. split_and!; try done; [set_solver|]. naive_solver.
    + intros q' [= <-]. split; [done|]. intros key l c' ([= <-] & [= <-] & ->).
      eexists. split; [done|]. by rewrite H, (content_user_spec _ _ H2).
  - destruct (H Heqb0). specialize (Hr Heqb). congruence.
  - split; [|done]. right. exists (userKey c q), level, c, VCreate.
    split_and!; try done; [set_solver|]. specialize (Hr Heqb). naive_solver.
  - split; [|done]. left. by etrans.
Qed.

Lemma decide_request_run q w r w' :
  decide_request q w = (r, w') →
  review_writes w w' q ∧
  ∀ q', r = Ok q' → q' = reviewed q (cached w KConsole (consoleKey q)) ∧
    ∀ key level c, grants w q key level c →
      provisioned c q level (view w KUser key) (view w' KUser key).
Proof using CL KL.
  intros H. unfold decide_request, MarkTrue, MarkFalse, MarkUnknown in H.
  destruct (String.eqb_spec (Rq_State (Rq_Status q)) AccessRequestStateApproved) as [Ha|Ha].
  - rewrite marked_request in H by known. rewrite run_bind, run_of_result in H.
    apply reconcileApprovedUser_run in H as [Hw Hr]; [|done]. split; [done|].
    intros q' Hq'. destruct (Hr q' Hq') as [-> Hp]. split; [|done].
    unfold reviewed, decision. by rewrite Ha, String.eqb_refl.
  - assert (∀ key level c, ¬ grants w q key level c) as Hno.
    { intros key level c [Hg _]. unfold granted in Hg. apply String.eqb_neq in Ha. by rewrite Ha in Hg. }
    unfold reviewed, decision, user_verdict. apply String.eqb_neq in Ha as Ha'. rewrite Ha'.
    destruct (String.eqb (Rq_State (Rq_Status q)) AccessRequestStateDenied);
      (rewrite marked_request in H by known; rewrite run_bind, run_of_result in H;
       rewrite marked_request in H by known; rewrite run_of_result in H; simplify_eq;
       split; [by left|]; intros q' [= <-]; split; [done|];
       intros key level c Hg; by apply Hno in Hg).
Qed.

(** The request as its reconcile finds it: not being deleted, not skipped. *)
Definition under_review (w : W) (key : ObjectKey) (q : PgToolBoxAccessRequest) : Prop :=
  cached w KRequest key = Some q ∧ q.(Rq_Meta).(M_Deleting) = false ∧
  default "" (q.(Rq_Meta).(M_Annotations) !! ReconcileAnnotation) ≠ "skip".

Lemma Reconcile_inactive key w r w' :
  Reconcile key w = (r, w') → (∀ q, ¬ under_review w key q) → untouched w w'.
Proof using CL.
  unfold Reconcile. intros H Hno. rewrite run_bind, run_try in H.
  destruct (Get KRequest key w) as [[q|e] w1] eqn:Hg; learn.
  - destruct (M_Deleting _) eqn:Hd; [by run_in H|].
    destruct (String.eqb_spec (default "" (M_Annotations (Rq_Meta q) !! ReconcileAnnotation)) "skip");
      [by run_in H|]. destruct (Hno q). by split_and!.
  - run_in H; done.
Qed.

Lemma Reconcile_run key w r w' q :
  Reconcile key w = (r, w') → under_review w key q →
  ∃ r1 w1, review_writes w w1 (observed q) ∧
    (∀ q', r1 = Ok q' → q' = reviewed (observed q) (cached w KConsole (consoleKey q)) ∧
       ∀ ukey level c, grants w (observed q) ukey level c →
         provisioned c q level (view w KUser ukey) (view w1 KUser ukey)) ∧
    match r1 with
    | Err e => r = Err e ∧ w' = w1
    | Ok q' => updateStatus q q' w1 = (r, w')
    end.
Proof using CL KL.
  unfold Reconcile. intros H (Hc & Hd & Hs). rewrite run_bind, run_try in H.
  destruct (Get KRequest key w) as [[q0|e] w1] eqn:Hg; learn.
  2:{ destruct (IsNotFound e) eqn:He; [by rewrite Hr in Hc|]. rewrite run_throw in H. simplify_eq.
      exists (Err e), w'. split; [by left|by split]. }
  rewrite Hc in Hr. injection Hr as <-. rewrite Hd in H. apply String.eqb_neq in Hs. rewrite Hs in H.
  rewrite run_bind in H. destruct (decide_request (observed q) w1) as [r1 w2] eqn:Hdec.
  apply decide_request_run in Hdec as [Hw Hr].
  assert (cached w1 = cached w) as Hcw by by apply untouched_cached.
  unfold grants in Hr. rewrite Hcw in Hr.
  exists r1, w2. split_and!; [| |by destruct r1; simplify_eq].
  - destruct Hw as [Hw|(k & l & c & v & Hv & Hgr & Hl & He & Hn)]; [left; by etrans|right].
    exists k, l, c, v. unfold grants in *. rewrite Hcw in Hgr.
    rewrite (untouched_lookup _ _ _ _ Hu) in Hn. rewrite (untouched_log _ _ Hu) in Hl.
    destruct Hgr as (? & ? & ?). split_and!; try done. by eapply untouched_elsewhere.
  - intros q' Hq'. destruct (Hr q' Hq') as [-> Hp]. split; [done|]. intros k l c Hgr.
    rewrite <-(untouched_lookup _ _ KUser k Hu). by apply Hp.
Qed.

Lemma updateStatus_run q q' w r w' :
  updateStatus q q' w = (r, w') → key_of q'.(Rq_Meta) = key_of q.(Rq_Meta) →
  (∀ (k : kind) key, k ≠ KRequest ∨ key ≠ key_of q.(Rq_Meta) → view w' k key = view w k key) ∧
  (log w' = log w ∨ log w' = log w ++ [(VStatusPatch, KRequest, key_of q.(Rq_Meta))]) ∧
  (q'.(Rq_Status) = q.(Rq_Status) → r = Ok () ∧ untouched w w') ∧
  (r = Ok () → ∀ cur, view w KRequest (key_of q.(Rq_Meta)) = Some cur →
     cur.(Rq_Status) = q.(Rq_Status) →
     ∃ o, view w' KRequest (key_of q.(Rq_Meta)) = Some o ∧ o.(Rq_Status) = q'.(Rq_Status) ∧
       content (k := KRequest) o = content (k := KRequest) cur ∧
       o.(Rq_Meta).(M_Generation) = cur.(Rq_Meta).(M_Generation)).
Proof using CL KL.
  unfold updateStatus. intros H Hkey.
  destruct (DeepEqual_request _ _) eqn:Heq.
  - rewrite run_ret in H. simplify_eq. apply DeepEqual_request_true in Heq. split_and!; try done.
    + by left.
    + intros _ cur Hc Hs. exists cur. split_and!; congruence.
  - assert (q'.(Rq_Status) ≠ q.(Rq_Status)) as Hne.
    { intros Hs. assert (DeepEqual_request (Rq_Status q) (Rq_Status q') = true); [|congruence].
      by apply DeepEqual_request_true. }
    learn. cbn [meta] in *. rewrite Hkey in *. split_and!; [|by right|done|].
    + destruct r; apply Hw.
    + intros -> cur Hc Hs. destruct Hw as [(cur' & o & Hcur & Ho & Hcont & Hg & Hst) _].
      rewrite Hc in Hcur. injection Hcur as <-. exists o. split_and!; [done|by apply Hst|done..].
Qed.

Lemma content_request (a b : PgToolBoxAccessRequest) :
  content (k := KRequest) a = content (k := KRequest) b → a.(Rq_Spec) = b.(Rq_Spec).
Proof. by intros [= _ _ _ _ _ _ _ ->]. Qed.

Lemma under_review_dec w key : (∃ q, under_review w key q) ∨ ∀ q, ¬ under_review w key q.
Proof using C.
  unfold under_review. destruct (cached w KRequest key) as [q|]; [|by right; intros q (? & _)].
  destruct (M_Deleting (Rq_Meta q)) eqn:Hd; [right; intros q' (? & ? & _); congruence|].
  destruct (decide (default "" (M_Annotations (Rq_Meta q) !! ReconcileAnnotation) = "skip"));
    [right; intros q' (? & _ & ?); congruence|left; eauto].
Qed.

Lemma granted_Some q level :
  granted q = Some level →
  q.(Rq_Status).(Rq_State) = AccessRequestStateApproved ∧ q.(Rq_Status).(Rq_RequestedLevel) = level ∧ level ≠ "".
Proof.
  unfold granted. destruct (String.eqb_spec (Rq_State (Rq_Status q)) AccessRequestStateApproved); [|done].
  destruct (String.eqb_spec (Rq_RequestedLevel (Rq_Status q)) ""); [done|]. naive_solver.
Qed.

Lemma review_writes_view w w' q (k : kind) key :
  review_writes w w' q → view w' k key ≠ view w k key →
  k = KUser ∧ ∃ level c, grants w q key level c.
Proof.
  intros [Hu|(key' & level & c & v & _ & Hg & _ & He & _)] Hne; [by rewrite (untouched_lookup w w') in Hne|].
  destruct (decide (k = KUser)) as [->|Hk]; [|by rewrite He in Hne by by left].
  destruct (decide (key = key')) as [->|Hk]; [|by rewrite He in Hne by by right].
  eauto.
Qed.

Lemma review_writes_log w w' q :
  review_writes w w' q → ∃ l, log w' = log w ++ l ∧ length l ≤ 1 ∧
    ∀ x, x ∈ l → x.1.1 ∈ [VCreate; VPatch] ∧ x.1.2 = KUser.
Proof.
  intros [Hu|(key & level & c & v & Hv & _ & Hl & _)].
  - exists []. rewrite (untouched_log w w' Hu), app_nil_r. split_and!; [done|simpl; lia|].
    by intros ? ?%not_elem_of_nil.
  - exists [(v, KUser, key)]. split_and!; [done|simpl; lia|]. by intros ? ->%list_elem_of_singleton.
Qed.

(** C17: Reviewing a request only ever touches two objects, and grants access for
    approved requests alone: whatever the API answers, a pass changes nothing
    but the status of the request and, when the request is approved with a
    level and the console it names exists, the one user whose name is derived
    from that console and the request's subject. No object is ever deleted. *)
Theorem review_grants_only_approved key w r w' :
  Reconcile key w = (r, w') →
  (∀ (k : kind) key', view w' k key' ≠ view w k key' →
     ∃ q, under_review w key q ∧
       (k = KRequest ∧ key' = key ∨
        k = KUser ∧ ∃ level c, q.(Rq_Status).(Rq_State) = AccessRequestStateApproved ∧
          q.(Rq_Status).(Rq_RequestedLevel) = level ∧ level ≠ "" ∧
          cached w KConsole (consoleKey q) = Some c ∧ key' = userKey c q)) ∧
  ∃ l, log w' = log w ++ l ∧ length l ≤ 2 ∧
    ∀ x, x ∈ l → x = (VStatusPatch, KRequest, key) ∨ x.1.1 ∈ [VCreate; VPatch] ∧ x.1.2 = KUser.
Proof using CL KL.
  intros H. destruct (under_review_dec w key) as [[q Hq]|Hno].
  2:{ apply Reconcile_inactive in H as Hu; [|done]. split.
      - intros k key' Hne. by rewrite (untouched_lookup w w') in Hne.
      - exists []. rewrite (untouched_log w w' Hu), app_nil_r.
        split_and!; [done|simpl; lia|by intros ? ?%not_elem_of_nil]. }
  destruct (Reconcile_run _ _ _ _ _ H Hq) as (r1 & w1 & Hw & Hr & Hend).
  assert (key_of (Rq_Meta q) = key) as Hkey by apply (cached_key w KRequest _ _ (proj1 Hq)).
  destruct (review_writes_log _ _ _ Hw) as (l & Hl & Hlen & Hin).
  assert ((∀ (k : kind) key', k ≠ KRequest ∨ key' ≠ key → view w' k key' = view w1 k key') ∧
    (log w' = log w1 ∨ log w' = log w1 ++ [(VStatusPatch, KRequest, key)])) as [Hv Hlog].
  { destruct r1 as [q'|e]; [|destruct Hend as [_ ->]; by split; [|left]].
    destruct (Hr q' eq_refl) as [-> _].
    apply updateStatus_run in Hend as (Hv & Hlog & _); [|done]. by rewrite Hkey in *. }
  split.
  - intros k key' Hne. exists q. split; [done|]. destruct (decide (k = KUser)) as [->|Hk].
    + right. rewrite Hv in Hne by by left.
      destruct (review_writes_view _ _ _ _ _ Hw Hne) as (_ & level & c & [Hg [Hc ->]]).
      apply granted_Some in Hg as (? & ? & ?). split; [done|]. by exists level, c.
    + left. assert (view w1 k key' = view w k key') as Heq.
      { destruct Hw as [Hu|(? & ? & ? & ? & _ & _ & _ & He & _)]; [by apply untouched_lookup|].
        apply He. by left. }
      destruct (decide (k = KRequest)) as [->|]; [split; [done|]|by rewrite Hv in Hne by by left].
      destruct (decide (key' = key)); [done|]. by rewrite Hv in Hne by by right.
  - destruct Hlog as [Hlog|Hlog].
    + exists l. split_and!; [congruence|lia|]. intros x Hx. right. by apply Hin.
    + exists (l ++ [(VStatusPatch, KRequest, key)]). rewrite Hlog, Hl, app_assoc, length_app. simpl.
      split_and!; [done|lia|]. intros x [Hx| ->%list_elem_of_singleton]%elem_of_app; [|by left].
      right. by apply Hin.
Qed.

(** What a successful pass over a synced request leaves. *)
Lemma Reconcile_ok key w w' q :
  Reconcile key w = (Ok (), w') → under_review w key q → cached w KRequest key = view w KRequest key →
  (∃ o, view w' KRequest key = Some o ∧ content (k := KRequest) o = content (k := KRequest) q ∧
     o.(Rq_Meta).(M_Generation) = q.(Rq_Meta).(M_Generation) ∧
     o.(Rq_Status) = (reviewed (observed q) (cached w KConsole (consoleKey q))).(Rq_Status)) ∧
  ∀ level c, granted q = Some level → cached w KConsole (consoleKey q) = Some c →
    provisioned c q level (view w KUser (userKey c q)) (view w' KUser (userKey c q)).
Proof using CL KL.
  intros H Hq Hsync. destruct (Reconcile_run _ _ _ _ _ H Hq) as (r1 & w1 & Hw & Hr & Hend).
  assert (key_of (Rq_Meta q) = key) as Hkey by apply (cached_key w KRequest _ _ (proj1 Hq)).
  destruct r1 as [q'|e]; [|by destruct Hend]. destruct (Hr q' eq_refl) as [-> Hp].
  apply updateStatus_run in Hend as (Hv & _ & _ & Hst); [|done]. rewrite Hkey in *.
  assert (view w1 KRequest key = Some q) as Hq1.
  { destruct Hw as [Hu|(? & ? & ? & ? & _ & _ & _ & He & _)].
    - rewrite (untouched_lookup w w1) by done. rewrite <-Hsync. apply Hq.
    - rewrite He by (by left). rewrite <-Hsync. apply Hq. }
  destruct (Hst eq_refl q Hq1 eq_refl) as (o & Ho & Hs & Hcont & Hg). split.
  - by exists o.
  - intros level c Hgr Hc. rewrite Hv by (by left). by apply (Hp _ level c).
Qed.

Lemma reviewed_conditions q console :
  condition AccessRequestConditionDecided (reviewed q console).(Rq_Status).(Rq_Conditions) =
    Some (condition_of q AccessRequestConditionDecided (decision q)) ∧
  condition AccessRequestConditionUserReady (reviewed q console).(Rq_Status).(Rq_Conditions) =
    Some (condition_of q AccessRequestConditionUserReady (user_verdict q console)).
Proof using KL.
  change (Rq_Conditions (Rq_Status (reviewed q console))) with
    (SetStatusCondition (SetStatusCondition (statusConditions q).1
      (condition_of q AccessRequestConditionDecided (decision q)))
      (condition_of q AccessRequestConditionUserReady (user_verdict q console))).
  split; [rewrite SetStatusCondition_other by done|];
    apply (SetStatusCondition_set _ (condition_of _ _ _)).
Qed.


Lemma set_twice l c1 c2 :
  Cd_Type c1 ≠ Cd_Type c2 →
  SetStatusCondition (SetStatusCondition (SetStatusCondition (SetStatusCondition l c1) c2) c1) c2 =
  SetStatusCondition (SetStatusCondition l c1) c2.
Proof using KL.
  intros Hne. rewrite (SetStatusCondition_same _ c1).
  - apply SetStatusCondition_same, SetStatusCondition_set.
  - rewrite SetStatusCondition_other by done. apply SetStatusCondition_set.
Qed.

Lemma reviewed_twice (q q2 : PgToolBoxAccessRequest) console :
  content (k := KRequest) q2 = content (k := KRequest) q →
  q2.(Rq_Meta).(M_Generation) = q.(Rq_Meta).(M_Generation) →
  q2.(Rq_Status) = (reviewed (observed q) console).(Rq_Status) →
  (reviewed (observed q2) console).(Rq_Status) = q2.(Rq_Status).
Proof using KL.
  intros Hc Hg Hs. pose proof (content_request _ _ Hc) as Hspec.
  assert (decision (observed q2) = decision (observed q)) as Hd by (unfold decision; simpl; by rewrite Hs).
  assert (user_verdict (observed q2) console = user_verdict (observed q) console) as Hv
    by (unfold user_verdict; simpl; by rewrite Hs, Hspec).
  unfold reviewed. rewrite Hd, Hv. unfold condition_of, set_conditions_twice.
  destruct q2 as [m2 s2 st2]. simpl in *. rewrite Hs, Hg. simpl. f_equal.
  by apply set_twice.
Qed.

(** C18: Reviewing settles: after a pass that succeeds on a synced request, a
    second one over a synced cache with the same console writes nothing,
    whatever the API answers. *)
Theorem review_settles key w w1 w2 r w3 :
  Reconcile key w = (Ok (), w1) → Reconcile key w2 = (r, w3) →
  cached w KRequest key = view w KRequest key → same_view w1 w2 →
  cached w2 KRequest key = view w2 KRequest key →
  (∀ q, under_review w key q → cached w2 KConsole (consoleKey q) = cached w KConsole (consoleKey q)) →
  untouched w2 w3.
Proof using CL KL.
  intros H H2 Hsync Hsame Hsync2 Hcon.
  destruct (under_review_dec w key) as [[q Hq]|Hno].
  2:{ apply (Reconcile_inactive _ _ _ _ H2). intros q2 (Hc & Hd & Hs). apply (Hno q2).
      apply Reconcile_inactive in H as Hu; [|done].
      rewrite Hsync2, Hsame, (untouched_lookup w w1), <-Hsync in Hc by done. by split_and!. }
  destruct (Reconcile_ok _ _ _ _ H Hq Hsync) as [(q2 & Ho & Hcont & Hg & Hs) Hp].
  pose proof (content_request _ _ Hcont) as Hspec. apply content_meta in Hcont as Hmeta.
  injection Hmeta as Hname Hns Hlab Hann Hctl Hdel. cbn [meta] in *.
  assert (consoleKey q2 = consoleKey q) as Hck by (unfold consoleKey; by rewrite Hns, Hspec).
  assert (under_review w2 key q2) as Hq2.
  { destruct Hq as (_ & Hd & Ha). split_and!; [by rewrite Hsync2, Hsame|congruence|by rewrite Hann]. }
  assert (granted q2 = granted q) as Hgr by (unfold granted; by rewrite Hs).
  destruct (Reconcile_run _ _ _ _ _ H2 Hq2) as (r1 & w4 & Hw & Hr & Hend).
  assert (untouched w2 w4) as Hu.
  { destruct Hw as [Hu|(uk & level & c & v & _ & (Hl & Hc & ->) & _ & _ & Hn)]; [done|].
    destruct Hn. change (granted (observed q2)) with (granted q2) in Hl.
    change (consoleKey (observed q2)) with (consoleKey q2) in Hc. rewrite Hck in Hc.
    rewrite Hcon in Hc by done. rewrite Hgr in Hl.
    destruct (Hp level c Hl Hc) as (u & Hview & Hlev & Href & _). exists u.
    split_and!; [|done|done]. rewrite Hsame. unfold userKey in *. simpl. by rewrite Hns, Hspec. }
  etrans; [done|]. destruct r1 as [q'|e]; [|by destruct Hend as [_ ->]].
  destruct (Hr q' eq_refl) as [-> _]. apply updateStatus_run in Hend as (_ & _ & Hsame' & _); [|done].
  apply Hsame'. rewrite Hck, Hcon by done. by apply (reviewed_twice q).
Qed.
End theorems.

(** ** An approved request *)

Definition demo_request : PgToolBoxAccessRequest :=
  mkAccessRequest (mkMeta "req" "ns" "uid-r" ∅ ∅ None "7" 2 false []) (mkRequestSpec "c" "erin@x" "please")
    (mkRequestStatus 0 "approved" "poweruser" "ada" []).

Definition demo_review_world : demo :=
  demo_world_of (demo_objects [] [] [demo_console] [demo_request]).

Definition demo_key : ObjectKey := ("ns", "req").

Definition demo_reviewed : demo := (Reconcile demo_key demo_review_world).2.

(** The same store once the informers caught up. *)
Definition demo_synced (d : demo) : demo :=
  mkDemo d.(store) d.(store) d.(sent) d.(faults) d.(clock).

Lemma demo_under_review : under_review demo_review_world demo_key demo_request.
Proof. split_and!; [reflexivity|reflexivity|compute_decide]. Qed.

Lemma demo_review_ok : Reconcile demo_key demo_review_world = (Ok (), demo_reviewed).
Proof.
  rewrite (surjective_pairing (Reconcile demo_key demo_review_world)).
  apply (f_equal2 pair); [vm_compute|]; reflexivity.
Qed.

Lemma review_grants_only_approved_witness :
  ∃ l, log demo_reviewed = [] ++ l ∧ length l ≤ 2 ∧
    ∀ x, x ∈ l → x = (VStatusPatch, KRequest, demo_key) ∨ x.1.1 ∈ [VCreate; VPatch] ∧ x.1.2 = KUser.
Proof. apply (review_grants_only_approved demo_key demo_review_world _ _ demo_review_ok). Defined.


Lemma review_settles_witness :
  untouched (demo_synced demo_reviewed) (Reconcile demo_key (demo_synced demo_reviewed)).2.
Proof.
  apply (review_settles demo_key demo_review_world demo_reviewed (demo_synced demo_reviewed)
    _ _ demo_review_ok (surjective_pairing _)).
  - reflexivity.
  - intros k key. reflexivity.
  - reflexivity.
  - intros q [Hq _]. assert (q = demo_request) as -> by (injection Hq as <-; reflexivity). reflexivity.
Defined.
