(* ===== verification/NetPolicy.v ===== *)
(** * The network policy of a console ([internal/controller/pgconsole/networkpolicy.go])

    The generated default-deny policy and its reconcile. The ports of the Pod
    are the constants of [workload.go] and [adminsync.go]. *)

From S2P Require Import Prelude GoUtf8 GoStrings GoBytes GoLib ApiTypes Kube Shared Users.

Definition consolePort : Z := 3000.
Definition proxyPort : Z := 8080.
Definition pgAdminPort : Z := 8081.
Definition SidecarPort : Z := 9600.

Definition dnsPort : Z := 53.
Definition openshiftDNSPort : Z := 5353.
Definition httpsPort : Z := 443.
Definition kubeAPIServerPort : Z := 6443.
Definition postgresPort : Z := 5432.

Definition cnpgClusterLabel : string := "cnpg.io/cluster".

Definition ProtocolTCP : string := "TCP".
Definition ProtocolUDP : string := "UDP".
Definition PolicyTypeIngress : string := "Ingress".
Definition PolicyTypeEgress : string := "Egress".

(** [workload.go] *)
Definition pgAdminEnabled (console : PgConsole) : bool :=
  match console.(PC_Spec).(CS_PgAdmin).(PG_Enabled) with None => true | Some b => b end.

Definition tcpPort (portNumber : Z) : PolicyPort :=
  mkPolicyPort (Some ProtocolTCP) (Some (PortNumber portNumber)) None.

Definition dnsEgressRule : EgressRule :=
  let udp n := mkPolicyPort (Some ProtocolUDP) (Some (PortNumber n)) None in
  mkEgressRule [udp dnsPort; tcpPort dnsPort; udp openshiftDNSPort; tcpPort openshiftDNSPort] [].

Definition networkPolicyEnabled (console : PgConsole) : bool :=
  match console.(PC_Spec).(CS_NetworkPolicy).(NP_Enabled) with None => true | Some b => b end.

Section policy.
Context `{G : GoLib} `{K : Machinery} {W : Type} `{C : Client W}.
(** The operator's own image, a field of the Reconciler. *)
Context (OperatorImage : string).

Definition issuerPort (issuerURL : string) : Z :=
  match url_Parse issuerURL with
  | None => httpsPort
  | Some parsed =>
      if String.eqb parsed.(Port) "" then httpsPort
      else match ParseInt 32 parsed.(Port) with None => httpsPort | Some parsedPort => parsedPort end
  end.

Definition authenticationEgressPorts (console : PgConsole) : list PolicyPort :=
  let ports := [tcpPort kubeAPIServerPort] in
  match console.(PC_Spec).(CS_Authentication).(PA_OIDC) with
  | None => ports
  | Some oidc =>
      let identityPort := issuerPort oidc.(PO_IssuerURL) in
      if negb (identityPort =? kubeAPIServerPort)%Z then ports ++ [tcpPort identityPort] else ports
  end.

Definition ingressPorts (console : PgConsole) : list PolicyPort :=
  let ports := [tcpPort proxyPort] in
  if pgAdminEnabled console && negb (String.eqb OperatorImage "") then ports ++ [tcpPort SidecarPort]
  else ports.

(** The body of the loops over [ExtraEgress]. *)
Definition materialize_port (p : PolicyPort) : PolicyPort :=
  match p.(PP_Protocol) with
  | None => mkPolicyPort (Some ProtocolTCP) p.(PP_Port) p.(PP_EndPort)
  | Some _ => p
  end.

Definition materialize_rule (rule : EgressRule) : EgressRule :=
  mkEgressRule (materialize_port <$> rule.(ER_Ports)) rule.(ER_To).

Definition policy_spec (console : PgConsole) : PolicySpec :=
  let spec := console.(PC_Spec).(CS_NetworkPolicy) in
  let selector := SelectorLabels application (PC_Name console) in
  if String.eqb spec.(NP_PolicyTypes) NetworkPolicyTypesIngress then
    mkPolicySpec selector [PolicyTypeIngress] [ingressPorts console] []
  else
    mkPolicySpec selector [PolicyTypeIngress; PolicyTypeEgress] [ingressPorts console]
      ([dnsEgressRule]
       ++ [mkEgressRule (authenticationEgressPorts console) []]
       ++ (if pgAdminEnabled console then
             [mkEgressRule [tcpPort postgresPort]
                [PodPeer {[cnpgClusterLabel := console.(PC_Spec).(CS_CNPGClusterRef)]}]]
           else [])
       ++ (materialize_rule <$> spec.(NP_ExtraEgress))).

Definition networkPolicy (console : PgConsole) : result error NetworkPolicy :=
  SetControllerReference console.(PC_Meta) KNetworkPolicy
    (mkNetworkPolicy
       (new_meta (ResourceName application (PC_Name console) "") (PC_Namespace console)
          (CommonLabels application (PC_Name console)) None)
       (policy_spec console)).

Definition networkPolicyMatches (existing desired : NetworkPolicy) : bool :=
  LabelsContain existing.(NP_Meta).(M_Labels) desired.(NP_Meta).(M_Labels)
  && ControllerOwnerMatches existing.(NP_Meta) desired.(NP_Meta)
  && DeepEqual_policy existing.(NP_Spec) desired.(NP_Spec).

Definition deleteNetworkPolicyIfOwned (console : PgConsole) : M W () :=
  let key := (PC_Namespace console, ResourceName application (PC_Name console) "") in
  r ← try (Get KNetworkPolicy key);
  match r with
  | Err e => if IsNotFound e then mret () else throw e
  | Ok existing =>
      match existing.(NP_Meta).(M_Controller) with
      | None => mret ()
      | Some owner =>
          if negb (String.eqb owner (PC_UID console)) then mret ()
          else ignore_not_found (Delete KNetworkPolicy (key_of existing.(NP_Meta)))
      end
  end.

(** The existing policy with the desired labels and specification. *)
Definition refreshed_policy (existing desired : NetworkPolicy) : NetworkPolicy :=
  mkNetworkPolicy (set_labels desired.(NP_Meta).(M_Labels) existing.(NP_Meta)) desired.(NP_Spec).

Definition reconcileNetworkPolicy (console : PgConsole) : M W () :=
  if negb (networkPolicyEnabled console) then deleteNetworkPolicyIfOwned console
  else
    desired ← of_result (networkPolicy console);
    r ← try (Get KNetworkPolicy (key_of desired.(NP_Meta)));
    match r with
    | Err e => if IsNotFound e then Create KNetworkPolicy desired else throw e
    | Ok existing =>
        if networkPolicyMatches existing desired then mret ()
        else Update KNetworkPolicy (refreshed_policy existing desired)
    end.
End policy.

(** ** What a policy lets through

    The documented reading of a rule: no ports is every port, no peers is every
    peer, an omitted protocol is TCP. How a named port resolves at a
    destination and which destinations another form of peer selects are left
    open. *)

Section allows.
Context {Dest : Type} (dest_labels : Dest → gmap string string).
Context (resolve : Dest → string → Z) (other_peer : string → Dest → bool).

Definition port_allows (p : PolicyPort) (dest : Dest) (protocol : string) (port : Z) : bool :=
  String.eqb (default ProtocolTCP p.(PP_Protocol)) protocol &&
  match p.(PP_Port) with
  | None => true
  | Some v =>
      let first := match v with PortNumber n => n | PortName s => resolve dest s end in
      ((first <=? port) && (port <=? default first p.(PP_EndPort)))%Z
  end.

Definition peer_allows (p : PolicyPeer) (dest : Dest) : bool :=
  match p with
  | PodPeer labels => bool_decide (labels ⊆ dest_labels dest)
  | OtherPeer raw => other_peer raw dest
  end.

Definition none_or {A} (f : A → bool) (l : list A) : bool :=
  match l with [] => true | _ => existsb f l end.

Definition rule_allows (r : EgressRule) (dest : Dest) (protocol : string) (port : Z) : bool :=
  none_or (λ p, port_allows p dest protocol port) r.(ER_Ports)
  && none_or (λ p, peer_allows p dest) r.(ER_To).

(** Traffic a policy that does not restrict egress is not its concern. *)
Definition egress_allowed (s : PolicySpec) (dest : Dest) (protocol : string) (port : Z) : bool :=
  negb (existsb (String.eqb PolicyTypeEgress) s.(NPS_PolicyTypes))
  || existsb (λ r, rule_allows r dest protocol port) s.(NPS_Egress).

Lemma port_allows_number protocol n dest protocol' port :
  port_allows (mkPolicyPort (Some protocol) (Some (PortNumber n)) None) dest protocol' port = true ↔
  protocol' = protocol ∧ port = n.
Proof.
  unfold port_allows. cbn. breflect. rewrite String.eqb_eq.
  split; [intros [-> [??]]; split; [done|lia]|intros [-> ->]; split_and!; [done|lia|lia]].
Qed.

Lemma rule_allows_materialize r dest protocol port :
  rule_allows (materialize_rule r) dest protocol port = rule_allows r dest protocol port.
Proof.
  unfold rule_allows, materialize_rule. cbn [ER_Ports ER_To]. f_equal.
  assert (∀ p, port_allows (materialize_port p) dest protocol port = port_allows p dest protocol port) as Hp.
  { intros [[pr|] pp pe]; reflexivity. }
  destruct (ER_Ports r) as [|p l]; [done|]. cbn. rewrite Hp. f_equal.
  induction l as [|q l IH]; cbn; [done|]. by rewrite Hp, IH.
Qed.
End allows.

Arguments port_allows : simpl never.

Section content.
Context `{G : GoLib} (OperatorImage : string).

(** Every port of a rule names its protocol, as the API server stores it. *)
Definition defaulted_port (p : PolicyPort) : Prop := is_Some p.(PP_Protocol).

Lemma materialize_defaulted p : defaulted_port (materialize_port p).
Proof. destruct p as [[pr|] pp pe]; by eexists. Qed.

Lemma materialize_stable p : defaulted_port p → materialize_port p = p.
Proof. destruct p as [[pr|] pp pe]; [done|by intros []]. Qed.

Lemma tcpPort_defaulted n : defaulted_port (tcpPort n).
Proof. by eexists. Qed.

Lemma ingressPorts_elem console p :
  p ∈ ingressPorts OperatorImage console ↔
  p = tcpPort proxyPort ∨
  (p = tcpPort SidecarPort ∧ pgAdminEnabled console = true ∧ OperatorImage ≠ "").
Proof.
  unfold ingressPorts. destruct (pgAdminEnabled console); cbn [andb].
  - destruct (String.eqb_spec OperatorImage ""); cbn [negb]; set_solver.
  - set_solver.
Qed.

Lemma authenticationEgressPorts_elem console p :
  p ∈ authenticationEgressPorts console ↔
  p = tcpPort kubeAPIServerPort ∨
  ∃ oidc, console.(PC_Spec).(CS_Authentication).(PA_OIDC) = Some oidc ∧
    p = tcpPort (issuerPort oidc.(PO_IssuerURL)).
Proof.
  unfold authenticationEgressPorts. destruct (PA_OIDC _) as [oidc|]; [|set_solver].
  destruct (Z.eqb_spec (issuerPort (PO_IssuerURL oidc)) kubeAPIServerPort) as [He|He]; cbn [negb].
  - rewrite list_elem_of_singleton, <-He. naive_solver.
  - rewrite elem_of_app, !list_elem_of_singleton. naive_solver.
Qed.

Lemma spec_defaulted console rule :
  rule ∈ (policy_spec OperatorImage console).(NPS_Egress) → Forall defaulted_port rule.(ER_Ports).
Proof.
  intros Hin. apply Forall_forall. intros p Hp. unfold policy_spec in Hin.
  destruct (String.eqb _ _); cbn [NPS_Egress] in Hin; [set_solver|].
  rewrite !elem_of_app in Hin.
  destruct Hin as [->%list_elem_of_singleton|[->%list_elem_of_singleton|[Hin|(r & -> & Hr)%list_elem_of_fmap]]].
  - cbn in Hp. rewrite !elem_of_cons in Hp.
    destruct Hp as [->|[->|[->|[->|[]%not_elem_of_nil]]]]; by eexists.
  - apply authenticationEgressPorts_elem in Hp as [->|(? & _ & ->)]; apply tcpPort_defaulted.
  - destruct (pgAdminEnabled console); [|set_solver]. apply list_elem_of_singleton in Hin as ->.
    apply list_elem_of_singleton in Hp as ->. apply tcpPort_defaulted.
  - apply list_elem_of_fmap in Hp as (q & -> & _). apply materialize_defaulted.
Qed.

Section rules.
Context (console : PgConsole) {Dest : Type} (labels_of : Dest → gmap string string).
Context (resolve : Dest → string → Z) (other : string → Dest → bool).
Context (dest : Dest) (protocol : string) (port : Z).

Lemma none_or_true {A} (f : A → bool) x l :
  none_or f (x :: l) = true ↔ ∃ y, y ∈ x :: l ∧ f y = true.
Proof. unfold none_or. rewrite existsb_exists. setoid_rewrite list_elem_of_In. done. Qed.

Lemma any_peer_allows ports :
  rule_allows labels_of resolve other (mkEgressRule ports []) dest protocol port =
  none_or (λ p, port_allows resolve p dest protocol port) ports.
Proof. unfold rule_allows. cbn [ER_Ports ER_To]. by rewrite andb_true_r. Qed.

Lemma dns_allows :
  existsb (λ r, rule_allows labels_of resolve other r dest protocol port) [dnsEgressRule] = true ↔
  protocol ∈ [ProtocolTCP; ProtocolUDP] ∧ port ∈ [dnsPort; openshiftDNSPort].
Proof.
  cbn [existsb]. rewrite orb_false_r. unfold dnsEgressRule. rewrite any_peer_allows, none_or_true.
  rewrite !elem_of_cons, !elem_of_nil. split.
  - intros (p & Hp & Ha). rewrite !elem_of_cons, elem_of_nil in Hp.
    destruct Hp as [->|[->|[->|[->|[]]]]]; apply port_allows_number in Ha as [-> ->]; tauto.
  - intros [[->|[->|[]]] [->|[->|[]]]]; (eexists; split; [|by apply port_allows_number]); set_solver.
Qed.

Lemma authentication_allows :
  existsb (λ r, rule_allows labels_of resolve other r dest protocol port)
    [mkEgressRule (authenticationEgressPorts console) []] = true ↔
  protocol = ProtocolTCP ∧
  (port = kubeAPIServerPort ∨
   ∃ oidc, console.(PC_Spec).(CS_Authentication).(PA_OIDC) = Some oidc ∧
     port = issuerPort oidc.(PO_IssuerURL)).
Proof.
  cbn [existsb]. rewrite orb_false_r, any_peer_allows.
  assert (∃ x l, authenticationEgressPorts console = x :: l) as (x & l & Hl).
  { unfold authenticationEgressPorts. destruct (PA_OIDC _); [|by eexists _, _].
    destruct (negb _); by eexists _, _. }
  rewrite Hl, none_or_true. setoid_rewrite <-Hl. setoid_rewrite authenticationEgressPorts_elem. split.
  - intros (p & [->|(oidc & Ho & ->)] & [-> ->]%port_allows_number); eauto.
  - intros [-> [->|(oidc & Ho & ->)]]; (eexists; split; [|by apply port_allows_number]); eauto.
Qed.

Lemma postgres_allows cluster :
  rule_allows labels_of resolve other
    (mkEgressRule [tcpPort postgresPort] [PodPeer {[cnpgClusterLabel := cluster]}])
    dest protocol port = true ↔
  true = true ∧ protocol = ProtocolTCP ∧ port = postgresPort ∧
  labels_of dest !! cnpgClusterLabel = Some cluster.
Proof.
  unfold rule_allows. cbn [ER_Ports ER_To none_or existsb peer_allows]. rewrite !orb_false_r.
  rewrite andb_true_iff. unfold tcpPort. rewrite port_allows_number, bool_decide_eq_true.
  rewrite map_singleton_subseteq_l. naive_solver.
Qed.
End rules.

Lemma policy_selector console :
  (policy_spec OperatorImage console).(NPS_PodSelector) = SelectorLabels application (PC_Name console).
Proof. unfold policy_spec. by destruct (String.eqb _ NetworkPolicyTypesIngress). Qed.

Lemma policy_ingress console :
  (policy_spec OperatorImage console).(NPS_Ingress) = [ingressPorts OperatorImage console].
Proof. unfold policy_spec. by destruct (String.eqb _ NetworkPolicyTypesIngress). Qed.

Lemma policy_ingress_only console :
  console.(PC_Spec).(CS_NetworkPolicy).(NP_PolicyTypes) = NetworkPolicyTypesIngress →
  (policy_spec OperatorImage console).(NPS_PolicyTypes) = [PolicyTypeIngress] ∧
  (policy_spec OperatorImage console).(NPS_Egress) = [].
Proof. unfold policy_spec. intros ->. by rewrite String.eqb_refl. Qed.

Lemma policy_materialized console rule :
  rule ∈ (policy_spec OperatorImage console).(NPS_Egress) → materialize_rule rule = rule.
Proof.
  intros Hp%spec_defaulted. destruct rule as [ports to]. unfold materialize_rule. cbn in *. f_equal.
  induction Hp as [|p l Hp _ IH]; [done|]. rewrite fmap_cons, IH. by rewrite materialize_stable.
Qed.

Lemma ingress_allows console {Dest : Type} resolve (dest : Dest) protocol port :
  existsb (λ q, port_allows resolve q dest protocol port) (ingressPorts OperatorImage console) = true →
  protocol = ProtocolTCP ∧ (port ∉ [consolePort; pgAdminPort]) ∧
  (port = proxyPort ∨ (port = SidecarPort ∧ pgAdminEnabled console = true ∧ OperatorImage ≠ "")).
Proof.
  rewrite existsb_exists. setoid_rewrite <-list_elem_of_In. setoid_rewrite ingressPorts_elem.
  intros (p & [->|(-> & Hrest)] & [-> ->]%port_allows_number).
  - split_and!; [done| |by left]. compute_decide.
  - split_and!; [done| |by right]. compute_decide.
Qed.

(** The egress of a full policy, as what it lets through. *)
Lemma policy_egress console {Dest : Type} (labels_of : Dest → gmap string string) resolve other
    (dest : Dest) protocol port :
  console.(PC_Spec).(CS_NetworkPolicy).(NP_PolicyTypes) ≠ NetworkPolicyTypesIngress →
  egress_allowed labels_of resolve other (policy_spec OperatorImage console) dest protocol port = true ↔
  (protocol ∈ [ProtocolTCP; ProtocolUDP] ∧ port ∈ [dnsPort; openshiftDNSPort]) ∨
  (protocol = ProtocolTCP ∧
   (port = kubeAPIServerPort ∨
    ∃ oidc, console.(PC_Spec).(CS_Authentication).(PA_OIDC) = Some oidc ∧
      port = issuerPort oidc.(PO_IssuerURL))) ∨
  (pgAdminEnabled console = true ∧ protocol = ProtocolTCP ∧ port = postgresPort ∧
   labels_of dest !! cnpgClusterLabel = Some console.(PC_Spec).(CS_CNPGClusterRef)) ∨
  ∃ rule, rule ∈ console.(PC_Spec).(CS_NetworkPolicy).(NP_ExtraEgress) ∧
    rule_allows labels_of resolve other rule dest protocol port = true.
Proof.
  intros Hmode. unfold policy_spec. rewrite (proj2 (String.eqb_neq _ _) Hmode).
  unfold egress_allowed. cbn [NPS_PolicyTypes NPS_Egress].
  replace (existsb _ [PolicyTypeIngress; PolicyTypeEgress]) with true by done.
  cbn [negb orb]. rewrite !existsb_app, !orb_true_iff. f_equiv; [|f_equiv; [|f_equiv]].
  - apply dns_allows.
  - apply authentication_allows.
  - destruct (pgAdminEnabled console); cbn [existsb]; [|naive_solver]. rewrite orb_false_r.
    apply postgres_allows.
  - rewrite existsb_exists. split.
    + intros (r & (x & -> & Hx)%list_elem_of_In%list_elem_of_fmap & Hr). exists x.
      by rewrite rule_allows_materialize in Hr.
    + intros (x & Hx & Hr). exists (materialize_rule x). rewrite rule_allows_materialize.
      split; [|done]. apply list_elem_of_In, list_elem_of_fmap. eauto.
Qed.
End content.

(** ** The reconcile *)

Section theorems.
Context `{G : GoLib} `{K : Machinery} {W : Type} `{C : Client W}.
Context `{CL : !ClientLaws C} `{KL : !MachineryLaws K}.
Context (OperatorImage : string).

Definition policyKey (console : PgConsole) : ObjectKey :=
  (PC_Namespace console, ResourceName application (PC_Name console) "").

Definition policy_labels (console : PgConsole) : gmap string string :=
  CommonLabels application (PC_Name console).

Definition ownedPolicy (console : PgConsole) : NetworkPolicy :=
  mkNetworkPolicy
    (new_meta (ResourceName application (PC_Name console) "") (PC_Namespace console)
       (policy_labels console) (Some (PC_UID console)))
    (policy_spec OperatorImage console).

Lemma networkPolicy_owned console : networkPolicy OperatorImage console = Ok (ownedPolicy console).
Proof using KL. unfold networkPolicy. by rewrite SetControllerReference_ok. Qed.

Lemma ownedPolicy_key console : key_of (NP_Meta (ownedPolicy console)) = policyKey console.
Proof using. reflexivity. Qed.

Lemma refreshed_policy_key existing desired :
  key_of (NP_Meta (refreshed_policy existing desired)) = key_of (NP_Meta existing).
Proof using. reflexivity. Qed.

Lemma refreshed_policy_gone existing desired : gone (NP_Meta (refreshed_policy existing desired)) = gone (NP_Meta existing).
Proof using. done. Qed.

(** A stored policy is the one the console wants. *)
Record policy_wanted (console : PgConsole) (p : NetworkPolicy) : Prop := {
  pw_spec : p.(NP_Spec) = policy_spec OperatorImage console;
  pw_labels : LabelsContain p.(NP_Meta).(M_Labels) (policy_labels console) = true
}.

Lemma ownedPolicy_labels console : M_Labels (NP_Meta (ownedPolicy console)) = policy_labels console.
Proof using. reflexivity. Qed.

Lemma ownedPolicy_controller console :
  M_Controller (NP_Meta (ownedPolicy console)) = Some (PC_UID console).
Proof using. reflexivity. Qed.

#[local] Opaque policy_spec policy_labels ResourceName CommonLabels.

Lemma networkPolicyMatches_true console p :
  networkPolicyMatches p (ownedPolicy console) = true ↔
  policy_wanted console p ∧ p.(NP_Meta).(M_Controller) = Some (PC_UID console).
Proof using KL.
  unfold networkPolicyMatches.
  rewrite !andb_true_iff, ControllerOwnerMatches_true, DeepEqual_policy_true,
    ownedPolicy_labels, ownedPolicy_controller. split.
  - intros [[Hl (uid & Ho & Hu)] Hs]. split; [split|]; [exact Hs|exact Hl|congruence].
  - intros [[Hs Hl] Ho]. split; [split|]; [exact Hl|eauto|exact Hs].
Qed.

Lemma refreshed_stored console (existing p : NetworkPolicy) :
  content (k := KNetworkPolicy) p = content (k := KNetworkPolicy) (refreshed_policy existing (ownedPolicy console)) →
  policy_wanted console p ∧ p.(NP_Meta).(M_Controller) = existing.(NP_Meta).(M_Controller).
Proof using.
  intros H. pose proof (content_meta _ _ H) as Hm. unfold unstamp in Hm. cbn [meta refreshed_policy] in Hm.
  injection Hm as _ _ Hl _ Ho _. split; [|done]. split.
  - exact (f_equal NP_Spec H).
  - rewrite Hl. apply LabelsContain_refl.
Qed.

Lemma created_stored console (p : NetworkPolicy) :
  content (k := KNetworkPolicy) p = content (k := KNetworkPolicy) (ownedPolicy console) →
  policy_wanted console p ∧ p.(NP_Meta).(M_Controller) = Some (PC_UID console).
Proof using.
  intros H. pose proof (content_meta _ _ H) as Hm. unfold unstamp in Hm. cbn [meta] in Hm.
  injection Hm as _ _ Hl _ Ho _. split; [|done]. split.
  - exact (f_equal NP_Spec H).
  - rewrite Hl. apply LabelsContain_refl.
Qed.

(** What one pass with the policy enabled can do. *)
Lemma reconcile_enabled console w r w' :
  reconcileNetworkPolicy OperatorImage console w = (r, w') →
  networkPolicyEnabled console = true →
  cached w KNetworkPolicy (policyKey console) = view w KNetworkPolicy (policyKey console) →
  (untouched w w' ∧
   (r = Ok () → ∃ p, view w KNetworkPolicy (policyKey console) = Some p ∧ policy_wanted console p ∧
      p.(NP_Meta).(M_Controller) = Some (PC_UID console))) ∨
  (log w' = log w ++ [(if view w KNetworkPolicy (policyKey console) is Some _ then VUpdate else VCreate,
                       KNetworkPolicy, policyKey console)] ∧
   elsewhere w w' KNetworkPolicy (policyKey console) ∧
   (∀ p, view w KNetworkPolicy (policyKey console) = Some p →
      ¬ (policy_wanted console p ∧ p.(NP_Meta).(M_Controller) = Some (PC_UID console))) ∧
   (r = Ok () → ∃ p, view w' KNetworkPolicy (policyKey console) = Some p ∧ policy_wanted console p ∧
      p.(NP_Meta).(M_Controller) =
        from_option (λ p, p.(NP_Meta).(M_Controller)) (Some (PC_UID console))
          (view w KNetworkPolicy (policyKey console)))).
Proof using CL KL.
  intros H He Hsync. unfold reconcileNetworkPolicy in H. rewrite networkPolicy_owned, He in H. cbn [negb] in H.
  pose proof (networkPolicyMatches_true console) as Hmatch.
  pose proof (refreshed_stored console) as Hrefreshed.
  pose proof (created_stored console) as Hcreated.
  pose proof (ownedPolicy_key console) as Hkey.
  generalize dependent (ownedPolicy console). intros desired H Hmatch Hrefreshed Hcreated Hkey.
  run_in H; learn; rebase; cbn [meta] in *; rewrite ?refreshed_policy_key, ?refreshed_policy_gone, ?Hkey, ?Hsync in *;
    try rewrite (view_kept w KNetworkPolicy _ _ Hr : gone (NP_Meta a) = false) in *;
    try rewrite (view_key w KNetworkPolicy _ _ Hr : key_of (NP_Meta a) = _) in *.
  - left. split; [done|]. intros _. exists a. split; [done|]. by apply Hmatch.
  - right. split_and!; [by rewrite Hr| | |].
    + destruct r; rebase; auto with pgtb.
    + intros p Hp Hw'%Hmatch. congruence.
    + intros ->. rebase. eexists. split; [done|]. rewrite Hr. cbn [from_option]. by apply Hrefreshed.
  - right. specialize (Hr Heqb). split_and!; [by rewrite Hr| | |].
    + destruct r; rebase; auto with pgtb.
    + congruence.
    + intros ->. rebase. eexists. split; [done|]. rewrite Hr. cbn [from_option]. by apply Hcreated.
  - left. by split.
Qed.

(** What one pass with the policy disabled can do. *)
Lemma reconcile_disabled console w r w' :
  reconcileNetworkPolicy OperatorImage console w = (r, w') →
  networkPolicyEnabled console = false →
  cached w KNetworkPolicy (policyKey console) = view w KNetworkPolicy (policyKey console) →
  (untouched w w' ∧
   (r = Ok () → ∀ p, view w KNetworkPolicy (policyKey console) = Some p →
      p.(NP_Meta).(M_Controller) ≠ Some (PC_UID console))) ∨
  (∃ p, view w KNetworkPolicy (policyKey console) = Some p ∧
   p.(NP_Meta).(M_Controller) = Some (PC_UID console) ∧
   log w' = log w ++ [(VDelete, KNetworkPolicy, policyKey console)] ∧
   elsewhere w w' KNetworkPolicy (policyKey console) ∧
   (r = Ok () → delete_made (view w KNetworkPolicy (policyKey console))
      (view w' KNetworkPolicy (policyKey console)))).
Proof using CL.
  intros H He Hsync. unfold reconcileNetworkPolicy in H. rewrite He in H. cbn [negb] in H.
  unfold deleteNetworkPolicyIfOwned in H. fold (policyKey console) in H.
  generalize dependent (policyKey console). intros key H Hsync.
  run_in H; learn; rebase; cbn [meta] in *; rewrite ?Hsync in *;
    try rewrite (view_key w KNetworkPolicy _ _ Hr : key_of (NP_Meta a) = _) in *.
  - left. split; [done|]. intros _ p Hp Ho.
    assert (s = PC_UID console) as -> by congruence. by rewrite String.eqb_refl in Heqb.
  - right. exists a. rewrite negb_false, String.eqb_eq in Heqb. subst s. rewrite Hr in *. by split_and!.
  - right. exists a. rewrite negb_false, String.eqb_eq in Heqb. subst s.
    split_and!; auto with pgtb. intros ?. destruct (IsNotFound e); [|done].
    specialize (H eq_refl). destruct H. congruence.
  - left. split; [done|]. intros _ p Hp Ho. congruence.
  - left. split; [done|]. intros _ p Hp. specialize (Hr Heqb). congruence.
  - left. by split.
Qed.


(** C21: A pass over a synced cache that returns no error leaves the policy as the
    console asks: present with the desired rules and labels when it is enabled,
    and not there under the console's ownership when it is disabled, unless a
    finalizer somebody put on it holds it while it is being deleted. When the
    console's own policy is already as desired nothing is written. A policy
    that somebody else controls survives being disabled, but an enabled pass
    overwrites its rules and leaves the owner as it was, so the next pass
    overwrites it again and the reconcile never settles. No other object is
    touched, and at most one write is sent. *)
Theorem policy_reconciled console w r w' :
  reconcileNetworkPolicy OperatorImage console w = (r, w') →
  cached w KNetworkPolicy (policyKey console) = view w KNetworkPolicy (policyKey console) →
  let owned (p : NetworkPolicy) := p.(NP_Meta).(M_Controller) = Some (PC_UID console) in
  let old := view w KNetworkPolicy (policyKey console) in
  let new := view w' KNetworkPolicy (policyKey console) in
  (r = Ok () →
   if networkPolicyEnabled console then
     ∃ p, new = Some p ∧ policy_wanted console p ∧
       ∀ p0, old = Some p0 → p.(NP_Meta).(M_Controller) = p0.(NP_Meta).(M_Controller)
   else ∀ p, new = Some p → owned p →
     p.(NP_Meta).(M_Deleting) = true ∧ ∃ p0, old = Some p0 ∧ p0.(NP_Meta).(M_Finalizers) ≠ []) ∧
  (∀ p, old = Some p → networkPolicyEnabled console = true → policy_wanted console p → owned p →
     untouched w w') ∧
  (∀ p, old = Some p → ¬ owned p →
     if networkPolicyEnabled console then
       r = Ok () → log w' = log w ++ [(VUpdate, KNetworkPolicy, policyKey console)]
     else untouched w w') ∧
  (untouched w w' ∨
   ∃ v, log w' = log w ++ [(v, KNetworkPolicy, policyKey console)] ∧
     elsewhere w w' KNetworkPolicy (policyKey console)).
Proof using CL KL.
  intros H Hsync owned old new. destruct (networkPolicyEnabled console) eqn:He.
  - apply reconcile_enabled in H as [[Hu Hok]|(Hl & He' & Hnot & Hok)]; [| |done..].
    + split_and!; [|done| |by left].
      * intros [p (Hp & Hw & Ho)]%Hok. exists p. unfold new.
        rewrite (untouched_lookup _ _ _ _ Hu). split_and!; [done..|]. intros p0 Hp0. unfold old in Hp0. congruence.
      * intros p Hp Ho (q & Hq & _ & Hoq)%Hok. unfold old in Hp. destruct Ho. red. congruence.
    + split_and!.
      * intros [p (Hp & Hw & Ho)]%Hok. exists p. split_and!; [done..|]. intros p0 Hp0. unfold old in Hp0.
        by rewrite Hp0 in Ho.
      * intros p Hp _ Hw Ho. by destruct (Hnot p Hp).
      * intros p Hp Ho _. unfold old in Hp. by rewrite Hp in Hl.
      * right. by eexists.
  - apply reconcile_disabled in H as [[Hu Hok]|(p & Hp & Ho & Hl & He' & Hok)]; [| |done..].
    + split_and!; [|done|done|by left]. intros Hr p. unfold new. rewrite (untouched_lookup _ _ _ _ Hu).
      intros Hp Ho. by destruct (Hok Hr p Hp).
    + split_and!; [|done| |right; by eexists].
      * intros Hr q Hq _. by destruct (delete_left (k := KNetworkPolicy) _ _ (Hok Hr) q Hq) as (p0 & ? & ? & _ & ? & _); eauto.
      * intros q Hq Hno. unfold old in Hq. destruct Hno. red. congruence.
Qed.
End theorems.

(** ** A policy of somebody else under the generated name *)

Definition foreign_policy : NetworkPolicy :=
  mkNetworkPolicy (mkMeta "c-pgconsole" "ns" "p1" ∅ ∅ (Some "someone") "7" 1 false [])
    (mkPolicySpec ∅ [PolicyTypeIngress] [] []).

Definition foreign_store (k : kind) : gmap ObjectKey (object k) :=
  match k with
  | KNetworkPolicy => {[("ns", "c-pgconsole") := foreign_policy]}
  | _ => ∅
  end.

Definition demo_foreign : demo := mkDemo foreign_store foreign_store [] [] 1.


(** The overwritten policy keeps its owner, so the second pass writes again. *)
Lemma policy_reconciled_witness :
  let first := (reconcileNetworkPolicy "operator" demo_console demo_foreign).2 in
  ∃ p, view first KNetworkPolicy ("ns", "c-pgconsole") = Some p ∧
  policy_wanted "operator" demo_console p ∧ p.(NP_Meta).(M_Controller) = Some "someone" ∧
  log first = [(VUpdate, KNetworkPolicy, ("ns", "c-pgconsole"))].
Proof.
  intros first.
  destruct (policy_reconciled "operator" demo_console demo_foreign _ _ (surjective_pairing _))
    as (H & _ & Ho & _); [reflexivity|].
  cbn [networkPolicyEnabled] in *.
  destruct H as (p & Hp & Hw & Hc); [vm_compute; reflexivity|].
  exists p. split; [exact Hp|]. split; [exact Hw|]. split.
  - rewrite (Hc foreign_policy); [reflexivity|vm_compute; reflexivity].
  - apply (Ho foreign_policy); [vm_compute; reflexivity|vm_compute; discriminate|vm_compute; reflexivity].
Defined.
