(* ===== verification/ConsoleConfig.v ===== *)
(** * The environment of the console container ([consoleconfig.go])

    The capabilities and tunables of a [PgConsole] as the variables the
    console application reads, in their fixed order, and the check of the
    values the application would refuse. [time.Duration.String] is written out
    with the units and the fraction of the standard library. *)

From S2P Require Import Prelude GoUtf8 GoStrings ApiTypes NetPolicy.

(** ** [time.Duration] *)

Definition Nanosecond : Z := 1.
Definition Microsecond : Z := 1000 * Nanosecond.
Definition Millisecond : Z := 1000 * Microsecond.
Definition Second : Z := 1000 * Millisecond.
Definition Minute : Z := 60 * Second.
Definition Hour : Z := 60 * Minute.

(** [fmtFrac]: the fraction of [v/10^prec] without trailing zeros, and the
    integer part. *)
Fixpoint fmtFrac (prec : nat) (v : Z) (acc : string) (print : bool) : string * Z :=
  match prec with
  | O => (if print then "." +:+ acc else acc, v)
  | S prec =>
      let d := (v mod 10)%Z in
      let print := print || negb (d =? 0)%Z in
      fmtFrac prec (v / 10)%Z (if print then String (digit d) acc else acc) print
  end.

Definition unit_String (prec : nat) (u : Z) (name : string) : string :=
  let '(frac, v) := fmtFrac prec u "" false in Itoa v +:+ frac +:+ name.

Definition seconds_String (u : Z) : string :=
  let '(frac, v) := fmtFrac 9 u "" false in
  let s := Itoa (v mod 60) +:+ frac +:+ "s" in
  if (v / 60 =? 0)%Z then s
  else
    let m := Itoa (v / 60 mod 60) +:+ "m" +:+ s in
    if (v / 60 / 60 =? 0)%Z then m else Itoa (v / 60 / 60) +:+ "h" +:+ m.

Definition Duration_String (d : Z) : string :=
  let u := Z.abs d in
  let s := if (u =? 0)%Z then "0s"
           else if (u <? Microsecond)%Z then unit_String 0 u "ns"
           else if (u <? Millisecond)%Z then unit_String 3 u "µs"
           else if (u <? Second)%Z then unit_String 6 u "ms"
           else seconds_String u in
  if (d <? 0)%Z then "-" +:+ s else s.

Example duration_hour : Duration_String Hour = "1h0m0s".
Proof. vm_compute. reflexivity. Qed.
Example duration_frac : Duration_String (90 * Second + 250 * Millisecond) = "1m30.25s".
Proof. vm_compute. reflexivity. Qed.
Example duration_small : Duration_String (- (1500 * Microsecond)) = "-1.5ms".
Proof. vm_compute. reflexivity. Qed.

(** ** Capabilities *)

Definition consoleTrustedUserHeader : string := "X-Forwarded-User".
Definition consoleTrustedLevelHeader : string := "X-PgToolBox-Level".
Definition pgAdminLinkPath : string := "/pgadmin".

Definition minEventsMaxAge : Z := Minute.
Definition maxEventsMaxAge : Z := 24 * Hour.
Definition minAPIRequestTimeout : Z := Second.
Definition maxAPIRequestTimeout : Z := Minute.
Definition minHistoryCoalesceWindow : Z := Second.
Definition maxHistoryCoalesceWindow : Z := Hour.
Definition minMetricsInterval : Z := 5 * Second.
Definition maxMetricsInterval : Z := 5 * Minute.
Definition minMetricsRetention : Z := Hour.
Definition maxMetricsRetention : Z := 30 * 24 * Hour.

Definition or_true (b : option bool) : bool := default true b.
Definition or_false (b : option bool) : bool := default false b.

Definition consoleAllowOperations (c : PgConsole) : bool :=
  or_true c.(PC_Spec).(CS_Console).(CO_AllowOperations).
Definition consoleAllowLogs (c : PgConsole) : bool :=
  or_true c.(PC_Spec).(CS_Console).(CO_AllowLogs).
Definition consoleAllowAccessReview (c : PgConsole) : bool :=
  or_true c.(PC_Spec).(CS_Console).(CO_AllowAccessReview).
Definition consoleAllowClusterCatalogs (c : PgConsole) : bool :=
  or_false c.(PC_Spec).(CS_Console).(CO_AllowClusterCatalogs).
Definition consoleAllowInsecureLinks (c : PgConsole) : bool :=
  or_false c.(PC_Spec).(CS_Console).(CO_AllowInsecureLinks).
Definition consoleHistoryEnabled (c : PgConsole) : bool :=
  or_true c.(PC_Spec).(CS_Console).(CO_History).(HI_Enabled).
Definition consoleMetricsEnabled (c : PgConsole) : bool :=
  or_true c.(PC_Spec).(CS_Console).(CO_Metrics).(ME_Enabled).

Definition consolePgAdminURL (c : PgConsole) : string :=
  if pgAdminEnabled c then pgAdminLinkPath else "".

(** ** The environment *)

Definition boolString (b : bool) : string := if b then "true" else "false".
Definition int32String (n : Z) : string := Itoa n.

(** A variable that is rendered only when its field is set. *)
Definition set_env {A} (name : string) (render : A → string) (v : option A) : list EnvVar :=
  match v with Some a => [mkEnv name (render a)] | None => [] end.

Definition nonempty (s : string) : option string := if is_empty s then None else Some s.

Definition consoleEnv (c : PgConsole) : list EnvVar :=
  let spec := c.(PC_Spec).(CS_Console) in
  [mkEnv "CLUSTER_NAME" c.(PC_Spec).(CS_CNPGClusterRef);
   mkEnv "NAMESPACE" (PC_Namespace c);
   mkEnv "TRUSTED_USER_HEADER" consoleTrustedUserHeader;
   mkEnv "TRUSTED_LEVEL_HEADER" consoleTrustedLevelHeader;
   mkEnv "ALLOW_OPERATIONS" (boolString (consoleAllowOperations c));
   mkEnv "ALLOW_LOGS" (boolString (consoleAllowLogs c));
   mkEnv "ALLOW_ACCESS_REVIEW" (boolString (consoleAllowAccessReview c));
   mkEnv "ALLOW_CLUSTER_CATALOGS" (boolString (consoleAllowClusterCatalogs c));
   mkEnv "ALLOW_INSECURE_LINKS" (boolString (consoleAllowInsecureLinks c))]
  ++ set_env "LOG_TAIL_LINES" int32String spec.(CO_LogTail).(LT_Lines)
  ++ set_env "LOG_TAIL_MAX_BYTES" int32String spec.(CO_LogTail).(LT_MaxBytes)
  ++ set_env "EVENTS_MAX_AGE" Duration_String spec.(CO_EventsMaxAge)
  ++ set_env "API_REQUEST_TIMEOUT" Duration_String spec.(CO_APIRequestTimeout)
  ++ [mkEnv "HISTORY_ENABLED" (boolString (consoleHistoryEnabled c))]
  ++ set_env "HISTORY_MAX_REVISIONS" int32String spec.(CO_History).(HI_MaxRevisions)
  ++ set_env "HISTORY_MAX_BYTES" int32String spec.(CO_History).(HI_MaxBytes)
  ++ set_env "HISTORY_PER_OBJECT_REVISIONS" int32String spec.(CO_History).(HI_PerObjectRevisions)
  ++ set_env "HISTORY_COALESCE_WINDOW" Duration_String spec.(CO_History).(HI_CoalesceWindow)
  ++ [mkEnv "METRICS_ENABLED" (boolString (consoleMetricsEnabled c))]
  ++ set_env "METRICS_INTERVAL" Duration_String spec.(CO_Metrics).(ME_Interval)
  ++ set_env "METRICS_RETENTION" Duration_String spec.(CO_Metrics).(ME_Retention)
  ++ set_env "PGADMIN_URL" id (nonempty (consolePgAdminURL c))
  ++ set_env "MONITORING_URL" id (nonempty spec.(CO_MonitoringURL)).

(** ** The check *)

(** One row of the table of durations: field, value, bounds. *)
Definition duration_row : Type := string * option Z * Z * Z.

Definition console_durations (c : PgConsole) : list duration_row :=
  let spec := c.(PC_Spec).(CS_Console) in
  [("spec.console.eventsMaxAge", spec.(CO_EventsMaxAge), minEventsMaxAge, maxEventsMaxAge);
   ("spec.console.apiRequestTimeout", spec.(CO_APIRequestTimeout), minAPIRequestTimeout, maxAPIRequestTimeout);
   ("spec.console.history.coalesceWindow", spec.(CO_History).(HI_CoalesceWindow),
     minHistoryCoalesceWindow, maxHistoryCoalesceWindow);
   ("spec.console.metrics.interval", spec.(CO_Metrics).(ME_Interval), minMetricsInterval, maxMetricsInterval);
   ("spec.console.metrics.retention", spec.(CO_Metrics).(ME_Retention), minMetricsRetention, maxMetricsRetention)].

Definition row_outside (d : duration_row) : bool :=
  let '(_, v, lo, hi) := d in
  match v with Some v => (v <? lo)%Z || (hi <? v)%Z | None => false end.

Definition row_error (d : duration_row) : string :=
  let '(field, _, lo, hi) := d in
  field +:+ " must be between " +:+ Duration_String lo +:+ " and " +:+ Duration_String hi.

Definition validateConsoleSpec (c : PgConsole) : result string unit :=
  match first_such row_outside (console_durations c) with
  | Some d => Err (row_error d)
  | None =>
      if HasPrefix c.(PC_Spec).(CS_Console).(CO_MonitoringURL) "http://" && negb (consoleAllowInsecureLinks c)
      then Err "spec.console.monitoringURL must use https unless spec.console.allowInsecureLinks is true"
      else Ok tt
  end.

(** ** What the console is given *)

(** The variables the console knows, in the order they are rendered. *)
Definition env_order : list string :=
  ["CLUSTER_NAME"; "NAMESPACE"; "TRUSTED_USER_HEADER"; "TRUSTED_LEVEL_HEADER"; "ALLOW_OPERATIONS";
   "ALLOW_LOGS"; "ALLOW_ACCESS_REVIEW"; "ALLOW_CLUSTER_CATALOGS"; "ALLOW_INSECURE_LINKS";
   "LOG_TAIL_LINES"; "LOG_TAIL_MAX_BYTES"; "EVENTS_MAX_AGE"; "API_REQUEST_TIMEOUT"; "HISTORY_ENABLED";
   "HISTORY_MAX_REVISIONS"; "HISTORY_MAX_BYTES"; "HISTORY_PER_OBJECT_REVISIONS"; "HISTORY_COALESCE_WINDOW";
   "METRICS_ENABLED"; "METRICS_INTERVAL"; "METRICS_RETENTION"; "PGADMIN_URL"; "MONITORING_URL"].

Definition env_value (name : string) (env : list EnvVar) : option string :=
  EN_Value <$> first_such (λ e, String.eqb e.(EN_Name) name) env.

(** An optional duration between two bounds. *)
Definition within (lo hi : Z) (v : option Z) : Prop := ∀ d, v = Some d → (lo ≤ d ≤ hi)%Z.

(** The bounds of the durations and the rule of the link-out. *)
Record console_acceptable (c : PgConsole) : Prop := {
  ca_events : within Minute (24 * Hour) c.(PC_Spec).(CS_Console).(CO_EventsMaxAge);
  ca_timeout : within Second Minute c.(PC_Spec).(CS_Console).(CO_APIRequestTimeout);
  ca_window : within Second Hour c.(PC_Spec).(CS_Console).(CO_History).(HI_CoalesceWindow);
  ca_interval : within (5 * Second) (5 * Minute) c.(PC_Spec).(CS_Console).(CO_Metrics).(ME_Interval);
  ca_retention : within Hour (720 * Hour) c.(PC_Spec).(CS_Console).(CO_Metrics).(ME_Retention);
  ca_links : (∃ rest, c.(PC_Spec).(CS_Console).(CO_MonitoringURL) = "http://" +:+ rest) →
    c.(PC_Spec).(CS_Console).(CO_AllowInsecureLinks) = Some true
}.

Lemma set_env_names {A} name (render : A → string) v l k :
  EN_Name <$> l `sublist_of` k → EN_Name <$> (set_env name render v ++ l) `sublist_of` name :: k.
Proof. intros H. destruct v; cbn; by constructor. Qed.

Lemma consoleEnv_names c : EN_Name <$> consoleEnv c `sublist_of` env_order.
Proof.
  unfold consoleEnv, env_order. cbn [app fmap list_fmap EN_Name].
  repeat (apply sublist_skip || apply set_env_names || cbn [app fmap list_fmap EN_Name]).
  rewrite <-(app_nil_r (set_env "MONITORING_URL" _ _)). apply set_env_names. done.
Qed.

Lemma env_value_app name l k : env_value name (l ++ k) =
  match env_value name l with Some v => Some v | None => env_value name k end.
Proof.
  unfold env_value. induction l as [|e l IH]; [done|]. cbn. destruct (String.eqb _ _); [done|]. apply IH.
Qed.

Lemma env_value_set {A} n name (render : A → string) v :
  env_value n (set_env name render v) = if String.eqb name n then render <$> v else None.
Proof. destruct v; cbn; by destruct (String.eqb name n). Qed.

Lemma row_outside_false f v lo hi : row_outside (f, v, lo, hi) = false ↔ within lo hi v.
Proof.
  unfold row_outside, within. destruct v as [d|]; [|by split].
  rewrite orb_false_iff, !Z.ltb_ge. split; [by intros [? ?] ? [= <-]|]. intros H. by apply H.
Qed.

(** A console specification is accepted exactly when its durations lie in
    the documented bounds and its monitoring link uses https unless insecure
    links are allowed; and the environment is rendered in one fixed order with
    no variable twice, states every capability as a flag, names the identity
    headers the proxy sets, and offers pgAdmin, by a root-relative link,
    exactly when it is enabled. *)
Theorem console_configuration c :
  (validateConsoleSpec c = Ok tt ↔ console_acceptable c)
  ∧ EN_Name <$> consoleEnv c `sublist_of` env_order
  ∧ NoDup (EN_Name <$> consoleEnv c)
  ∧ (let value name := env_value name (consoleEnv c) in
     value "TRUSTED_USER_HEADER" = Some "X-Forwarded-User"
     ∧ value "TRUSTED_LEVEL_HEADER" = Some "X-PgToolBox-Level"
     ∧ value "ALLOW_OPERATIONS" = Some (boolString (consoleAllowOperations c))
     ∧ value "ALLOW_LOGS" = Some (boolString (consoleAllowLogs c))
     ∧ value "ALLOW_ACCESS_REVIEW" = Some (boolString (consoleAllowAccessReview c))
     ∧ value "ALLOW_CLUSTER_CATALOGS" = Some (boolString (consoleAllowClusterCatalogs c))
     ∧ value "ALLOW_INSECURE_LINKS" = Some (boolString (consoleAllowInsecureLinks c))
     ∧ value "EVENTS_MAX_AGE" = Duration_String <$> c.(PC_Spec).(CS_Console).(CO_EventsMaxAge)
     ∧ value "PGADMIN_URL" = (if pgAdminEnabled c then Some "/pgadmin" else None)).
Proof.
  split_and!.
  - unfold validateConsoleSpec. split.
    + destruct (first_such _ _) eqn:E; [done|]. rewrite first_such_None in E.
      assert (Hrow : ∀ f v lo hi, (f, v, lo, hi) ∈ console_durations c → within lo hi v)
        by (intros f v lo hi Hin%E; by apply row_outside_false in Hin).
      destruct (_ && _) eqn:Hl; [done|]. intros _.
      split; try (eapply Hrow; unfold console_durations; rewrite !elem_of_cons; by eauto 10).
      intros [rest Hr]. rewrite Hr in Hl. unfold consoleAllowInsecureLinks, or_false in Hl.
      rewrite (proj2 (HasPrefix_true _ _)) in Hl by eauto. cbn in Hl. by destruct (CO_AllowInsecureLinks _) as [[]|].
    + intros [H1 H2 H3 H4 H5 H6].
      assert (first_such row_outside (console_durations c) = None) as ->.
      { apply first_such_None. unfold console_durations. intros x. rewrite !elem_of_cons, elem_of_nil.
        intros [->|[->|[->|[->|[->|[]]]]]]; by apply row_outside_false. }
      destruct (HasPrefix _ _) eqn:Hp; [|done]. apply HasPrefix_true, H6 in Hp.
      unfold consoleAllowInsecureLinks, or_false. by rewrite Hp.
  - apply consoleEnv_names.
  - eapply sublist_NoDup; [|apply consoleEnv_names]. apply (bool_decide_unpack _). vm_compute. done.
  - intros value. split_and!; [done..| |]; unfold value; [unfold consoleEnv; rewrite !env_value_app, !env_value_set|].
    + cbn. by destruct (CO_EventsMaxAge _).
    + unfold consoleEnv, consolePgAdminURL. rewrite !env_value_app, !env_value_set. cbn.
      by destruct (pgAdminEnabled c).
Qed.
