(* ===== verification/Rbac.v ===== *)
(** * The authority of a console ([rbac.go])

    The read Role, the operate Role of the two capabilities that write, the
    opt-in cluster-scoped catalog pair, their bindings to the workload
    ServiceAccount, and the reconcile that applies or removes them. *)

From S2P Require Import Prelude GoUtf8 GoStrings GoLib ApiTypes Kube Shared Platform Users NetPolicy ConsoleConfig.

Definition cnpg : list string := ["postgresql.cnpg.io"].
Definition core : list string := [""].
Definition toolbox : list string := ["pgtoolbox.fyannk.dev"].
Definition read_verbs : list string := ["get"; "list"; "watch"].

Definition rule (groups resources verbs : list string) : PolicyRule := mkRule groups resources verbs [].

(** The rules of the read Role up to the log rule. *)
Definition read_rules_before (clusterName : string) : list PolicyRule :=
  [mkRule cnpg ["clusters"] ["get"] [clusterName];
   rule cnpg ["clusters"] ["watch"];
   rule cnpg ["backups"; "scheduledbackups"] read_verbs;
   rule cnpg ["poolers"] read_verbs;
   rule cnpg ["databases"; "databaseroles"; "publications"; "subscriptions"] read_verbs;
   rule ["apps"] ["replicasets"; "deployments"] ["get"];
   mkRule cnpg ["failoverquorums"] ["get"] [clusterName];
   rule cnpg ["failoverquorums"] ["watch"];
   rule cnpg ["imagecatalogs"] read_verbs;
   rule core ["pods"] read_verbs;
   rule core ["services"] read_verbs;
   rule core ["persistentvolumeclaims"] read_verbs;
   rule core ["events"] ["list"; "watch"];
   rule core ["resourcequotas"] ["list"; "watch"]].

(** Those after it. *)
Definition read_rules_after : list PolicyRule :=
  [rule core ["configmaps"; "serviceaccounts"] read_verbs;
   rule ["policy"] ["poddisruptionbudgets"] read_verbs;
   rule ["rbac.authorization.k8s.io"] ["roles"; "rolebindings"] read_verbs;
   rule ["batch"] ["jobs"] read_verbs;
   rule toolbox ["pgtoolboxaccessrequests"] ["create"]].

Definition readRules (r : Reconciler) (console : PgConsole) : list PolicyRule :=
  read_rules_before console.(PC_Spec).(CS_CNPGClusterRef)
  ++ when (consoleAllowLogs console) (rule core ["pods/log"] ["get"])
  ++ read_rules_after
  ++ when r.(RE_BarmanObjectStoreAvailable) (rule ["barmancloud.cnpg.io"] ["objectstores"] ["get"]).

Definition operation_rules (clusterName : string) : list PolicyRule :=
  [rule cnpg ["backups"] ["create"];
   mkRule cnpg ["clusters"] ["patch"] [clusterName];
   mkRule cnpg ["clusters/status"] ["patch"] [clusterName]].

Definition review_rules : list PolicyRule :=
  [rule toolbox ["pgtoolboxaccessrequests"] read_verbs;
   rule toolbox ["pgtoolboxaccessrequests/status"] ["update"; "patch"]].

Definition operateRules (console : PgConsole) : list PolicyRule :=
  (if consoleAllowOperations console then operation_rules console.(PC_Spec).(CS_CNPGClusterRef) else [])
  ++ (if consoleAllowAccessReview console then review_rules else []).

Definition catalog_rules : list PolicyRule := [rule cnpg ["clusterimagecatalogs"] ["get"]].

Section rbac.
Context `{G : GoLib} `{K : Machinery} {W : Type} `{C : Client W}.

(** A namespaced object of the console, before an owner is set on it. *)
Definition owned_meta (console : PgConsole) (suffix : string) : ObjectMeta :=
  new_meta (ResourceName application (PC_Name console) suffix) (PC_Namespace console)
    (CommonLabels application (PC_Name console)) None.

Definition workload_subject (console : PgConsole) : Subject :=
  mkSubject "ServiceAccount" (ResourceName application (PC_Name console) "") (PC_Namespace console).

Definition readRole (r : Reconciler) (console : PgConsole) : result error Role :=
  SetControllerReference console.(PC_Meta) KRole (mkRole (owned_meta console "") (readRules r console)).

Definition operateRole (console : PgConsole) : result error (option Role) :=
  match operateRules console with
  | [] => Ok None
  | rules =>
      role ← SetControllerReference console.(PC_Meta) KRole (mkRole (owned_meta console "-operate") rules);
      Ok (Some role)
  end.

Definition roleBinding (console : PgConsole) (suffix : string) : result error RoleBinding :=
  SetControllerReference console.(PC_Meta) KRoleBinding
    (mkRoleBinding (owned_meta console suffix)
       (mkRoleRef "rbac.authorization.k8s.io" "Role" (ResourceName application (PC_Name console) suffix))
       [workload_subject console]).

Definition catalogClusterRoleName (console : PgConsole) : string :=
  BoundedName (PC_Namespace console +:+ "-" +:+ PC_Name console) "-pgconsole-catalogs".

Definition catalog_meta (console : PgConsole) : ObjectMeta :=
  new_meta (catalogClusterRoleName console) "" (CommonLabels application (PC_Name console)) None.

Definition catalogClusterRole (console : PgConsole) : Role := mkRole (catalog_meta console) catalog_rules.

Definition catalogClusterRoleBinding (console : PgConsole) : RoleBinding :=
  mkRoleBinding (catalog_meta console)
    (mkRoleRef "rbac.authorization.k8s.io" "ClusterRole" (catalogClusterRoleName console))
    [workload_subject console].

(** What each [apply...] compares. *)
Definition role_matches (existing desired : Role) : bool :=
  metadataMatches existing.(RO_Meta) desired.(RO_Meta)
  && bool_decide (existing.(RO_Rules) = desired.(RO_Rules)).

Definition binding_matches (existing desired : RoleBinding) : bool :=
  metadataMatches existing.(RB_Meta) desired.(RB_Meta)
  && bool_decide (existing.(RB_RoleRef) = desired.(RB_RoleRef))
  && bool_decide (existing.(RB_Subjects) = desired.(RB_Subjects)).

Definition cluster_role_matches (existing desired : Role) : bool :=
  LabelsContain existing.(RO_Meta).(M_Labels) desired.(RO_Meta).(M_Labels)
  && bool_decide (existing.(RO_Rules) = desired.(RO_Rules)).

Definition cluster_binding_matches (existing desired : RoleBinding) : bool :=
  LabelsContain existing.(RB_Meta).(M_Labels) desired.(RB_Meta).(M_Labels)
  && bool_decide (existing.(RB_RoleRef) = desired.(RB_RoleRef))
  && bool_decide (existing.(RB_Subjects) = desired.(RB_Subjects)).

Definition applyRole (desired : Role) : M W () := discard (apply_unless KRole role_matches desired).
Definition applyRoleBinding (desired : RoleBinding) : M W () :=
  discard (apply_unless KRoleBinding binding_matches desired).
Definition applyClusterRole (desired : Role) : M W () :=
  discard (apply_unless KClusterRole cluster_role_matches desired).
Definition applyClusterRoleBinding (desired : RoleBinding) : M W () :=
  discard (apply_unless KClusterRoleBinding cluster_binding_matches desired).

Definition operate_key (console : PgConsole) : ObjectKey :=
  (PC_Namespace console, ResourceName application (PC_Name console) "-operate").

Definition deleteOperateRBAC (console : PgConsole) : M W () :=
  ignore_not_found (Delete KRole (operate_key console)) ≫= λ _,
  ignore_not_found (Delete KRoleBinding (operate_key console)).

Definition deleteCatalogClusterRBAC (console : PgConsole) : M W () :=
  ignore_not_found (Delete KClusterRole ("", catalogClusterRoleName console)) ≫= λ _,
  ignore_not_found (Delete KClusterRoleBinding ("", catalogClusterRoleName console)).

Definition reconcile_read_pair (r : Reconciler) (console : PgConsole) : M W () :=
  role ← of_result (readRole r console);
  applyRole role ≫= λ _,
  binding ← of_result (roleBinding console "");
  applyRoleBinding binding.

Definition reconcile_operate_pair (console : PgConsole) : M W () :=
  operate ← of_result (operateRole console);
  match operate with
  | None => deleteOperateRBAC console
  | Some role =>
      applyRole role ≫= λ _,
      binding ← of_result (roleBinding console "-operate");
      applyRoleBinding binding
  end.

Definition reconcile_catalog_pair (console : PgConsole) : M W () :=
  if consoleAllowClusterCatalogs console then
    applyClusterRole (catalogClusterRole console) ≫= λ _,
    applyClusterRoleBinding (catalogClusterRoleBinding console)
  else deleteCatalogClusterRBAC console.

Definition reconcileRBAC (r : Reconciler) (console : PgConsole) : M W () :=
  reconcile_read_pair r console ≫= λ _,
  reconcile_operate_pair console ≫= λ _,
  reconcile_catalog_pair console.
End rbac.

(** ** What the rules grant *)

(** A rule of the list grants the verb on the resource of the group. *)
Definition grants (rules : list PolicyRule) (group resource verb : string) : bool :=
  existsb (λ r, existsb (String.eqb group) r.(RL_APIGroups) && existsb (String.eqb resource) r.(RL_Resources)
                && existsb (String.eqb verb) r.(RL_Verbs)) rules.

Lemma grants_app l k group resource verb :
  grants (l ++ k) group resource verb = grants l group resource verb || grants k group resource verb.
Proof. apply existsb_app. Qed.

(** The whole authority of the ServiceAccount in its namespace. *)
Definition authority (r : Reconciler) (console : PgConsole) : list PolicyRule :=
  readRules r console ++ operateRules console.

(** The rules any console can get, whatever its cluster is called. *)
Definition every_rule (clusterName : string) : list PolicyRule :=
  read_rules_before clusterName ++ [rule core ["pods/log"] ["get"]] ++ read_rules_after
  ++ [rule ["barmancloud.cnpg.io"] ["objectstores"] ["get"]]
  ++ operation_rules clusterName ++ review_rules.

Lemma authority_every r console x : x ∈ authority r console → x ∈ every_rule console.(PC_Spec).(CS_CNPGClusterRef).
Proof.
  assert (H : ∀ b (y : PolicyRule), when b y = if b then [y] else []) by by intros [].
  unfold authority, readRules, operateRules, every_rule. rewrite !H, !elem_of_app.
  destruct (consoleAllowLogs console), (RE_BarmanObjectStoreAvailable r),
    (consoleAllowOperations console), (consoleAllowAccessReview console);
    rewrite ?elem_of_nil; tauto.
Qed.

(** The verbs that write, with the only resource each is granted on. *)
Definition write_grants : list (string * string) :=
  [("create", "pgtoolboxaccessrequests"); ("create", "backups"); ("patch", "clusters");
   ("patch", "clusters/status"); ("update", "pgtoolboxaccessrequests/status");
   ("patch", "pgtoolboxaccessrequests/status")].

Definition read_verb (v : string) : bool := existsb (String.eqb v) read_verbs.

(** A rule reads, or writes one of the above; it names no Secret and no
    wildcard; and what it patches of a cluster is the one it is named for. *)
Definition harmless (clusterName : string) (x : PolicyRule) : bool :=
  forallb (λ v, read_verb v || forallb (λ s, existsb (λ p, String.eqb p.1 v && String.eqb p.2 s) write_grants)
                                 x.(RL_Resources)) x.(RL_Verbs)
  && forallb (λ s, negb (String.eqb s "secrets") && negb (String.eqb s "*")) (x.(RL_Resources) ++ x.(RL_Verbs))
  && (negb (existsb (String.eqb "patch") x.(RL_Verbs) && existsb (λ s, HasPrefix s "clusters") x.(RL_Resources))
      || bool_decide (x.(RL_ResourceNames) = [clusterName])).

Lemma every_rule_harmless clusterName x : x ∈ every_rule clusterName → harmless clusterName x = true.
Proof.
  revert x. apply Forall_forall. unfold every_rule.
  cbn [app read_rules_before read_rules_after operation_rules review_rules].
  repeat apply Forall_cons_2; [..|apply Forall_nil_2]; unfold harmless; apply andb_true_iff; split;
    try (vm_compute; reflexivity); (rewrite bool_decide_eq_true_2 by done; apply orb_true_r).
Qed.

Lemma grants_rule rules group resource verb : grants rules group resource verb = true →
  ∃ x, x ∈ rules ∧ resource ∈ x.(RL_Resources) ∧ verb ∈ x.(RL_Verbs).
Proof.
  unfold grants. rewrite existsb_exists. intros (x & Hx & H). rewrite !andb_true_iff, !existsb_exists in H.
  destruct H as [[_ (s & Hs & Es)] (v & Hv & Ev)]. apply String.eqb_eq in Es, Ev. subst.
  exists x. split_and!; by apply list_elem_of_In.
Qed.

Lemma harmless_names clusterName x s : harmless clusterName x = true → s ∈ x.(RL_Resources) → s ≠ "secrets".
Proof.
  unfold harmless. rewrite !andb_true_iff, !forallb_forall. intros [[_ H] _] Hs ->.
  assert (Hin : In "secrets" (x.(RL_Resources) ++ x.(RL_Verbs))) by (apply list_elem_of_In, elem_of_app; by left).
  by specialize (H _ Hin).
Qed.

Lemma flag_true name b env : env_value name env = Some (boolString b) →
  bool_decide (env_value name env = Some "true") = b.
Proof. intros ->. by destruct b. Qed.


(** ** The reconcile *)

Section theorems.
Context `{G : GoLib} `{K : Machinery} {W : Type} `{C : Client W}.
Context `{CL : !ClientLaws C} `{KL : !MachineryLaws K}.

Definition role_key (console : PgConsole) (suffix : string) : ObjectKey :=
  (PC_Namespace console, ResourceName application (PC_Name console) suffix).

Definition catalog_key (console : PgConsole) : ObjectKey := ("", catalogClusterRoleName console).

Definition controlled_meta (console : PgConsole) (suffix : string) : ObjectMeta :=
  new_meta (ResourceName application (PC_Name console) suffix) (PC_Namespace console)
    (CommonLabels application (PC_Name console)) (Some (PC_UID console)).

Definition ownedRole (console : PgConsole) (suffix : string) (rules : list PolicyRule) : Role :=
  mkRole (controlled_meta console suffix) rules.

Definition role_ref (console : PgConsole) (suffix : string) : RoleRef :=
  mkRoleRef "rbac.authorization.k8s.io" "Role" (ResourceName application (PC_Name console) suffix).

Definition ownedBinding (console : PgConsole) (suffix : string) : RoleBinding :=
  mkRoleBinding (controlled_meta console suffix) (role_ref console suffix) [workload_subject console].

Lemma readRole_owned r console : readRole r console = Ok (ownedRole console "" (readRules r console)).
Proof using KL. unfold readRole. by rewrite SetControllerReference_ok. Qed.

Lemma roleBinding_owned console suffix : roleBinding console suffix = Ok (ownedBinding console suffix).
Proof using KL. unfold roleBinding. by rewrite SetControllerReference_ok. Qed.

Lemma operateRole_owned console : operateRole console = Ok
  (match operateRules console with [] => None | rules => Some (ownedRole console "-operate" rules) end).
Proof using KL. unfold operateRole. destruct (operateRules console); [done|]. by rewrite SetControllerReference_ok. Qed.

(** *** What each apply leaves *)

(** A Role controlled by the console, with these rules. *)
Definition has_role (console : PgConsole) (suffix : string) (rules : list PolicyRule) (w : W) : Prop :=
  ∃ o : Role, view w KRole (role_key console suffix) = Some o ∧ o.(RO_Rules) = rules
    ∧ o.(RO_Meta).(M_Controller) = Some (PC_UID console)
    ∧ LabelsContain o.(RO_Meta).(M_Labels) (CommonLabels application (PC_Name console)) = true.

(** A RoleBinding controlled by the console, of that Role to the workload. *)
Definition has_binding (console : PgConsole) (suffix : string) (w : W) : Prop :=
  ∃ o : RoleBinding, view w KRoleBinding (role_key console suffix) = Some o
    ∧ o.(RB_RoleRef) = role_ref console suffix ∧ o.(RB_Subjects) = [workload_subject console]
    ∧ o.(RB_Meta).(M_Controller) = Some (PC_UID console)
    ∧ LabelsContain o.(RB_Meta).(M_Labels) (CommonLabels application (PC_Name console)) = true.

Definition has_catalog_role (console : PgConsole) (w : W) : Prop :=
  ∃ o : Role, view w KClusterRole (catalog_key console) = Some o ∧ o.(RO_Rules) = catalog_rules
    ∧ LabelsContain o.(RO_Meta).(M_Labels) (CommonLabels application (PC_Name console)) = true.

Definition has_catalog_binding (console : PgConsole) (w : W) : Prop :=
  ∃ o : RoleBinding, view w KClusterRoleBinding (catalog_key console) = Some o
    ∧ o.(RB_RoleRef) = mkRoleRef "rbac.authorization.k8s.io" "ClusterRole" (catalogClusterRoleName console)
    ∧ o.(RB_Subjects) = [workload_subject console]
    ∧ LabelsContain o.(RB_Meta).(M_Labels) (CommonLabels application (PC_Name console)) = true.

Lemma metadataMatches_controlled console suffix m :
  metadataMatches m (controlled_meta console suffix) = true ↔
  LabelsContain m.(M_Labels) (CommonLabels application (PC_Name console)) = true
  ∧ m.(M_Controller) = Some (PC_UID console).
Proof using.
  unfold metadataMatches. rewrite !andb_true_iff, ControllerOwnerMatches_true.
  cbn [M_Labels M_Annotations M_Controller controlled_meta new_meta]. split.
  - intros [[? _] (u & ? & ?)]. split; [done|congruence].
  - intros [? ?]. split_and!; [done|by apply LabelsContain_true|eauto].
Qed.

Lemma settles_role console suffix rules :
  settles (applyRole (ownedRole console suffix rules)) [(KRole, role_key console suffix)]
    (has_role console suffix rules).
Proof using CL.
  eapply settles_impl; [apply (settles_apply KRole role_matches (ownedRole console suffix rules))|..].
  - intros o Ha. unfold role_matches. rewrite (applied_metadata (k := KRole) (ownedRole console suffix rules)) by eauto.
    apply bool_decide_eq_true. exact (f_equal RO_Rules (applied_payload _ _ Ha eq_refl)).
  - intros w. unfold has_role. f_equiv. intros o. unfold role_matches.
    cbn [ownedRole RO_Meta RO_Rules]. rewrite andb_true_iff, metadataMatches_controlled, bool_decide_eq_true. tauto.
  - done.
Qed.

Lemma settles_binding console suffix :
  settles (applyRoleBinding (ownedBinding console suffix)) [(KRoleBinding, role_key console suffix)]
    (has_binding console suffix).
Proof using CL.
  eapply settles_impl; [apply (settles_apply KRoleBinding binding_matches (ownedBinding console suffix))|..].
  - intros o Ha. unfold binding_matches.
    rewrite (applied_metadata (k := KRoleBinding) (ownedBinding console suffix)) by eauto.
    pose proof (applied_payload _ _ Ha eq_refl) as Hp. apply andb_true_iff. split; apply bool_decide_eq_true.
    + exact (f_equal RB_RoleRef Hp).
    + exact (f_equal RB_Subjects Hp).
  - intros w. unfold has_binding. f_equiv. intros o. unfold binding_matches.
    cbn [ownedBinding RB_Meta RB_RoleRef RB_Subjects]. rewrite !andb_true_iff, metadataMatches_controlled, !bool_decide_eq_true. tauto.
  - done.
Qed.

Lemma applied_labels_contain {k} (o o' : object k) :
  applied o o' → LabelsContain (M_Labels (meta o')) (M_Labels (meta o)) = true.
Proof using. intros Ha. apply LabelsContain_true. intros i v Hv. by rewrite (lookup_weaken _ _ _ _ Hv (applied_labels _ _ Ha)). Qed.

Lemma settles_catalog_role console :
  settles (applyClusterRole (catalogClusterRole console)) [(KClusterRole, catalog_key console)]
    (has_catalog_role console).
Proof using CL.
  eapply settles_impl; [apply (settles_apply KClusterRole cluster_role_matches (catalogClusterRole console))|..].
  - intros o Ha. apply andb_true_iff. split; [exact (applied_labels_contain (k := KClusterRole) _ _ Ha)|].
    apply bool_decide_eq_true. exact (f_equal RO_Rules (applied_payload _ _ Ha eq_refl)).
  - intros w. unfold has_catalog_role. f_equiv. intros o. unfold cluster_role_matches.
    rewrite andb_true_iff, bool_decide_eq_true. tauto.
  - done.
Qed.

Lemma settles_catalog_binding console :
  settles (applyClusterRoleBinding (catalogClusterRoleBinding console)) [(KClusterRoleBinding, catalog_key console)]
    (has_catalog_binding console).
Proof using CL.
  eapply settles_impl;
    [apply (settles_apply KClusterRoleBinding cluster_binding_matches (catalogClusterRoleBinding console))|..].
  - intros o Ha. pose proof (applied_payload _ _ Ha eq_refl) as Hp. unfold cluster_binding_matches.
    rewrite !andb_true_iff, !bool_decide_eq_true. split_and!.
    + exact (applied_labels_contain (k := KClusterRoleBinding) _ _ Ha).
    + exact (f_equal RB_RoleRef Hp).
    + exact (f_equal RB_Subjects Hp).
  - intros w. unfold has_catalog_binding. f_equiv. intros o. unfold cluster_binding_matches.
    rewrite !andb_true_iff, !bool_decide_eq_true. tauto.
  - done.
Qed.

(** *** The three pairs

    A pair that must not be there is [released]: absent, or being deleted and
    held by a finalizer somebody put on it. *)

Definition operate_state (console : PgConsole) (w : W) : Prop :=
  match operateRules console with
  | [] => released w KRole (role_key console "-operate") ∧ released w KRoleBinding (role_key console "-operate")
  | rules => has_role console "-operate" rules w ∧ has_binding console "-operate" w
  end.

Definition catalog_state (console : PgConsole) (w : W) : Prop :=
  if consoleAllowClusterCatalogs console then has_catalog_role console w ∧ has_catalog_binding console w
  else released w KClusterRole (catalog_key console) ∧ released w KClusterRoleBinding (catalog_key console).

Definition rbac_state (r : Reconciler) (console : PgConsole) (w : W) : Prop :=
  (has_role console "" (readRules r console) w ∧ has_binding console "" w)
  ∧ operate_state console w ∧ catalog_state console w.

Definition pair_objects (key : ObjectKey) : list (kind * ObjectKey) := [(KRole, key); (KRoleBinding, key)].

Definition rbac_objects (console : PgConsole) : list (kind * ObjectKey) :=
  pair_objects (role_key console "") ++ pair_objects (role_key console "-operate")
  ++ [(KClusterRole, catalog_key console); (KClusterRoleBinding, catalog_key console)].

Lemma settles_pair console suffix rules :
  settles (applyRole (ownedRole console suffix rules) ≫= λ _, applyRoleBinding (ownedBinding console suffix))
    (pair_objects (role_key console suffix)) (λ w, has_role console suffix rules w ∧ has_binding console suffix w).
Proof using CL KL.
  apply (settles_bind _ _ [_] [_]); [apply settles_role|apply settles_binding|]. set_solver.
Qed.

Lemma settles_operate console :
  settles (reconcile_operate_pair console) (pair_objects (role_key console "-operate")) (operate_state console).
Proof using CL KL.
  unfold reconcile_operate_pair, operate_state. rewrite operateRole_owned.
  eapply settles_of_result; [done|]. destruct (operateRules console) eqn:E.
  - apply (settles_bind _ _ [_] [_]); [apply settles_delete..|]. set_solver.
  - rewrite roleBinding_owned. apply settles_pair.
Qed.

Lemma settles_catalog console :
  settles (reconcile_catalog_pair console)
    [(KClusterRole, catalog_key console); (KClusterRoleBinding, catalog_key console)] (catalog_state console).
Proof using CL KL.
  unfold reconcile_catalog_pair, catalog_state. destruct (consoleAllowClusterCatalogs console).
  - apply (settles_bind _ _ [_] [_]); [apply settles_catalog_role|apply settles_catalog_binding|]. set_solver.
  - apply (settles_bind _ _ [_] [_]); [apply settles_delete..|]. set_solver.
Qed.

Lemma settles_rbac r console : role_key console "-operate" ≠ role_key console "" →
  settles (reconcileRBAC r console) (rbac_objects console) (rbac_state r console).
Proof using CL KL.
  intros Hne. unfold reconcileRBAC, rbac_objects. apply settles_bind.
  - unfold reconcile_read_pair. rewrite readRole_owned. eapply settles_of_result; [done|].
    rewrite roleBinding_owned. apply settles_pair.
  - apply settles_bind; [apply settles_operate|apply settles_catalog|]. unfold pair_objects. set_solver.
  - unfold pair_objects. set_solver.
Qed.

(** What the console's catalog pair holds, nothing keeps from being deleted. *)
Definition catalog_unheld (console : PgConsole) (w : W) : Prop :=
  ∀ o, view w KClusterRoleBinding (catalog_key console) = Some o → o.(RB_Meta).(M_Finalizers) = [].

Lemma catalog_deleted_none console w w' : deleteCatalogClusterRBAC console w = (Ok (), w') →
  catalog_unheld console w → view w' KClusterRoleBinding (catalog_key console) = None.
Proof using CL KL.
  intros H Hf. unfold deleteCatalogClusterRBAC in H. rewrite run_bind in H.
  destruct (ignore_not_found _ w) as [[[]|e] w1] eqn:E; [|done].
  apply (settles_frame _ _ _ (settles_delete _ _)) with (k := KClusterRoleBinding) (key := catalog_key console) in E as [E _];
    [|set_solver].
  rewrite run_ignore_not_found in H. destruct (Delete _ _ w1) as [[[]|e] w2] eqn:Hd.
  - simplify_eq. apply Delete_spec in Hd as [_ [Hd _]].
    fold (catalog_key console) in Hd.
    destruct (view w' KClusterRoleBinding (catalog_key console)) as [o|] eqn:Hv; [|done].
    destruct (delete_left (k := KClusterRoleBinding) _ _ Hd o eq_refl) as (cur & Hc & Hcf & _). cbn [meta] in Hcf.
    rewrite E in Hc. by apply Hf in Hc.
  - destruct (IsNotFound e) eqn:He; [|done]. simplify_eq. by apply (Delete_missing _ _ _ _ _ Hd).
Qed.

(** The pair of one console is of no use to one of another namespace. *)
Lemma catalog_pair_foreign console console' w w' o : reconcile_catalog_pair console w = (Ok (), w') →
  in_sync w KClusterRole (catalog_key console) → in_sync w KClusterRoleBinding (catalog_key console) →
  catalog_unheld console w →
  view w' KClusterRoleBinding (catalog_key console) = Some o → o.(RB_Subjects) = [workload_subject console'] →
  PC_Namespace console' ≠ PC_Namespace console → False.
Proof using CL KL.
  intros H Hs1 Hs2 Hf Hv Hs Hne. unfold reconcile_catalog_pair in H.
  destruct (consoleAllowClusterCatalogs console) eqn:Ha.
  - assert (Hst : catalog_state console w').
    { eapply (settles_done _ _ _ (settles_catalog console)); [unfold reconcile_catalog_pair; by rewrite Ha|].
      intros k key Hin. rewrite !elem_of_cons, elem_of_nil in Hin. by destruct Hin as [[= -> ->]|[[= -> ->]|[]]]. }
    unfold catalog_state in Hst. rewrite Ha in Hst. destruct Hst as [_ (o' & Hv' & _ & Hs' & _)].
    assert (o = o') as -> by congruence. rewrite Hs in Hs'. injection Hs'. auto.
  - apply (catalog_deleted_none console) in H; [congruence|done].
Qed.

(** C32: a pass that succeeds over a cache that has caught up with its objects
    leaves the console with exactly its authority: the read Role and its
    binding with today's rules, the operate pair with the rules of the
    capabilities that are on, and the cluster-scoped pair when catalogs are
    allowed; a pair that is not called for is gone, or being deleted and held
    by a finalizer. Whatever the outcome, and whatever the cache, it touches no
    other object. A further pass, over a cache that has caught up again,
    changes nothing and sends at most deletes of objects gone or going. *)
Theorem rbac_converges r console w res w' :
  role_key console "-operate" ≠ role_key console "" →
  reconcileRBAC r console w = (res, w') →
  (∀ k key, (k, key) ∉ rbac_objects console → view w' k key = view w k key)
  ∧ (res = Ok () → synced_on w (rbac_objects console) → rbac_state r console w'
      ∧ ∀ w1 res2 w2, same_view w' w1 → synced_on w1 (rbac_objects console) →
          reconcileRBAC r console w1 = (res2, w2) →
          same_view w1 w2 ∧ ∃ l, log w2 = log w1 ++ l ∧ Forall (λ x : write, x.1.1 = VDelete) l).
Proof using CL KL.
  intros Hne H. destruct (settles_rbac r console Hne) as [Hf Hd Ha Hl]. split.
  - intros k key Hk. by apply (Hf _ _ _ H).
  - intros -> Hs. split; [by eapply Hd|]. intros w1 res2 w2 Hv Hs1 H2. eapply Ha; [done..|].
    eapply (Hl w'); [by intros k key _; apply Hv|by eapply Hd].
Qed.

(** C33: the name of the cluster-scoped pair joins the namespace and the name
    of the console with a dash, so the console [n] of the namespace [a-b] and
    the console [b-n] of the namespace [a] have one pair between them: a
    successful pass over a cache that has caught up, or the deletion, of either
    leaves the other without a binding to its ServiceAccount, unless somebody
    put a finalizer on the binding. *)
Theorem catalog_name_shared console console' a b n :
  PC_Namespace console = a +:+ "-" +:+ b → PC_Name console = n →
  PC_Namespace console' = a → PC_Name console' = b +:+ "-" +:+ n →
  catalog_key console = catalog_key console'
  ∧ ∀ w, catalog_unheld console w →
    (in_sync w KClusterRole (catalog_key console) → in_sync w KClusterRoleBinding (catalog_key console) →
     (∀ w', reconcile_catalog_pair console' w = (Ok (), w') → ¬ has_catalog_binding console w')
     ∧ (∀ w', reconcile_catalog_pair console w = (Ok (), w') → ¬ has_catalog_binding console' w'))
    ∧ (∀ w', deleteCatalogClusterRBAC console' w = (Ok (), w') → ¬ has_catalog_binding console w')
    ∧ (∀ w', deleteCatalogClusterRBAC console w = (Ok (), w') → ¬ has_catalog_binding console' w').
Proof using CL KL.
  intros Hns Hn Hns' Hn'. assert (Hkey : catalog_key console = catalog_key console').
  { unfold catalog_key, catalogClusterRoleName. rewrite Hns, Hn, Hns', Hn'. by rewrite !append_assoc. }
  assert (Hne : PC_Namespace console ≠ PC_Namespace console').
  { rewrite Hns, Hns'. intros E%(f_equal slen). rewrite !slen_append in E. change (slen "-") with 1%nat in E. lia. }
  split; [done|]. intros w Hf. assert (Hf' : catalog_unheld console' w) by (unfold catalog_unheld; by rewrite <-Hkey).
  split; [intros Hs1 Hs2; split|split]; intros w' H (o & Hv & _ & Hs & _).
  - rewrite Hkey in *. by eapply (catalog_pair_foreign console' console).
  - rewrite <-Hkey in Hv. eapply (catalog_pair_foreign console console'); eauto.
  - apply catalog_deleted_none in H; [|done]. congruence.
  - apply catalog_deleted_none in H; [|done]. congruence.
Qed.
End theorems.

(** ** A console that gives up its operations *)

Definition quiet_console_spec (operations catalogs : option bool) : ConsoleSpec :=
  mkConsoleSpec operations None (Some false) catalogs None "" None None (mkLogTail None None) (mkMetrics None None None)
    (mkHistory None None None None None).

Definition quiet_console (ns name : string) (operations catalogs : option bool) : PgConsole :=
  mkPgConsole (mkMeta name ns ("uid-" +:+ name) ∅ ∅ None "1" 3 false [])
    (mkPgConsoleSpec "pg" None None demo_console.(PC_Spec).(CS_Authentication) no_resources
       (mkPgAdminSpec None None "" None "" no_resources) (quiet_console_spec operations catalogs)
       (mkEvidenceSpec None None no_resources)
       (mkExposure ExposureTypeClusterIP "" None "" None ∅ ∅)
       (mkNetworkPolicyConfig None "" []) None no_resources)
    no_console_status.

Definition demo_settings : Reconciler := mkReconciler (mkDefaultImages "c:1" "p:1" "a:1" "v:1") "o:1" true true true.

Definition demo_rbac : demo :=
  (reconcileRBAC (C := demo_live) demo_settings (quiet_console "ns" "c" (Some true) None) (demo_world_of (demo_objects [] [] [] []))).2.

(** The operate pair is there at first, and gone after the flag is. *)
Lemma rbac_converges_witness :
  is_Some (view (Client := demo_live) demo_rbac KRole ("ns", "c-pgconsole-operate")) ∧
  let w' := (reconcileRBAC (C := demo_live) demo_settings (quiet_console "ns" "c" (Some false) None) demo_rbac).2 in
  operate_state (C := demo_live) (quiet_console "ns" "c" (Some false) None) w' ∧
  view (Client := demo_live) w' KRole ("ns", "c-pgconsole-operate") = None.
Proof.
  split; [vm_compute; eauto|]. intros w'.
  destruct (rbac_converges (C := demo_live) (CL := demo_live_laws) demo_settings
    (quiet_console "ns" "c" (Some false) None) demo_rbac
    (reconcileRBAC (C := demo_live) demo_settings (quiet_console "ns" "c" (Some false) None) demo_rbac).1 w')
    as (_ & H).
  - vm_compute. discriminate.
  - apply surjective_pairing.
  - destruct H as ((_ & H & _) & _); [vm_compute; reflexivity|apply demo_live_synced|].
    split; [exact H|vm_compute; reflexivity].
Defined.

Lemma catalog_name_shared_witness :
  let first := quiet_console "a-b" "n" None (Some true) in
  let second := quiet_console "a" "b-n" None (Some true) in
  let w := (reconcile_catalog_pair (C := demo_live) first (demo_world_of (demo_objects [] [] [] []))).2 in
  let w' := (reconcile_catalog_pair (C := demo_live) second w).2 in
  is_Some (view (Client := demo_live) w KClusterRoleBinding ("", "a-b-n-pgconsole-catalogs"))
  ∧ ¬ has_catalog_binding (C := demo_live) first w'.
Proof.
  intros first second w w'. split; [vm_compute; eauto|].
  destruct (catalog_name_shared (C := demo_live) (CL := demo_live_laws) first second "a" "b" "n")
    as (_ & H); [reflexivity..|].
  destruct (H w) as ((H1 & _) & _); [|reflexivity..|].
  { assert (E : from_option (λ o, M_Finalizers (RB_Meta o)) []
      (view (Client := demo_live) w KClusterRoleBinding (catalog_key first)) = []) by (vm_compute; reflexivity).
    intros o Ho. rewrite Ho in E. exact E. }
  apply H1. unfold w'.
  assert (E : (reconcile_catalog_pair (C := demo_live) second w).1 = Ok ()) by (vm_compute; reflexivity).
  destruct (reconcile_catalog_pair second w). cbn in *. by subst.
Defined.
