(* ===== verification/EvidenceToken.v ===== *)
(** * The evidence token of a console ([internal/controller/pgconsole/evidence_token.go])

    The Secret the two containers of the Pod authenticate each other with: the
    generation counted in its name, its creation, rotation and self-heal, and
    the collection of the superseded ones. The random bytes of a new token are
    an argument. *)

From S2P Require Import Prelude GoUtf8 GoStrings GoBytes GoLib ApiTypes Kube Shared Users.

Definition evidenceTokenKey : string := "token".
Definition evidenceTokenSuffix : string := "-evidence-t".
Definition evidenceTokenVolume : string := "evidence-token".

Definition tokenGeneration (secretName : string) : Z :=
  match LastIndex secretName evidenceTokenSuffix with
  | None => 0
  | Some index =>
      match Atoi (drop_str (index + slen evidenceTokenSuffix) secretName) with
      | None => 0
      | Some generation => if (generation <? 1)%Z then 0 else generation
      end
  end.

Definition rolloutComplete (d : Deployment) : bool :=
  ((d.(D_Meta).(M_Generation) <=? d.(D_ObservedGeneration))
   && (d.(D_UpdatedReplicas) =? 1) && (d.(D_ReadyReplicas) =? 1))%Z.

(** The loop over the volumes of the Pod template. *)
Definition templateTokenGeneration (d : Deployment) : Z :=
  match first_such (λ v, String.eqb v.1 evidenceTokenVolume && bool_decide (is_Some v.2)) (D_Volumes d) with
  | Some (_, Some secretName) => tokenGeneration secretName
  | _ => 0
  end.

Section token.
Context `{G : GoLib} `{K : Machinery} {W : Type} `{C : Client W}.

Definition evidenceTokenSecretName (consoleName : string) (generation : Z) : string :=
  ResourceName application consoleName (evidenceTokenSuffix +:+ Itoa generation).

Definition deployedTokenGeneration (console : PgConsole) : M W Z :=
  r ← try (LiveGet KDeployment (PC_Namespace console, ResourceName application (PC_Name console) ""));
  match r with
  | Err e =>
      if IsNotFound e then mret 0%Z
      else throw (WrapErr "read live deployment for token resolution" e)
  | Ok deployment => mret (templateTokenGeneration deployment)
  end.

(** The Secret before an owner is set on it. *)
Definition tokenSecret (console : PgConsole) (name token : string) : Secret :=
  mkSecret
    (new_meta name (PC_Namespace console)
       (<[EvidenceTokenLabelKey := PC_Name console]> (CommonLabels application (PC_Name console))) None)
    SecretTypeOpaque true {[evidenceTokenKey := token]}.

(** [raw] is what [rand.Read] filled the 32-byte buffer with. *)
Definition createEvidenceTokenSecret (raw : result error string) (console : PgConsole) (name : string)
    : M W () :=
  raw ← wrap "generate evidence token" (of_result raw);
  let token := RawURL_EncodeToString raw in
  secret ← of_result (SetControllerReference console.(PC_Meta) KSecret (tokenSecret console name token));
  r ← try (Create KSecret secret);
  match r with
  | Err e =>
      if IsAlreadyExists e then mret ()
      else throw (WrapErr ("create evidence token secret " +:+ name) e)
  | Ok _ => mret ()
  end.

(** The console without its rotation annotation. *)
Definition acknowledged (console : PgConsole) : PgConsole :=
  mkPgConsole
    (set_annotations (delete RotateEvidenceTokenAnnotation console.(PC_Meta).(M_Annotations)) console.(PC_Meta))
    console.(PC_Spec) console.(PC_Status).

Definition rotation_requested (console : PgConsole) : bool :=
  String.eqb (default "" (console.(PC_Meta).(M_Annotations) !! RotateEvidenceTokenAnnotation)) "now".

(** The successor of a generation: its Secret, then the acknowledgement. The
    console is answered with the name, since the caller's copy loses the
    annotation too. *)
Definition mint (raw : result error string) (console : PgConsole) (rotate : bool) (generation : Z)
    : M W (string * PgConsole) :=
  let name := evidenceTokenSecretName (PC_Name console) generation in
  createEvidenceTokenSecret raw console name;;
  if rotate then
    wrap "acknowledge token rotation" (Patch KConsole console (acknowledged console));;
    mret (name, acknowledged console)
  else mret (name, console).

Definition reconcileEvidenceToken (raw : result error string) (console : PgConsole)
    : M W (string * PgConsole) :=
  let generation := tokenGeneration (PC_TokenSecretName console) in
  let rotate := rotation_requested console in
  generation ←
    (if negb rotate then
       deployedGeneration ← deployedTokenGeneration console;
       mret (if (generation <? deployedGeneration)%Z then deployedGeneration else generation)
     else mret generation);
  if (generation =? 0)%Z then mint raw console rotate 1
  else if rotate then mint raw console rotate (wrap64 (generation + 1))
  else
    let name := evidenceTokenSecretName (PC_Name console) generation in
    r ← try (LiveGet KSecret (PC_Namespace console, name));
    match r with
    | Ok existing =>
        if String.eqb (default "" (existing.(Sec_Data) !! evidenceTokenKey)) "" then
          throw (FmtErr ("evidence token secret " +:+ name +:+ " is invalid"))
        else mret (name, console)
    | Err e =>
        if IsNotFound e then mint raw console rotate (wrap64 (generation + 1)) else throw e
    end.

(** The list call selects on the token label. *)
Definition tokenSecrets (console : PgConsole) (secrets : list Secret) : list Secret :=
  filter (λ s, s.(Sec_Meta).(M_Labels) !! EvidenceTokenLabelKey = Some (PC_Name console)) secrets.

(** The body of the loop over the listed Secrets. *)
Definition collectToken (console : PgConsole) (activeName : string) (item : Secret) : M W () :=
  if String.eqb item.(Sec_Meta).(M_Name) activeName then mret ()
  else
    match item.(Sec_Meta).(M_Controller) with
    | None => mret ()
    | Some owner =>
        if negb (String.eqb owner (PC_UID console)) then mret ()
        else
          r ← try (Delete KSecret (key_of item.(Sec_Meta)));
          match r with
          | Err e =>
              if IsNotFound e then mret ()
              else throw (WrapErr ("delete superseded token secret " +:+ item.(Sec_Meta).(M_Name)) e)
          | Ok _ => mret ()
          end
    end.

Definition collectSupersededTokens (console : PgConsole) (activeName : string)
    (deployment : option Deployment) : M W () :=
  match deployment with
  | None => mret ()
  | Some d =>
      if negb (rolloutComplete d) then mret ()
      else
        secrets ← wrap "list evidence token secrets" (List KSecret (PC_Namespace console));
        forM (tokenSecrets console secrets) (collectToken console activeName)
  end.
End token.

(** ** The counter in the name *)

Lemma LastIndex_suffix base d :
  in_string "-" d = false →
  LastIndex (base +:+ (evidenceTokenSuffix +:+ d)) evidenceTokenSuffix = Some (slen base).
Proof.
  intros Hd. rewrite <-(Nat.add_0_r (slen base)). apply LastIndex_app.
  unfold evidenceTokenSuffix. rewrite !append_cons. change ("" +:+ d) with d.
  cbn [LastIndex]. rewrite (LastIndex_absent "-" "evidence-t" d Hd). by destruct d.
Qed.

Section names.
Context `{G : GoLib} `{L : !GoLibLaws G}.

Lemma hex_free s : in_string "-" (hex_EncodeToString s) = false ∧ in_string "t" (hex_EncodeToString s) = false.
Proof.
  assert (∀ d, (0 ≤ d < 16)%Z → Ascii.eqb "-" (hex_digit d) = false ∧ Ascii.eqb "t" (hex_digit d) = false) as Hd.
  { intros d Hd. rewrite !Ascii.eqb_neq. pose proof (hex_value_digit d Hd) as Hv.
    split; intros He; rewrite <-He in Hv; vm_compute in Hv; discriminate. }
  induction s as [|a s [IH1 IH2]]; [done|]. cbn [hex_EncodeToString in_string].
  pose proof (byteZ_range a).
  destruct (Hd (byteZ a / 16)%Z) as [-> ->]; [euclid|]. destruct (Hd (byteZ a mod 16)%Z) as [-> ->]; [euclid|].
  by rewrite IH1, IH2.
Qed.

(** A truncated name ends in a digest, which hides the counter. *)
Lemma tokenGeneration_digest stem h :
  in_string "-" h = false → in_string "t" h = false →
  tokenGeneration (stem +:+ String "-" h) = 0%Z.
Proof.
  intros Hd Ht. unfold tokenGeneration.
  destruct (LastIndex _ _) as [i|] eqn:Hi; [|done]. apply LastIndex_Some in Hi.
  set (rest := drop_str (i + slen evidenceTokenSuffix) _) in *. clearbody rest.
  destruct (in_string "-" rest) eqn:Hr.
  - destruct (Atoi rest) as [g|] eqn:Hg; [|done]. apply Atoi_signed in Hg; [|done].
    destruct (Z.ltb_spec g 1); [done|lia].
  - exfalso. set (front := take_str i _) in *. clearbody front.
    change evidenceTokenSuffix with ("-evidence" +:+ "-t") in Hi.
    rewrite append_assoc, <-append_assoc in Hi. change ("-t" +:+ rest) with (String "-" (String "t" rest)) in Hi.
    apply last_sep_inj in Hi as [_ ->]; [|done|cbn [in_string]; by rewrite Hr]. by cbn in Ht.
Qed.

Lemma tokenGeneration_range s : (0 ≤ tokenGeneration s < 2 ^ 63)%Z.
Proof using.
  unfold tokenGeneration. destruct (LastIndex _ _); [|done].
  destruct (Atoi _) as [g|] eqn:Hg; [|done]. destruct (Z.ltb_spec g 1); [done|].
  unfold Atoi, ParseInt in Hg. destruct (match drop_str _ _ with String "-" _ => _ | _ => _ end); [|done].
  cbn in Hg. case_in Hg; [|done]. injection Hg as <-. breflect. lia.
Qed.

(** The room a name leaves for its counter: 63 bytes less the 21 of
    "-pgconsole-evidence-t". *)
Definition counter_fits (name : string) (g : Z) : Prop := slen name + slen (Itoa g) ≤ 42.

Lemma secretName_fits name g :
  counter_fits name g →
  evidenceTokenSecretName name g = (name +:+ "-pgconsole") +:+ (evidenceTokenSuffix +:+ Itoa g).
Proof using.
  intros H. unfold evidenceTokenSecretName, ResourceName, counter_fits in *.
  rewrite BoundedName_short, append_assoc; [done|].
  rewrite !slen_append. unfold maxResourceNameLength. cbn. lia.
Qed.

Lemma secretName_truncated name g :
  ¬ counter_fits name g → ∃ stem h, evidenceTokenSecretName name g = stem +:+ String "-" h ∧
    in_string "-" h = false ∧ in_string "t" h = false.
Proof using.
  intros H. unfold evidenceTokenSecretName, ResourceName, counter_fits in *. rewrite BoundedName_long.
  - eexists _, (hex_EncodeToString _). split; [done|]. apply hex_free.
  - rewrite !slen_append. unfold maxResourceNameLength. cbn. lia.
Qed.

Lemma tokenGeneration_fits name g :
  counter_fits name g → (1 ≤ g < 2 ^ 63)%Z → tokenGeneration (evidenceTokenSecretName name g) = g.
Proof using.
  intros H Hg. rewrite secretName_fits by done. unfold tokenGeneration. rewrite LastIndex_suffix.
  - assert (∀ s t u : string, drop_str (slen s + slen t) (s +:+ (t +:+ u)) = u) as ->.
    { intros s t u. induction s as [|a s IH]; [|done]. by induction t. }
    rewrite Atoi_Itoa by lia. destruct (Z.ltb_spec g 1); [lia|done].
  - unfold Itoa. destruct (Z.ltb_spec g 0); [lia|]. by apply all_digits_free; [apply digits_all; lia|].
Qed.

Lemma tokenGeneration_truncated name g :
  ¬ counter_fits name g → tokenGeneration (evidenceTokenSecretName name g) = 0%Z.
Proof using. intros (stem & h & -> & Hd & Ht)%secretName_truncated. by apply tokenGeneration_digest. Qed.

(** The generation counter survives its trip through the Secret name exactly
    when the name of the console leaves room for it: then it is read back
    unchanged, and different generations have different names; with a longer
    console name the truncation hides it, and every name reads back as no
    generation at all. Whatever the name, the counter is a non-negative int. *)
Theorem token_counter_roundtrip name g g' :
  (1 ≤ g < 2 ^ 63)%Z →
  (0 ≤ tokenGeneration name < 2 ^ 63)%Z ∧
  (counter_fits name g →
     tokenGeneration (evidenceTokenSecretName name g) = g ∧
     (counter_fits name g' → evidenceTokenSecretName name g = evidenceTokenSecretName name g' → g = g')) ∧
  (¬ counter_fits name g → tokenGeneration (evidenceTokenSecretName name g) = 0%Z).
Proof using.
  intros Hg. split; [apply tokenGeneration_range|]. split; [|by apply tokenGeneration_truncated].
  intros Hf. split; [by apply tokenGeneration_fits|]. intros Hf'.
  rewrite !secretName_fits by done. intros H%append_inj_l%append_inj_l. by apply Itoa_inj.
Qed.
End names.

(** ** The reconcile *)

Section theorems.
Context `{G : GoLib} `{K : Machinery} {W : Type} `{C : Client W}.
Context `{CL : !ClientLaws C} `{KL : !MachineryLaws K}.

Definition tokenKey (console : PgConsole) (g : Z) : ObjectKey :=
  (PC_Namespace console, evidenceTokenSecretName (PC_Name console) g).

Definition ownedToken (console : PgConsole) (name token : string) : Secret :=
  mkSecret (set_controller (Some (PC_UID console)) (Sec_Meta (tokenSecret console name token)))
    SecretTypeOpaque true {[evidenceTokenKey := token]}.

(** A Secret is under its name: the one that was there, or a new one. *)
Definition token_present (w w' : W) (raw : result error string) (console : PgConsole) (g : Z) : Prop :=
  ∃ s, view w' KSecret (tokenKey console g) = Some s ∧
  match view w KSecret (tokenKey console g) with
  | Some s0 => s = s0
  | None => ∃ bytes, raw = Ok bytes ∧
      content (k := KSecret) s =
      content (k := KSecret) (ownedToken console (tokenKey console g).2 (RawURL_EncodeToString bytes))
  end.

(** No Secret that was stored changed, and nothing but Secrets did. *)
Record secrets_kept (w w' : W) : Prop := {
  sk_secrets : ∀ key s, view w KSecret key = Some s → view w' KSecret key = Some s;
  sk_others : ∀ k key, k ≠ KSecret → view w' k key = view w k key
}.

Lemma secrets_kept_refl w : secrets_kept w w.
Proof using. by split. Qed.

Lemma created_keeps w w' key :
  view w' KSecret key = view w KSecret key ∨ view w KSecret key = None →
  elsewhere w w' KSecret key → secrets_kept w w'.
Proof using.
  intros Hv He. split; [|intros k key' Hk; apply He; by left]. intros key' s Hs.
  destruct (decide (key' = key)) as [->|Hne]; [destruct Hv; congruence|].
  by rewrite (He KSecret) by (by right).
Qed.

Lemma create_if_missing (secret : Secret) msg w r w' :
  (r ← try (Create KSecret secret);
   match r with
   | Err e => if IsAlreadyExists e then mret () else throw (WrapErr msg e)
   | Ok _ => mret ()
   end) w = (r, w') →
  log w' = log w ++ [(VCreate, KSecret, key_of (Sec_Meta secret))] ∧ secrets_kept w w' ∧
  (r = Ok () → ∃ s, view w' KSecret (key_of (Sec_Meta secret)) = Some s ∧
     match view w KSecret (key_of (Sec_Meta secret)) with
     | Some s0 => s = s0
     | None => content (k := KSecret) s = content (k := KSecret) secret
     end).
Proof using CL.
  intros H. run_in H; learn; rebase; cbn [meta] in *;
    change (meta (k := KSecret) secret) with (Sec_Meta secret) in *.
  - split_and!; [done| |].
    + eapply created_keeps; [by right|done].
    + intros _. exists x. by rewrite H.
  - destruct (H Heqb) as [s Hs]. change (meta (k := KSecret) secret) with (Sec_Meta secret) in Hs.
    assert (view w' KSecret (key_of (Sec_Meta secret)) = Some s) as Hs' by (destruct H0 as [->|[H0 _]]; congruence).
    split_and!; [done|eapply created_keeps; [left; by rewrite Hs|done]|]. intros _. exists s. by rewrite Hs.
  - split_and!; [done| |done]. eapply created_keeps; [|done]. destruct H0 as [?|[? _]]; auto.
Qed.

Lemma ownedToken_owned console name token :
  SetControllerReference console.(PC_Meta) KSecret (tokenSecret console name token) =
  Ok (ownedToken console name token).
Proof using KL. by rewrite SetControllerReference_ok. Qed.

Lemma createToken_run raw console g w r w' :
  createEvidenceTokenSecret raw console (tokenKey console g).2 w = (r, w') →
  (log w' = log w ∨ log w' = log w ++ [(VCreate, KSecret, tokenKey console g)]) ∧
  secrets_kept w w' ∧ (r = Ok () → token_present w w' raw console g).
Proof using CL KL.
  intros H. unfold createEvidenceTokenSecret in H. rewrite run_bind, run_wrap, run_of_result in H.
  destruct raw as [bytes|e]; [|simplify_eq; split_and!; [by left|by split|done]].
  rewrite ownedToken_owned, run_bind, run_of_result in H.
  apply create_if_missing in H as (Hl & Hk & Hok). split_and!; [by right|done|].
  intros (s & Hs & Hm)%Hok. exists s. split; [done|].
  change (key_of (Sec_Meta _)) with (tokenKey console g) in Hm.
  destruct (view w KSecret (tokenKey console g)); [done|]. by exists bytes.
Qed.

Definition consoleKey (console : PgConsole) : ObjectKey := key_of console.(PC_Meta).

(** Nothing but new Secrets and the console changed. *)
Record token_frame (w w' : W) (console : PgConsole) : Prop := {
  tf_secrets : ∀ key s, view w KSecret key = Some s → view w' KSecret key = Some s;
  tf_others : ∀ k key, k ≠ KSecret → k ≠ KConsole ∨ key ≠ consoleKey console →
    view w' k key = view w k key
}.

(** What acknowledging a rotation stores. *)
Definition acknowledged_stored (w w' : W) (console : PgConsole) : Prop :=
  ∃ cur stored, view w KConsole (consoleKey console) = Some cur ∧
    view w' KConsole (consoleKey console) = Some stored ∧
    (content (k := KConsole) cur = content (k := KConsole) console →
     content (k := KConsole) stored = content (k := KConsole) (acknowledged console)).

Lemma token_present_kept w w1 w2 raw console g :
  token_present w w1 raw console g → (∀ key s, view w1 KSecret key = Some s → view w2 KSecret key = Some s) →
  token_present w w2 raw console g.
Proof using. intros (s & Hs & Hm) Hk. exists s. auto. Qed.

(** What minting a generation does, and in which order. *)
Lemma mint_run raw console rotate g w r w' :
  mint raw console rotate g w = (r, w') →
  token_frame w w' console ∧
  (view w' KConsole (consoleKey console) ≠ view w KConsole (consoleKey console) →
     rotate = true ∧ token_present w w' raw console g) ∧
  ∀ name console', r = Ok (name, console') →
    name = evidenceTokenSecretName (PC_Name console) g ∧ token_present w w' raw console g ∧
    if rotate then console' = acknowledged console ∧ acknowledged_stored w w' console
    else console' = console.
Proof using CL KL.
  intros H. unfold mint in H. rewrite run_bind in H.
  destruct (createEvidenceTokenSecret _ _ _ w) as [r1 w1] eqn:H1.
  apply createToken_run in H1 as (_ & [Hs Ho] & Hok1).
  assert (token_frame w w1 console) as Hf1 by (split; auto).
  destruct r1 as [[]|e]; [|simplify_eq; split_and!; [done| |done]; intros Hne; by destruct Hne; apply Ho].
  specialize (Hok1 eq_refl). destruct rotate.
  - run_in H; learn; rebase; cbn [meta] in *;
      change (key_of (PC_Meta (acknowledged console))) with (consoleKey console) in *.
    + assert (∀ key s, view w1 KSecret key = Some s → view w' KSecret key = Some s) as Hs'
        by (intros; rewrite H0; auto).
      split_and!; [|by eauto using token_present_kept|].
      * split; [by eauto|]. intros k key Hk Hne. rewrite H0 by done. by apply Ho.
      * intros ? ? [= <- <-]. split_and!; [done|by eapply token_present_kept|done|].
        exists x, x0. by rewrite <-(Ho KConsole).
    + assert (∀ key s, view w1 KSecret key = Some s → view w' KSecret key = Some s) as Hs'
        by (intros; rewrite H0; auto).
      split_and!; [|by eauto using token_present_kept|done].
      split; [by eauto|]. intros k key Hk Hne. rewrite H0 by done. by apply Ho.
  - rewrite run_ret in H. simplify_eq. split_and!; [done| |].
    + intros Hne. destruct Hne. by apply Ho.
    + by intros ? ? [= <- <-].
Qed.

(** The generation the Deployment runs, and the one a pass starts from. *)
Definition deployed_generation (w : W) (console : PgConsole) : Z :=
  from_option templateTokenGeneration 0%Z
    (view w KDeployment (PC_Namespace console, ResourceName application (PC_Name console) "")).

Definition current_generation (w : W) (console : PgConsole) : Z :=
  if rotation_requested console then tokenGeneration (PC_TokenSecretName console)
  else Z.max (tokenGeneration (PC_TokenSecretName console)) (deployed_generation w console).

(** The generation a pass ends with. *)
Definition next_generation (w : W) (console : PgConsole) : Z :=
  let g := current_generation w console in
  if (g =? 0)%Z then 1
  else if rotation_requested console then wrap64 (g + 1)
  else match view w KSecret (tokenKey console g) with Some _ => g | None => wrap64 (g + 1) end.

Lemma deployed_run console w r w' :
  deployedTokenGeneration console w = (r, w') →
  untouched w w' ∧ ∀ g, r = Ok g → g = deployed_generation w console.
Proof using CL.
  intros H. unfold deployedTokenGeneration in H. unfold deployed_generation.
  generalize dependent (ResourceName application (PC_Name console) ""). intros name H.
  run_in H; learn; rebase; (split; [done|]).
  - intros g [= <-]. by rewrite Hr.
  - intros g [= <-]. by rewrite (Hr Heqb).
  - done.
Qed.

Lemma token_frame_untouched w w' console : untouched w w' → token_frame w w' console.
Proof using. intros [Hv _ _]. split; intros; by rewrite Hv. Qed.

Lemma token_present_untouched w w1 w2 raw console g :
  untouched w w1 → token_present w1 w2 raw console g → token_present w w2 raw console g.
Proof using. intros [Hv _ _] (s & Hs & Hm). exists s. split; [done|]. by rewrite Hv in Hm. Qed.

(** What one pass does, as a relation on the worlds and the console. *)
Record token_pass (raw : result error string) (console : PgConsole) (w w' : W)
    (r : result error (string * PgConsole)) : Prop := {
  tp_frame : token_frame w w' console;
  tp_acknowledged : view w' KConsole (consoleKey console) ≠ view w KConsole (consoleKey console) →
    rotation_requested console = true ∧ token_present w w' raw console (next_generation w console);
  tp_result name console' : r = Ok (name, console') →
    name = evidenceTokenSecretName (PC_Name console) (next_generation w console) ∧
    token_present w w' raw console (next_generation w console) ∧
    if rotation_requested console then
      console' = acknowledged console ∧ acknowledged_stored w w' console
    else console' = console
}.

Lemma mint_pass raw console w w1 r w' :
  untouched w w1 →
  mint raw console (rotation_requested console) (next_generation w console) w1 = (r, w') →
  token_pass raw console w w' r.
Proof using CL KL.
  intros Hu ([Hs Ho] & Hc & Hr)%mint_run.
  assert (∀ k key, view w1 k key = view w k key) as Hv by (intros; apply Hu). split.
  - split; [intros; apply Hs; by rewrite Hv|]. intros. by rewrite Ho, Hv.
  - intros Hne. rewrite <-Hv in Hne. destruct (Hc Hne) as [? ?].
    split; [done|by eapply token_present_untouched].
  - intros name console' Hok. destruct (Hr name console' Hok) as (-> & Hp & Hrot).
    split_and!; [done|by eapply token_present_untouched|].
    destruct (rotation_requested console); [|done]. destruct Hrot as [-> (cur & st & Hcur & Hst)].
    split; [done|]. exists cur, st. by rewrite <-Hv.
Qed.

Lemma reuse_pass raw console w w1 r :
  untouched w w1 → rotation_requested console = false →
  (r = Ok (evidenceTokenSecretName (PC_Name console) (next_generation w console), console) ∧
     is_Some (view w KSecret (tokenKey console (next_generation w console))) ∨ ∃ e, r = Err e) →
  token_pass raw console w w1 r.
Proof using.
  intros Hu Hrot Hr. split.
  - by apply token_frame_untouched.
  - intros Hne. destruct Hne. apply Hu.
  - intros name console' ->. destruct Hr as [[[= -> ->] [s Hs]]|[e Hr]]; [|done].
    rewrite Hrot. split_and!; [done| |done]. exists s. rewrite (untouched_lookup _ _ _ _ Hu), Hs. done.
Qed.

(** A pass that found generation [current_generation w console] deployed or
    published, and nobody asked for a rotation. *)
Lemma unrotated_run raw console w w1 r w' :
  untouched w w1 → rotation_requested console = false →
  (if (current_generation w console =? 0)%Z then mint raw console false 1
   else
     r ← try (LiveGet KSecret (tokenKey console (current_generation w console)));
     match r with
     | Ok existing =>
         if String.eqb (default "" (existing.(Sec_Data) !! evidenceTokenKey)) "" then
           throw (FmtErr ("evidence token secret " +:+ (tokenKey console (current_generation w console)).2
                          +:+ " is invalid"))
         else mret ((tokenKey console (current_generation w console)).2, console)
     | Err e =>
         if IsNotFound e then mint raw console false (wrap64 (current_generation w console + 1)) else throw e
     end) w1 = (r, w') →
  token_pass raw console w w' r ∧
  (false = false → current_generation w console ≠ 0%Z →
   ∀ s, view w KSecret (tokenKey console (current_generation w console)) = Some s →
     untouched w w' ∧ (is_ok r = true → default "" (s.(Sec_Data) !! evidenceTokenKey) ≠ "")).
Proof using CL KL.
  intros Hu Hrot H. pose proof (mint_pass raw console w) as Hmint. rewrite Hrot in Hmint.
  pose proof (reuse_pass raw console w) as Hreuse. unfold next_generation in Hmint, Hreuse. rewrite Hrot in Hmint, Hreuse.
  destruct (Z.eqb_spec (current_generation w console) 0) as [H0|H0].
  - split; [by eapply Hmint|done].
  - change (evidenceTokenSecretName (PC_Name console)) with (λ g, (tokenKey console g).2) in Hreuse. cbn beta in Hreuse.
    assert (∃ key, ∀ u : unit, tokenKey console (current_generation w console) = key) as [key Hkey] by eauto.
    rewrite (Hkey ()) in *.
    run_in H; learn; rebase.
    + split; [by apply Hreuse; eauto|]. intros _ _ s Hs. by split.
    + apply String.eqb_neq in Heqb. split; [|intros _ _ s Hs; split; [done|]; congruence].
      apply Hreuse; [done|done|]. left. rewrite Hr, (Hkey ()), Hr. by split.
    + specialize (Hr Heqb). rewrite Hr in Hmint. split; [by eapply Hmint|]. intros. congruence.
    + split; [by apply Hreuse; eauto|]. intros _ _ s Hs. by split.
Qed.

Lemma reconcileToken_run raw console w r w' :
  reconcileEvidenceToken raw console w = (r, w') →
  token_pass raw console w w' r ∧
  (rotation_requested console = false → current_generation w console ≠ 0%Z →
   ∀ s, view w KSecret (tokenKey console (current_generation w console)) = Some s →
     untouched w w' ∧ (is_ok r = true → default "" (s.(Sec_Data) !! evidenceTokenKey) ≠ "")).
Proof using CL KL.
  intros H. unfold reconcileEvidenceToken in H. rewrite run_bind in H.
  destruct (rotation_requested console) eqn:Hrot; cbn [negb] in H.
  - split; [|done]. rewrite run_ret in H.
    assert (∃ w1, untouched w w1 ∧ mint raw console (rotation_requested console) (next_generation w console) w1
            = (r, w')) as (w1 & Hu & Hm); [|by eapply mint_pass].
    exists w. split; [done|]. unfold next_generation, current_generation. rewrite Hrot. by destruct (_ =? 0)%Z.
  - rewrite run_bind in H. destruct (deployedTokenGeneration console w) as [[d|e] w1] eqn:Hd;
      apply deployed_run in Hd as [Hu Hg].
    + rewrite run_ret in H. specialize (Hg d eq_refl).
      assert ((if (tokenGeneration (PC_TokenSecretName console) <? d)%Z then d
               else tokenGeneration (PC_TokenSecretName console)) = current_generation w console) as Hcur.
      { unfold current_generation. rewrite Hrot, Hg. destruct (Z.ltb_spec (tokenGeneration (PC_TokenSecretName console)) (deployed_generation w console)); lia. }
      rewrite Hcur in H. by eapply unrotated_run.
    + simplify_eq. split; [|by split]. apply reuse_pass; eauto.
Qed.

(** The generation that follows, while the counter is an int. *)
Lemma successor_generation w console name :
  name = evidenceTokenSecretName (PC_Name console) (next_generation w console) →
  next_generation w console ≠ current_generation w console →
  (current_generation w console + 1 < 2 ^ 63)%Z →
  counter_fits (PC_Name console) (current_generation w console + 1) →
  tokenGeneration name = (current_generation w console + 1)%Z.
Proof using.
  intros -> Hne Hmax Hfit. assert (0 ≤ current_generation w console)%Z as H0.
  { unfold current_generation, deployed_generation, templateTokenGeneration.
    pose proof (tokenGeneration_range (PC_TokenSecretName console)). destruct (rotation_requested console); lia. }
  assert (next_generation w console = current_generation w console + 1)%Z as ->.
  { unfold next_generation in *. destruct (Z.eqb_spec (current_generation w console) 0) as [->|]; [done|].
    destruct (rotation_requested console); [apply wrap64_small; unfold int64_range; lia|].
    destruct (view w KSecret _); [done|]. apply wrap64_small; unfold int64_range; lia. }
  apply tokenGeneration_fits; [done|lia].
Qed.

(** C22: A pass of the token reconcile never changes or deletes a Secret and writes
    nothing else but the console. It starts from the generation the status
    names, raised to the one the live Deployment runs unless a rotation is
    asked for. While the Secret of that generation is there and no rotation is
    asked for, nothing is written, and an empty token is an error. Otherwise
    the pass answers with a successor, and a Secret is there under its name:
    the one it found, or an immutable one owned by the console that holds the
    base64url form of the random bytes. The rotation is acknowledged on the
    stored console only once that Secret is there. As long as the counter fits
    in the name, the successor's name counts one more than the generation it
    replaces, so it is neither the name the status holds nor that of any
    generation so far. When it does not fit, a rotation of the first token
    answers with the name that token has already. *)
Theorem evidence_token_lifecycle raw console w r w' :
  reconcileEvidenceToken raw console w = (r, w') →
  token_pass raw console w w' r ∧
  (rotation_requested console = false → current_generation w console ≠ 0%Z →
   ∀ s, view w KSecret (tokenKey console (current_generation w console)) = Some s →
     untouched w w' ∧ (is_ok r = true → default "" (s.(Sec_Data) !! evidenceTokenKey) ≠ "")) ∧
  ∀ name console', r = Ok (name, console') →
    (rotation_requested console = true ∨
     view w KSecret (tokenKey console (current_generation w console)) = None →
     (current_generation w console + 1 < 2 ^ 63)%Z →
     counter_fits (PC_Name console) (current_generation w console + 1) →
     tokenGeneration name = (current_generation w console + 1)%Z ∧
     name ≠ PC_TokenSecretName console ∧
     ∀ g, (1 ≤ g ≤ current_generation w console)%Z → counter_fits (PC_Name console) g →
       name ≠ evidenceTokenSecretName (PC_Name console) g) ∧
    (rotation_requested console = true → ¬ counter_fits (PC_Name console) 1 →
     PC_TokenSecretName console = evidenceTokenSecretName (PC_Name console) 1 →
     name = PC_TokenSecretName console).
Proof using CL KL.
  intros [Hp Hu]%reconcileToken_run. split_and!; [exact Hp|exact Hu|]. intros name console' Hr.
  destruct (tp_result _ _ _ _ _ Hp name console' Hr) as (Hn & _). split.
  - intros Hwhy Hmax Hfit. assert (next_generation w console ≠ current_generation w console) as Hne.
    { pose proof (tokenGeneration_range (PC_TokenSecretName console)).
      unfold next_generation. destruct (Z.eqb_spec (current_generation w console) 0) as [->|]; [done|].
      assert (0 ≤ current_generation w console)%Z.
      { unfold current_generation. destruct (rotation_requested console); lia. }
      rewrite wrap64_small by (unfold int64_range; lia).
      destruct (rotation_requested console); [lia|]. destruct Hwhy as [?|Hv]; [done|]. rewrite Hv. lia. }
    pose proof (successor_generation w console name Hn Hne Hmax Hfit) as Hg. split_and!; [done| |].
    + intros E. rewrite E in Hg. unfold current_generation in Hg. destruct (rotation_requested console); lia.
    + intros g Hle Hf E. rewrite E, tokenGeneration_fits in Hg by (done || lia). lia.
  - intros Hrot Hf Hs. rewrite Hn, Hs. f_equal. unfold next_generation, current_generation.
    by rewrite Hrot, Hs, tokenGeneration_truncated by done.
Qed.

(** A rotation of a console whose name leaves no room for the counter: it is
    acknowledged, and the token stays the one it was. *)
Theorem long_name_rotation_lost `{L : !GoLibLaws G} raw console g w name console' w' s :
  reconcileEvidenceToken raw console w = (Ok (name, console'), w') →
  rotation_requested console = true →
  (PC_TokenSecretName console) = evidenceTokenSecretName (PC_Name console) g →
  ¬ counter_fits (PC_Name console) g →
  view w KSecret (tokenKey console 1) = Some s →
  name = evidenceTokenSecretName (PC_Name console) 1 ∧
  view w' KSecret (tokenKey console 1) = Some s ∧ acknowledged_stored w w' console.
Proof using CL KL.
  intros [Hp _]%reconcileToken_run Hrot Hn Hf Hs.
  destruct (tp_result _ _ _ _ _ Hp name console' eq_refl) as (-> & _ & Hack). rewrite Hrot in Hack.
  unfold next_generation, current_generation. rewrite Hrot, Hn, tokenGeneration_truncated by done.
  split_and!; [done| |apply Hack]. by apply (tf_secrets _ _ _ (tp_frame _ _ _ _ _ Hp)).
Qed.

(** ** The collection *)

Lemma rolloutComplete_true d : rolloutComplete d = true →
  (d.(D_Meta).(M_Generation) ≤ d.(D_ObservedGeneration))%Z ∧ d.(D_UpdatedReplicas) = 1%Z ∧ d.(D_ReadyReplicas) = 1%Z.
Proof using. unfold rolloutComplete. rewrite !andb_true_iff. lia. Qed.

Lemma rolloutComplete_false d : rolloutComplete d = false →
  ¬ ((d.(D_Meta).(M_Generation) ≤ d.(D_ObservedGeneration))%Z ∧ d.(D_UpdatedReplicas) = 1%Z ∧ d.(D_ReadyReplicas) = 1%Z).
Proof using. unfold rolloutComplete. rewrite !andb_false_iff. lia. Qed.

(** What the collection may delete. *)
Definition superseded (w : W) (console : PgConsole) (active : string) (key : ObjectKey) : Prop :=
  ∃ s, cached w KSecret key = Some s ∧ key.1 = PC_Namespace console ∧ key.2 ≠ active ∧
    s.(Sec_Meta).(M_Labels) !! EvidenceTokenLabelKey = Some (PC_Name console) ∧
    s.(Sec_Meta).(M_Controller) = Some (PC_UID console).

(** Only Secrets of a set were deleted. *)
Definition only_deleted (P : ObjectKey → Prop) (w w' : W) : Prop :=
  ∀ k key, view w' k key = view w k key ∨ (k = KSecret ∧ P key ∧ delete_made (view w k key) (view w' k key)).

Lemma only_deleted_preorder P : PreOrder (only_deleted P).
Proof using.
  split; [by left|]. intros w1 w2 w3 H1 H2 k key.
  destruct (H2 k key) as [E2|(Hk & ? & E2)], (H1 k key) as [E1|(? & ? & E1)]; try subst k.
  - left. by rewrite E2.
  - right. by rewrite E2.
  - right. by rewrite <-E1.
  - right. split_and!; [done..|]. by eapply delete_made_trans.
Qed.

Lemma only_deleted_released P w w' key : only_deleted P w w' → released w KSecret key → released w' KSecret key.
Proof using CL.
  intros Ho Hr. destruct (Ho KSecret key) as [E|(_ & _ & E)]; [unfold released; by rewrite E|by eapply delete_released].
Qed.

Lemma one_deleted (P : ObjectKey → Prop) w w' key :
  P key → elsewhere w w' KSecret key →
  view w' KSecret key = view w KSecret key ∨ delete_made (view w KSecret key) (view w' KSecret key) →
  only_deleted P w w'.
Proof using.
  intros HP He Hv k key'. destruct (decide (k = KSecret)) as [->|Hk]; [|left; apply He; by left].
  destruct (decide (key' = key)) as [->|Hk]; [|left; apply He; by right]. destruct Hv; auto.
Qed.

Lemma collectToken_run console active s w r w' (P : ObjectKey → Prop) :
  collectToken console active s w = (r, w') →
  (s.(Sec_Meta).(M_Name) ≠ active → s.(Sec_Meta).(M_Controller) = Some (PC_UID console) →
     P (key_of s.(Sec_Meta))) →
  only_deleted P w w' ∧
  (r = Ok () → s.(Sec_Meta).(M_Name) ≠ active → s.(Sec_Meta).(M_Controller) = Some (PC_UID console) →
     released w' KSecret (key_of s.(Sec_Meta))).
Proof using CL.
  intros H HP. unfold collectToken in H.
  destruct (String.eqb_spec (M_Name (Sec_Meta s)) active) as [He|He].
  { rewrite run_ret in H. simplify_eq. split; [by left|done]. }
  destruct (M_Controller (Sec_Meta s)) as [owner|]; [|rewrite run_ret in H; simplify_eq; by split; [left|]].
  destruct (String.eqb owner (PC_UID console)) eqn:Ho; cbn [negb] in H.
  - apply String.eqb_eq in Ho. specialize (HP He (f_equal Some Ho)). generalize dependent (key_of (Sec_Meta s)). intros key H HP.
    run_in H; learn; rebase.
    + split; [eapply one_deleted; eauto|]. intros _ _ _. by eapply delete_released.
    + split; [eapply one_deleted; eauto|]. intros _ _ _ o Hv. destruct (H Heqb) as [_ ?]. congruence.
    + split; [eapply one_deleted; eauto|done].
  - apply String.eqb_neq in Ho. rewrite run_ret in H. simplify_eq. split; [by left|]. congruence.
Qed.

Lemma listed_superseded console active w l s :
  (∀ o, o ∈ l ↔ ∃ name, cached w KSecret (PC_Namespace console, name) = Some o) →
  s ∈ tokenSecrets console l → s.(Sec_Meta).(M_Name) ≠ active →
  s.(Sec_Meta).(M_Controller) = Some (PC_UID console) → superseded w console active (key_of s.(Sec_Meta)).
Proof using CL.
  intros Hin [Hl Hs]%list_elem_of_filter Hne Howner. apply Hin in Hs as [name Hs].
  pose proof (cached_key w KSecret _ _ Hs : key_of (Sec_Meta s) = _) as Hk. exists s. rewrite Hk.
  split_and!; [done|done| |done|done]. unfold key_of in Hk. cbn. congruence.
Qed.

Lemma collected_gone console active w w1 w' l key :
  (∀ o, o ∈ l ↔ ∃ name, cached w KSecret (PC_Namespace console, name) = Some o) →
  (∀ s, s ∈ tokenSecrets console l → ∃ v1 v2, only_deleted (superseded w console active) w1 v1 ∧
     collectToken console active s v1 = (Ok (), v2) ∧ only_deleted (superseded w console active) v2 w') →
  superseded w console active key → released w' KSecret key.
Proof using CL.
  intros Hin Hdone (s & Hs & Hns & Hne & Hlab & Howner).
  pose proof (cached_key w KSecret _ _ Hs : key_of (Sec_Meta s) = _) as Hk.
  assert (s ∈ tokenSecrets console l) as Hl.
  { apply list_elem_of_filter. split; [done|]. apply Hin. exists key.2. by rewrite <-Hns, <-surjective_pairing. }
  destruct (Hdone s Hl) as (v1 & v2 & _ & Hc & Ho).
  eapply (collectToken_run _ _ _ _ _ _ (λ _, True)) in Hc as [_ Hc]; [|done].
  rewrite Hk in Hc. unfold key_of in Hk. subst key. cbn in Hne. specialize (Hc eq_refl Hne Howner).
  by eapply only_deleted_released.
Qed.

(** C23: The collection of superseded tokens deletes nothing but Secrets of the
    console's namespace that carry its token label, are controlled by it and do
    not bear the active name, so the active token always survives; and it
    deletes nothing unless the Deployment it is shown has been observed at its
    generation with its one replica updated and ready. Over such a Deployment,
    when it returns no error, every such Secret the cache knew is gone, or is
    being deleted and held by a finalizer somebody put on it. *)
Theorem superseded_collected console active deployment w r w' :
  collectSupersededTokens console active deployment w = (r, w') →
  only_deleted (superseded w console active) w w' ∧
  (∀ k, view w' k (PC_Namespace console, active) = view w k (PC_Namespace console, active)) ∧
  (untouched w w' ∨
   ∃ d, deployment = Some d ∧ (d.(D_Meta).(M_Generation) ≤ d.(D_ObservedGeneration))%Z ∧
     d.(D_UpdatedReplicas) = 1%Z ∧ d.(D_ReadyReplicas) = 1%Z) ∧
  (∀ d, deployment = Some d → (d.(D_Meta).(M_Generation) ≤ d.(D_ObservedGeneration))%Z →
   d.(D_UpdatedReplicas) = 1%Z → d.(D_ReadyReplicas) = 1%Z → r = Ok () →
   ∀ key, superseded w console active key → released w' KSecret key).
Proof using CL.
  intros H. assert (only_deleted (superseded w console active) w w' →
    ∀ k, view w' k (PC_Namespace console, active) = view w k (PC_Namespace console, active)) as Hactive.
  { intros Ho k. destruct (Ho k (PC_Namespace console, active)) as [?|(_ & (s & _ & _ & Hne & _) & _)]; [done|]. by destruct Hne. }
  unfold collectSupersededTokens in H. destruct deployment as [d|].
  2:{ rewrite run_ret in H. simplify_eq. split_and!; [by left|done|by left|done]. }
  destruct (rolloutComplete d) eqn:Hroll; cbn [negb] in H; apply rolloutComplete_true in Hroll || apply rolloutComplete_false in Hroll.
  2:{ rewrite run_ret in H. simplify_eq. split_and!; [by left|done|by left|]. intros ? [= <-] ? ? ?. by destruct Hroll. }
  rewrite run_bind, run_wrap in H. destruct (List KSecret _ w) as [[l|e] w1] eqn:Hl; learn.
  - destruct (Hr l eq_refl) as [_ Hin]. pose proof (only_deleted_preorder (superseded w console active)).
    apply (forM_related (only_deleted (superseded w console active))) in H as [Ho Hdone].
    + assert (only_deleted (superseded w console active) w w') as Ho'.
      { intros k key. rewrite <-(untouched_lookup _ _ k key Hu). apply Ho. }
      split_and!; [done|by apply Hactive|right; by exists d|]. intros _ _ _ _ _ Hok key Hs.
      exact (collected_gone console active w w1 w' l key Hin (Hdone Hok) Hs).
    + intros s v1 r1 v2 Hs Hc. eapply collectToken_run in Hc as [Hc _]; [exact Hc|].
      intros Hne Howner. by eapply listed_superseded.
  - simplify_eq. split_and!; [intros k key; left; apply Hu|intros; apply Hu|by left|done].
Qed.
End theorems.

(** ** A console that asks for a rotation *)

Definition rotating_console (name tokenSecretName : string) : PgConsole :=
  mkPgConsole (set_annotations {[RotateEvidenceTokenAnnotation := "now"]}
                 (mkMeta name "ns" "uid-c" ∅ ∅ None "1" 3 false []))
    demo_console.(PC_Spec) (mkConsoleStatus 0 "" "" true tokenSecretName []).

Definition demo_token (console : PgConsole) (g : Z) : Secret :=
  ownedToken console (evidenceTokenSecretName (PC_Name console) g) "old".

Definition demo_rotation (console : PgConsole) (g : Z) : demo :=
  demo_world_of (demo_objects [] [demo_token console g] [console] []).

Definition long_name : string := repeat_str 42 "c".

(** The rotation mints the second generation and acknowledges it. *)
Lemma evidence_token_lifecycle_witness :
  let console := rotating_console "c" "c-pgconsole-evidence-t1" in
  let w' := (reconcileEvidenceToken (Ok (repeat_str 32 "r")) console (demo_rotation console 1)).2 in
  token_present (demo_rotation console 1) w' (Ok (repeat_str 32 "r")) console 2 ∧
  acknowledged_stored (demo_rotation console 1) w' console ∧
  tokenGeneration "c-pgconsole-evidence-t2" = 2%Z.
Proof.
  intros console w'.
  destruct (evidence_token_lifecycle (Ok (repeat_str 32 "r")) console (demo_rotation console 1) _ _
    (surjective_pairing _)) as (Hp & _ & Hn).
  assert (E : (reconcileEvidenceToken (Ok (repeat_str 32 "r")) console (demo_rotation console 1)).1 =
    Ok ("c-pgconsole-evidence-t2", acknowledged console)) by (vm_compute; reflexivity).
  destruct (tp_result _ _ _ _ _ Hp "c-pgconsole-evidence-t2" (acknowledged console) E) as (_ & Hs & _ & Ha).
  assert (next_generation (demo_rotation console 1) console = 2%Z) as Hg by (vm_compute; reflexivity).
  rewrite Hg in Hs. split; [exact Hs|]. split; [exact Ha|].
  destruct (Hn _ _ E) as [H2 _]. apply H2; [left|..]; vm_compute; try reflexivity; lia.
Defined.

Lemma token_counter_roundtrip_witness :
  tokenGeneration (evidenceTokenSecretName "console" 12) = 12%Z ∧
  tokenGeneration (evidenceTokenSecretName long_name 12) = 0%Z.
Proof.
  destruct (token_counter_roundtrip "console" 12 13) as (_ & H & _); [lia|].
  destruct (token_counter_roundtrip long_name 12 13) as (_ & _ & H'); [lia|]. split.
  - apply H. vm_compute. lia.
  - apply H'. vm_compute. lia.
Defined.

(** With a long name the same annotation is acknowledged and nothing rotates. *)
Example long_name_example :
  let console := rotating_console long_name (evidenceTokenSecretName long_name 1) in
  (reconcileEvidenceToken (Ok (repeat_str 32 "r")) console (demo_rotation console 1)).1 =
  Ok (evidenceTokenSecretName long_name 1, acknowledged console).
Proof. vm_compute. reflexivity. Qed.

Definition empty_deployment : DeploymentSpec :=
  mkDeploymentSpec (Some 1%Z) "Recreate" ∅ ∅ ∅
    (mkPodSpec "" None "" "" (mkPodSecurity None "" None) [] [] []).

Definition rolled_out : Deployment :=
  mkDeployment (mkMeta "c-pgconsole" "ns" "d" ∅ ∅ (Some "uid-c") "1" 1 false []) empty_deployment 1 1 1.

Lemma superseded_collected_witness :
  let console := rotating_console "c" "c-pgconsole-evidence-t2" in
  is_Some (view (demo_rotation console 1) KSecret ("ns", "c-pgconsole-evidence-t1")) ∧
  released (collectSupersededTokens console "c-pgconsole-evidence-t2" (Some rolled_out) (demo_rotation console 1)).2
    KSecret ("ns", "c-pgconsole-evidence-t1").
Proof.
  intros console. split; [vm_compute; eauto|].
  destruct (superseded_collected console "c-pgconsole-evidence-t2" (Some rolled_out) (demo_rotation console 1)
    _ _ (surjective_pairing _)) as (_ & _ & _ & H).
  apply (H rolled_out); [reflexivity|vm_compute; discriminate|reflexivity|reflexivity|vm_compute; reflexivity|].
  exists (demo_token console 1). split_and!; try (vm_compute; reflexivity). vm_compute. discriminate.
Defined.
