(* ===== verification/ProxySecret.v ===== *)
(** * The proxy configuration of a console ([internal/controller/pgconsole/proxyconfig.go])

    The configuration file rendered for the proxy from the console and its
    resolved users, checked by the proxy's own parser, and the Secret it is
    kept in with its session key. [sigs.k8s.io/yaml] is the class [Yaml]; the
    random bytes of a session key are an argument. *)

From S2P Require Import Prelude GoUtf8 GoStrings GoBytes GoLib ProxyConfig ApiTypes Kube Shared Render Conditions Users NetPolicy.

Definition proxyConfigSecretSuffix : string := "-proxy".
Definition proxyConfigFileName : string := "config.yaml".
Definition proxySessionKeyName : string := "session-key".
Definition oidcClientSecretMountPath : string := "/etc/pgtoolbox-proxy/oidc".
Definition oidcClientSecretFile : string := "client-secret".
Definition defaultOIDCClientSecretKey : string := "clientSecret".
Definition proxyCallbackPath : string := "/auth/oidc/callback".
Definition openshiftCallbackPath : string := "/auth/openshift/callback".
Definition serviceAccountRoot : string := "/var/run/secrets/kubernetes.io/serviceaccount".

Class Yaml := {
  (** [yaml.Marshal] of a configuration, and [yaml.UnmarshalStrict] into one *)
  yaml_Marshal : Config → option string;
  yaml_Unmarshal : string → option Config
}.

(** Why a configuration cannot be rendered. *)
Inductive render_error :=
  | NoProvider
  | AccessLevelInvalid (level : Level)
  | MarshalFailed
  | ParseRefused (e : load_error).

Definition portString (port : Z) : string := Itoa port.

Definition loopbackUpstream (port : Z) : string := "http://127.0.0.1:" +:+ portString port.

Definition consoleBaseURL (console : PgConsole) : string :=
  let hostname := (CS_Hostname console.(PC_Spec)) in
  if negb (String.eqb hostname "") then "https://" +:+ hostname
  else "http://localhost:" +:+ portString proxyPort.

Definition externalCallbackURL (console : PgConsole) (path : string) : string :=
  if String.eqb (CS_Hostname console.(PC_Spec)) "" then "" else consoleBaseURL console +:+ path.

Definition oidcClientSecretKey (ref : SecretKeyReference) : string :=
  if negb (String.eqb ref.(SR_Key) "") then ref.(SR_Key) else defaultOIDCClientSecretKey.

Section proxyconfig.
Context `{G : GoLib} `{Y : Yaml} `{K : Machinery} {W : Type} `{C : Client W}.

Definition serviceAccountClientID (console : PgConsole) : string :=
  "system:serviceaccount:" +:+ PC_Namespace console +:+ ":" +:+ ResourceName application (PC_Name console) "".

(** The provider block, the modes in their fixed order. *)
Definition console_provider (console : PgConsole) : ProviderConfig :=
  let auth := console.(PC_Spec).(CS_Authentication) in
  mkProviderConfig
    ((if auth.(PA_Local) is Some _ then [ModeLocal] else [])
     ++ (if auth.(PA_OIDC) is Some _ then [ModeOIDC] else [])
     ++ (if auth.(PA_OpenShift) is Some _ then [ModeOpenShift] else []))
    ((λ o, mkOIDCConfig o.(PO_IssuerURL) o.(PO_ClientID)
             (oidcClientSecretMountPath +:+ "/" +:+ oidcClientSecretFile)
             (externalCallbackURL console proxyCallbackPath) [] "") <$> auth.(PA_OIDC))
    ((λ _, mkOpenShiftConfig (serviceAccountClientID console) (serviceAccountRoot +:+ "/token")
             (externalCallbackURL console openshiftCallbackPath) "" ""
             (serviceAccountRoot +:+ "/ca.crt") [] "") <$> auth.(PA_OpenShift)).

Definition pgAdminLevel (console : PgConsole) : Level :=
  or_default console.(PC_Spec).(CS_PgAdmin).(PG_AccessMinLevel) LevelDBA.

Definition console_routes (console : PgConsole) (pgAdminEnabled : bool) : list RouteConfig :=
  (if pgAdminEnabled then [mkRouteConfig "/pgadmin" (loopbackUpstream pgAdminPort) (pgAdminLevel console)]
   else [])
  ++ [mkRouteConfig "/" (loopbackUpstream consolePort) LevelView].

(** The configuration before it is printed. *)
Definition console_config (console : PgConsole) (sessionKey : string) (pgAdminEnabled : bool)
    (users : list User) : Config :=
  mkConfig (mkSessionConfig "" [sessionKey] 0 None)
    (mkServerConfig (":" +:+ portString proxyPort) 0 0)
    (console_provider console) users (console_routes console pgAdminEnabled)
    (mkAccessRequestConfig true (PC_Name console) (PC_Namespace console)).

Definition renderProxyConfig (console : PgConsole) (sessionKey : string) (pgAdminEnabled : bool)
    (users : list User) : result render_error string :=
  let cfg := console_config console sessionKey pgAdminEnabled users in
  if Nat.eqb (length cfg.(C_Provider).(Modes)) 0 then Err NoProvider
  else if pgAdminEnabled && negb (Level_Valid (pgAdminLevel console)) then
    Err (AccessLevelInvalid (pgAdminLevel console))
  else
    rendered ← result_of_option MarshalFailed (yaml_Marshal cfg);
    match Parse yaml_Unmarshal rendered with
    | Err e => Err (ParseRefused e)
    | Ok _ => Ok rendered
    end.

(** An expected outcome to publish on [ProxyConfigReady]: the reason, and what
    its message is formatted from. *)
Inductive issue_message :=
  | RenderMessage (e : render_error)
  | OIDCSecretMissing (name : string)
  | OIDCSecretUnreadable (name : string) (e : error)
  | OIDCKeyMissing (name key : string).

Record configIssue := issue { CI_reason : string; CI_message : issue_message }.

Definition checkOIDCClientSecret (console : PgConsole) : M W (option configIssue) :=
  match console.(PC_Spec).(CS_Authentication).(PA_OIDC) with
  | None => mret None
  | Some oidc =>
      let ref := oidc.(PO_ClientSecretRef) in
      r ← try (LiveGet KSecret (PC_Namespace console, ref.(SR_Name)));
      mret match r with
           | Err e =>
               Some (issue ReasonSecretNotFound
                 (if IsNotFound e then OIDCSecretMissing ref.(SR_Name)
                  else OIDCSecretUnreadable ref.(SR_Name) e))
           | Ok secret =>
               if String.eqb (default "" (secret.(Sec_Data) !! oidcClientSecretKey ref)) "" then
                 Some (issue ReasonSecretKeyMissing (OIDCKeyMissing ref.(SR_Name) (oidcClientSecretKey ref)))
               else None
           end
  end.

(** [raw] is what [rand.Read] filled the 32-byte buffer with. *)
Definition generateSessionKey (raw : result error string) : M W string :=
  value ← wrap "generate proxy session key" (of_result raw);
  mret (RawURL_EncodeToString value).

Definition proxySecretKey (console : PgConsole) : ObjectKey :=
  (PC_Namespace console, ResourceName application (PC_Name console) proxyConfigSecretSuffix).

(** The name of the Secret in a message. *)
Definition secret_ref (key : ObjectKey) : string := key.1 +:+ "/" +:+ key.2.

(** The existing Secret with the two entries the operator owns. *)
Definition refreshed_secret (existing : Secret) (rendered sessionKey : string) : Secret :=
  mkSecret existing.(Sec_Meta) existing.(Sec_Type) existing.(Sec_Immutable)
    (<[proxySessionKeyName := sessionKey]> (<[proxyConfigFileName := rendered]> existing.(Sec_Data))).

(** The Secret before an owner is set on it. *)
Definition fresh_secret (console : PgConsole) (rendered sessionKey : string) : Secret :=
  mkSecret
    (new_meta (proxySecretKey console).2 (proxySecretKey console).1
       (CommonLabels application (PC_Name console)) None)
    SecretTypeOpaque false
    (<[proxySessionKeyName := sessionKey]> {[proxyConfigFileName := rendered]}).

(** The writes once the configuration is rendered. *)
Definition writeProxySecret (console : PgConsole) (existing : option Secret) (rendered sessionKey : string)
    : M W () :=
  match existing with
  | Some existing =>
      if negb (bool_decide (existing.(Sec_Meta).(M_Controller) = Some (PC_UID console))) then
        throw (FmtErr ("proxy configuration secret " +:+ secret_ref (proxySecretKey console)
          +:+ " exists and is not owned by this PgConsole"))
      else if String.eqb (default "" (existing.(Sec_Data) !! proxyConfigFileName)) rendered
              && String.eqb (default "" (existing.(Sec_Data) !! proxySessionKeyName)) sessionKey then mret ()
      else
        wrap ("update proxy configuration secret " +:+ secret_ref (proxySecretKey console))
          (Update KSecret (refreshed_secret existing rendered sessionKey))
  | None =>
      secret ← of_result (SetControllerReference console.(PC_Meta) KSecret
                            (fresh_secret console rendered sessionKey));
      wrap ("create proxy configuration secret " +:+ secret_ref (proxySecretKey console)) (Create KSecret secret)
  end.

(** Answers with the checksum of the configuration, or with the issue. *)
Definition reconcileProxyConfigSecret (raw : result error string) (console : PgConsole)
    (proxyUsers : list User) : M W (string + configIssue) :=
  whyNot ← checkOIDCClientSecret console;
  match whyNot with
  | Some i => mret (inr i)
  | None =>
      r ← try (LiveGet KSecret (proxySecretKey console));
      existing ← found r;
      let held := from_option (λ s, default "" (s.(Sec_Data) !! proxySessionKeyName)) "" existing in
      sessionKey ← (if String.eqb held "" then generateSessionKey raw else mret held);
      match renderProxyConfig console sessionKey (pgAdminEnabled console) proxyUsers with
      | Err e => mret (inr (issue ReasonRenderFailed (RenderMessage e)))
      | Ok rendered =>
          writeProxySecret console existing rendered sessionKey;;
          mret (inl (Checksum {[proxyConfigFileName := rendered]}))
      end
  end.
End proxyconfig.

(** ** What renders *)

(** The loopback upstreams parse, as [net/url] documents of such URLs. *)
Class LoopbackURLs `{G : GoLib} : Prop := {
  loopback_absolute port : port ∈ [consolePort; pgAdminPort] →
    absolute ["http"; "https"] (loopbackUpstream port)
}.

(** Text on one line that YAML calls printable: none of the control characters
    C0, DEL and C1 (so no NEL either), no line or paragraph separator, no byte
    order mark and neither of U+FFFE and U+FFFF. The tests are on the bytes of
    a UTF-8 text, where C2, E2 and EF only ever lead a character. *)
Fixpoint no_specials (s : string) : bool :=
  match s with
  | EmptyString => true
  | String a rest =>
      let x := match rest with String b _ => byteZ b | _ => 0%Z end in
      let y := match rest with String _ (String b _) => byteZ b | _ => 0%Z end in
      ((32 <=? byteZ a) && negb (byteZ a =? 127)
       && negb ((byteZ a =? 194) && (x <? 160))
       && negb ((byteZ a =? 226) && (x =? 128) && ((y =? 168) || (y =? 169)))
       && negb ((byteZ a =? 239) && ((x =? 187) && (y =? 191) || (x =? 191) && (190 <=? y)))
       && no_specials rest)%Z
  end.

Example no_specials_examples :
  no_specials "Zoé ✓" = true ∧ no_specials (String (Zbyte 127) "") = false ∧
  no_specials (String (Zbyte 194) (String (Zbyte 133) "")) = false ∧
  no_specials (String (Zbyte 226) (String (Zbyte 128) (String (Zbyte 168) ""))) = false ∧
  no_specials (String (Zbyte 239) (String (Zbyte 187) (String (Zbyte 191) ""))) = false.
Proof. vm_compute. tauto. Qed.

Definition printable_text (s : string) : Prop := to_valid_utf8 s = s ∧ no_specials s = true.

#[export] Instance printable_text_dec s : Decision (printable_text s).
Proof. unfold printable_text. apply _. Defined.

(** The configurations whose printed form reads back: no duration is set, and
    every string is printable. *)
Definition printable_strings (c : Config) : list string :=
  c.(C_Session).(CookieSecrets) ++ c.(C_Provider).(Modes)
  ++ concat ((λ u, [u.(U_Subject); u.(U_Level); u.(U_LocalPasswordBcrypt)]) <$> c.(C_Users))
  ++ concat ((λ r, [r.(PathPrefix); r.(Upstream); r.(MinLevel)]) <$> c.(C_Routes))
  ++ from_option (λ o, [o.(OIDC_IssuerURL); o.(OIDC_ClientID); o.(OIDC_ClientSecretFile); o.(OIDC_RedirectURL)])
       [] c.(C_Provider).(OIDC)
  ++ from_option (λ o, [o.(OS_ClientID); o.(OS_ClientSecretFile); o.(OS_RedirectURL); o.(OS_CAFile)])
       [] c.(C_Provider).(OpenShift)
  ++ [c.(C_Server).(Listen); c.(C_AccessRequest).(ConsoleName); c.(C_AccessRequest).(AR_Namespace)].

Definition printable (c : Config) : Prop :=
  c.(C_Session).(MaxAge) = 0%Z ∧ c.(C_Server).(UpstreamDialTimeout) = 0%Z ∧
  c.(C_Server).(UpstreamResponseHeaderTimeout) = 0%Z ∧
  Forall printable_text (printable_strings c).

Class YamlLaws `(Y : Yaml) : Prop := {
  yaml_roundtrip c : printable c → ∃ text, yaml_Marshal c = Some text ∧ yaml_Unmarshal text = Some c
}.

Section rendering.
Context `{G : GoLib} `{UL : !LoopbackURLs}.

(** What the proxy needs of a console, its session key and its users. *)
Record renderable (console : PgConsole) (sessionKey : string) (pgAdmin : bool) (users : list User) : Prop := {
  rb_provider : let auth := console.(PC_Spec).(CS_Authentication) in
    is_Some auth.(PA_Local) ∨ is_Some auth.(PA_OIDC) ∨ is_Some auth.(PA_OpenShift);
  rb_level : pgAdmin = true → Level_Valid (pgAdminLevel console) = true;
  rb_key : minSecretLength ≤ slen sessionKey;
  rb_users : Forall (wf_user (is_Some console.(PC_Spec).(CS_Authentication).(PA_Local))) users;
  rb_subjects : NoDup ((λ u, lower u.(U_Subject)) <$> users);
  rb_oidc o : console.(PC_Spec).(CS_Authentication).(PA_OIDC) = Some o →
    (absolute ["https"] o.(PO_IssuerURL) ∧ o.(PO_IssuerURL) ≠ "") ∧ o.(PO_ClientID) ≠ "" ∧
    ((CS_Hostname console.(PC_Spec)) = "" ∨
     absolute ["https"; "http"] (externalCallbackURL console proxyCallbackPath));
  rb_openshift : is_Some console.(PC_Spec).(CS_Authentication).(PA_OpenShift) →
    (CS_Hostname console.(PC_Spec)) ≠ "" ∧
    absolute ["https"; "http"] (externalCallbackURL console openshiftCallbackPath);
  rb_names : PC_Name console ≠ "" ∧ PC_Namespace console ≠ ""
}.

Lemma externalCallbackURL_empty console path :
  externalCallbackURL console path = "" ↔ (CS_Hostname console.(PC_Spec)) = "".
Proof using.
  unfold externalCallbackURL, consoleBaseURL.
  destruct (String.eqb_spec (CS_Hostname (PC_Spec console)) ""); [done|]. by split.
Qed.

Lemma console_modes console m :
  m ∈ (console_provider console).(Modes) ↔
  let auth := console.(PC_Spec).(CS_Authentication) in
  (m = ModeLocal ∧ is_Some auth.(PA_Local)) ∨ (m = ModeOIDC ∧ is_Some auth.(PA_OIDC)) ∨
  (m = ModeOpenShift ∧ is_Some auth.(PA_OpenShift)).
Proof using.
  unfold console_provider. cbn [Modes]. set (auth := CS_Authentication (PC_Spec console)). clearbody auth.
  cbv zeta. rewrite <-!not_eq_None_Some.
  destruct auth as [ba [[]|] [o|] [[]|]]; cbn; rewrite ?elem_of_cons, ?elem_of_nil; naive_solver.
Qed.

Lemma console_provider_wf console :
  wf_provider (mkProviderConfig (console_provider console).(Modes)
    (default_oidc <$> (console_provider console).(OIDC))
    (default_openshift <$> (console_provider console).(OpenShift))) ↔
  (let auth := console.(PC_Spec).(CS_Authentication) in
   is_Some auth.(PA_Local) ∨ is_Some auth.(PA_OIDC) ∨ is_Some auth.(PA_OpenShift)) ∧
  (∀ o, console.(PC_Spec).(CS_Authentication).(PA_OIDC) = Some o →
    (absolute ["https"] o.(PO_IssuerURL) ∧ o.(PO_IssuerURL) ≠ "") ∧ o.(PO_ClientID) ≠ "" ∧
    ((CS_Hostname console.(PC_Spec)) = "" ∨
     absolute ["https"; "http"] (externalCallbackURL console proxyCallbackPath))) ∧
  (is_Some console.(PC_Spec).(CS_Authentication).(PA_OpenShift) →
    (CS_Hostname console.(PC_Spec)) ≠ "" ∧
    absolute ["https"; "http"] (externalCallbackURL console openshiftCallbackPath)).
Proof using.
  clear UL. split.
  - intros [Hne _ _ _ Ho _ Hos]. cbn [Modes OIDC OpenShift] in *. split_and!.
    + destruct (Modes (console_provider console)) as [|m l] eqn:Hm; [done|].
      assert (m ∈ Modes (console_provider console)) as Hin by (rewrite Hm; apply list_elem_of_here).
      apply console_modes in Hin. cbv zeta in *. naive_solver.
    + intros o Ho'. unfold console_provider in Ho. cbn [OIDC] in Ho. rewrite Ho' in Ho. cbn in Ho.
      destruct (Ho _ eq_refl) as [Hi [Hc _] Hr _]. cbn in *. split_and!; [apply Hi|apply Hi|done|].
      by rewrite externalCallbackURL_empty in Hr.
    + intros [u Hu]. unfold console_provider in Hos. cbn [OpenShift] in Hos. rewrite Hu in Hos. cbn in Hos.
      destruct (Hos _ eq_refl) as [_ [Hne' Ha] _ _ _ _]. cbn in *. by rewrite externalCallbackURL_empty in Hne'.
  - intros (Hsome & Ho & Hos). split; cbn [Modes OIDC OpenShift].
    + intros Hm. assert (∀ m, m ∉ Modes (console_provider console)) as Hno by (rewrite Hm; set_solver).
      cbv zeta in Hsome. setoid_rewrite console_modes in Hno. cbv zeta in Hno. naive_solver.
    + apply Forall_forall. intros m Hm%console_modes. cbv zeta in Hm. naive_solver.
    + unfold console_provider. cbn [Modes]. destruct (CS_Authentication _) as [ba [[]|] [o|] [[]|]]; cbn; compute_decide.
    + rewrite console_modes. cbv zeta. unfold console_provider. cbn [OIDC].
      destruct (PA_OIDC _); cbn; [|rewrite <-!not_eq_None_Some; naive_solver].
      split; [by eexists|]. intros _. right; left. split; [done|by eexists].
    + unfold console_provider. cbn [OIDC]. destruct (PA_OIDC _) as [o|]; [|done]. cbn. intros ? [= <-].
      destruct (Ho o eq_refl) as ((? & ?) & ? & ?). split; cbn; [done|by split| |done].
      by rewrite externalCallbackURL_empty.
    + rewrite console_modes. cbv zeta. unfold console_provider. cbn [OpenShift].
      destruct (PA_OpenShift _); cbn; [|rewrite <-!not_eq_None_Some; naive_solver].
      split; [by eexists|]. intros _. right; right. split; [done|by eexists].
    + unfold console_provider. cbn [OpenShift]. destruct (PA_OpenShift _) as [u|]; [|done]. cbn. intros ? [= <-].
      destruct (Hos ltac:(by eexists)). split; cbn; [by split| |by left|by left|done|].
      * by rewrite externalCallbackURL_empty.
      * right. by eexists.
Qed.

Lemma pgAdminLevel_some console : or_default (pgAdminLevel console) LevelView = pgAdminLevel console.
Proof using.
  unfold pgAdminLevel, or_default. destruct (String.eqb_spec (PG_AccessMinLevel (CS_PgAdmin (PC_Spec console))) "") as [H|H].
  - done.
  - apply String.eqb_neq in H. by rewrite H.
Qed.

Lemma console_routes_default console pg :
  default_route <$> console_routes console pg = console_routes console pg.
Proof using.
  unfold console_routes. destruct pg; cbn; [|done]. unfold default_route at 1. cbn. by rewrite pgAdminLevel_some.
Qed.

Lemma console_routes_wf console pg :
  (console_routes console pg ≠ [] ∧ Forall wf_route (console_routes console pg)) ∧
  NoDup (PathPrefix <$> console_routes console pg) ↔
  (pg = true → Level_Valid (pgAdminLevel console) = true).
Proof using UL.
  assert (∀ p port l, p ∈ ["/pgadmin"; "/"] → port ∈ [consolePort; pgAdminPort] →
    wf_route (mkRouteConfig p (loopbackUpstream port) l) ↔ l ∈ [LevelView; LevelPowerUser; LevelDBA]) as Hr.
  { intros p port l Hp Hport. split; [by intros []|]. intros Hl. split; cbn; [| | |split; [by apply loopback_absolute|done]|done].
    - rewrite !elem_of_cons, elem_of_nil in Hp. destruct Hp as [->|[->|[]]]; by eexists.
    - rewrite !elem_of_cons, elem_of_nil in Hp. by destruct Hp as [->|[->|[]]].
    - unfold ReservedPrefixes. intros res Hres.
      rewrite !elem_of_cons, elem_of_nil in Hp. rewrite !elem_of_cons, elem_of_nil in Hres.
      destruct Hp as [->|[->|[]]], Hres as [->|[->|[->|[]]]]; (split; [done|by intros [t [=]]]). }
  unfold console_routes. destruct pg; cbn [app fmap list_fmap PathPrefix].
  - rewrite !Forall_cons, Forall_nil, !Hr, level_elem by set_solver. split; [naive_solver|].
    intros Hl. split_and!; [done|by apply Hl|set_solver|done|]. compute_decide.
  - rewrite !Forall_cons, Forall_nil, Hr by set_solver. split; [done|].
    intros _. split_and!; [done|set_solver|done|]. compute_decide.
Qed.

(** The proxy's notion of a usable configuration, for what a console renders. *)
Lemma console_config_wf console key pg users :
  wf_config (setDefaults (console_config console key pg users)) ↔ renderable console key pg users.
Proof using UL.
  unfold setDefaults, console_config. cbn [C_Session C_Server C_Provider C_Users C_Routes C_AccessRequest].
  rewrite console_routes_default. pose proof (console_provider_wf console) as Hp.
  pose proof (console_routes_wf console pg) as Hr.
  assert (∀ u, wf_user (ModeLocal ∈ Modes (console_provider console)) u ↔
    wf_user (is_Some (PA_Local (CS_Authentication (PC_Spec console)))) u) as Hu.
  { intros u. apply wf_user_iff. rewrite console_modes. cbv zeta. naive_solver. }
  split.
  - intros [Hs _ Hpr Hus Hn Hro Hpre Hac]. cbn [C_Session C_Server C_Provider C_Users C_Routes C_AccessRequest] in *.
    apply Hp in Hpr as (H1 & H2 & H3). split; [done| | | |done|done|done|].
    + by apply Hr.
    + pose proof (wf_secret_length _ Hs) as Hk. cbn in Hk. by rewrite Forall_singleton in Hk.
    + eapply Forall_impl; [done|]. intros u. apply Hu.
    + by apply Hac.
  - intros [H1 H2 H3 H4 H5 H6 H7 [Hn Hns]].
    split; cbn [C_Session C_Server C_Provider C_Users C_Routes C_AccessRequest].
    + split; cbn; [done|compute_decide|done|by apply Forall_singleton|compute_decide].
    + by split.
    + by apply Hp.
    + eapply Forall_impl; [done|]. intros u. apply Hu.
    + done.
    + by apply Hr.
    + by apply Hr.
    + by split.
Qed.
End rendering.

Section render_theorems.
Context `{G : GoLib} `{UL : !LoopbackURLs} `{Y : Yaml} `{YL : !YamlLaws Y}.

Lemma Parse_renderable console key pg users text c ws :
  yaml_Unmarshal text = Some (console_config console key pg users) →
  Parse yaml_Unmarshal text = Ok (c, ws) ↔
  renderable console key pg users ∧ c = setDefaults (console_config console key pg users) ∧ ws = warnings c.
Proof using UL. intros Hu. rewrite Parse_Ok, Hu, <-console_config_wf. naive_solver. Qed.

Lemma renderProxyConfig_ok console key pg users text text' :
  yaml_Marshal (console_config console key pg users) = Some text →
  yaml_Unmarshal text = Some (console_config console key pg users) →
  renderProxyConfig console key pg users = Ok text' ↔ text' = text ∧ renderable console key pg users.
Proof using UL.
  intros Hm Hu. pose proof (λ c ws, Parse_renderable console key pg users text c ws Hu) as Hp.
  unfold renderProxyConfig. rewrite Hm. cbn [result_of_option mbind result_bind].
  destruct (Nat.eqb_spec (length (Modes (C_Provider (console_config console key pg users)))) 0) as [H0|H0].
  { split; [done|]. intros [_ Hr%console_config_wf%wf_c_provider%wf_some_mode].
    by apply length_zero_iff_nil in H0. }
  destruct (pg && negb (Level_Valid (pgAdminLevel console))) eqn:Hl.
  { split; [done|]. intros [_ Hr]. apply andb_true_iff in Hl as [-> Hl].
    by rewrite (rb_level _ _ _ _ Hr eq_refl) in Hl. }
  destruct (Parse yaml_Unmarshal text) as [[c ws]|e] eqn:Hparse.
  - destruct (Hp c ws) as [Hp1 _]. destruct (Hp1 eq_refl) as [Hr _]. split; [by intros [= ->]|by intros [-> _]].
  - split; [done|]. intros [_ Hr].
    pose proof (proj2 (Hp _ _) (conj Hr (conj eq_refl eq_refl))). done.
Qed.

End render_theorems.

(** ** The Secret *)

Section secret_theorems.
Context `{G : GoLib} `{Y : Yaml} `{K : Machinery} {W : Type} `{C : Client W}.
Context `{CL : !ClientLaws C} `{KL : !MachineryLaws K}.

Lemma checkOIDCClientSecret_run console w r w' :
  checkOIDCClientSecret console w = (r, w') → untouched w w' ∧ is_ok r = true.
Proof using CL.
  intros H. unfold checkOIDCClientSecret in H. destruct (PA_OIDC _) as [o|].
  - run_in H; learn; by split.
  - rewrite run_ret in H. by simplify_eq.
Qed.

(** The entries of the Secret, an absent one being empty. *)
Definition entry_of (s : Secret) (name : string) : string := default "" (s.(Sec_Data) !! name).

(** The Secret holds a configuration and the key it was rendered from, and
    keeps whatever else it held. *)
Record proxy_secret (console : PgConsole) (rendered sessionKey : string) (old : option Secret) (s : Secret)
    : Prop := {
  ps_config : entry_of s proxyConfigFileName = rendered;
  ps_key : entry_of s proxySessionKeyName = sessionKey;
  ps_owner : s.(Sec_Meta).(M_Controller) = Some (PC_UID console);
  ps_rest name : name ∉ [proxyConfigFileName; proxySessionKeyName] →
    s.(Sec_Data) !! name = (s0 ← old; s0.(Sec_Data) !! name)
}.

Lemma content_secret_data (a b : Secret) :
  content (k := KSecret) a = content (k := KSecret) b → a.(Sec_Data) = b.(Sec_Data).
Proof using. exact (f_equal Sec_Data (x := content (k := KSecret) a) (y := content (k := KSecret) b)). Qed.

Lemma content_secret_owner (a b : Secret) :
  content (k := KSecret) a = content (k := KSecret) b →
  a.(Sec_Meta).(M_Controller) = b.(Sec_Meta).(M_Controller).
Proof using. intros H%content_meta. exact (f_equal M_Controller H). Qed.

Definition owned_secret (console : PgConsole) (rendered sessionKey : string) : Secret :=
  mkSecret (set_controller (Some (PC_UID console)) (Sec_Meta (fresh_secret console rendered sessionKey)))
    SecretTypeOpaque false (Sec_Data (fresh_secret console rendered sessionKey)).

Lemma owned_secret_set console rendered key :
  SetControllerReference console.(PC_Meta) KSecret (fresh_secret console rendered key) =
  Ok (owned_secret console rendered key).
Proof using KL. by rewrite SetControllerReference_ok. Qed.

Lemma refreshed_proxy_secret console rendered key a s :
  a.(Sec_Meta).(M_Controller) = Some (PC_UID console) →
  content (k := KSecret) s = content (k := KSecret) (refreshed_secret a rendered key) →
  proxy_secret console rendered key (Some a) s.
Proof using CL KL.
  intros Ho H. pose proof (content_secret_data _ _ H) as Hd. pose proof (content_secret_owner _ _ H) as Hc.
  cbn [refreshed_secret Sec_Data Sec_Meta] in Hd, Hc. split.
  - unfold entry_of. by rewrite Hd, lookup_insert_ne, lookup_insert_eq.
  - unfold entry_of. by rewrite Hd, lookup_insert_eq.
  - congruence.
  - intros name Hn. rewrite Hd, !lookup_insert_ne by set_solver. done.
Qed.

Lemma created_proxy_secret console rendered key s :
  content (k := KSecret) s = content (k := KSecret) (owned_secret console rendered key) →
  proxy_secret console rendered key None s.
Proof using CL KL.
  intros H. pose proof (content_secret_data _ _ H) as Hd. pose proof (content_secret_owner _ _ H) as Hc.
  change (Sec_Data (owned_secret console rendered key)) with
    (<[proxySessionKeyName := key]> {[proxyConfigFileName := rendered]} : gmap string string) in Hd.
  change (M_Controller (Sec_Meta (owned_secret console rendered key))) with (Some (PC_UID console)) in Hc. split.
  - unfold entry_of. by rewrite Hd, lookup_insert_ne, lookup_singleton_eq.
  - unfold entry_of. by rewrite Hd, lookup_insert_eq.
  - congruence.
  - intros name Hn. rewrite Hd, lookup_insert_ne, lookup_singleton_ne by set_solver. done.
Qed.

Lemma update_secret_run console rendered key a msg w r w' :
  wrap msg (Update KSecret (refreshed_secret a rendered key)) w = (r, w') →
  key_of a.(Sec_Meta) = proxySecretKey console → a.(Sec_Meta).(M_Controller) = Some (PC_UID console) →
  gone a.(Sec_Meta) = false →
  elsewhere w w' KSecret (proxySecretKey console) ∧
  (r = Ok () → ∃ s, view w' KSecret (proxySecretKey console) = Some s ∧
     proxy_secret console rendered key (Some a) s).
Proof using CL KL.
  intros H Hk Ho Hg. pose proof (refreshed_proxy_secret console rendered key a) as Hs.
  pose proof (Hk : key_of (meta (k := KSecret) (refreshed_secret a rendered key)) = _) as Hkey.
  change (gone (meta (k := KSecret) (refreshed_secret a rendered key)) = false) in Hg.
  generalize dependent (refreshed_secret a rendered key). intros secret H Hg Hs Hkey.
  generalize dependent (proxySecretKey console). intros pk Hk Hkey.
  rewrite run_wrap in H. destruct (Update KSecret secret w) as [r1 w1] eqn:Hu.
  apply Update_spec in Hu as [_ Hw]. rewrite Hkey in Hw. destruct r1 as [[]|e]; simplify_eq.
  - destruct Hw as [(cur & s & _ & Hv & _ & Hcontent & _) He]. rewrite Hg in Hv.
    split; [done|]. intros _. exists s. auto.
  - split; [apply Hw|done].
Qed.

Lemma create_secret_run console rendered key msg w r w' :
  wrap msg (Create KSecret (owned_secret console rendered key)) w = (r, w') →
  elsewhere w w' KSecret (proxySecretKey console) ∧
  (r = Ok () → ∃ s, view w' KSecret (proxySecretKey console) = Some s ∧
     proxy_secret console rendered key None s).
Proof using CL KL.
  intros H. pose proof (created_proxy_secret console rendered key) as Hs.
  pose proof (eq_refl : key_of (meta (k := KSecret) (owned_secret console rendered key)) = proxySecretKey console) as Hkey.
  generalize dependent (owned_secret console rendered key). intros secret H Hs Hkey.
  generalize dependent (proxySecretKey console). intros pk Hkey.
  rewrite run_wrap in H. destruct (Create KSecret secret w) as [r1 w1] eqn:Hu.
  apply Create_spec in Hu as [_ Hw]. rewrite Hkey in Hw. destruct r1 as [[]|e]; simplify_eq.
  - destruct Hw as [(_ & s & Hv & Hcontent) He]. split; [done|]. intros _. exists s. auto.
  - split; [apply Hw|done].
Qed.

(** The writing half of a pass over the Secret that is stored. *)
Lemma writeProxySecret_run console rendered key w r w' :
  writeProxySecret console (view w KSecret (proxySecretKey console)) rendered key w = (r, w') →
  elsewhere w w' KSecret (proxySecretKey console) ∧
  (∀ s, view w KSecret (proxySecretKey console) = Some s →
     s.(Sec_Meta).(M_Controller) ≠ Some (PC_UID console) → untouched w w' ∧ r ≠ Ok ()) ∧
  (∀ s, view w KSecret (proxySecretKey console) = Some s →
     entry_of s proxyConfigFileName = rendered → entry_of s proxySessionKeyName = key → untouched w w') ∧
  (r = Ok () → ∃ s, view w' KSecret (proxySecretKey console) = Some s ∧
     proxy_secret console rendered key (view w KSecret (proxySecretKey console)) s).
Proof using CL KL.
  intros H. unfold writeProxySecret in H.
  destruct (view w KSecret (proxySecretKey console)) as [a|] eqn:Ha.
  - pose proof (view_key w KSecret _ _ Ha : key_of (Sec_Meta a) = _) as Hka.
    case_bool_decide as Ho; cbn [negb] in H.
    2:{ rewrite run_throw in H. simplify_eq. split_and!; [by auto with pgtb|done|done|done]. }
    change (default "" (Sec_Data a !! proxyConfigFileName)) with (entry_of a proxyConfigFileName) in H.
    change (default "" (Sec_Data a !! proxySessionKeyName)) with (entry_of a proxySessionKeyName) in H.
    destruct (String.eqb _ rendered && String.eqb _ key) eqn:Hsame.
    + apply andb_true_iff in Hsame as [Hc%String.eqb_eq Hk%String.eqb_eq].
      rewrite run_ret in H. simplify_eq. split_and!; [by auto with pgtb| |done|].
      { intros s Hs Hne. destruct Hne. congruence. }
      intros _. exists a. split; [done|]. by split.
    + apply (update_secret_run console) in H as [He Hok]; [|done|done|by eapply view_kept in Ha]. split_and!; [done| | |done].
      { intros s Hs Hne. destruct Hne. congruence. }
      intros s [= <-] Hc Hk. by rewrite Hc, Hk, !String.eqb_refl in Hsame.
  - rewrite owned_secret_set, run_bind, run_of_result in H. apply create_secret_run in H as [He Hok].
    by split_and!.
Qed.

Definition stored_key (w : W) (console : PgConsole) : string :=
  from_option (λ s, entry_of s proxySessionKeyName) "" (view w KSecret (proxySecretKey console)).

(** The key a pass renders from: the one that is stored, or a new one. *)
Definition session_key (raw : result error string) (w : W) (console : PgConsole) : result error string :=
  if String.eqb (stored_key w console) "" then
    match raw with
    | Ok bytes => Ok (RawURL_EncodeToString bytes)
    | Err e => Err (WrapErr "generate proxy session key" e)
    end
  else Ok (stored_key w console).

Lemma generateSessionKey_run raw (w : W) :
  generateSessionKey raw w =
  (match raw with
   | Ok bytes => Ok (RawURL_EncodeToString bytes)
   | Err e => Err (WrapErr "generate proxy session key" e)
   end, w).
Proof using. by destruct raw. Qed.

(** A pass reads, and either stops there or runs its writing half. *)
Lemma reconcileProxySecret_run raw console users w r w' :
  reconcileProxyConfigSecret raw console users w = (r, w') →
  (untouched w w' ∧ ∀ sum, r ≠ Ok (inl sum)) ∨
  ∃ w1 key rendered r1, untouched w w1 ∧ session_key raw w console = Ok key ∧
    renderProxyConfig console key (pgAdminEnabled console) users = Ok rendered ∧
    writeProxySecret console (view w KSecret (proxySecretKey console)) rendered key w1 = (r1, w') ∧
    r = (_ ← r1; Ok (inl (Checksum {[proxyConfigFileName := rendered]}))).
Proof using CL.
  intros H. unfold reconcileProxyConfigSecret in H. rewrite run_bind in H.
  destruct (checkOIDCClientSecret console w) as [[whyNot|e] w1] eqn:Hc;
    apply checkOIDCClientSecret_run in Hc as [Hu1 Hc]; [|done].
  destruct whyNot as [i|]; [rewrite run_ret in H; simplify_eq; by left|].
  rewrite run_bind, run_try in H. destruct (LiveGet KSecret (proxySecretKey console) w1) as [r2 w2] eqn:Hg.
  apply LiveGet_spec in Hg as [Hu2 Hr]. rewrite (untouched_lookup _ _ _ _ Hu1) in Hr.
  assert (untouched w w2) as Hu by (by etrans). rewrite run_bind in H.
  destruct (run_found (A := Secret) r2 _ w2 Hr) as [[e He]|Hex].
  { rewrite He in H. simplify_eq. by left. }
  rewrite Hex in H. clear Hex Hr. cbv zeta in H.
  change (from_option _ "" (view w KSecret (proxySecretKey console))) with (stored_key w console) in H.
  rewrite run_bind in H.
  assert ((if String.eqb (stored_key w console) "" then generateSessionKey raw else mret (stored_key w console)) w2
    = (session_key raw w console, w2)) as Hkey.
  { unfold session_key. destruct (String.eqb _ ""); [apply generateSessionKey_run|done]. }
  rewrite Hkey in H. destruct (session_key raw w console) as [key|e]; [|simplify_eq; by left].
  destruct (renderProxyConfig console key (pgAdminEnabled console) users) as [rendered|e] eqn:Hrender.
  2:{ rewrite run_ret in H. simplify_eq. by left. }
  rewrite run_bind in H. destruct (writeProxySecret _ _ _ _ w2) as [r3 w3] eqn:Hw.
  right. exists w2, key, rendered, r3. destruct r3 as [[]|e]; [rewrite run_ret in H|]; simplify_eq; by split_and!.
Qed.

(** A pass over a Secret that holds what it would write. *)
Lemma settled_proxy_secret raw console users key rendered old s w r w' :
  view w KSecret (proxySecretKey console) = Some s → proxy_secret console rendered key old s → key ≠ "" →
  renderProxyConfig console key (pgAdminEnabled console) users = Ok rendered →
  reconcileProxyConfigSecret raw console users w = (r, w') →
  untouched w w' ∧ ∀ sum, r = Ok (inl sum) → sum = Checksum {[proxyConfigFileName := rendered]}.
Proof using CL KL.
  intros Hs [Hc Hk Ho _] Hne Hrender.
  intros [[Hu Hr]|(w1 & key' & rendered' & r1 & Hu & Hkey & Hrender' & Hw & ->)]%reconcileProxySecret_run.
  { split; [done|]. intros sum Hok. by destruct (Hr sum). }
  assert (stored_key w console = key) as Hst by (unfold stored_key; by rewrite Hs).
  unfold session_key in Hkey. rewrite Hst, (proj2 (String.eqb_neq _ _) Hne) in Hkey.
  injection Hkey as <-. rewrite Hrender in Hrender'. injection Hrender' as <-.
  rewrite <-(untouched_lookup _ _ _ _ Hu) in Hw.
  apply writeProxySecret_run in Hw as (_ & _ & Hsame & _). rewrite (untouched_lookup _ _ _ _ Hu) in Hsame.
  split; [etrans; [done|by eapply Hsame]|]. intros sum Hsum. destruct r1; [|done]. by injection Hsum as <-.
Qed.

(** C25: A pass over the proxy configuration Secret touches no other object. It
    leaves alone a Secret this console does not own and one that already holds
    what it would write. When it answers with a checksum, the Secret is owned by
    the console and holds a configuration rendered for these users from the
    session key stored next to it, the checksum is that of the configuration,
    the key is the one that was stored before, or a fresh one when there was
    none, and every other entry is as it was. A second pass over that world, for
    the same console and users, writes nothing and answers with the same
    checksum or with an error or an issue. *)
Theorem proxy_secret_reconciled raw console users w r w' :
  reconcileProxyConfigSecret raw console users w = (r, w') →
  elsewhere w w' KSecret (proxySecretKey console) ∧
  (∀ s, view w KSecret (proxySecretKey console) = Some s →
     s.(Sec_Meta).(M_Controller) ≠ Some (PC_UID console) → untouched w w' ∧ ∀ sum, r ≠ Ok (inl sum)) ∧
  ∀ sum, r = Ok (inl sum) → ∃ s key rendered,
    session_key raw w console = Ok key ∧
    renderProxyConfig console key (pgAdminEnabled console) users = Ok rendered ∧
    sum = Checksum {[proxyConfigFileName := rendered]} ∧
    view w' KSecret (proxySecretKey console) = Some s ∧
    proxy_secret console rendered key (view w KSecret (proxySecretKey console)) s ∧
    (key ≠ "" → ∀ raw' r'' w'', reconcileProxyConfigSecret raw' console users w' = (r'', w'') →
       untouched w' w'' ∧ ∀ sum', r'' = Ok (inl sum') → sum' = sum).
Proof using CL KL.
  intros [[Hu Hr]|(w1 & key & rendered & r1 & Hu & Hkey & Hrender & Hw & ->)]%reconcileProxySecret_run.
  { split_and!; [by auto with pgtb|done|]. intros sum Hok. by destruct (Hr sum). }
  rewrite <-(untouched_lookup _ _ _ _ Hu) in Hw.
  apply writeProxySecret_run in Hw as (He & Hforeign & _ & Hok).
  rewrite (untouched_lookup _ _ _ _ Hu) in *. split_and!.
  - by eapply untouched_elsewhere.
  - intros s Hs Ho. destruct (Hforeign s Hs Ho) as [Hu' Hne]. split; [by etrans|].
    by destruct r1 as [[]|].
  - intros sum Hsum. destruct r1 as [[]|]; [|done]. destruct (Hok eq_refl) as (s & Hs & Hps).
    injection Hsum as <-. exists s, key, rendered. split_and!; [done..|].
    intros Hne raw' r'' w'' H. by eapply settled_proxy_secret.
Qed.
End secret_theorems.

(** ** A printer that reads back *)

#[export] Instance User_eq_dec : EqDecision User.
Proof. solve_decision. Defined.
#[export] Instance User_countable : Countable User :=
  inj_countable' (λ u, (u.(U_Subject), u.(U_Level), u.(U_LocalPasswordBcrypt)))
    (λ '(s, l, p), mkUser s l p) (λ '(mkUser _ _ _), eq_refl).
#[export] Instance RouteConfig_eq_dec : EqDecision RouteConfig.
Proof. solve_decision. Defined.
#[export] Instance RouteConfig_countable : Countable RouteConfig :=
  inj_countable' (λ r, (r.(PathPrefix), r.(Upstream), r.(MinLevel)))
    (λ '(p, u, l), mkRouteConfig p u l) (λ '(mkRouteConfig _ _ _), eq_refl).
#[export] Instance OIDCConfig_eq_dec : EqDecision OIDCConfig.
Proof. solve_decision. Defined.
#[export] Instance OIDCConfig_countable : Countable OIDCConfig :=
  inj_countable' (λ o, (o.(OIDC_IssuerURL), o.(OIDC_ClientID), o.(OIDC_ClientSecretFile),
      o.(OIDC_RedirectURL), o.(OIDC_Scopes), o.(OIDC_SubjectClaim)))
    (λ '(i, c, f, r, s, k), mkOIDCConfig i c f r s k) (λ '(mkOIDCConfig _ _ _ _ _ _), eq_refl).
#[export] Instance OpenShiftConfig_eq_dec : EqDecision OpenShiftConfig.
Proof. solve_decision. Defined.
#[export] Instance OpenShiftConfig_countable : Countable OpenShiftConfig :=
  inj_countable' (λ o, (o.(OS_ClientID), o.(OS_ClientSecretFile), o.(OS_RedirectURL),
      o.(OS_DiscoveryURL), o.(OS_APIURL), o.(OS_CAFile), o.(OS_Scopes), o.(OS_UserInfoPath)))
    (λ '(i, f, r, d, a, c, s, p), mkOpenShiftConfig i f r d a c s p)
    (λ '(mkOpenShiftConfig _ _ _ _ _ _ _ _), eq_refl).

(** The configurations that the demonstration printer prints. *)
Definition config_tuple (c : Config) :=
  ((c.(C_Session).(CookieName), c.(C_Session).(CookieSecrets), c.(C_Session).(MaxAge), c.(C_Session).(Secure)),
   (c.(C_Server).(Listen), c.(C_Server).(UpstreamDialTimeout), c.(C_Server).(UpstreamResponseHeaderTimeout)),
   (c.(C_Provider).(Modes), c.(C_Provider).(OIDC), c.(C_Provider).(OpenShift)),
   c.(C_Users), c.(C_Routes),
   (c.(C_AccessRequest).(Enabled), c.(C_AccessRequest).(ConsoleName), c.(C_AccessRequest).(AR_Namespace))).

Definition config_of_tuple (t : _) : Config :=
  let '((n, k, m, s), (l, d, h), (ms, o, os), us, rs, (e, c, ns)) := t in
  mkConfig (mkSessionConfig n k m s) (mkServerConfig l d h) (mkProviderConfig ms o os) us rs
    (mkAccessRequestConfig e c ns).

#[export] Instance demo_Yaml : Yaml := {|
  yaml_Marshal c := Some (pos_to_bits (encode (config_tuple c)));
  yaml_Unmarshal text := p ← bits_to_pos text; config_of_tuple <$> decode p
|}.

#[export] Instance demo_YamlLaws : YamlLaws demo_Yaml.
Proof.
  split. intros c _. eexists. split; [done|]. simpl. rewrite bits_to_pos_to_bits. simpl.
  rewrite countable.decode_encode. simpl. by destruct c as [[] [] [] ? ? []].
Qed.

#[export] Instance demo_LoopbackURLs : LoopbackURLs (G := demo_lib).
Proof.
  split. intros port. rewrite !elem_of_cons, elem_of_nil.
  intros [->|[->|[]]]; (eexists; split; [reflexivity|]; split; [compute_decide|done]).
Qed.

Definition demo_key : string := RawURL_EncodeToString (repeat_str 32 "k").


(** The first pass creates the Secret, the second leaves it alone. *)
Lemma proxy_secret_reconciled_witness :
  let raw := Ok (repeat_str 32 "k") in
  let first := reconcileProxyConfigSecret raw demo_console [] demo_empty in
  ∃ sum, first.1 = Ok (inl sum) ∧
  untouched first.2 (reconcileProxyConfigSecret (Ok (repeat_str 32 "x")) demo_console [] first.2).2.
Proof.
  intros raw first.
  destruct (proxy_secret_reconciled raw demo_console [] demo_empty _ _ (surjective_pairing _)) as (_ & _ & H).
  destruct (H (match first.1 with Ok (inl sum) => sum | _ => "" end)) as (s & key & rendered & Hk & _ & _ & _ & _ & Hs).
  - vm_compute. reflexivity.
  - exists (match first.1 with Ok (inl sum) => sum | _ => "" end). split; [vm_compute; reflexivity|].
    eapply Hs; [|apply surjective_pairing]. vm_compute in Hk. injection Hk as <-. discriminate.
Defined.
