(* ===== verification/Evidence.v ===== *)
(** * The repository evidence of a console ([evidence.go], [internal/evidence])

    From the Cluster to its ObjectStore to the composition of the evidence
    sidecar: the profile a repository must fit, the fingerprint of its
    destination, and the reconcile that publishes the outcome. The
    canonicalisation of the fingerprint is the viewer's own module, the class
    [Fingerprints]. *)

From S2P Require Import Prelude GoUtf8 GoStrings GoBytes GoLib ApiTypes Kube Shared Platform Conditions Users EvidenceToken.

(** ** [internal/evidence] *)

Record Destination := mkDestination { DE_Bucket : string; DE_Prefix : string }.

(** [evidencev1alpha1.S3FingerprintInput]. *)
Record S3FingerprintInput := mkFingerprintInput {
  FI_Endpoint : string;
  FI_Region : string;
  FI_Bucket : string;
  FI_Prefix : string;
  FI_Format : string;
  FI_ScopeKind : string;
  FI_ScopeName : string
}.

Class Fingerprints := {
  (** [evidencev1alpha1.FingerprintS3] *)
  FingerprintS3 : S3FingerprintInput → result string string
}.

Definition ParseDestination `{G : GoLib} (destinationPath : string) : result string Destination :=
  match CutPrefix destinationPath "s3://" with
  | None => Err ("destination " +:+ strconv_Quote destinationPath +:+ " is not an s3:// path")
  | Some remainder =>
      let '(bucket, prefix, _) := Cut remainder "/" in
      if is_empty bucket then Err ("destination " +:+ strconv_Quote destinationPath +:+ " names no bucket")
      else Ok (mkDestination bucket prefix)
  end.

Definition Fingerprint `{F : Fingerprints} (destination : Destination) (endpointURL serverName : string)
    : result string string :=
  FingerprintS3 (mkFingerprintInput endpointURL "" destination.(DE_Bucket) destination.(DE_Prefix)
    "barman-cloud" "barman-server" serverName).

(** ** [evidence.go] *)

Definition barmanPluginName : string := "barman-cloud.cloudnative-pg.io".
Definition barmanObjectParameter : string := "barmanObjectName".

(** [secretKeyRef] is [SecretKeyReference] with a key that is always used. *)
Record evidenceComposition := mkComposition {
  EC_ObjectStoreName : string;
  EC_ClusterUID : string;
  EC_ServerName : string;
  EC_DestinationPath : string;
  EC_Destination : Destination;
  EC_EndpointURL : string;
  EC_EndpointCA : option SecretKeyReference;
  EC_AccessKeyID : SecretKeyReference;
  EC_SecretAccessKey : SecretKeyReference;
  EC_SessionToken : option SecretKeyReference;
  EC_Fingerprint : string
}.

Record evidenceUnavailable := unavailable { EU_reason : string; EU_message : string }.

Definition evidenceEnabled (console : PgConsole) : bool :=
  default false console.(PC_Spec).(CS_Evidence).(EV_Enabled).

(** The loop over the plugins. *)
Definition barmanObjectStoreName (cluster : Cluster) : string :=
  match first_such (λ p, String.eqb p.(CP_PluginName) barmanPluginName) cluster.(CL_Plugins) with
  | None => ""
  | Some plugin =>
      if bool_decide (plugin.(CP_Enabled) = Some false) then ""
      else default "" (plugin.(CP_Parameters) !! barmanObjectParameter)
  end.

Definition viewerImage (r : Reconciler) (console : PgConsole) : string :=
  match console.(PC_Spec).(CS_Evidence).(EV_Image) with
  | Some image => imageReference image
  | None => r.(RE_DefaultImages).(DI_ObjectStoreViewer)
  end.

Section evidence.
Context `{G : GoLib} `{F : Fingerprints} `{K : Machinery} {W : Type} `{C : Client W}.

Definition composeFromConfiguration (cluster : Cluster) (objectStoreName : string)
    (configuration : BarmanConfiguration) : evidenceComposition + evidenceUnavailable :=
  let unsupported message := inr (unavailable ReasonUnsupportedCredentialMode
    ("ObjectStore " +:+ objectStoreName +:+ message)) in
  if configuration.(BC_Azure) || configuration.(BC_Google) then
    unsupported " uses a non-S3 provider; the initial evidence profile is s3 only"
  else
    match configuration.(BC_AWS) with
    | None => unsupported " declares no s3Credentials"
    | Some aws =>
        if aws.(AW_InheritFromIAMRole) then
          unsupported " inherits IAM credentials; the static-files profile needs explicit keys"
        else
          match aws.(AW_AccessKeyID), aws.(AW_SecretAccessKey) with
          | Some accessKeyID, Some secretAccessKey =>
              match ParseDestination configuration.(BC_DestinationPath) with
              | Err e => unsupported (": " +:+ e)
              | Ok destination =>
                  let serverName :=
                    if is_empty configuration.(BC_ServerName) then cluster.(CL_Meta).(M_Name)
                    else configuration.(BC_ServerName) in
                  match Fingerprint destination configuration.(BC_EndpointURL) serverName with
                  | Err e => unsupported (": destination rejected by the shared canonicalization: " +:+ e)
                  | Ok fingerprint =>
                      inl (mkComposition objectStoreName cluster.(CL_Meta).(M_UID) serverName
                        configuration.(BC_DestinationPath) destination configuration.(BC_EndpointURL)
                        configuration.(BC_EndpointCA) accessKeyID secretAccessKey aws.(AW_SessionToken)
                        fingerprint)
                  end
              end
          | _, _ => unsupported " names no static access key pair"
          end
    end.

Definition readObjectStoreConfiguration (namespace name : string) : M W BarmanConfiguration :=
  store ← LiveGet KObjectStore (namespace, name);
  match store.(OB_Configuration) with
  | None => throw (FmtErr ("ObjectStore " +:+ namespace +:+ "/" +:+ name +:+ " carries no spec.configuration"))
  | Some (Err e) =>
      throw (WrapErr ("decode ObjectStore " +:+ namespace +:+ "/" +:+ name +:+ " configuration") (FmtErr e))
  | Some (Ok configuration) => mret configuration
  end.

Definition cluster_key (console : PgConsole) : ObjectKey :=
  (PC_Namespace console, console.(PC_Spec).(CS_CNPGClusterRef)).

Definition resolveEvidence (r : Reconciler) (console : PgConsole)
    : M W (evidenceComposition + evidenceUnavailable) :=
  let missing message := mret (inr (unavailable ReasonObjectStoreNotFound message)) in
  if negb (evidenceEnabled console) then
    mret (inr (unavailable ReasonEvidenceDisabled "evidence sidecar is disabled by spec.evidence.enabled"))
  else
    answer ← try (LiveGet KCluster (cluster_key console));
    match answer with
    | Err e =>
        if IsNotFound e then missing ("target cluster " +:+ (cluster_key console).2 +:+ " was not found")
        else throw (WrapErr ("read target cluster " +:+ (cluster_key console).2) e)
    | Ok cluster =>
        let name := cluster.(CL_Meta).(M_Name) in
        let objectStoreName := barmanObjectStoreName cluster in
        if is_empty objectStoreName then
          missing ("cluster " +:+ name +:+ " declares no Barman Cloud Plugin object store")
        else if negb r.(RE_BarmanObjectStoreAvailable) then
          missing "the barmancloud.cnpg.io ObjectStore API is not served on this cluster"
        else
          answer ← try (readObjectStoreConfiguration (PC_Namespace console) objectStoreName);
          match answer with
          | Err e =>
              if IsNotFound e then
                missing ("ObjectStore " +:+ objectStoreName +:+ " referenced by cluster " +:+ name +:+ " was not found")
              else throw e
          | Ok configuration => mret (composeFromConfiguration cluster objectStoreName configuration)
          end
    end.

Definition set_evidence (enabled : bool) (tokenSecretName : string) (console : PgConsole) : PgConsole :=
  set_console_status
    (mkConsoleStatus console.(PC_Status).(PS_ObservedGeneration) console.(PC_Status).(PS_URL)
       console.(PC_Status).(PS_ConfigRevision) enabled tokenSecretName console.(PC_Status).(PS_Conditions)) console.

(** The last reason for no evidence: no image. *)
Definition require_image (r : Reconciler) (console : PgConsole)
    (outcome : evidenceComposition + evidenceUnavailable) : evidenceComposition + evidenceUnavailable :=
  match outcome with
  | inl composition =>
      if is_empty (viewerImage r console) then
        inr (unavailable ReasonImageRequired
          ("cluster " +:+ console.(PC_Spec).(CS_CNPGClusterRef) +:+ " archives to ObjectStore "
           +:+ composition.(EC_ObjectStoreName) +:+ ", but no viewer image is configured "
           +:+ "(spec.evidence.image or --default-objectstoreviewer-image)"))
      else outcome
  | inr _ => outcome
  end.

(** The console is answered with its new status, since the caller's copy has
    it too. [raw] are the random bytes of a token. *)
Definition reconcileEvidence (raw : result error string) (r : Reconciler) (console : PgConsole)
    : M W (option evidenceComposition * string * PgConsole) :=
  outcome ← resolveEvidence r console;
  match require_image r console outcome with
  | inr whyNot =>
      console ← of_result (MarkFalse (set_evidence false "" console) PgConsoleConditionRepositoryEvidenceReady
        whyNot.(EU_reason) whyNot.(EU_message));
      mret (None, "", console)
  | inl composition =>
      '(tokenSecretName, console) ← reconcileEvidenceToken raw console;
      console ← of_result (MarkTrue (set_evidence true tokenSecretName console)
        PgConsoleConditionRepositoryEvidenceReady ReasonAsExpected
        ("evidence sidecar composed for ObjectStore " +:+ composition.(EC_ObjectStoreName) +:+ ", server "
         +:+ composition.(EC_ServerName)));
      mret (Some composition, tokenSecretName, console)
  end.
End evidence.

(** ** The profile *)

Section profile.
Context `{G : GoLib} `{F : Fingerprints}.

(** The path names a bucket and what follows it. *)
Definition s3_path (path : string) (d : Destination) : Prop :=
  d.(DE_Bucket) ≠ "" ∧ in_string "/" d.(DE_Bucket) = false ∧
  ((path = "s3://" +:+ d.(DE_Bucket) ∧ d.(DE_Prefix) = "") ∨
   path = "s3://" +:+ d.(DE_Bucket) +:+ "/" +:+ d.(DE_Prefix)).

(** The repositories evidence is composed for, and what is composed: S3, a
    static key pair, one server. *)
Record s3_profile (cluster : Cluster) (store : string) (conf : BarmanConfiguration)
    (c : evidenceComposition) : Prop := {
  sp_provider : conf.(BC_Azure) = false ∧ conf.(BC_Google) = false;
  sp_keys : ∃ aws, conf.(BC_AWS) = Some aws ∧ aws.(AW_InheritFromIAMRole) = false
    ∧ aws.(AW_AccessKeyID) = Some c.(EC_AccessKeyID)
    ∧ aws.(AW_SecretAccessKey) = Some c.(EC_SecretAccessKey)
    ∧ aws.(AW_SessionToken) = c.(EC_SessionToken);
  sp_path : c.(EC_DestinationPath) = conf.(BC_DestinationPath)
    ∧ s3_path conf.(BC_DestinationPath) c.(EC_Destination);
  sp_server : c.(EC_ServerName) = (if is_empty conf.(BC_ServerName) then cluster.(CL_Meta).(M_Name)
                                   else conf.(BC_ServerName));
  sp_endpoint : c.(EC_EndpointURL) = conf.(BC_EndpointURL) ∧ c.(EC_EndpointCA) = conf.(BC_EndpointCA);
  sp_names : c.(EC_ObjectStoreName) = store ∧ c.(EC_ClusterUID) = cluster.(CL_Meta).(M_UID);
  sp_fingerprint : FingerprintS3 (mkFingerprintInput conf.(BC_EndpointURL) ""
      c.(EC_Destination).(DE_Bucket) c.(EC_Destination).(DE_Prefix)
      "barman-cloud" "barman-server" c.(EC_ServerName)) = Ok c.(EC_Fingerprint)
}.

Lemma ParseDestination_spec path d : ParseDestination path = Ok d ↔ s3_path path d.
Proof using.
  unfold ParseDestination, s3_path. split.
  - destruct (CutPrefix path "s3://") as [rest|] eqn:E; [|done]. apply CutPrefix_Some in E as ->.
    destruct (split_at_char "/" rest) as [Hr|(u & t & -> & Hu)].
    + rewrite Cut_char_absent by done. destruct (is_empty rest) eqn:He; [done|]. apply is_empty_false in He.
      intros [= <-]. cbn [DE_Bucket DE_Prefix]. auto.
    + rewrite Cut_char_at by done. destruct (is_empty u) eqn:He; [done|]. apply is_empty_false in He.
      intros [= <-]. cbn [DE_Bucket DE_Prefix]. auto.
  - destruct d as [bucket prefix]. cbn [DE_Bucket DE_Prefix]. intros (Hb & Hs & Hp).
    apply is_empty_false in Hb. destruct Hp as [[-> ->] | -> ].
    + rewrite (proj2 (CutPrefix_Some _ _ bucket)) by done. by rewrite Cut_char_absent, Hb.
    + rewrite (proj2 (CutPrefix_Some _ _ (bucket +:+ "/" +:+ prefix))) by done.
      change ("/" +:+ prefix) with (String "/" prefix). by rewrite Cut_char_at, Hb.
Qed.

Lemma composeFromConfiguration_spec cluster store conf c :
  composeFromConfiguration cluster store conf = inl c ↔ s3_profile cluster store conf c.
Proof using.
  unfold composeFromConfiguration, Fingerprint. split.
  - destruct (BC_Azure conf) eqn:Ha, (BC_Google conf) eqn:Hg; [done..|]. cbn [orb].
    destruct (BC_AWS conf) as [aws|] eqn:Hw; [|done]. destruct (AW_InheritFromIAMRole aws) eqn:Hi; [done|].
    destruct (AW_AccessKeyID aws) as [id|] eqn:Hid; [|done].
    destruct (AW_SecretAccessKey aws) as [secret|] eqn:Hsec; [|done].
    destruct (ParseDestination _) as [d|] eqn:Hd; [|done]. apply ParseDestination_spec in Hd.
    destruct (FingerprintS3 _) as [fp|] eqn:Hf; [|done].
    intros [= <-]. split; cbn; eauto 10.
  - intros [H1 H2 H3 Hsv H5 H6 Hf]. destruct H2 as (aws & Hw & Hi & Hid & Hsec & Hs).
    destruct H1 as [Ha Hg], H3 as [Hp Hd], H5 as [Hu Hca], H6 as [Hn Hcu]. apply ParseDestination_spec in Hd. rewrite Ha, Hg, Hw, Hi, Hid, Hsec. cbn [orb]. rewrite Hd, <-Hsv, Hf. destruct c; cbn in *. by subst.
Qed.

Lemma composeFromConfiguration_reason cluster store conf u :
  composeFromConfiguration cluster store conf = inr u → u.(EU_reason) = ReasonUnsupportedCredentialMode.
Proof using.
  unfold composeFromConfiguration. intros H. by repeat case_in H; simplify_eq.
Qed.
End profile.

(** ** The reconcile *)

Section theorems.
Context `{G : GoLib} `{F : Fingerprints} `{K : Machinery} {W : Type} `{C : Client W}.
Context `{CL : !ClientLaws C} `{KL : !MachineryLaws K}.

(** What the console's Cluster and its ObjectStore ask to compose. *)
Definition evidence_for (r : Reconciler) (console : PgConsole) (w : W) (c : evidenceComposition) : Prop :=
  evidenceEnabled console = true ∧ r.(RE_BarmanObjectStoreAvailable) = true ∧
  ∃ (cluster : Cluster) (store : ObjectStore) conf,
    view w KCluster (cluster_key console) = Some cluster
    ∧ barmanObjectStoreName cluster ≠ ""
    ∧ view w KObjectStore (PC_Namespace console, barmanObjectStoreName cluster) = Some store
    ∧ store.(OB_Configuration) = Some (Ok conf)
    ∧ s3_profile cluster (barmanObjectStoreName cluster) conf c.

Definition evidence_reasons : list string :=
  [ReasonEvidenceDisabled; ReasonObjectStoreNotFound; ReasonUnsupportedCredentialMode; ReasonImageRequired].

Lemma evidence_reasons_known x : x ∈ evidence_reasons → x ∈ knownReasons.
Proof using. revert x. apply (Forall_forall (λ x, x ∈ knownReasons)). compute_decide. Qed.

Lemma readObjectStore_run namespace name w r w' :
  readObjectStoreConfiguration namespace name w = (r, w') →
  untouched w w' ∧
  match r with
  | Ok conf => ∃ store : ObjectStore, view w KObjectStore (namespace, name) = Some store
      ∧ store.(OB_Configuration) = Some (Ok conf)
  | Err e => IsNotFound e = true → view w KObjectStore (namespace, name) = None
  end.
Proof using CL.
  intros H. unfold readObjectStoreConfiguration in H. run_in H; learn; split; try done; eauto.
Qed.

Lemma resolveEvidence_run r console w res w' :
  resolveEvidence r console w = (res, w') →
  untouched w w' ∧
  match res with
  | Ok (inl c) => evidence_for r console w c
  | Ok (inr u) => u.(EU_reason) ∈ evidence_reasons ∧ ∀ c, ¬ evidence_for r console w c
  | Err _ => True
  end.
Proof using CL.
  intros H. unfold resolveEvidence in H. unfold evidence_for.
  assert (Hin : ∀ message, EU_reason (unavailable ReasonObjectStoreNotFound message) ∈ evidence_reasons)
    by (intros; compute_decide).
  destruct (evidenceEnabled console) eqn:Hen; cbn [negb] in H; [|rewrite run_ret in H; simplify_eq;
    split; [done|]; split; [compute_decide|naive_solver]].
  rewrite run_bind, run_try in H. destruct (LiveGet KCluster _ w) as [[cluster|e] w1] eqn:Hc; learn; cbn [fst snd] in *.
  - cbn in Hr. destruct (is_empty _) eqn:Hname.
    { rewrite run_ret in H. simplify_eq. apply is_empty_true in Hname. split; [done|]. split; [done|].
      intros c (_ & _ & cl & st & conf & Hcl & Hne & _). congruence. }
    apply is_empty_false in Hname. destruct (RE_BarmanObjectStoreAvailable r); cbn [negb] in H.
    + rewrite run_bind, run_try in H. destruct (readObjectStoreConfiguration _ _ w1) as [r2 w2] eqn:Hs.
      apply readObjectStore_run in Hs as [Hu2 Hr2]. assert (untouched w w2) as Hu3 by (by etrans).
      destruct r2 as [conf|e].
      * rewrite run_ret in H. simplify_eq. split; [done|]. destruct Hr2 as (store & Hst & Hconf).
        rewrite (untouched_lookup _ _ _ _ Hu) in Hst.
        destruct (composeFromConfiguration _ _ _) as [c|u] eqn:Hco.
        -- split_and!; [done..|]. apply composeFromConfiguration_spec in Hco. by eauto 10.
        -- split; [rewrite (composeFromConfiguration_reason _ _ _ _ Hco);
             compute_decide|].
           intros c (_ & _ & cl & st & cf & Hcl & _ & Hst' & Hcf & Hp).
           assert (cl = cluster) as -> by congruence. assert (st = store) as -> by congruence.
           assert (cf = conf) as -> by congruence. apply composeFromConfiguration_spec in Hp. congruence.
      * destruct (IsNotFound e); [rewrite run_ret in H|rewrite run_throw in H]; simplify_eq; [|by split].
        split; [done|]. split; [done|]. intros c (_ & _ & cl & st & cf & Hcl & _ & Hst & _).
        assert (cl = cluster) as -> by congruence.
        rewrite (untouched_lookup _ _ _ _ Hu) in Hr2. by rewrite Hr2 in Hst.
    + rewrite run_ret in H. simplify_eq. split; [done|]. split; [done|]. naive_solver.
  - destruct (IsNotFound e) eqn:He; [rewrite run_ret in H|rewrite run_throw in H]; simplify_eq; [|by split].
    split; [done|]. split; [done|]. intros c (_ & _ & cl & st & conf & Hcl & _).
    cbn in Hr. by rewrite Hr in Hcl.
Qed.

Lemma require_image_cases r console outcome :
  match require_image r console outcome with
  | inl c => outcome = inl c ∧ viewerImage r console ≠ ""
  | inr u => outcome = inr u ∨ (u.(EU_reason) = ReasonImageRequired ∧ viewerImage r console = "")
  end.
Proof using.
  unfold require_image. destruct outcome as [c|u]; [|by left].
  destruct (is_empty _) eqn:E; [right; split; [done|by apply is_empty_true]|].
  split; [done|by apply is_empty_false].
Qed.

(** The console keeps its identity and its specification. *)
Definition same_console (c c' : PgConsole) : Prop :=
  key_of c'.(PC_Meta) = key_of c.(PC_Meta) ∧ PC_UID c' = PC_UID c ∧ c'.(PC_Spec) = c.(PC_Spec)
  ∧ c'.(PC_Meta).(M_Generation) = c.(PC_Meta).(M_Generation).

(** C34: a pass over the evidence composes the sidecar exactly when evidence is
    asked for, an image is configured, and the Cluster's enabled Barman plugin
    names an ObjectStore in the S3 static-key profile; then the composition is
    that of the ObjectStore, with the fingerprint of its bucket and prefix,
    and the status names the token Secret. Otherwise, unless a read fails, it
    writes nothing, clears the evidence status and publishes one of the four
    reasons on a condition that is False; it never panics on a reason. *)
Theorem evidence_published raw r console w res w' :
  reconcileEvidence raw r console w = (res, w') →
  match res with
  | Ok (Some c, token, console') =>
      evidence_for r console w c ∧ viewerImage r console ≠ ""
      ∧ (∃ g, token = evidenceTokenSecretName (PC_Name console) g ∧ token_present w w' raw console g)
      ∧ same_console console console'
      ∧ console'.(PC_Status).(PS_EvidenceEnabled) = true
      ∧ console'.(PC_Status).(PS_EvidenceTokenSecretName) = token
      ∧ Cd_Status <$> condition PgConsoleConditionRepositoryEvidenceReady console'.(PC_Status).(PS_Conditions)
        = Some ConditionTrue
  | Ok (None, token, console') =>
      (viewerImage r console = "" ∨ ∀ c, ¬ evidence_for r console w c)
      ∧ untouched w w' ∧ same_console console console' ∧ token = ""
      ∧ console'.(PC_Status).(PS_EvidenceEnabled) = false
      ∧ console'.(PC_Status).(PS_EvidenceTokenSecretName) = ""
      ∧ ∃ reason message, reason ∈ evidence_reasons
        ∧ condition PgConsoleConditionRepositoryEvidenceReady console'.(PC_Status).(PS_Conditions)
          = Some (mkCondition PgConsoleConditionRepositoryEvidenceReady ConditionFalse
                    console.(PC_Meta).(M_Generation) reason message)
  | Err _ => True
  end.
Proof using CL KL.
  intros H. unfold reconcileEvidence in H. rewrite run_bind in H.
  destruct (resolveEvidence r console w) as [[outcome|e] w1] eqn:E; [|by simplify_eq].
  apply resolveEvidence_run in E as [Hu Ho]. pose proof (require_image_cases r console outcome) as Hi.
  destruct (require_image r console outcome) as [c|u].
  - destruct Hi as [-> Hi]. rewrite run_bind in H.
    destruct (reconcileEvidenceToken raw console w1) as [[[token console1]|e] w2] eqn:E; [|by simplify_eq].
    apply reconcileToken_run in E as [Hp _]. destruct (tp_result _ _ _ _ _ Hp _ _ eq_refl) as (Ht & Hs & Hc).
    assert (same_console console console1) as Hsame.
    { destruct (rotation_requested console); [destruct Hc as [-> _]|rewrite Hc]; by split_and!. }
    rewrite run_bind, run_of_result in H. unfold MarkTrue in H.
    pose proof (mark_spec (set_evidence true token console1) PgConsoleConditionRepositoryEvidenceReady
      ConditionTrue ReasonAsExpected ("evidence sidecar composed for ObjectStore " +:+ c.(EC_ObjectStoreName)
        +:+ ", server " +:+ c.(EC_ServerName))) as Hm.
    rewrite mark_known in Hm, H by (compute_decide).
    rewrite run_ret in H. simplify_eq. destruct Hm as (_ & Hm & _).
    split_and!; [done|done| |done|done|done|].
    + exists (next_generation w1 console). split; [done|]. by eapply token_present_untouched.
    + cbn in Hm. cbn. by rewrite Hm.
  - unfold MarkFalse in H.
    pose proof (mark_spec (set_evidence false "" console) PgConsoleConditionRepositoryEvidenceReady
      ConditionFalse u.(EU_reason) u.(EU_message)) as Hm.
    assert (Hk : u.(EU_reason) ∈ evidence_reasons ∧ (viewerImage r console = "" ∨ ∀ c, ¬ evidence_for r console w c)).
    { destruct Hi as [->|[-> Hi]]; [destruct Ho; by auto|].
      split; [compute_decide|by left]. }
    destruct Hk as [Hk Hv]. rewrite run_bind, run_of_result in H.
    rewrite mark_known in Hm, H by by apply evidence_reasons_known.
    rewrite run_ret in H. simplify_eq. destruct Hm as (_ & Hm & _).
    split_and!; [done..|]. eexists _, _. split; [exact Hk|exact Hm].
Qed.
End theorems.

(** ** A console whose Cluster archives to S3 *)

#[export] Instance demo_fingerprints : Fingerprints := {|
  FingerprintS3 i := Ok ("sha256:" +:+ i.(FI_Bucket) +:+ "/" +:+ i.(FI_Prefix) +:+ "@" +:+ i.(FI_ScopeName))
|}.

Definition demo_aws : AWSCredentials :=
  mkAWS false (Some (mkSecretKeyRef "s3" "id")) (Some (mkSecretKeyRef "s3" "secret")) None.

Definition demo_barman : BarmanConfiguration :=
  mkBarman false false (Some demo_aws) "s3://backups/prod" "https://s3.local" None "".

Definition evidence_objects (k : kind) : gmap ObjectKey (object k) :=
  match k with
  | KCluster => {[("ns", "pg") := mkCluster (mkMeta "pg" "ns" "uid-pg" ∅ ∅ None "1" 1 false [])
      [mkPlugin barmanPluginName None {[barmanObjectParameter := "store"]}] None None ""]}
  | KObjectStore => {[("ns", "store") := mkObjectStore (mkMeta "store" "ns" "" ∅ ∅ None "1" 1 false [])
      (Some (Ok demo_barman))]}
  | _ => ∅
  end.

Definition evidence_console : PgConsole :=
  mkPgConsole (mkMeta "c" "ns" "uid-c" ∅ ∅ None "1" 3 false [])
    (mkPgConsoleSpec "pg" None None demo_console.(PC_Spec).(CS_Authentication) no_resources
       (mkPgAdminSpec None None "" None "" no_resources) demo_console_spec
       (mkEvidenceSpec (Some true) None no_resources)
       (mkExposure ExposureTypeClusterIP "" None "" None ∅ ∅)
       (mkNetworkPolicyConfig None "" []) None no_resources)
    no_console_status.

Definition evidence_settings : Reconciler := mkReconciler (mkDefaultImages "c:1" "p:1" "a:1" "v:1") "o:1" true true true.

Lemma evidence_published_witness :
  let run := reconcileEvidence (Ok (repeat_str 32 "r")) evidence_settings evidence_console
    (demo_world_of evidence_objects) in
  ∃ c token console', run.1 = Ok (Some c, token, console')
  ∧ evidence_for evidence_settings evidence_console (demo_world_of evidence_objects) c
  ∧ c.(EC_Fingerprint) = "sha256:backups/prod@pg".
Proof.
  intros run. pose proof (evidence_published (Ok (repeat_str 32 "r")) evidence_settings evidence_console
    (demo_world_of evidence_objects) run.1 run.2 (surjective_pairing run)) as H.
  assert (E : ∃ c token console', run.1 = Ok (Some c, token, console') ∧ c.(EC_Fingerprint) = "sha256:backups/prod@pg").
  { eexists _, _, _. split; [vm_compute; reflexivity|reflexivity]. }
  destruct E as (c & token & console' & E & Ef). rewrite E in H. exists c, token, console'.
  split; [exact E|]. split; [apply H|exact Ef].
Defined.
