(* ===== verification/Workload.v ===== *)
(** * The workload of a console ([workload.go], [evidence_compose.go])

    The Pod of a console, container by container, with the evidence sidecar
    grafted on when one is composed; its ServiceAccount, Service and claim; and
    the comparisons that decide whether a live object is written again. *)

From S2P Require Import Prelude GoUtf8 GoStrings GoBytes GoLib AdminSync ApiTypes Kube Shared Platform Users NetPolicy ConsoleConfig Rbac EvidenceToken ProxySecret Evidence.

(** ** Names and paths *)

Definition oauthRedirectAnnotation : string := "serviceaccounts.openshift.io/oauth-redirecturi.pgconsole".
Definition pgAdminSettingsMountPath : string := "/var/lib/pgadmin".
Definition pgAdminSettingsSuffix : string := "-pgadmin".
Definition defaultPgAdminSettingsSize : string := "1Gi".
Definition proxyConfigVolume : string := "proxy-config".
Definition oidcClientVolume : string := "oidc-client".
Definition pgAdminSettingsVolume : string := "pgadmin-settings".
Definition adminSyncBinVolume : string := "admin-sync-bin".
Definition adminSyncTLSVolume : string := "admin-sync-tls".
Definition adminSyncPassfileVolume : string := "admin-sync-passfile".
Definition adminSyncBinMountPath : string := "/run/pgadmin/admin-sync".
Definition adminSyncTLSMountPath : string := "/run/secrets/pgadmin-sync".
Definition adminSyncPassfileMountPath : string := "/run/pgadmin/passfile".
Definition kubeAPIAccessVolume : string := "kube-api-access".
Definition projectedTokenExpiration : Z := 3600.

(** [proxyconfig.go] and [pgadmin_bootstrap.go] *)
Definition proxyConfigMountPath : string := "/etc/pgtoolbox-proxy".
Definition pgAdminBootstrapSuffix : string := "-pgadmin-bootstrap".
Definition pgAdminBootstrapEmail : string := "pgtoolbox@pgtoolbox.fyannk.dev".
Definition pgAdminBootstrapPasswordKey : string := "password".
Definition pgAdminBootstrapMountPath : string := "/run/secrets/pgadmin-bootstrap".
Definition pgAdminBootstrapVolume : string := "pgadmin-bootstrap".

(** [evidence_compose.go] *)
Definition evidenceSocketURL : string := "unix:///var/run/objectstoreviewer/evidence.sock".
Definition evidenceSocketDirectory : string := "/var/run/objectstoreviewer".
Definition evidenceTokenFilePath : string := "/run/secrets/pgtoolbox/evidence-token".
Definition storeCredentialDirectory : string := "/run/secrets/pgtoolbox/store".
Definition storeAccessKeyFile : string := "access-key-id".
Definition storeSecretKeyFile : string := "secret-access-key".
Definition storeSessionTokenFile : string := "session-token".
Definition endpointCADirectory : string := "/run/secrets/pgtoolbox/endpoint-ca".
Definition endpointCAFile : string := "ca.crt".
Definition evidenceSocketVolume : string := "evidence-socket".
Definition storeCredentialVolume : string := "evidence-store-credentials".
Definition endpointCAVolume : string := "evidence-endpoint-ca".
Definition viewerScratchVolume : string := "viewer-tmp".

Definition mode0440 : Z := 288.
Definition mode0444 : Z := 292.

Definition mount (name path : string) : VolumeMount := mkMount name path "" false.
Definition read_only (name path : string) : VolumeMount := mkMount name path "" true.
Definition tcp_port (name : string) (port : Z) : list ContainerPort := [mkContainerPort name port ProtocolTCP].

(** The security context of every container but pgAdmin's. *)
Definition hardened : SecurityContext := mkSecurity (Some false) (Some true) ["ALL"].

Record workloadInputs := mkInputs {
  WI_ProxyImage : string;
  WI_ConsoleImage : string;
  WI_PgAdminImage : string;
  WI_ViewerImage : string;
  WI_ConfigChecksum : string;
  WI_AdminSyncSecretVersion : string;
  WI_Composition : option evidenceComposition;
  WI_TokenSecretName : string
}.

(** ** The containers *)

Definition proxyContainer (console : PgConsole) (image : string) : Container :=
  {| CT_Name := "proxy";
     CT_Image := image;
     CT_PullPolicy := imagePullPolicy console.(PC_Spec).(CS_ProxyImage);
     CT_Command := [];
     CT_Args := [];
     CT_Env := [mkEnv "PROXY_CONFIG_FILE" (proxyConfigMountPath +:+ "/" +:+ proxyConfigFileName)];
     CT_Ports := tcp_port "http" proxyPort;
     CT_Liveness := Some (HTTPProbe "/healthz" proxyPort);
     CT_Readiness := Some (HTTPProbe "/healthz" proxyPort);
     CT_Resources := containerResources console.(PC_Spec).(CS_ProxyResources);
     CT_Security := hardened;
     CT_Mounts :=
       [read_only proxyConfigVolume proxyConfigMountPath; read_only kubeAPIAccessVolume serviceAccountRoot]
       ++ (if console.(PC_Spec).(CS_Authentication).(PA_OIDC) is Some _
           then [read_only oidcClientVolume oidcClientSecretMountPath] else []) |}.

Definition consoleContainer (console : PgConsole) (image : string) : Container :=
  {| CT_Name := "pgconsole";
     CT_Image := image;
     CT_PullPolicy := imagePullPolicy console.(PC_Spec).(CS_Image);
     CT_Command := [];
     CT_Args := [];
     CT_Env := consoleEnv console;
     CT_Ports := tcp_port "http" consolePort;
     CT_Liveness := Some (HTTPProbe "/healthz" consolePort);
     CT_Readiness := Some (HTTPProbe "/readyz" consolePort);
     CT_Resources := containerResources console.(PC_Spec).(CS_Resources);
     CT_Security := hardened;
     CT_Mounts := [mount "tmp" "/tmp"; read_only kubeAPIAccessVolume serviceAccountRoot] |}.

Definition pgAdminContainer (r : Reconciler) (console : PgConsole) (image : string) : Container :=
  {| CT_Name := "pgadmin";
     CT_Image := image;
     CT_PullPolicy := imagePullPolicy console.(PC_Spec).(CS_PgAdmin).(PG_Image);
     CT_Command := [];
     CT_Args := [];
     CT_Env :=
       [mkEnv "PGADMIN_LISTEN_ADDRESS" "127.0.0.1";
        mkEnv "PGADMIN_LISTEN_PORT" (portString pgAdminPort);
        mkEnv "SCRIPT_NAME" pgAdminLinkPath;
        mkEnv "PGADMIN_DEFAULT_EMAIL" pgAdminBootstrapEmail;
        mkEnv "PGADMIN_DEFAULT_PASSWORD_FILE" (pgAdminBootstrapMountPath +:+ "/" +:+ pgAdminBootstrapPasswordKey);
        mkEnv "PGADMIN_CONFIG_AUTHENTICATION_SOURCES" "['webserver']";
        mkEnv "PGADMIN_CONFIG_WEBSERVER_REMOTE_USER" ("'" +:+ consoleTrustedUserHeader +:+ "'");
        mkEnv "PGADMIN_CONFIG_WEBSERVER_AUTO_CREATE_USER" "True";
        mkEnv "PGADMIN_CONFIG_MASTER_PASSWORD_REQUIRED" "False";
        mkEnv "PGPASSFILE" (adminSyncPassfileMountPath +:+ "/pgpass")];
     CT_Ports := tcp_port "http" pgAdminPort;
     CT_Liveness := None;
     CT_Readiness := None;
     CT_Resources := adminSyncResources console.(PC_Spec).(CS_PgAdmin).(PG_Resources);
     CT_Security := mkSecurity (Some false) None ["ALL"];
     CT_Mounts :=
       [mount pgAdminSettingsVolume pgAdminSettingsMountPath;
        read_only pgAdminBootstrapVolume pgAdminBootstrapMountPath]
       ++ (if is_empty r.(RE_OperatorImage) then [] else [mount adminSyncPassfileVolume adminSyncPassfileMountPath])
       ++ [mount "tmp" "/tmp"] |}.

Definition adminSyncInitContainer (r : Reconciler) : Container :=
  {| CT_Name := "admin-sync-init";
     CT_Image := r.(RE_OperatorImage);
     CT_PullPolicy := PullIfNotPresent;
     CT_Command := ["/manager"; "admin-sync-init"; "--target"; adminSyncBinMountPath +:+ "/manager"];
     CT_Args := [];
     CT_Env := [];
     CT_Ports := [];
     CT_Liveness := None;
     CT_Readiness := None;
     CT_Resources := no_resources;
     CT_Security := hardened;
     CT_Mounts := [mount adminSyncBinVolume adminSyncBinMountPath] |}.

Definition adminSyncSidecarContainer (console : PgConsole) (image : string) : Container :=
  {| CT_Name := "admin-sync";
     CT_Image := image;
     CT_PullPolicy := imagePullPolicy console.(PC_Spec).(CS_PgAdmin).(PG_Image);
     CT_Command :=
       [adminSyncBinMountPath +:+ "/manager"; "admin-sync-sidecar"; "--cert-dir"; adminSyncTLSMountPath;
        "--token-file"; adminSyncTLSMountPath +:+ "/token";
        "--pass-file"; adminSyncPassfileMountPath +:+ "/pgpass"];
     CT_Args := [];
     CT_Env := [];
     CT_Ports := tcp_port "admin-sync" SidecarPort;
     CT_Liveness := None;
     CT_Readiness := Some (TCPProbe SidecarPort 2 10);
     CT_Resources := adminSyncResources console.(PC_Spec).(CS_PgAdmin).(PG_Resources);
     CT_Security := hardened;
     CT_Mounts :=
       [read_only adminSyncBinVolume adminSyncBinMountPath; read_only adminSyncTLSVolume adminSyncTLSMountPath;
        mount adminSyncPassfileVolume adminSyncPassfileMountPath;
        mount pgAdminSettingsVolume pgAdminSettingsMountPath; mount "tmp" "/tmp"] |}.

(** ** The evidence sidecar *)

Definition socketMount : VolumeMount := mount evidenceSocketVolume evidenceSocketDirectory.
Definition tokenMount : VolumeMount := mkMount evidenceTokenVolume evidenceTokenFilePath evidenceTokenKey true.

Definition credentialProjections (c : evidenceComposition) : list VolumeProjection :=
  let file (ref : SecretKeyReference) path := ProjectedSecret ref.(SR_Name) [(ref.(SR_Key), path)] in
  [file c.(EC_AccessKeyID) storeAccessKeyFile; file c.(EC_SecretAccessKey) storeSecretKeyFile]
  ++ (if c.(EC_SessionToken) is Some token then [file token storeSessionTokenFile] else []).

Definition viewerContainer (console : PgConsole) (image : string) (c : evidenceComposition) : Container :=
  {| CT_Name := "objectstoreviewer";
     CT_Image := image;
     CT_PullPolicy :=
       (if console.(PC_Spec).(CS_Evidence).(EV_Image) is Some i then imagePullPolicy (Some i) else PullIfNotPresent);
     CT_Command := [];
     CT_Args := [];
     CT_Env :=
       [mkEnv "RUNTIME_MODE" "pgconsole-sidecar";
        mkEnv "EVIDENCE_TOKEN_FILE" evidenceTokenFilePath;
        mkEnv "CNPG_CLUSTER_NAMESPACE" (PC_Namespace console);
        mkEnv "CNPG_CLUSTER_UID" c.(EC_ClusterUID);
        mkEnv "CNPG_CLUSTER_NAME" console.(PC_Spec).(CS_CNPGClusterRef);
        mkEnv "REPOSITORY_FORMAT" "barman-cloud";
        mkEnv "PROVIDER" "s3";
        mkEnv "DESTINATION_PATH" c.(EC_DestinationPath)]
       ++ (if is_empty c.(EC_EndpointURL) then [] else [mkEnv "ENDPOINT_URL" c.(EC_EndpointURL)])
       ++ (if c.(EC_EndpointCA) is Some _
           then [mkEnv "ENDPOINT_CA_FILE" (endpointCADirectory +:+ "/" +:+ endpointCAFile)] else [])
       ++ [mkEnv "BARMAN_SERVER_NAMES" c.(EC_ServerName);
           mkEnv "STORE_CREDENTIAL_MODE" "static-files";
           mkEnv "AWS_ACCESS_KEY_ID_FILE" (storeCredentialDirectory +:+ "/" +:+ storeAccessKeyFile);
           mkEnv "AWS_SECRET_ACCESS_KEY_FILE" (storeCredentialDirectory +:+ "/" +:+ storeSecretKeyFile)]
       ++ (if c.(EC_SessionToken) is Some _
           then [mkEnv "AWS_SESSION_TOKEN_FILE" (storeCredentialDirectory +:+ "/" +:+ storeSessionTokenFile)] else []);
     CT_Ports := [];
     CT_Liveness := Some (ExecProbe ["/objectstoreviewer"; "probe"]);
     CT_Readiness := None;
     CT_Resources := containerResources console.(PC_Spec).(CS_Evidence).(EV_Resources);
     CT_Security := hardened;
     CT_Mounts :=
       [socketMount; tokenMount; mount viewerScratchVolume "/tmp";
        read_only storeCredentialVolume storeCredentialDirectory]
       ++ (if c.(EC_EndpointCA) is Some _ then [read_only endpointCAVolume endpointCADirectory] else []) |}.

Definition evidence_volumes (c : evidenceComposition) (tokenSecretName : string) : list Volume :=
  [mkVolume evidenceSocketVolume EmptyDir;
   mkVolume evidenceTokenVolume
     (SecretSource tokenSecretName (Some mode0440) [(evidenceTokenKey, evidenceTokenKey)]);
   mkVolume viewerScratchVolume EmptyDir;
   mkVolume storeCredentialVolume (ProjectedSource (Some mode0440) (credentialProjections c))]
  ++ (if c.(EC_EndpointCA) is Some ca
      then [mkVolume endpointCAVolume (SecretSource ca.(SR_Name) (Some mode0444) [(ca.(SR_Key), endpointCAFile)])]
      else []).

(** What [findContainer] points at is changed in place: the first container
    of the name, if any. *)
Fixpoint with_container (name : string) (f : Container → Container) (l : list Container) : option (list Container) :=
  match l with
  | [] => None
  | c :: l => if String.eqb c.(CT_Name) name then Some (f c :: l) else (c ::.) <$> with_container name f l
  end.

Definition consume_evidence (e : evidenceComposition) (c : Container) : Container :=
  {| CT_Name := c.(CT_Name);
     CT_Image := c.(CT_Image);
     CT_PullPolicy := c.(CT_PullPolicy);
     CT_Command := c.(CT_Command);
     CT_Args := c.(CT_Args);
     CT_Env := c.(CT_Env) ++
       [mkEnv "REPOSITORY_EVIDENCE_URL" evidenceSocketURL;
        mkEnv "REPOSITORY_EVIDENCE_TOKEN_FILE" evidenceTokenFilePath;
        mkEnv "REPOSITORY_EXPECTED_FINGERPRINT" e.(EC_Fingerprint);
        mkEnv "REPOSITORY_BARMAN_SERVER" e.(EC_ServerName)];
     CT_Ports := c.(CT_Ports);
     CT_Liveness := c.(CT_Liveness);
     CT_Readiness := c.(CT_Readiness);
     CT_Resources := c.(CT_Resources);
     CT_Security := c.(CT_Security);
     CT_Mounts := c.(CT_Mounts) ++ [socketMount; tokenMount] |}.

Definition set_pod (containers : list Container) (volumes : list Volume) (p : PodSpec) : PodSpec :=
  mkPodSpec p.(PX_ServiceAccountName) p.(PX_AutomountServiceAccountToken) p.(PX_RestartPolicy)
    p.(PX_DNSPolicy) p.(PX_SecurityContext) p.(PX_InitContainers) containers volumes.

Definition composeEvidence (pod : PodSpec) (console : PgConsole) (viewerImage : string)
    (e : evidenceComposition) (tokenSecretName : string) : PodSpec :=
  let volumes := pod.(PX_Volumes) ++ evidence_volumes e tokenSecretName in
  match with_container "pgconsole" (consume_evidence e) pod.(PX_Containers) with
  | None => set_pod pod.(PX_Containers) volumes pod
  | Some containers => set_pod (containers ++ [viewerContainer console viewerImage e]) volumes pod
  end.

(** ** The objects *)

Definition kubeAPIAccessProjection : Volume :=
  mkVolume kubeAPIAccessVolume (ProjectedSource (Some mode0444)
    [ProjectedToken "token" projectedTokenExpiration;
     ProjectedConfigMap "kube-root-ca.crt" [("ca.crt", "ca.crt")];
     ProjectedField "namespace" "metadata.namespace"]).

Section objects.
Context `{G : GoLib} `{K : Machinery}.

Definition pgAdminBootstrapSecretName (consoleName : string) : string :=
  ResourceName application consoleName pgAdminBootstrapSuffix.

Definition serviceAccount (console : PgConsole) : result error ServiceAccount :=
  let annotations : gmap string string :=
    if bool_decide (is_Some console.(PC_Spec).(CS_Authentication).(PA_OpenShift))
       && negb (is_empty (CS_Hostname console.(PC_Spec)))
    then {[oauthRedirectAnnotation := "https://" +:+ CS_Hostname console.(PC_Spec)]} else ∅ in
  SetControllerReference console.(PC_Meta) KServiceAccount
    (mkServiceAccount (set_annotations annotations (owned_meta console ""))).

Definition service_ports : list ServicePort :=
  [mkServicePort "http" ProtocolTCP 80 (PortNumber proxyPort);
   mkServicePort "https" ProtocolTCP 443 (PortNumber proxyPort)].

Definition service (console : PgConsole) : result error Service :=
  SetControllerReference console.(PC_Meta) KService
    (mkService (owned_meta console "") "ClusterIP" (SelectorLabels application (PC_Name console)) service_ports).

(** What pgAdmin adds to the Pod, and the sync sidecar to that. *)
Definition sync_composed (r : Reconciler) (console : PgConsole) : bool :=
  pgAdminEnabled console && negb (is_empty r.(RE_OperatorImage)).

Definition pod_volumes (r : Reconciler) (console : PgConsole) : list Volume :=
  [mkVolume "tmp" EmptyDir;
   kubeAPIAccessProjection;
   mkVolume proxyConfigVolume (SecretSource (ResourceName application (PC_Name console) proxyConfigSecretSuffix)
     (Some mode0444) [(proxyConfigFileName, proxyConfigFileName)])]
  ++ (if console.(PC_Spec).(CS_Authentication).(PA_OIDC) is Some oidc
      then [mkVolume oidcClientVolume (SecretSource oidc.(PO_ClientSecretRef).(SR_Name) (Some mode0444)
              [(oidcClientSecretKey oidc.(PO_ClientSecretRef), oidcClientSecretFile)])] else [])
  ++ (if pgAdminEnabled console
      then [mkVolume pgAdminSettingsVolume
              (ClaimSource (ResourceName application (PC_Name console) pgAdminSettingsSuffix));
            mkVolume pgAdminBootstrapVolume
              (SecretSource (pgAdminBootstrapSecretName (PC_Name console)) (Some mode0440) [])] else [])
  ++ (if sync_composed r console
      then [mkVolume adminSyncBinVolume EmptyDir;
            mkVolume adminSyncTLSVolume
              (SecretSource (SidecarSecretName (PC_Name console)) (Some mode0440) []);
            mkVolume adminSyncPassfileVolume EmptyDir] else []).

Definition pod_containers (r : Reconciler) (console : PgConsole) (inputs : workloadInputs) : list Container :=
  [proxyContainer console inputs.(WI_ProxyImage); consoleContainer console inputs.(WI_ConsoleImage)]
  ++ (if pgAdminEnabled console then [pgAdminContainer r console inputs.(WI_PgAdminImage)] else [])
  ++ (if sync_composed r console then [adminSyncSidecarContainer console inputs.(WI_PgAdminImage)] else []).

Definition pod_annotations (inputs : workloadInputs) : gmap string string :=
  let annotations := {[ConfigChecksumAnnotation := inputs.(WI_ConfigChecksum)]} in
  if is_empty inputs.(WI_AdminSyncSecretVersion) then annotations
  else <[AdminSyncSecretVersionAnnotation := inputs.(WI_AdminSyncSecretVersion)]> annotations.

Definition pod_of (r : Reconciler) (console : PgConsole) (inputs : workloadInputs) : PodSpec :=
  let pod :=
    mkPodSpec (ResourceName application (PC_Name console) "") (Some false) "Always" "ClusterFirst"
      (mkPodSecurity (Some true) "RuntimeDefault" console.(PC_Spec).(CS_FSGroup))
      (if sync_composed r console then [adminSyncInitContainer r] else [])
      (pod_containers r console inputs) (pod_volumes r console) in
  match inputs.(WI_Composition) with
  | None => pod
  | Some e => composeEvidence pod console inputs.(WI_ViewerImage) e inputs.(WI_TokenSecretName)
  end.

Definition deployment_of (r : Reconciler) (console : PgConsole) (inputs : workloadInputs) : DeploymentSpec :=
  mkDeploymentSpec (Some 1%Z) "Recreate" (SelectorLabels application (PC_Name console))
    (CommonLabels application (PC_Name console)) (pod_annotations inputs) (pod_of r console inputs).

Definition deployment (r : Reconciler) (console : PgConsole) (inputs : workloadInputs) : result error Deployment :=
  SetControllerReference console.(PC_Meta) KDeployment
    (mkDeployment (owned_meta console "") (deployment_of r console inputs) 0 0 0).

Definition pgAdminSettingsPVC (console : PgConsole) : result error PersistentVolumeClaim :=
  let pgAdmin := console.(PC_Spec).(CS_PgAdmin) in
  SetControllerReference console.(PC_Meta) KPVC
    (mkPVC (owned_meta console pgAdminSettingsSuffix) ["ReadWriteOnce"]
       (default defaultPgAdminSettingsSize pgAdmin.(PG_StorageSize)) (nonempty pgAdmin.(PG_StorageClass))).
End objects.

(** ** The comparisons *)

Definition containerMatches (existing desired : Container) : bool :=
  String.eqb existing.(CT_Name) desired.(CT_Name)
  && String.eqb existing.(CT_Image) desired.(CT_Image)
  && String.eqb existing.(CT_PullPolicy) desired.(CT_PullPolicy)
  && bool_decide (existing.(CT_Args) = desired.(CT_Args))
  && bool_decide (existing.(CT_Env) = desired.(CT_Env))
  && bool_decide (existing.(CT_Resources) = desired.(CT_Resources))
  && bool_decide (existing.(CT_Security) = desired.(CT_Security))
  && bool_decide (existing.(CT_Mounts) = desired.(CT_Mounts)).

(** The loop over the containers of two lists of one length. *)
Fixpoint containers_match (existing desired : list Container) : bool :=
  match existing, desired with
  | [], [] => true
  | e :: existing, d :: desired => containerMatches e d && containers_match existing desired
  | _, _ => false
  end.

Definition deploymentMatches (existing desired : Deployment) : bool :=
  let es := existing.(D_Spec) in
  let ds := desired.(D_Spec) in
  let ep := es.(DS_Pod) in
  let dp := ds.(DS_Pod) in
  metadataMatches existing.(D_Meta) desired.(D_Meta)
  && bool_decide (es.(DS_Replicas) = ds.(DS_Replicas))
  && bool_decide (es.(DS_Selector) = ds.(DS_Selector))
  && String.eqb es.(DS_Strategy) ds.(DS_Strategy)
  && bool_decide (es.(DS_TemplateLabels) = ds.(DS_TemplateLabels))
  && bool_decide (es.(DS_TemplateAnnotations) = ds.(DS_TemplateAnnotations))
  && String.eqb ep.(PX_ServiceAccountName) dp.(PX_ServiceAccountName)
  && bool_decide (ep.(PX_AutomountServiceAccountToken) = dp.(PX_AutomountServiceAccountToken))
  && bool_decide (ep.(PX_SecurityContext) = dp.(PX_SecurityContext))
  && bool_decide (ep.(PX_Volumes) = dp.(PX_Volumes))
  && containers_match ep.(PX_Containers) dp.(PX_Containers).

Definition service_matches (existing desired : Service) : bool :=
  metadataMatches existing.(SV_Meta) desired.(SV_Meta)
  && bool_decide (existing.(SV_Selector) = desired.(SV_Selector))
  && bool_decide (existing.(SV_Ports) = desired.(SV_Ports)).

(** ** The writes *)

Section writes.
Context `{G : GoLib} `{K : Machinery} {W : Type} `{C : Client W}.

Definition applyServiceAccount (desired : ServiceAccount) : M W () :=
  discard (apply_unless KServiceAccount (λ e d, metadataMatches e.(SA_Meta) d.(SA_Meta)) desired).

Definition applyService (desired : Service) : M W () := discard (apply_unless KService service_matches desired).

(** Like [apply_unless], but it reads the live object. *)
Definition reconcileDeployment (desired : Deployment) : M W Deployment :=
  existing ← try (LiveGet KDeployment (key_of desired.(D_Meta)));
  match existing with
  | Ok e => if deploymentMatches e desired then mret e else ApplyObject KDeployment desired
  | Err e => if IsNotFound e then ApplyObject KDeployment desired else throw e
  end.

Definition reconcilePgAdminSettingsPVC (console : PgConsole) : M W () :=
  if negb (pgAdminEnabled console) then mret ()
  else
    pvc ← of_result (pgAdminSettingsPVC console);
    existing ← try (Get KPVC (key_of pvc.(PV_Meta)));
    match existing with
    | Ok _ => mret ()
    | Err e => if IsNotFound e then discard (ApplyObject KPVC pvc) else throw e
    end.
End writes.

(** ** The wiring of the Pod *)

(** Who may mount what: the confinement of credentials and sockets. *)
Definition may_mount : list (string * string) :=
  [("proxy", proxyConfigVolume); ("proxy", oidcClientVolume); ("proxy", kubeAPIAccessVolume);
   ("pgconsole", "tmp"); ("pgconsole", kubeAPIAccessVolume);
   ("pgconsole", evidenceSocketVolume); ("pgconsole", evidenceTokenVolume);
   ("pgadmin", pgAdminSettingsVolume); ("pgadmin", pgAdminBootstrapVolume);
   ("pgadmin", adminSyncPassfileVolume); ("pgadmin", "tmp");
   ("admin-sync-init", adminSyncBinVolume);
   ("admin-sync", adminSyncBinVolume); ("admin-sync", adminSyncTLSVolume);
   ("admin-sync", adminSyncPassfileVolume); ("admin-sync", pgAdminSettingsVolume); ("admin-sync", "tmp");
   ("objectstoreviewer", evidenceSocketVolume); ("objectstoreviewer", evidenceTokenVolume);
   ("objectstoreviewer", viewerScratchVolume); ("objectstoreviewer", storeCredentialVolume);
   ("objectstoreviewer", endpointCAVolume)].

(** Whose root filesystem stays writable. *)
Definition writable_root : list string := ["pgadmin"].

Definition all_containers (p : PodSpec) : list Container := p.(PX_InitContainers) ++ p.(PX_Containers).

Record container_ok (p : PodSpec) (c : Container) : Prop := {
  ck_declared : ∀ m, m ∈ c.(CT_Mounts) → m.(VM_Name) ∈ V_Name <$> p.(PX_Volumes);
  ck_paths : NoDup (VM_MountPath <$> c.(CT_Mounts));
  ck_allowed : ∀ m, m ∈ c.(CT_Mounts) → (c.(CT_Name), m.(VM_Name)) ∈ may_mount;
  ck_privileges : c.(CT_Security).(SX_AllowPrivilegeEscalation) = Some false
    ∧ c.(CT_Security).(SX_Drop) = ["ALL"];
  ck_root : c.(CT_Name) ∉ writable_root → c.(CT_Security).(SX_ReadOnlyRootFilesystem) = Some true
}.

(** The same, decided on names alone. *)
Definition container_check (volumes : list string) (c : Container) : bool :=
  forallb (λ m, bool_decide (m.(VM_Name) ∈ volumes)) c.(CT_Mounts)
  && bool_decide (NoDup (VM_MountPath <$> c.(CT_Mounts)))
  && forallb (λ m, bool_decide ((c.(CT_Name), m.(VM_Name)) ∈ may_mount)) c.(CT_Mounts)
  && bool_decide (c.(CT_Security).(SX_AllowPrivilegeEscalation) = Some false)
  && bool_decide (c.(CT_Security).(SX_Drop) = ["ALL"])
  && (bool_decide (c.(CT_Name) ∈ writable_root)
      || bool_decide (c.(CT_Security).(SX_ReadOnlyRootFilesystem) = Some true)).

Definition pod_check (p : PodSpec) : bool :=
  bool_decide (NoDup (CT_Name <$> all_containers p)) && bool_decide (NoDup (V_Name <$> p.(PX_Volumes)))
  && forallb (container_check (V_Name <$> p.(PX_Volumes))) (all_containers p).

Lemma forallb_elem {A} (f : A → bool) l x : forallb f l = true → x ∈ l → f x = true.
Proof. intros H Hx. rewrite forallb_forall in H. by apply H, list_elem_of_In. Qed.

Lemma container_check_ok p c : container_check (V_Name <$> p.(PX_Volumes)) c = true → container_ok p c.
Proof.
  unfold container_check. rewrite !andb_true_iff, orb_true_iff, !bool_decide_eq_true.
  intros [[[[[H1 H2] H3] H4] H5] H6]. split; [|done| |done|tauto].
  - intros m Hm. pose proof (forallb_elem _ _ _ H1 Hm) as H. by apply bool_decide_eq_true in H.
  - intros m Hm. pose proof (forallb_elem _ _ _ H3 Hm) as H. by apply bool_decide_eq_true in H.
Qed.

Section wiring.
Context `{G : GoLib}.

Lemma pod_of_checked r console inputs : pod_check (pod_of r console inputs) = true.
Proof.
  unfold pod_of, pod_containers, pod_volumes, sync_composed, proxyContainer, pgAdminContainer.
  destruct (WI_Composition inputs) as [[? ? ? ? ? ? ca ? ? token ?]|]; [destruct ca, token|];
    destruct (PA_OIDC _), (pgAdminEnabled console), (is_empty (RE_OperatorImage r)); vm_compute; reflexivity.
Qed.
End wiring.

(** The volume carries a token of the Kubernetes API. *)
Definition has_api_token (v : Volume) : bool :=
  match v.(V_Source) with
  | ProjectedSource _ sources => existsb (λ s, if s is ProjectedToken _ _ then true else false) sources
  | _ => false
  end.

(** The volume mounts a key pair of the object store. *)
Definition has_store_keys (v : Volume) : bool :=
  match v.(V_Source) with
  | ProjectedSource _ sources =>
      existsb (λ s, if s is ProjectedSecret _ [(_, path)]
                    then existsb (String.eqb path) [storeAccessKeyFile; storeSecretKeyFile; storeSessionTokenFile]
                    else false) sources
  | _ => false
  end.

(** The table, read by volume. *)
Definition confined (p : string * string) : Prop :=
  (p.2 = kubeAPIAccessVolume → p.1 ∈ ["proxy"; "pgconsole"])
  ∧ (p.2 = storeCredentialVolume → p.1 = "objectstoreviewer")
  ∧ (p.2 ∈ [evidenceTokenVolume; evidenceSocketVolume] → p.1 ∈ ["pgconsole"; "objectstoreviewer"])
  ∧ (p.2 ∈ [proxyConfigVolume; oidcClientVolume] → p.1 = "proxy")
  ∧ (p.2 = adminSyncTLSVolume → p.1 = "admin-sync").

Lemma allowed_confined p : p ∈ may_mount → confined p.
Proof. revert p. apply Forall_forall. apply (bool_decide_unpack (Forall confined may_mount)). vm_compute. exact I. Qed.

Section confinement.
Context `{G : GoLib}.

Lemma pod_of_tokens r console inputs :
  forallb (λ v, (negb (has_api_token v) || String.eqb v.(V_Name) kubeAPIAccessVolume)
                && (negb (has_store_keys v) || String.eqb v.(V_Name) storeCredentialVolume))
    (pod_of r console inputs).(PX_Volumes) = true.
Proof.
  unfold pod_of, pod_containers, pod_volumes, sync_composed, proxyContainer, pgAdminContainer.
  destruct (WI_Composition inputs) as [[? ? ? ? ? ? ca ? ? token ?]|]; [destruct ca, token|];
    destruct (PA_OIDC _), (pgAdminEnabled console), (is_empty (RE_OperatorImage r)); vm_compute; reflexivity.
Qed.

Lemma pod_of_settings r console inputs :
  let p := pod_of r console inputs in
  p.(PX_AutomountServiceAccountToken) = Some false
  ∧ p.(PX_SecurityContext) = mkPodSecurity (Some true) "RuntimeDefault" console.(PC_Spec).(CS_FSGroup).
Proof.
  intros p. unfold p, pod_of, composeEvidence. destruct (WI_Composition inputs); [|done].
  by destruct (with_container _ _ _).
Qed.

Lemma pod_container_ok r console inputs c :
  c ∈ all_containers (pod_of r console inputs) → container_ok (pod_of r console inputs) c.
Proof.
  intros Hc. apply container_check_ok. pose proof (pod_of_checked r console inputs) as H.
  unfold pod_check in H. rewrite !andb_true_iff in H. destruct H as [_ H]. by apply (forallb_elem _ _ _ H).
Qed.

End confinement.

(** ** The Deployment *)

Lemma containerMatches_refl c : containerMatches c c = true.
Proof. unfold containerMatches. by rewrite !String.eqb_refl, !bool_decide_eq_true_2 by done. Qed.

Lemma containers_match_refl l : containers_match l l = true.
Proof. induction l as [|c l IH]; [done|]. cbn. by rewrite containerMatches_refl, IH. Qed.

Lemma metadataMatches_refl m : is_Some m.(M_Controller) → metadataMatches m m = true.
Proof.
  intros [u Hu]. unfold metadataMatches. rewrite !LabelsContain_refl. cbn [andb].
  apply ControllerOwnerMatches_true. by exists u.
Qed.

(** Two specifications that agree on all but the init containers. *)
Definition same_but_init (a b : DeploymentSpec) : Prop :=
  ∃ init, b = mkDeploymentSpec a.(DS_Replicas) a.(DS_Strategy) a.(DS_Selector) a.(DS_TemplateLabels)
    a.(DS_TemplateAnnotations)
    (mkPodSpec a.(DS_Pod).(PX_ServiceAccountName) a.(DS_Pod).(PX_AutomountServiceAccountToken)
       a.(DS_Pod).(PX_RestartPolicy) a.(DS_Pod).(PX_DNSPolicy) a.(DS_Pod).(PX_SecurityContext) init
       a.(DS_Pod).(PX_Containers) a.(DS_Pod).(PX_Volumes)).

Lemma deploymentMatches_init existing desired :
  metadataMatches existing.(D_Meta) desired.(D_Meta) = true →
  same_but_init desired.(D_Spec) existing.(D_Spec) → deploymentMatches existing desired = true.
Proof.
  intros Hm [init E]. unfold deploymentMatches. rewrite Hm, E. cbn [DS_Pod DS_Replicas DS_Selector
    DS_Strategy DS_TemplateLabels DS_TemplateAnnotations PX_ServiceAccountName
    PX_AutomountServiceAccountToken PX_SecurityContext PX_Volumes PX_Containers].
  by rewrite !String.eqb_refl, !bool_decide_eq_true_2, containers_match_refl by done.
Qed.

Section deployment.
Context `{G : GoLib} `{K : Machinery} {W : Type} `{C : Client W}.
Context `{CL : !ClientLaws C} `{KL : !MachineryLaws K}.

Definition ownedDeployment (r : Reconciler) (console : PgConsole) (inputs : workloadInputs) : Deployment :=
  mkDeployment (controlled_meta console "") (deployment_of r console inputs) 0 0 0.

Definition deployment_key (console : PgConsole) : ObjectKey := role_key console "".

Lemma deployment_owned r console inputs : deployment r console inputs = Ok (ownedDeployment r console inputs).
Proof using KL. unfold deployment. by rewrite SetControllerReference_ok. Qed.

(** C36: every console renders a Deployment, owned by it, that the API server
    can admit and the kubelet can run: its selector selects its own Pods, no
    two containers and no two volumes share a name, every mount names a
    volume the Pod declares, and no container mounts two at one path. The
    template carries the checksum of the configuration, and one replica is
    replaced, never overlapped. *)
Theorem deployment_well_formed r console inputs :
  ∃ d, deployment r console inputs = Ok d
  ∧ key_of d.(D_Meta) = deployment_key console ∧ d.(D_Meta).(M_Controller) = Some (PC_UID console)
  ∧ d.(D_Spec).(DS_Replicas) = Some 1%Z ∧ d.(D_Spec).(DS_Strategy) = "Recreate"
  ∧ d.(D_Spec).(DS_Selector) ⊆ d.(D_Spec).(DS_TemplateLabels)
  ∧ d.(D_Spec).(DS_TemplateAnnotations) !! ConfigChecksumAnnotation = Some inputs.(WI_ConfigChecksum)
  ∧ let p := d.(D_Spec).(DS_Pod) in
    NoDup (CT_Name <$> all_containers p) ∧ NoDup (V_Name <$> p.(PX_Volumes))
    ∧ ∀ c, c ∈ all_containers p → NoDup (VM_MountPath <$> c.(CT_Mounts))
        ∧ ∀ m, m ∈ c.(CT_Mounts) → m.(VM_Name) ∈ V_Name <$> p.(PX_Volumes).
Proof using KL.
  exists (ownedDeployment r console inputs). split; [apply deployment_owned|].
  do 4 (split; [done|]). split; [|split].
  - apply map_subseteq_spec. intros i x. by apply lookup_CommonLabels_selector.
  - cbn. unfold pod_annotations. destruct (is_empty _); [apply lookup_singleton_eq|].
    rewrite lookup_insert_ne by done. apply lookup_singleton_eq.
  - intros p. pose proof (pod_of_checked r console inputs) as H. unfold pod_check in H.
    rewrite !andb_true_iff, !bool_decide_eq_true in H. destruct H as [[Hc Hv] _].
    split; [done|]. split; [done|]. intros c Hin.
    destruct (pod_container_ok r console inputs c Hin). done.
Qed.

Lemma reconcileDeployment_run desired w res w' :
  reconcileDeployment desired w = (res, w') →
  elsewhere w w' KDeployment (key_of desired.(D_Meta))
  ∧ (∀ d, res = Ok d → view w' KDeployment (key_of desired.(D_Meta)) = Some d
       ∧ (deploymentMatches d desired = true ∨ applied (k := KDeployment) desired d))
  ∧ (∀ d : Deployment, view w KDeployment (key_of desired.(D_Meta)) = Some d →
       deploymentMatches d desired = true → untouched w w').
Proof using CL.
  unfold reconcileDeployment. rewrite run_bind, run_try.
  destruct (LiveGet KDeployment _ w) as [r1 w1] eqn:E. apply LiveGet_spec in E as [Hu Hr].
  destruct r1 as [e|e]; cbn in Hr.
  - destruct (deploymentMatches e desired) eqn:Hme.
    + rewrite run_ret. intros [= <- <-]. split; [|split].
      * intros k' key' _. by apply untouched_lookup.
      * intros ? [= <-]. split; [|by left]. by rewrite (untouched_lookup _ _ _ _ Hu).
      * done.
    + intros H. apply (ApplyObject_run KDeployment) in H as (Hl & He & Ho). split; [|split].
      * by eapply untouched_elsewhere.
      * intros o [Hv Ha]%Ho. by auto.
      * intros o Hv Ho'. congruence.
  - destruct (IsNotFound e) eqn:Hnf.
    + intros H. apply (ApplyObject_run KDeployment) in H as (Hl & He & Ho). split; [|split].
      * by eapply untouched_elsewhere.
      * intros o [Hv Ha]%Ho. by auto.
      * intros o Hv _. rewrite (Hr eq_refl) in Hv. done.
    + rewrite run_throw. intros [= <- <-]. split; [|split]; [|done|done].
      intros k' key' _. by apply untouched_lookup.
Qed.
(** C37: an operator that comes back with another image of its own renders a
    Deployment that differs only in the init container that installs the sync
    binary, and the comparison does not look at init containers: the stored
    Deployment is taken as it is and nothing is written, so consoles keep the
    binary of the image they were first deployed with. *)
Theorem operator_image_not_rolled_out r r' console inputs d d' :
  pgAdminEnabled console = true →
  r.(RE_OperatorImage) ≠ "" → r'.(RE_OperatorImage) ≠ "" → r.(RE_OperatorImage) ≠ r'.(RE_OperatorImage) →
  deployment r console inputs = Ok d → deployment r' console inputs = Ok d' →
  CT_Image <$> d.(D_Spec).(DS_Pod).(PX_InitContainers) ≠ CT_Image <$> d'.(D_Spec).(DS_Pod).(PX_InitContainers)
  ∧ ∀ (stored : Deployment) w res w',
      view w KDeployment (deployment_key console) = Some stored →
      stored.(D_Meta) = d.(D_Meta) → stored.(D_Spec) = d.(D_Spec) →
      reconcileDeployment d' w = (res, w') → untouched w w' ∧ ∀ o, res = Ok o → o = stored.
Proof using CL KL.
  intros Hpg Hr Hr' Hne. rewrite !deployment_owned. intros [= <-] [= <-].
  assert (Hpod : same_but_init (deployment_of r' console inputs) (deployment_of r console inputs)
    ∧ PX_InitContainers (pod_of r console inputs) = [adminSyncInitContainer r]
    ∧ PX_InitContainers (pod_of r' console inputs) = [adminSyncInitContainer r']).
  { apply is_empty_false in Hr, Hr'. unfold same_but_init, deployment_of, pod_of, pod_containers, pod_volumes,
      sync_composed, pgAdminContainer. rewrite Hpg, Hr, Hr'. cbn [andb negb].
    destruct (WI_Composition inputs); split_and!; try done; by eexists. }
  destruct Hpod as (Hs & Hi & Hi'). split.
  - cbn [ownedDeployment D_Spec deployment_of DS_Pod]. rewrite Hi, Hi'. cbn. by intros [=].
  - intros stored w res w' Hv Hm Hsp H.
    assert (Hmatch : deploymentMatches stored (ownedDeployment r' console inputs) = true).
    { apply deploymentMatches_init; [rewrite Hm; by apply metadataMatches_refl; eexists|by rewrite Hsp]. }
    apply reconcileDeployment_run in H as (_ & Ho & Hu). pose proof (Hu stored Hv Hmatch) as Hun.
    split; [done|]. intros o Hres. destruct (Ho o Hres) as [Hv' _].
    rewrite (untouched_lookup _ _ _ _ Hun) in Hv'.
    change (key_of _) with (deployment_key console) in Hv'. congruence.
Qed.
End deployment.

(** ** A console under two operators *)

Definition demo_inputs : workloadInputs := mkInputs "p:1" "c:1" "a:1" "" "sum" "7" None "".

Definition operator (image : string) : Reconciler :=
  mkReconciler (mkDefaultImages "c:1" "p:1" "a:1" "v:1") image true true true.

Definition workload_console : PgConsole := quiet_console "ns" "c" (Some true) None.

Lemma deployment_well_formed_witness :
  ∃ d, deployment (K := demo_machinery) (operator "o:1") workload_console demo_inputs = Ok d
  ∧ CT_Name <$> all_containers d.(D_Spec).(DS_Pod) = ["admin-sync-init"; "proxy"; "pgconsole"; "pgadmin"; "admin-sync"]
  ∧ NoDup (CT_Name <$> all_containers d.(D_Spec).(DS_Pod)).
Proof.
  destruct (deployment_well_formed (K := demo_machinery) (operator "o:1") workload_console demo_inputs)
    as (d & E & _ & _ & _ & _ & _ & _ & H & _).
  exists d. split; [exact E|]. split; [|exact H].
  rewrite deployment_owned in E. injection E as <-. vm_compute. reflexivity.
Defined.

Definition upgraded : demo :=
  demo_world_of (λ k, match k with
    | KDeployment => {[("ns", "c-pgconsole") := ownedDeployment (operator "o:1") workload_console demo_inputs]}
    | _ => ∅
    end).

Lemma operator_image_not_rolled_out_witness :
  log (reconcileDeployment (ownedDeployment (operator "o:2") workload_console demo_inputs) upgraded).2 = [].
Proof.
  destruct (operator_image_not_rolled_out (K := demo_machinery) (W := demo) (operator "o:1") (operator "o:2")
    workload_console demo_inputs (ownedDeployment (operator "o:1") workload_console demo_inputs)
    (ownedDeployment (operator "o:2") workload_console demo_inputs)) as [_ H];
    [reflexivity|discriminate|discriminate|discriminate|apply deployment_owned|apply deployment_owned|].
  destruct (H (ownedDeployment (operator "o:1") workload_console demo_inputs) upgraded _ _ eq_refl eq_refl eq_refl
    (surjective_pairing _)) as [Hu _].
  exact (untouched_log _ _ Hu).
Defined.
