(* ===== verification/Exposure.v ===== *)
(** * The exposure of a console ([exposure.go])

    The Ingress, Route or HTTPRoute that publishes a console, the condition
    its router's verdict becomes, and the removal of the other two. The label
    selectors of a listener are apimachinery's, the class [Selectors]. *)

From S2P Require Import Prelude GoUtf8 GoStrings GoBytes GoLib ApiTypes Kube Shared Platform Conditions Users NetPolicy ConsoleConfig Rbac.

Class Selectors := {
  (** [metav1.LabelSelectorAsSelector], and [Matches] of what it answers *)
  LabelSelectorAsSelector : string → result error (gmap string string → bool)
}.

(** [gatewayv1.GroupName]. *)
Definition gateway_group : string := "gateway.networking.k8s.io".

Definition validateExposure (console : PgConsole) : result string () :=
  let exposure := console.(PC_Spec).(CS_Exposure) in
  match exposure.(EX_TLS) with
  | None => Ok ()
  | Some tls =>
      if negb (String.eqb exposure.(EX_Type) ExposureTypeGateway) then Ok ()
      else if negb (is_empty tls.(ET_Termination)) || bool_decide (is_Some tls.(ET_CertificateSecretRef))
      then Err "gateway exposure TLS is configured on the referenced Gateway"
      else Ok ()
  end.

Definition stringPtrOrNil (value : string) : option string := nonempty value.

Definition exposureAnnotations (exposure : ExposureSpec) : gmap string string :=
  FilteredOverlay exposure.(EX_Annotations).

(** What a router reports about a hostname that is somebody else's. *)
Definition routeConditionReportsHostnameConflict `{G : GoLib} (condition : RouteCondition) : bool :=
  let text := lower (condition.(RC_Reason) +:+ " " +:+ condition.(RC_Message)) in
  Contains text "host" && (Contains text "claim" || Contains text "conflict" || Contains text "duplicate").

Definition gatewayHostnameMatches (listenerHostname routeHostname : string) : bool :=
  if String.eqb listenerHostname routeHostname then true
  else if negb (HasPrefix listenerHostname "*.") then false
  else
    let suffix := drop_str 1 listenerHostname in
    HasSuffix routeHostname suffix && (slen suffix <? slen routeHostname)%nat.

Definition listenerAllowsHTTPRoute (listener : Listener) : bool :=
  match listener.(LI_AllowedRoutes) with
  | None => true
  | Some allowed =>
      bool_decide (allowed.(AR_Kinds) = [])
      || existsb (λ k, String.eqb (default gateway_group k.1) gateway_group && String.eqb k.2 "HTTPRoute")
           allowed.(AR_Kinds)
  end.

Definition routeConditionIsTrue (routeConditions : list Condition) (conditionType : string) (generation : Z) : bool :=
  existsb (λ c, String.eqb c.(Cd_Type) conditionType && String.eqb c.(Cd_Status) ConditionTrue
                && (generation <=? c.(Cd_ObservedGeneration))%Z) routeConditions.

Definition parentRefMatches (console : PgConsole) (desired : GatewayParentRef) (parent : ParentReference) : bool :=
  String.eqb parent.(PR_Name) desired.(GP_Name)
  && String.eqb (default (PC_Namespace console) parent.(PR_Namespace))
       (if is_empty desired.(GP_Namespace) then PC_Namespace console else desired.(GP_Namespace))
  && String.eqb (default "" parent.(PR_SectionName)) desired.(GP_SectionName).

Definition exposureObjectMatches (existing desired : ObjectMeta) : bool :=
  LabelsContain existing.(M_Labels) desired.(M_Labels)
  && bool_decide (existing.(M_Annotations) = desired.(M_Annotations))
  && ControllerOwnerMatches existing desired.

Section exposure.
Context `{G : GoLib} `{K : Machinery} `{Se : Selectors} {W : Type} `{C : Client W}.

Definition exposureLabels (console : PgConsole) : gmap string string :=
  CommonLabels application (PC_Name console) ∪ FilteredOverlay console.(PC_Spec).(CS_Exposure).(EX_Labels).

Definition exposure_name (console : PgConsole) : string := ResourceName application (PC_Name console) "".

Definition exposure_meta (console : PgConsole) : ObjectMeta :=
  set_annotations (exposureAnnotations console.(PC_Spec).(CS_Exposure))
    (new_meta (exposure_name console) (PC_Namespace console) (exposureLabels console) None).

(** ** The three objects *)

Definition ingress (console : PgConsole) : result error Ingress :=
  let exposure := console.(PC_Spec).(CS_Exposure) in
  let tls :=
    match exposure.(EX_TLS) with
    | Some tls => match tls.(ET_CertificateSecretRef) with
                  | Some name => [([exposure.(EX_Hostname)], name)]
                  | None => []
                  end
    | None => []
    end in
  SetControllerReference console.(PC_Meta) KIngress
    (mkIngress (exposure_meta console)
       (mkIngressSpec (stringPtrOrNil exposure.(EX_IngressClassName)) exposure.(EX_Hostname) "/" "Prefix"
          (exposure_name console) 80 tls) []).

Definition route (console : PgConsole) : result error Route :=
  let exposure := console.(PC_Spec).(CS_Exposure) in
  let termination := from_option ET_Termination "" exposure.(EX_TLS) in
  let routeTLS := if is_empty termination then None else Some (mkRouteTLS termination "Redirect") in
  let port := if String.eqb termination "reencrypt" then "https" else "http" in
  SetControllerReference console.(PC_Meta) KRoute
    (mkRoute (exposure_meta console)
       (mkRouteSpec exposure.(EX_Hostname) "Service" (exposure_name console) 100 (PortName port) routeTLS "None") []).

(** A nil [gateway] is dereferenced. *)
Definition httpRoute (console : PgConsole) : result error HTTPRoute :=
  let exposure := console.(PC_Spec).(CS_Exposure) in
  match exposure.(EX_Gateway) with
  | None => Err (Panic "invalid memory address or nil pointer dereference")
  | Some parent =>
      SetControllerReference console.(PC_Meta) KHTTPRoute
        (mkHTTPRoute (exposure_meta console)
           (mkHTTPRouteSpec
              [mkParentRef (Some gateway_group) (Some "Gateway") parent.(GP_Name)
                 (nonempty parent.(GP_Namespace)) (nonempty parent.(GP_SectionName))]
              [exposure.(EX_Hostname)] "" "Service" (exposure_name console) 443 1) [])
  end.

Definition reconcileIngress (console : PgConsole) : M W Ingress :=
  desired ← of_result (ingress console);
  apply_unless KIngress (λ e d, exposureObjectMatches e.(IN_Meta) d.(IN_Meta)
    && bool_decide (e.(IN_Spec) = d.(IN_Spec))) desired.

Definition reconcileRoute (console : PgConsole) : M W Route :=
  desired ← of_result (route console);
  apply_unless KRoute (λ e d, exposureObjectMatches e.(RT_Meta) d.(RT_Meta)
    && bool_decide (e.(RT_Spec) = d.(RT_Spec))) desired.

Definition reconcileHTTPRoute (console : PgConsole) : M W HTTPRoute :=
  desired ← of_result (httpRoute console);
  apply_unless KHTTPRoute (λ e d, exposureObjectMatches e.(HR_Meta) d.(HR_Meta)
    && bool_decide (e.(HR_Spec) = d.(HR_Spec))) desired.

(** ** The verdicts *)

(** Status, reason and message of [RouteReady]. *)
Definition verdict : Type := string * string * string.

Definition publish (console : PgConsole) (v : verdict) : result error PgConsole :=
  mark console PgConsoleConditionRouteReady v.1.1 v.1.2 v.2.

Definition setIngressCondition (console : PgConsole) (i : Ingress) : verdict :=
  match i.(IN_LoadBalancer) with
  | [] => (ConditionFalse, ReasonNotAdmitted, "Ingress has not published a load balancer address")
  | _ => (ConditionTrue, ReasonAsExpected,
          "Ingress is admitted for " +:+ CS_Hostname console.(PC_Spec))
  end.

(** The inner loop: the first decisive condition. *)
Fixpoint route_verdict (hostname : string) (l : list RouteCondition) : option verdict :=
  match l with
  | [] => None
  | c :: l =>
      if negb (String.eqb c.(RC_Type) "Admitted") then route_verdict hostname l
      else if String.eqb c.(RC_Status) ConditionTrue then
        Some (ConditionTrue, ReasonAsExpected, "Route is admitted for " +:+ hostname)
      else if routeConditionReportsHostnameConflict c then
        Some (ConditionFalse, ReasonHostnameConflict, "Route hostname is already claimed")
      else route_verdict hostname l
  end.

Fixpoint route_verdicts (hostname : string) (l : list (string * list RouteCondition)) : verdict :=
  match l with
  | [] => (ConditionFalse, ReasonNotAdmitted, "Route has not been admitted for " +:+ hostname)
  | (host, conditions) :: l =>
      if negb (String.eqb host hostname) then route_verdicts hostname l
      else default (route_verdicts hostname l) (route_verdict hostname conditions)
  end.

Definition setRouteCondition (console : PgConsole) (rt : Route) : verdict :=
  route_verdicts (CS_Hostname console.(PC_Spec)) rt.(RT_Ingress).

Definition listenerAllowsNamespace (listener : Listener) (gatewayNamespace routeNamespace : string) : M W bool :=
  let from := allowed ← listener.(LI_AllowedRoutes); namespaces ← allowed.(AR_Namespaces); namespaces.(RN_From) in
  let selector := allowed ← listener.(LI_AllowedRoutes); namespaces ← allowed.(AR_Namespaces);
    namespaces.(RN_Selector) in
  match from with
  | None => mret (String.eqb gatewayNamespace routeNamespace)
  | Some from =>
      if String.eqb from "Same" then mret (String.eqb gatewayNamespace routeNamespace)
      else if String.eqb from "All" then mret true
      else if String.eqb from "Selector" then
        match selector with
        | None => mret false
        | Some raw =>
            matches ← of_result (LabelSelectorAsSelector raw);
            namespace ← Get KNamespace ("", routeNamespace);
            mret (matches namespace.(NS_Meta).(M_Labels))
        end
      else mret false
  end.

(** The checks of one listener before the one that reads. *)
Definition listener_fits (hostname : string) (parent : GatewayParentRef) (listener : Listener) : bool :=
  (is_empty parent.(GP_SectionName) || String.eqb listener.(LI_Name) parent.(GP_SectionName))
  && (String.eqb listener.(LI_Protocol) "HTTP" || String.eqb listener.(LI_Protocol) "HTTPS")
  && from_option (λ h, gatewayHostnameMatches h hostname) true listener.(LI_Hostname)
  && listenerAllowsHTTPRoute listener.

Fixpoint compatible_listener (hostname : string) (parent : GatewayParentRef)
    (gatewayNamespace routeNamespace : string) (l : list Listener) : M W bool :=
  match l with
  | [] => mret false
  | listener :: l =>
      if negb (listener_fits hostname parent listener) then
        compatible_listener hostname parent gatewayNamespace routeNamespace l
      else
        allowed ← listenerAllowsNamespace listener gatewayNamespace routeNamespace;
        if allowed : bool then mret true
        else compatible_listener hostname parent gatewayNamespace routeNamespace l
  end.

Definition gatewayHasCompatibleListener (console : PgConsole) (parent : GatewayParentRef) (g : Gateway) : M W bool :=
  compatible_listener (CS_Hostname console.(PC_Spec)) parent g.(GW_Meta).(M_Namespace)
    (PC_Namespace console) g.(GW_Listeners).

Definition gateway_key (console : PgConsole) (parent : GatewayParentRef) : ObjectKey :=
  (if is_empty parent.(GP_Namespace) then PC_Namespace console else parent.(GP_Namespace), parent.(GP_Name)).

Definition referencedGateway (console : PgConsole) (parent : GatewayParentRef) : M W Gateway :=
  Get KGateway (gateway_key console parent).

(** A parent accepted the route, with its references, as it is now. *)
Definition route_accepted (console : PgConsole) (parent : GatewayParentRef) (hr : HTTPRoute) : bool :=
  existsb (λ p, parentRefMatches console parent p.1
                && routeConditionIsTrue p.2 "Accepted" hr.(HR_Meta).(M_Generation)
                && routeConditionIsTrue p.2 "ResolvedRefs" hr.(HR_Meta).(M_Generation)) hr.(HR_Parents).

Definition setHTTPRouteCondition (console : PgConsole) (parent : GatewayParentRef) (hr : HTTPRoute) : M W verdict :=
  answer ← try (referencedGateway console parent);
  match answer with
  | Err e =>
      if IsNotFound e then mret (ConditionFalse, ReasonGatewayNotFound, "referenced Gateway was not found")
      else throw (WrapErr "read referenced Gateway" e)
  | Ok g =>
      compatible ← wrap "validate referenced Gateway listener" (gatewayHasCompatibleListener console parent g);
      mret (if negb (compatible : bool) then
              (ConditionFalse, ReasonNotAccepted, "referenced Gateway has no compatible listener")
            else if route_accepted console parent hr then
              (ConditionTrue, ReasonAsExpected, "HTTPRoute is accepted by the referenced Gateway")
            else (ConditionFalse, ReasonNotAccepted, "HTTPRoute has not been accepted with resolved references"))
  end.

(** ** The reconcile *)

Definition exposure_key (console : PgConsole) : ObjectKey := (PC_Namespace console, exposure_name console).

Definition deleteExposureIfOwned (k : kind) (key : ObjectKey) (console : PgConsole) : M W () :=
  answer ← try (Get k key);
  match answer with
  | Err e => if IsNotFound e then mret () else throw e
  | Ok target =>
      if bool_decide (M_Controller (meta target) = Some (PC_UID console)) then ignore_not_found (Delete k key)
      else mret ()
  end.

Definition deleteOtherExposures (r : Reconciler) (console : PgConsole) (keep : string) : M W () :=
  (if negb (String.eqb keep "ingress") then deleteExposureIfOwned KIngress (exposure_key console) console
   else mret ()) ≫= λ _,
  (if negb (String.eqb keep "route") && r.(RE_RouteAPIAvailable)
   then deleteExposureIfOwned KRoute (exposure_key console) console else mret ()) ≫= λ _,
  if negb (String.eqb keep "gateway") && r.(RE_GatewayAPIAvailable)
  then deleteExposureIfOwned KHTTPRoute (exposure_key console) console else mret ().

Definition set_url (url : string) (console : PgConsole) : PgConsole :=
  set_console_status
    (mkConsoleStatus console.(PC_Status).(PS_ObservedGeneration) url console.(PC_Status).(PS_ConfigRevision)
       console.(PC_Status).(PS_EvidenceEnabled) console.(PC_Status).(PS_EvidenceTokenSecretName)
       console.(PC_Status).(PS_Conditions)) console.

Definition exposure_url (console : PgConsole) : string :=
  if String.eqb console.(PC_Spec).(CS_Exposure).(EX_Type) ExposureTypeClusterIP then ""
  else "https://" +:+ CS_Hostname console.(PC_Spec).

(** The switch over the types; a type outside the four falls through it. *)
Definition exposure_verdict (r : Reconciler) (console : PgConsole) : M W (option verdict) :=
  let type := console.(PC_Spec).(CS_Exposure).(EX_Type) in
  if String.eqb type ExposureTypeClusterIP then
    deleteOtherExposures r console "" ≫= λ _,
    mret (Some (ConditionTrue, ReasonNotRequested, "external exposure is not requested"))
  else if String.eqb type ExposureTypeIngress then
    i ← reconcileIngress console;
    deleteOtherExposures r console "ingress" ≫= λ _,
    mret (Some (setIngressCondition console i))
  else if String.eqb type ExposureTypeRoute then
    if negb r.(RE_RouteAPIAvailable) then
      deleteOtherExposures r console "route" ≫= λ _,
      mret (Some (ConditionFalse, ReasonNotAdmitted, "OpenShift Route API is not served"))
    else
      rt ← reconcileRoute console;
      deleteOtherExposures r console "route" ≫= λ _,
      mret (Some (setRouteCondition console rt))
  else if String.eqb type ExposureTypeGateway then
    if negb r.(RE_GatewayAPIAvailable) then
      deleteOtherExposures r console "gateway" ≫= λ _,
      mret (Some (ConditionFalse, ReasonGatewayNotFound, "Gateway API is not served"))
    else
      hr ← reconcileHTTPRoute console;
      deleteOtherExposures r console "gateway" ≫= λ _,
      match console.(PC_Spec).(CS_Exposure).(EX_Gateway) with
      | None => throw (Panic "invalid memory address or nil pointer dereference")
      | Some parent => v ← setHTTPRouteCondition console parent hr; mret (Some v)
      end
  else mret None.

(** On an error the console is not answered, nor is the URL the code assigns to
    its status before the switch: [Reconcile] returns the error before it
    writes the status. *)
Definition reconcileExposure (r : Reconciler) (console : PgConsole) : M W PgConsole :=
  v ← exposure_verdict r console;
  let console := set_url (exposure_url console) console in
  match v with
  | Some v => of_result (publish console v)
  | None => mret console
  end.
End exposure.

(** ** Hostnames *)

(** A wildcard listener takes every name under its suffix, of one label or of
    many. *)
Lemma gatewayHostnameMatches_spec l h :
  gatewayHostnameMatches l h = true ↔
  l = h ∨ ∃ s a, l = "*." +:+ s ∧ a ≠ "" ∧ h = a +:+ "." +:+ s.
Proof.
  unfold gatewayHostnameMatches. destruct (String.eqb_spec l h) as [->|Hne]; [by split; auto|].
  destruct (HasPrefix l "*.") eqn:Hp; cbn [negb].
  - apply HasPrefix_true in Hp as [s ->]. change (drop_str 1 ("*." +:+ s)) with ("." +:+ s).
    rewrite andb_true_iff, Nat.ltb_lt. split.
    + intros [Hs Hl]. right. exists s. apply HasSuffix_true in Hs as [a ->].
      exists a. split_and!; [done| |done]. intros ->. rewrite !slen_append in Hl. change (slen "") with 0 in Hl. lia.
    + intros [Heq|(s' & a & E%append_inj_l & Ha & ->)]; [done|]. subst s'. split.
      * apply HasSuffix_true. eauto.
      * rewrite (slen_append a). destruct a; [done|]. cbn [slen]. lia.
  - split; [done|]. intros [Heq|(s & a & -> & _)]; [done|]. by rewrite (proj2 (HasPrefix_true _ _)) in Hp by eauto.
Qed.

(** ** The sweep *)

Section theorems.
Context `{G : GoLib} `{K : Machinery} `{Se : Selectors} {W : Type} `{C : Client W}.
Context `{CL : !ClientLaws C} `{KL : !MachineryLaws K}.

Definition exposure_kinds : list kind := [KIngress; KRoute; KHTTPRoute].

Definition controlled {k : kind} (console : PgConsole) (o : object k) : Prop :=
  M_Controller (meta o) = Some (PC_UID console).

(** Nothing happened but deletes of the objects [ks] that the cache knew as the
    console's own. *)
Definition sweeps (console : PgConsole) (ks : list kind) (w w' : W) : Prop :=
  ∀ k key, kept w w' k key ∨
    (k ∈ ks ∧ key = exposure_key console ∧ delete_made (view w k key) (view w' k key)
     ∧ (in_sync w k key → ∃ o, view w k key = Some o ∧ controlled console o)).

(** What the console has of [ks] is being deleted, and held by a finalizer. *)
Definition swept (console : PgConsole) (ks : list kind) (w : W) : Prop :=
  ∀ k o, k ∈ ks → view w k (exposure_key console) = Some o → controlled console o → M_Deleting (meta o) = true.

Lemma kept_refl w k key : kept w w k key.
Proof using. by split. Qed.

Lemma sweeps_refl console ks w : sweeps console ks w w.
Proof using. intros k key. left. apply kept_refl. Qed.

Lemma sweeps_trans console ks ks' w1 w2 w3 :
  sweeps console ks w1 w2 → sweeps console ks' w2 w3 → sweeps console (ks ++ ks') w1 w3.
Proof using.
  intros H1 H2 k key. destruct (H1 k key) as [K1|(Hk & -> & Hd & Ho)].
  - destruct (H2 k key) as [K2|(Hk & -> & Hd & Ho)]; [left; by eapply kept_trans|].
    right. destruct K1 as [<- Hs]. split_and!; [apply elem_of_app; by right|done..|auto].
  - right. split_and!; [apply elem_of_app; by left|done| |done].
    destruct (H2 k (exposure_key console)) as [[-> _]|(_ & _ & Hd' & _)]; [done|by eapply delete_made_trans].
Qed.

Lemma swept_kept console ks ks' w w' : swept console ks w → sweeps console ks' w w' → swept console ks w'.
Proof using.
  intros Hs Hw k o Hk Ho Hc. destruct (Hw k (exposure_key console)) as [[E _]|(_ & _ & Hd & _)].
  - rewrite E in Ho. by apply (Hs k).
  - by destruct (delete_left _ _ Hd o Ho) as (? & _ & _ & _ & ? & _).
Qed.

Lemma swept_app console ks ks' w : swept console ks w → swept console ks' w → swept console (ks ++ ks') w.
Proof using. intros H1 H2 k o [Hk|Hk]%elem_of_app; eauto. Qed.

Lemma untouched_sweeps console ks w w' : untouched w w' → sweeps console ks w w'.
Proof using. intros Hu k key. left. by apply untouched_kept. Qed.

(** A delete that was sent, whatever came back. *)
Lemma delete_sent k key w r w' : Delete k key w = (r, w') →
  (∀ k' key', k' ≠ k ∨ key' ≠ key → kept w w' k' key') ∧
  (kept w w' k key ∨ delete_made (view w k key) (view w' k key)).
Proof using CL.
  intros H. pose proof (Delete_lag _ _ _ _ _ H) as Hlag. apply Delete_spec in H as [_ H].
  assert (elsewhere w w' k key ∧ (view w' k key = view w k key ∨ delete_made (view w k key) (view w' k key))) as [He Hv].
  { destruct r as [[]|e]; destruct H as [H He]; split; auto. }
  split; [intros k' key' Hne; by apply lagging_kept, He|].
  destruct Hv as [Hv|Hv]; [left; by apply lagging_kept|by right].
Qed.

Lemma deleteExposure_run k console w r w' :
  deleteExposureIfOwned k (exposure_key console) console w = (r, w') →
  sweeps console [k] w w' ∧ (r = Ok () → in_sync w k (exposure_key console) → swept console [k] w').
Proof using CL.
  unfold deleteExposureIfOwned. rewrite run_bind, run_try.
  destruct (Get k _ w) as [r1 w1] eqn:E. apply Get_spec in E as [Hu Hr].
  destruct r1 as [o|e]; cbn in Hr.
  - case_bool_decide as Ho.
    + rewrite run_ignore_not_found. destruct (Delete k _ w1) as [r2 w2] eqn:E2. intros H.
      assert (w2 = w') as -> by (destruct r2; by simplify_eq).
      pose proof E2 as [He Hv]%delete_sent. split.
      * intros k' key'. destruct (decide ((k', key') = (k, exposure_key console))) as [[= -> ->]|Hne].
        -- destruct Hv as [Hv|Hv]; [left; eapply kept_trans; [by apply untouched_kept|done]|].
           right. rewrite (untouched_lookup _ _ _ _ Hu) in Hv.
           split_and!; [by apply list_elem_of_singleton|done|done|].
           intros Hs. exists o. by rewrite <-Hs.
        -- left. eapply kept_trans; [by apply untouched_kept|]. apply He.
           destruct (decide (k' = k)) as [->|]; [right; congruence|by left].
      * intros -> _ k' o' ->%list_elem_of_singleton Ho' _. destruct r2 as [[]|e].
        -- apply Delete_spec in E2 as [_ [E2 _]].
           by destruct (delete_left _ _ E2 o' Ho') as (? & _ & _ & _ & ? & _).
        -- destruct (IsNotFound e) eqn:Hn; [|done]. apply Delete_missing in E2 as [_ E2]; [congruence|done].
    + rewrite run_ret. intros [= <- <-]. split; [by apply untouched_sweeps|].
      intros _ Hs k' o' ->%list_elem_of_singleton Ho' Hc. rewrite (untouched_lookup _ _ _ _ Hu) in Ho'.
      rewrite Hs in Hr. assert (o' = o) as -> by congruence. done.
  - destruct (IsNotFound e) eqn:Hn; [rewrite run_ret|rewrite run_throw]; intros [= <- <-];
      (split; [by apply untouched_sweeps|]); [|done].
    intros _ Hs k' o' ->%list_elem_of_singleton Ho'.
    rewrite (untouched_lookup _ _ _ _ Hu), <-Hs, (Hr eq_refl) in Ho'. done.
Qed.

(** The cache has caught up with the objects [ks]. *)
Definition fresh_on (console : PgConsole) (ks : list kind) (w : W) : Prop :=
  ∀ k, k ∈ ks → in_sync w k (exposure_key console).

(** One conditional step of the sweep, and what follows it. *)
Lemma sweep_step (b : bool) k console (rest : M W ()) ks w r w' :
  k ∉ ks →
  (∀ w r w', rest w = (r, w') →
     sweeps console ks w w' ∧ (r = Ok () → fresh_on console ks w → swept console ks w')) →
  ((if b then deleteExposureIfOwned k (exposure_key console) console else mret ()) ≫= λ _, rest) w = (r, w') →
  sweeps console ((if b then [k] else []) ++ ks) w w' ∧
  (r = Ok () → fresh_on console ((if b then [k] else []) ++ ks) w → swept console ((if b then [k] else []) ++ ks) w').
Proof using CL.
  intros Hk Hrest H. rewrite run_bind in H. destruct b.
  - destruct (deleteExposureIfOwned _ _ _ w) as [r1 w1] eqn:E. apply deleteExposure_run in E as [S1 D1].
    destruct r1 as [[]|e].
    + apply Hrest in H as [S2 D2]. split; [by eapply sweeps_trans|].
      intros Hr Hs. apply swept_app.
      * eapply swept_kept; [apply D1; [done|]; apply Hs, elem_of_app; left; by apply list_elem_of_singleton|done].
      * apply D2; [done|]. intros k' Hk'.
        destruct (S1 k' (exposure_key console)) as [[_ Hs']|(->%list_elem_of_singleton & _)]; [|done].
        apply Hs', Hs, elem_of_app. by right.
    + simplify_eq. split; [|done]. eapply sweeps_trans; [done|apply sweeps_refl].
  - rewrite run_ret in H. by apply Hrest in H.
Qed.

(** The kinds a sweep removes. *)
Definition swept_kinds (r : Reconciler) (keep : string) : list kind :=
  (if negb (String.eqb keep "ingress") then [KIngress] else [])
  ++ (if negb (String.eqb keep "route") && r.(RE_RouteAPIAvailable) then [KRoute] else [])
  ++ (if negb (String.eqb keep "gateway") && r.(RE_GatewayAPIAvailable) then [KHTTPRoute] else []).

Lemma deleteOtherExposures_run r console keep w res w' :
  deleteOtherExposures r console keep w = (res, w') →
  sweeps console (swept_kinds r keep) w w' ∧
  (res = Ok () → fresh_on console (swept_kinds r keep) w → swept console (swept_kinds r keep) w').
Proof using CL KL.
  intros H. unfold deleteOtherExposures in H. unfold swept_kinds.
  eapply sweep_step; [|clear H|exact H]; [by repeat case_match; set_solver|]. intros w1 r1 w1' H.
  eapply sweep_step; [|clear H|exact H]; [by repeat case_match; set_solver|]. intros w2 r2 w2' H.
  destruct (_ && _); [|rewrite run_ret in H; simplify_eq; split; [apply sweeps_refl|]; by intros _ _ k o ?%elem_of_nil].
  apply deleteExposure_run in H as [S D]. split; [done|]. intros Hr Hs. apply D; [done|].
  by apply Hs, list_elem_of_singleton.
Qed.

(** ** What is wanted *)

Definition exposure_types : list string :=
  [ExposureTypeClusterIP; ExposureTypeIngress; ExposureTypeRoute; ExposureTypeGateway].

Definition wanted_kind (type : string) : option kind :=
  if String.eqb type ExposureTypeIngress then Some KIngress
  else if String.eqb type ExposureTypeRoute then Some KRoute
  else if String.eqb type ExposureTypeGateway then Some KHTTPRoute
  else None.

Definition other_kinds (type : string) : list kind := filter (λ k, wanted_kind type ≠ Some k) exposure_kinds.

Definition served (r : Reconciler) (k : kind) : bool :=
  match k with KRoute => r.(RE_RouteAPIAvailable) | KHTTPRoute => r.(RE_GatewayAPIAvailable) | _ => true end.

(** Nothing but the object of the wanted kind was written. *)
Definition writes_wanted (console : PgConsole) (type : string) (w w' : W) : Prop :=
  ∀ k key, kept w w' k key ∨ (key = exposure_key console ∧ wanted_kind type = Some k).

(** A pass writes the object of the wanted kind, and deletes what the cache
    knew as the console's own of the others. *)
Definition acts (console : PgConsole) (type : string) (w w' : W) : Prop :=
  ∀ k key, kept w w' k key ∨
    (key = exposure_key console ∧
     (wanted_kind type = Some k ∨
      (k ∈ other_kinds type ∧ delete_made (view w k key) (view w' k key)
       ∧ (in_sync w k key → ∃ o, view w k key = Some o ∧ controlled console o)))).

Lemma writes_acts console type ks w w1 w' :
  ks ⊆ other_kinds type → writes_wanted console type w w1 → sweeps console ks w1 w' → acts console type w w'.
Proof using.
  intros Hks H1 H2 k key. destruct (H1 k key) as [K1|[-> Hw]]; [|by right; split; [|left]].
  destruct (H2 k key) as [K2|(Hk & -> & Hd & Ho)]; [left; by eapply kept_trans|].
  right. split; [done|]. right. destruct K1 as [<- Hs]. split_and!; auto.
Qed.

Lemma writes_wanted_refl console type w : writes_wanted console type w w.
Proof using. intros k key. left. apply kept_refl. Qed.

Lemma writes_wanted_acts console type w w' : writes_wanted console type w w' → acts console type w w'.
Proof using CL KL. intros H. by eapply (writes_acts _ _ []); [set_solver| |apply sweeps_refl]. Qed.

Lemma swept_kinds_exact r type keep :
  (type, keep) ∈ [(ExposureTypeClusterIP, ""); (ExposureTypeIngress, "ingress"); (ExposureTypeRoute, "route");
                  (ExposureTypeGateway, "gateway")] →
  swept_kinds r keep ⊆ other_kinds type ∧
  (∀ k, k ∈ other_kinds type → served r k = true → k ∈ swept_kinds r keep) ∧
  ∀ k, wanted_kind type = Some k → k ∉ swept_kinds r keep.
Proof using CL KL.
  intros H. rewrite !elem_of_cons, elem_of_nil in H. unfold swept_kinds.
  destruct (RE_RouteAPIAvailable r) eqn:Er, (RE_GatewayAPIAvailable r) eqn:Eg;
    destruct H as [[= -> ->]|[[= -> ->]|[[= -> ->]|[[= -> ->]|[]]]]];
    (split; [intros k; cbn; set_solver|split; intros k;
      [intros [Hw Hk]%list_elem_of_filter Hs; unfold exposure_kinds in Hk;
       rewrite !elem_of_cons, elem_of_nil in Hk; destruct Hk as [->|[->|[->|[]]]]; cbn in *;
       rewrite ?elem_of_cons, ?elem_of_nil; first [congruence|tauto]
      |cbn; intros [= <-]; rewrite ?elem_of_cons, ?elem_of_nil; intuition congruence]]).
Qed.
(** ** What the condition promises *)

Definition namespace_admitted (w : W) (listener : Listener) (gatewayNamespace routeNamespace : string) : Prop :=
  let from := allowed ← listener.(LI_AllowedRoutes); namespaces ← allowed.(AR_Namespaces); namespaces.(RN_From) in
  from = Some "All"
  ∨ ((from = None ∨ from = Some "Same") ∧ gatewayNamespace = routeNamespace)
  ∨ (from = Some "Selector" ∧ ∃ allowed namespaces raw matches (ns : Namespace),
       listener.(LI_AllowedRoutes) = Some allowed ∧ allowed.(AR_Namespaces) = Some namespaces
       ∧ namespaces.(RN_Selector) = Some raw ∧ LabelSelectorAsSelector raw = Ok matches
       ∧ view w KNamespace ("", routeNamespace) = Some ns ∧ matches ns.(NS_Meta).(M_Labels) = true).

(** The listener takes the hostname, by name or by wildcard, the kind and the
    namespace of the console's route, over HTTP or HTTPS, and is the one its
    parent reference names, if it names one. *)
Definition listener_open (console : PgConsole) (parent : GatewayParentRef) (g : Gateway) (w : W)
    (listener : Listener) : Prop :=
  let hostname := CS_Hostname console.(PC_Spec) in
  (parent.(GP_SectionName) = "" ∨ listener.(LI_Name) = parent.(GP_SectionName))
  ∧ (listener.(LI_Protocol) = "HTTP" ∨ listener.(LI_Protocol) = "HTTPS")
  ∧ (∀ h, listener.(LI_Hostname) = Some h →
       h = hostname ∨ ∃ suffix labels, h = "*." +:+ suffix ∧ labels ≠ "" ∧ hostname = labels +:+ "." +:+ suffix)
  ∧ (∀ allowed, listener.(LI_AllowedRoutes) = Some allowed → allowed.(AR_Kinds) ≠ [] →
       ∃ group, (group, "HTTPRoute") ∈ allowed.(AR_Kinds) ∧ (group = None ∨ group = Some gateway_group))
  ∧ namespace_admitted w listener g.(GW_Meta).(M_Namespace) (PC_Namespace console).

(** One of the parent statuses is that of the reference the console makes, and
    says of the current generation of the route, or a later one, that it is
    accepted and that its references are resolved. *)
Definition accepted_by (console : PgConsole) (parent : GatewayParentRef) (hr : HTTPRoute) : Prop :=
  ∃ (ref : ParentReference) (conditions : list Condition),
    (ref, conditions) ∈ hr.(HR_Parents)
    ∧ ref.(PR_Name) = parent.(GP_Name)
    ∧ default (PC_Namespace console) ref.(PR_Namespace) = (gateway_key console parent).1
    ∧ default "" ref.(PR_SectionName) = parent.(GP_SectionName)
    ∧ ∀ type, type ∈ ["Accepted"; "ResolvedRefs"] → ∃ c, c ∈ conditions ∧ c.(Cd_Type) = type
        ∧ c.(Cd_Status) = ConditionTrue ∧ (hr.(HR_Meta).(M_Generation) ≤ c.(Cd_ObservedGeneration))%Z.

(** The requested exposure is there and its router took it. *)
Definition exposed (console : PgConsole) (w : W) : Prop :=
  let type := console.(PC_Spec).(CS_Exposure).(EX_Type) in
  let hostname := CS_Hostname console.(PC_Spec) in
  (type = ExposureTypeIngress → ∃ i : Ingress,
     view w KIngress (exposure_key console) = Some i ∧ i.(IN_LoadBalancer) ≠ [])
  ∧ (type = ExposureTypeRoute → ∃ (rt : Route) conditions c,
     view w KRoute (exposure_key console) = Some rt ∧ (hostname, conditions) ∈ rt.(RT_Ingress)
     ∧ c ∈ conditions ∧ c.(RC_Type) = "Admitted" ∧ c.(RC_Status) = ConditionTrue)
  ∧ (type = ExposureTypeGateway → ∃ (hr : HTTPRoute) parent (g : Gateway) listener,
     view w KHTTPRoute (exposure_key console) = Some hr
     ∧ console.(PC_Spec).(CS_Exposure).(EX_Gateway) = Some parent
     ∧ view w KGateway (gateway_key console parent) = Some g
     ∧ listener ∈ g.(GW_Listeners) ∧ listener_open console parent g w listener
     ∧ accepted_by console parent hr).

Lemma listener_fits_open console parent g w listener :
  listener_fits (CS_Hostname console.(PC_Spec)) parent listener = true →
  namespace_admitted w listener g.(GW_Meta).(M_Namespace) (PC_Namespace console) →
  listener_open console parent g w listener.
Proof using.
  unfold listener_fits. rewrite !andb_true_iff, !orb_true_iff, !String.eqb_eq. intros [[[Hn Hp] Hh] Ha] Hns.
  split_and!; [|done| | |done].
  - destruct Hn as [Hn|Hn]; [left; by apply is_empty_true|by right].
  - intros h Hl. rewrite Hl in Hh. by apply gatewayHostnameMatches_spec in Hh.
  - intros allowed Hl Hne. unfold listenerAllowsHTTPRoute in Ha. rewrite Hl, bool_decide_eq_false_2 in Ha by done.
    apply existsb_exists in Ha as ([group k] & Hin & [Hg Hk]%andb_true_iff). apply String.eqb_eq in Hg, Hk. cbn in *. subst k.
    exists group. split; [by apply list_elem_of_In|]. destruct group as [x|]; cbn in Hg; [right; by subst|by left].
Qed.

Lemma route_accepted_by console parent hr : route_accepted console parent hr = true → accepted_by console parent hr.
Proof using.
  unfold route_accepted. rewrite existsb_exists. intros ([ref cs] & Hin & H). rewrite !andb_true_iff in H.
  destruct H as [[Hp Ha] Hr].
  assert (Ht : ∀ t, routeConditionIsTrue cs t (M_Generation (HR_Meta hr)) = true → ∃ c, c ∈ cs ∧ c.(Cd_Type) = t
    ∧ c.(Cd_Status) = ConditionTrue ∧ (hr.(HR_Meta).(M_Generation) ≤ c.(Cd_ObservedGeneration))%Z).
  { intros t (c & Hc & H)%existsb_exists. rewrite !andb_true_iff, !String.eqb_eq, Z.leb_le in H.
    exists c. split; [by apply list_elem_of_In|tauto]. }
  unfold parentRefMatches in Hp. rewrite !andb_true_iff, !String.eqb_eq in Hp. cbn in *.
  exists ref, cs. split_and!; [by apply list_elem_of_In|apply Hp..|].
  intros t. rewrite !elem_of_cons, elem_of_nil. intros [->|[->|[]]]; auto.
Qed.

(** What the condition is computed from: the three exposure objects, the
    Gateway the console names and its own Namespace. *)
Definition exposure_reads (console : PgConsole) : list (kind * ObjectKey) :=
  ((λ k, (k, exposure_key console)) <$> exposure_kinds)
  ++ (KNamespace, ("", PC_Namespace console))
  :: from_option (λ parent, [(KGateway, gateway_key console parent)]) [] console.(PC_Spec).(CS_Exposure).(EX_Gateway).

Lemma exposure_reads_fresh console ks w :
  synced_on w (exposure_reads console) → ks ⊆ exposure_kinds → fresh_on console ks w.
Proof using. intros Hs Hks k Hk. apply Hs, elem_of_app. left. apply list_elem_of_fmap. eauto. Qed.

Lemma listenerAllowsNamespace_run listener gns rns w r w' :
  listenerAllowsNamespace listener gns rns w = (r, w') →
  untouched w w' ∧ (r = Ok true → in_sync w KNamespace ("", rns) → namespace_admitted w listener gns rns).
Proof using CL.
  unfold listenerAllowsNamespace, namespace_admitted.
  destruct (LI_AllowedRoutes listener) as [allowed|]; cbn [mbind option_bind];
    [|rewrite run_ret; intros [= <- <-]; split; [done|]; intros [= ?%String.eqb_eq]; auto].
  destruct (AR_Namespaces allowed) as [ns|] eqn:Ens; cbn [mbind option_bind];
    [|rewrite run_ret; intros [= <- <-]; split; [done|]; intros [= ?%String.eqb_eq]; auto].
  destruct (RN_From ns) as [from|];
    [|rewrite run_ret; intros [= <- <-]; split; [done|]; intros [= ?%String.eqb_eq]; auto].
  destruct (String.eqb_spec from "Same") as [->|_].
  { rewrite run_ret; intros [= <- <-]; split; [done|]; intros [= ?%String.eqb_eq]; auto. }
  destruct (String.eqb_spec from "All") as [->|_].
  { rewrite run_ret; intros [= <- <-]; split; [done|]; auto. }
  destruct (String.eqb_spec from "Selector") as [->|_];
    [|by rewrite run_ret; intros [= <- <-]].
  destruct (RN_Selector ns) as [raw|] eqn:Eraw; [|by rewrite run_ret; intros [= <- <-]].
  rewrite run_bind, run_of_result. destruct (LabelSelectorAsSelector raw) as [matches|e] eqn:Esel;
    [|by intros [= <- <-]].
  rewrite run_bind. destruct (Get KNamespace _ w) as [r1 w1] eqn:E. apply Get_spec in E as [Hu Hr].
  destruct r1 as [n|e]; [|by intros [= <- <-]].
  rewrite run_ret. intros [= <- <-]. split; [done|]. intros [= Hm] Hs. rewrite Hs in Hr. right; right. split; [done|].
  exists allowed, ns, raw, matches, n. by split_and!.
Qed.

Lemma namespace_admitted_untouched w w' listener gns rns :
  untouched w w' → namespace_admitted w' listener gns rns → namespace_admitted w listener gns rns.
Proof using.
  intros Hu. unfold namespace_admitted. intros [?|[?|(? & a & n & raw & m & ns & ? & ? & ? & ? & Hv & ?)]]; [auto..|].
  right; right. split; [done|]. exists a, n, raw, m, ns. by rewrite <-(untouched_lookup _ _ _ _ Hu).
Qed.

Lemma compatible_listener_run hostname parent gns rns l w r w' :
  compatible_listener hostname parent gns rns l w = (r, w') →
  untouched w w' ∧
  (r = Ok true → in_sync w KNamespace ("", rns) → ∃ listener, listener ∈ l ∧ listener_fits hostname parent listener = true
     ∧ namespace_admitted w listener gns rns).
Proof using CL.
  revert w. induction l as [|x l IH]; intros w; cbn [compatible_listener].
  - by rewrite run_ret; intros [= <- <-].
  - destruct (listener_fits hostname parent x) eqn:Hf; cbn [negb].
    + rewrite run_bind. destruct (listenerAllowsNamespace x gns rns w) as [[b|e] w1] eqn:E;
        apply listenerAllowsNamespace_run in E as [Hu Ha]; [|by intros [= <- <-]].
      destruct b.
      * rewrite run_ret. intros [= <- <-]. split; [done|]. intros _ Hs.
        exists x. split; [apply list_elem_of_here|]. split; [done|]. by apply Ha.
      * intros [Hu2 Hx]%IH. split; [by etrans|]. intros Hr Hs.
        destruct (Hx Hr) as (y & Hy & ? & Hn); [by eapply untouched_kept|].
        exists y. split; [by apply list_elem_of_further|]. split; [done|]. by eapply namespace_admitted_untouched.
    + intros [Hu Hx]%IH. split; [done|]. intros Hr Hs. destruct (Hx Hr Hs) as (y & Hy & ?).
      exists y. split; [by apply list_elem_of_further|done].
Qed.

Lemma route_verdict_true hostname l v :
  route_verdict hostname l = Some v → v.1.1 = ConditionTrue →
  ∃ c, c ∈ l ∧ c.(RC_Type) = "Admitted" ∧ c.(RC_Status) = ConditionTrue.
Proof using.
  induction l as [|c l IH]; [done|]. cbn [route_verdict]. intros H Hv.
  destruct (String.eqb_spec (RC_Type c) "Admitted") as [Ht|_]; cbn [negb] in H.
  - destruct (String.eqb_spec (RC_Status c) ConditionTrue) as [Hs|_].
    + exists c. split; [apply list_elem_of_here|done].
    + destruct (routeConditionReportsHostnameConflict c); [by simplify_eq|].
      destruct (IH H Hv) as (x & Hx & ?). exists x. split; [by apply list_elem_of_further|done].
  - destruct (IH H Hv) as (x & Hx & ?). exists x. split; [by apply list_elem_of_further|done].
Qed.

Lemma route_verdicts_true hostname l :
  (route_verdicts hostname l).1.1 = ConditionTrue →
  ∃ conditions c, (hostname, conditions) ∈ l ∧ c ∈ conditions ∧ c.(RC_Type) = "Admitted"
    ∧ c.(RC_Status) = ConditionTrue.
Proof using.
  induction l as [|[host conditions] l IH]; [done|]. cbn [route_verdicts].
  assert (Hl : (route_verdicts hostname l).1.1 = ConditionTrue →
    ∃ cs c, (hostname, cs) ∈ (host, conditions) :: l ∧ c ∈ cs ∧ c.(RC_Type) = "Admitted" ∧ c.(RC_Status) = ConditionTrue).
  { intros (cs & c & Hc & ?)%IH. exists cs, c. split; [by apply list_elem_of_further|done]. }
  destruct (String.eqb_spec host hostname) as [->|_]; cbn [negb]; [|done].
  destruct (route_verdict hostname conditions) as [v|] eqn:E; cbn [default]; [|done].
  intros Hv. destruct (route_verdict_true _ _ _ E Hv) as (c & ? & ?). exists conditions, c.
  split; [apply list_elem_of_here|done].
Qed.
Definition verdict_reasons : list string :=
  [ReasonNotRequested; ReasonAsExpected; ReasonNotAdmitted; ReasonHostnameConflict; ReasonGatewayNotFound;
   ReasonNotAccepted].

Lemma verdict_reasons_known x : x ∈ verdict_reasons → x ∈ knownReasons.
Proof using. revert x. apply (Forall_forall (λ x, x ∈ knownReasons)). compute_decide. Qed.

Lemma route_verdict_reason hostname l v : route_verdict hostname l = Some v → v.1.2 ∈ verdict_reasons.
Proof using.
  induction l as [|c l IH]; [done|]. cbn [route_verdict]. intros H.
  repeat case_in H; simplify_eq; try (by apply IH); compute_decide.
Qed.

Lemma route_verdicts_reason hostname l : (route_verdicts hostname l).1.2 ∈ verdict_reasons.
Proof using.
  induction l as [|[host conditions] l IH]; cbn [route_verdicts]; [compute_decide|].
  destruct (negb _); [done|]. destruct (route_verdict hostname conditions) eqn:E; [|done].
  by eapply route_verdict_reason.
Qed.

Lemma setHTTPRouteCondition_run console parent hr w res w' :
  setHTTPRouteCondition console parent hr w = (res, w') →
  untouched w w' ∧ ∀ v, res = Ok v → v.1.2 ∈ verdict_reasons ∧
    (v.1.1 = ConditionTrue → in_sync w KGateway (gateway_key console parent) →
     in_sync w KNamespace ("", PC_Namespace console) →
     ∃ (g : Gateway) listener, view w KGateway (gateway_key console parent) = Some g
       ∧ listener ∈ g.(GW_Listeners) ∧ listener_open console parent g w listener ∧ accepted_by console parent hr).
Proof using CL.
  unfold setHTTPRouteCondition, referencedGateway. rewrite run_bind, run_try.
  destruct (Get KGateway _ w) as [r1 w1] eqn:E. apply Get_spec in E as [Hu Hr].
  destruct r1 as [g|e]; cbn in Hr.
  - rewrite run_bind, run_wrap. unfold gatewayHasCompatibleListener.
    destruct (compatible_listener _ _ _ _ _ w1) as [[b|e] w2] eqn:E;
      apply compatible_listener_run in E as [Hu2 Hb]; [|intros [= <- <-]; split; [by etrans|done]].
    rewrite run_ret. intros [= <- <-]. split; [by etrans|]. intros v [= <-].
    destruct b; cbn [negb]; [|split; [compute_decide|done]].
    destruct (route_accepted console parent hr) eqn:Hacc; (split; [compute_decide|]); [|done].
    intros _ Hs Hsn. destruct (Hb eq_refl) as (x & ? & ? & Hn); [by eapply untouched_kept|].
    exists g, x. rewrite <-Hs. split_and!; [done..| |by apply route_accepted_by].
    apply listener_fits_open; [done|]. by eapply namespace_admitted_untouched.
  - destruct (IsNotFound e); [rewrite run_ret|rewrite run_throw]; intros [= <- <-]; split; [done| |done|done].
    intros v [= <-]. split; [compute_decide|done].
Qed.

(** What a pass over the exposure comes to. *)
Record exposure_pass (r : Reconciler) (console : PgConsole) (w w' : W) (res : result error (option verdict)) : Prop := {
  ep_acts : acts console console.(PC_Spec).(CS_Exposure).(EX_Type) w w';
  ep_swept v : res = Ok v → fresh_on console exposure_kinds w →
    ∀ k, k ∈ other_kinds console.(PC_Spec).(CS_Exposure).(EX_Type) →
    served r k = true → swept console [k] w';
  ep_verdict v : res = Ok v → ∃ v', v = Some v' ∧ v'.1.2 ∈ verdict_reasons
    ∧ (v'.1.1 = ConditionTrue → synced_on w (exposure_reads console) → exposed console w')
}.

(** A sweep after the wanted object was written, or nothing was. *)
Lemma swept_pass r console type keep w w1 res w' :
  (type, keep) ∈ [(ExposureTypeClusterIP, ""); (ExposureTypeIngress, "ingress"); (ExposureTypeRoute, "route");
                  (ExposureTypeGateway, "gateway")] →
  writes_wanted console type w w1 → deleteOtherExposures r console keep w1 = (res, w') →
  acts console type w w'
  ∧ (res = Ok () → fresh_on console exposure_kinds w →
     ∀ k, k ∈ other_kinds type → served r k = true → swept console [k] w')
  ∧ ∀ k key, k ∉ other_kinds type → kept w1 w' k key.
Proof using CL KL.
  intros Hk Ha [Hs Hd]%deleteOtherExposures_run. destruct (swept_kinds_exact r _ _ Hk) as (H1 & H2 & H3).
  split; [by eapply writes_acts|]. split.
  - intros Hr Hf k Hko Hsv k' o ->%list_elem_of_singleton. apply (Hd Hr); [|by apply H2].
    intros k' Hk'. destruct (Ha k' (exposure_key console)) as [[_ Hs']|[_ Hw]].
    + apply Hs', Hf. apply H1, list_elem_of_filter in Hk' as [_ Hk']. done.
    + by destruct (H3 k' Hw).
  - intros k key Hno. destruct (Hs k key) as [?|(Hin & _)]; [done|]. by destruct Hno; apply H1.
Qed.

Lemma wanted_applied k matches (desired : object k) console type w r w' :
  wanted_kind type = Some k → key_of (meta desired) = exposure_key console →
  apply_unless k matches desired w = (r, w') →
  writes_wanted console type w w' ∧
  (in_sync w k (exposure_key console) → ∀ o, r = Ok o → view w' k (exposure_key console) = Some o).
Proof using CL.
  intros Hw Hk (He & Ho)%apply_unless_any. rewrite Hk in *. split.
  - intros k' key. destruct (decide ((k', key) = (k, exposure_key console))) as [[= -> ->]|Hne]; [by right|left].
    apply He. by intros ?%list_elem_of_singleton.
  - intros Hs o Hr. by apply (Ho Hs).
Qed.

Lemma wanted_not_other k type : wanted_kind type = Some k → k ∉ other_kinds type.
Proof using. by intros Hw [? _]%list_elem_of_filter. Qed.

Lemma wanted_reads k type : wanted_kind type = Some k → k ∈ exposure_kinds.
Proof using CL KL. unfold wanted_kind, exposure_kinds. intros H. repeat case_in H; simplify_eq; set_solver. Qed.

Lemma ingress_owned console : ∃ d, ingress console = Ok d ∧ key_of d.(IN_Meta) = exposure_key console.
Proof using KL. unfold ingress. rewrite SetControllerReference_ok by done. by eexists. Qed.
Lemma route_owned console : ∃ d, route console = Ok d ∧ key_of d.(RT_Meta) = exposure_key console.
Proof using KL. unfold route. rewrite SetControllerReference_ok by done. by eexists. Qed.
Lemma httpRoute_owned console parent : console.(PC_Spec).(CS_Exposure).(EX_Gateway) = Some parent →
  ∃ d, httpRoute console = Ok d ∧ key_of d.(HR_Meta) = exposure_key console.
Proof using KL. intros H. unfold httpRoute. rewrite H, SetControllerReference_ok by done. by eexists. Qed.

Lemma exposure_pass_err r console w w' e :
  acts console console.(PC_Spec).(CS_Exposure).(EX_Type) w w' → exposure_pass r console w w' (Err e).
Proof using. by split. Qed.

(** A branch: the wanted object is applied, the others are swept, and the
    object becomes the verdict. *)
Lemma applied_branch r console type k keep (reconcile : M W (object k)) (f : object k → verdict) w res w' :
  type = console.(PC_Spec).(CS_Exposure).(EX_Type) → wanted_kind type = Some k →
  (type, keep) ∈ [(ExposureTypeClusterIP, ""); (ExposureTypeIngress, "ingress"); (ExposureTypeRoute, "route");
                  (ExposureTypeGateway, "gateway")] →
  (∀ w r1 w1, reconcile w = (r1, w1) → writes_wanted console type w w1 ∧
     (in_sync w k (exposure_key console) → ∀ o, r1 = Ok o → view w1 k (exposure_key console) = Some o)) →
  (∀ o, (f o).1.2 ∈ verdict_reasons ∧ ((f o).1.1 = ConditionTrue →
     ∀ w, view w k (exposure_key console) = Some o → exposed console w)) →
  (o ← reconcile; deleteOtherExposures r console keep ≫= λ _, mret (Some (f o))) w = (res, w') →
  exposure_pass r console w w' res.
Proof using CL KL.
  intros Ht Hw Hk Hrec Hf H. rewrite run_bind in H. destruct (reconcile w) as [r1 w1] eqn:E.
  apply Hrec in E as [Ha Ho]. rewrite Ht in Ha.
  destruct r1 as [o|e]; [|simplify_eq; by apply exposure_pass_err, writes_wanted_acts].
  rewrite run_bind in H. destruct (deleteOtherExposures r console keep w1) as [r2 w2] eqn:E.
  rewrite Ht in Hk, Hw. destruct (swept_pass _ _ _ _ _ _ _ _ Hk Ha E) as (Ha2 & Hs & Hv).
  destruct r2 as [[]|e]; [rewrite run_ret in H|]; simplify_eq; [|by apply exposure_pass_err].
  destruct (Hf o) as [Hr He].
  split; [done|by intros ? _; apply Hs|]. intros v [= <-]. exists (f o). split_and!; [done..|].
  intros Hc Hsync. apply (He Hc). destruct (Hv k (exposure_key console) (wanted_not_other _ _ Hw)) as [-> _].
  apply Ho; [|done]. apply Hsync, elem_of_app. left. apply list_elem_of_fmap. exists k.
  split; [done|]. by eapply wanted_reads.
Qed.

(** A branch that only sweeps. *)
Lemma swept_branch r console type keep v w res w' :
  type = console.(PC_Spec).(CS_Exposure).(EX_Type) →
  (type, keep) ∈ [(ExposureTypeClusterIP, ""); (ExposureTypeIngress, "ingress"); (ExposureTypeRoute, "route");
                  (ExposureTypeGateway, "gateway")] →
  v.1.2 ∈ verdict_reasons → (v.1.1 = ConditionTrue → ∀ w, exposed console w) →
  (deleteOtherExposures r console keep ≫= λ _, mret (Some v)) w = (res, w') →
  exposure_pass r console w w' res.
Proof using CL KL.
  intros Ht Hk Hr He H. rewrite run_bind in H.
  destruct (deleteOtherExposures r console keep w) as [r2 w2] eqn:E. rewrite Ht in Hk.
  destruct (swept_pass _ _ _ _ _ _ _ _ Hk (writes_wanted_refl _ _ w) E) as (Ha2 & Hs & _).
  destruct r2 as [[]|e]; [rewrite run_ret in H|]; simplify_eq; [|by apply exposure_pass_err].
  split; [done|by intros ? _; apply Hs|]. intros v' [= <-]. exists v. split_and!; [done..|]. intros Hv _. by apply He.
Qed.

Lemma gateway_branch r console w res w' :
  console.(PC_Spec).(CS_Exposure).(EX_Type) = ExposureTypeGateway →
  is_Some console.(PC_Spec).(CS_Exposure).(EX_Gateway) →
  (hr ← reconcileHTTPRoute console;
   deleteOtherExposures r console "gateway" ≫= λ _,
   match console.(PC_Spec).(CS_Exposure).(EX_Gateway) with
   | None => throw (Panic "invalid memory address or nil pointer dereference")
   | Some parent => v ← setHTTPRouteCondition console parent hr; mret (Some v)
   end) w = (res, w') →
  exposure_pass r console w w' res.
Proof using CL KL.
  intros Ht [parent Hp] H. destruct (httpRoute_owned console parent Hp) as (d & Hd & Hkey).
  unfold reconcileHTTPRoute in H. rewrite Hd, run_bind, run_bind, run_of_result in H.
  destruct (apply_unless KHTTPRoute _ d w) as [r1 w1] eqn:E.
  apply (wanted_applied KHTTPRoute _ d console ExposureTypeGateway) in E as [Ha Ho]; [|done..].
  destruct r1 as [hr|e]; [|simplify_eq; apply exposure_pass_err; rewrite Ht; by apply writes_wanted_acts].
  rewrite run_bind in H. destruct (deleteOtherExposures r console "gateway" w1) as [r2 w2] eqn:E.
  destruct (swept_pass r console ExposureTypeGateway "gateway" w w1 r2 w2) as (Ha2 & Hs & Hv); [compute_decide|done..|].
  destruct r2 as [[]|e]; [|simplify_eq; apply exposure_pass_err; by rewrite Ht].
  rewrite Hp, run_bind in H. destruct (setHTTPRouteCondition _ _ _ w2) as [r3 w3] eqn:E3.
  apply setHTTPRouteCondition_run in E3 as [Hu Hc].
  assert (Ha3 : acts console ExposureTypeGateway w w3).
  { intros k key. destruct (Ha2 k key) as [?|Hk]; [left; eapply kept_trans; [done|by apply untouched_kept]|right].
    by rewrite (untouched_lookup _ _ _ _ Hu). }
  destruct r3 as [v|e]; [rewrite run_ret in H|]; simplify_eq; [|apply exposure_pass_err; by rewrite Ht].
  split.
  - by rewrite Ht.
  - intros ? _. rewrite Ht. intros Hf k Hk Hsv k' o Hk' Hvo.
    rewrite (untouched_lookup _ _ _ _ Hu) in Hvo. by apply (Hs eq_refl Hf k).
  - intros ? [= <-]. destruct (Hc v eq_refl) as [Hr He]. exists v. split_and!; [done..|]. intros Htrue Hsync.
    assert (Hread : ∀ k key, k ∉ exposure_kinds → kept w w2 k key).
    { intros k key Hk. eapply kept_trans; [|apply Hv; by intros [_ ?]%list_elem_of_filter].
      destruct (Ha k key) as [?|[_ Hw]]; [done|]. by destruct Hk; eapply wanted_reads. }
    destruct (He Htrue) as (g & l & Hg & Hl & Hopen & Hacc).
    { apply Hread; [compute_decide|]. apply Hsync. unfold exposure_reads. rewrite Hp, elem_of_app. right.
      apply list_elem_of_further, list_elem_of_here. }
    { apply Hread; [compute_decide|]. apply Hsync. unfold exposure_reads. rewrite elem_of_app. right. apply list_elem_of_here. }
    unfold exposed. rewrite Ht. split_and!; [done..|]. intros _.
    exists hr, parent, g, l. rewrite !(untouched_lookup _ _ _ _ Hu).
    destruct (Hv KHTTPRoute (exposure_key console)) as [-> _]; [by apply wanted_not_other|].
    split_and!; [apply Ho; [|done]|done..| |done].
    + apply Hsync, elem_of_app. left. apply list_elem_of_fmap. exists KHTTPRoute. split; [done|compute_decide].
    + destruct Hopen as (? & ? & ? & ? & Hn). split_and!; [done..|]. revert Hn.
      apply namespace_admitted_untouched. split; [|by rewrite (untouched_log _ _ Hu)|
        by rewrite (untouched_cached _ _ Hu)]. intros ? ?. symmetry. by apply untouched_lookup.
Qed.

Lemma exposure_verdict_run r console w res w' :
  console.(PC_Spec).(CS_Exposure).(EX_Type) ∈ exposure_types →
  (console.(PC_Spec).(CS_Exposure).(EX_Type) = ExposureTypeGateway →
   is_Some console.(PC_Spec).(CS_Exposure).(EX_Gateway)) →
  exposure_verdict r console w = (res, w') → exposure_pass r console w w' res.
Proof using CL KL.
  intros Hin Hgw H. unfold exposure_types in Hin. rewrite !elem_of_cons, elem_of_nil in Hin.
  unfold exposure_verdict in H. destruct Hin as [E|[E|[E|[E|[]]]]]; rewrite E in H; cbn [String.eqb Ascii.eqb Bool.eqb] in H.
  - refine (swept_branch r console ExposureTypeClusterIP "" _ w res w' _ _ _ _ H); [done|compute_decide..|].
    intros _ w0. unfold exposed. by rewrite E.
  - destruct (ingress_owned console) as (d & Hd & Hkey).
    refine (applied_branch r console ExposureTypeIngress KIngress "ingress" _ _ w res w' _ _ _ _ _ H); [done|done|compute_decide|..].
    + intros w0 r1 w1. unfold reconcileIngress. rewrite Hd. rewrite run_bind, run_of_result. by apply wanted_applied.
    + intros i. unfold setIngressCondition. destruct (IN_LoadBalancer i) eqn:El; (split; [compute_decide|]); [done|].
      intros _ w0 Hv. unfold exposed. rewrite E. split_and!; [|done..]. intros _. exists i. by rewrite El.
  - destruct (RE_RouteAPIAvailable r); cbn [negb] in H.
    + destruct (route_owned console) as (d & Hd & Hkey).
      refine (applied_branch r console ExposureTypeRoute KRoute "route" _ _ w res w' _ _ _ _ _ H); [done|done|compute_decide|..].
      * intros w0 r1 w1. unfold reconcileRoute. rewrite Hd. rewrite run_bind, run_of_result. by apply wanted_applied.
      * intros rt. unfold setRouteCondition. split; [apply route_verdicts_reason|].
        intros (cs & c & ? & ?)%route_verdicts_true w0 Hv. unfold exposed. rewrite E. split_and!; [done| |done].
        intros _. by exists rt, cs, c.
    + refine (swept_branch r console ExposureTypeRoute "route" _ w res w' _ _ _ _ H); [done|compute_decide..|done].
  - destruct (RE_GatewayAPIAvailable r); cbn [negb] in H.
    + by eapply gateway_branch; [|apply Hgw|exact H].
    + refine (swept_branch r console ExposureTypeGateway "gateway" _ w res w' _ _ _ _ H); [done|compute_decide..|done].
Qed.
(** What admission guarantees of the exposure. *)
Definition admissible (console : PgConsole) : Prop :=
  console.(PC_Spec).(CS_Exposure).(EX_Type) ∈ exposure_types ∧
  (console.(PC_Spec).(CS_Exposure).(EX_Type) = ExposureTypeGateway →
   is_Some console.(PC_Spec).(CS_Exposure).(EX_Gateway)).

Lemma reconcileExposure_run r console w res w' :
  admissible console → reconcileExposure r console w = (res, w') →
  ∃ vres, exposure_pass r console w w' vres ∧
  match vres with
  | Ok (Some v) => res = Ok (with_conditions
      (SetStatusCondition console.(PC_Status).(PS_Conditions)
         (mkCondition PgConsoleConditionRouteReady v.1.1 console.(PC_Meta).(M_Generation) v.1.2 v.2))
      (set_url (exposure_url console) console))
  | Ok None => False
  | Err e => res = Err e
  end.
Proof using CL KL.
  intros [Ht Hg] H. unfold reconcileExposure in H. rewrite run_bind in H.
  destruct (exposure_verdict r console w) as [vres w1] eqn:E. pose proof E as Hp.
  apply exposure_verdict_run in Hp; [|done..]. exists vres. destruct vres as [v|e].
  - destruct (ep_verdict _ _ _ _ _ Hp v eq_refl) as (v' & -> & Hr & _). unfold publish in H.
    rewrite run_of_result, mark_known in H by by apply verdict_reasons_known. by simplify_eq.
  - by simplify_eq.
Qed.

(** C38: a pass that succeeds, over a cache that has caught up with the exposure
    objects of the console, leaves the console none of the other served kinds
    but what is being deleted and held by a finalizer, and never touches one of
    another kind that somebody else controls. Whatever the outcome, and whatever
    the cache, a pass changes nothing but the three objects of the generated
    name, and does nothing but deletes on those of the other kinds. *)
Theorem single_exposure r console w res w' :
  admissible console → reconcileExposure r console w = (res, w') →
  let type := console.(PC_Spec).(CS_Exposure).(EX_Type) in
  (∀ k key, k ∉ exposure_kinds ∨ key ≠ exposure_key console → view w' k key = view w k key)
  ∧ (∀ k, k ∈ other_kinds type → view w' k (exposure_key console) = view w k (exposure_key console) ∨
       delete_made (view w k (exposure_key console)) (view w' k (exposure_key console)))
  ∧ (fresh_on console exposure_kinds w →
     (∀ k o, k ∈ other_kinds type → view w k (exposure_key console) = Some o →
        M_Controller (meta o) ≠ Some (PC_UID console) → view w' k (exposure_key console) = Some o)
     ∧ (∀ c, res = Ok c → ∀ k o, k ∈ other_kinds type → served r k = true →
        view w' k (exposure_key console) = Some o →
        M_Controller (meta o) ≠ Some (PC_UID console) ∨ M_Deleting (meta o) = true)).
Proof using CL KL.
  intros Had H. destruct (reconcileExposure_run _ _ _ _ _ Had H) as (vres & [Ha Hs _] & Hv). split_and!.
  - intros k key Hne. destruct (Ha k key) as [[? _]|(-> & Hk)]; [done|]. destruct Hne as [Hne|Hne]; [|done].
    destruct Hne. destruct Hk as [Hk|[[_ Hk]%list_elem_of_filter _]]; [by eapply wanted_reads|done].
  - intros k [Hk _]%list_elem_of_filter.
    destruct (Ha k (exposure_key console)) as [[? _]|(_ & [?|(_ & ? & _)])]; [by left|done|by right].
  - intros Hf. split.
    + intros k o [Hk Hin]%list_elem_of_filter Ho Hc.
      destruct (Ha k (exposure_key console)) as [[-> _]|(_ & [?|(_ & _ & Hown)])]; [done..|].
      destruct (Hown (Hf k Hin)) as (o' & Ho' & Hc'). assert (o' = o) as -> by congruence. done.
    + intros c -> k o Hk Hsv Ho. destruct vres as [v|e]; [|done].
      destruct (decide (M_Controller (meta o) = Some (PC_UID console))) as [Hc|Hc]; [right|by left].
      apply (Hs v eq_refl Hf k Hk Hsv k o); [by apply list_elem_of_singleton|done|done].
Qed.


(** C40: a console of type gateway without a gateway, which predates the
    admission rule or bypassed it, passes the re-check that is there to report
    such objects, and then the reconcile panics on the missing reference, at
    every attempt and without a condition that says so. *)
Theorem gateway_unconfigured_panics r console w :
  console.(PC_Spec).(CS_Exposure).(EX_Type) = ExposureTypeGateway →
  console.(PC_Spec).(CS_Exposure).(EX_Gateway) = None →
  console.(PC_Spec).(CS_Exposure).(EX_TLS) = None →
  r.(RE_GatewayAPIAvailable) = true →
  validateExposure console = Ok ()
  ∧ reconcileExposure r console w = (Err (Panic "invalid memory address or nil pointer dereference"), w).
Proof using.
  intros Ht Hg Htls Ha. split; [unfold validateExposure; by rewrite Htls|].
  unfold reconcileExposure, exposure_verdict, reconcileHTTPRoute, httpRoute. by rewrite Ht, Ha, Hg.
Qed.
End theorems.

(** ** A console that moves from an Ingress to a Route *)

#[export] Instance demo_selectors : Selectors := {|
  LabelSelectorAsSelector raw := Ok (λ labels, bool_decide (labels !! "team" = Some raw))
|}.

Definition exposed_console (type : string) (gateway : option GatewayParentRef) : PgConsole :=
  mkPgConsole (mkMeta "c" "ns" "uid-c" ∅ ∅ None "1" 3 false [])
    (mkPgConsoleSpec "pg" None None demo_console.(PC_Spec).(CS_Authentication) no_resources
       (mkPgAdminSpec None None "" None "" no_resources) demo_console_spec
       (mkEvidenceSpec None None no_resources)
       (mkExposure type "pg.example.com" None "" gateway ∅ ∅)
       (mkNetworkPolicyConfig None "" []) None no_resources)
    no_console_status.

Definition with_ingress : demo :=
  (reconcileExposure (C := demo_live) demo_settings (exposed_console ExposureTypeIngress None)
     (demo_world_of (demo_objects [] [] [] []))).2.

Lemma single_exposure_witness :
  let w' := (reconcileExposure (C := demo_live) demo_settings (exposed_console ExposureTypeRoute None) with_ingress).2 in
  is_Some (view (Client := demo_live) with_ingress KIngress ("ns", "c-pgconsole"))
  ∧ is_Some (view (Client := demo_live) w' KRoute ("ns", "c-pgconsole"))
  ∧ ∀ o : Ingress, view (Client := demo_live) w' KIngress ("ns", "c-pgconsole") = Some o →
      o.(IN_Meta).(M_Controller) ≠ Some "uid-c" ∨ o.(IN_Meta).(M_Deleting) = true.
Proof.
  intros w'. split; [vm_compute; eauto|]. split; [vm_compute; eauto|].
  destruct (single_exposure (C := demo_live) (CL := demo_live_laws) demo_settings
    (exposed_console ExposureTypeRoute None) with_ingress
    (reconcileExposure (C := demo_live) demo_settings (exposed_console ExposureTypeRoute None) with_ingress).1 w')
    as (_ & _ & H); [split; [compute_decide|discriminate]|apply surjective_pairing|].
  assert (E : ∃ c, (reconcileExposure (C := demo_live) demo_settings (exposed_console ExposureTypeRoute None)
    with_ingress).1 = Ok c) by (eexists; vm_compute; reflexivity).
  destruct E as [c E]. destruct H as [_ H]; [intros k _; reflexivity|].
  intros o Ho. apply (H c E KIngress o); [compute_decide|reflexivity|exact Ho].
Defined.

(** A Gateway that takes the hostname, and a route it has accepted. *)
Definition demo_parent : GatewayParentRef := mkGatewayParent "gw" "infra" "web".

Definition gateway_console : PgConsole := exposed_console ExposureTypeGateway (Some demo_parent).

Definition accepted (t : string) : Condition := mkCondition t ConditionTrue 1 "Accepted" "".

Definition accepted_route : HTTPRoute :=
  match httpRoute (K := demo_machinery) gateway_console with
  | Ok d => mkHTTPRoute (set_labels d.(HR_Meta).(M_Labels)
                (mkMeta "c-pgconsole" "ns" "u" ∅ ∅ (Some "uid-c") "4" 1 false [])) d.(HR_Spec)
              [(mkParentRef None None "gw" (Some "infra") (Some "web"), [accepted "Accepted"; accepted "ResolvedRefs"])]
  | Err _ => mkHTTPRoute (new_meta "" "" ∅ None) (mkHTTPRouteSpec [] [] "" "" "" 0 0) []
  end.

Definition demo_listener : Listener :=
  mkListener "web" "HTTPS" (Some "*.com") (Some (mkAllowedRoutes
    (Some (mkRouteNamespaces (Some "Selector") (Some "db"))) [])).

Definition gateway_objects (k : kind) : gmap ObjectKey (object k) :=
  match k with
  | KHTTPRoute => {[("ns", "c-pgconsole") := accepted_route]}
  | KGateway => {[("infra", "gw") := mkGateway (new_meta "gw" "infra" ∅ None) [demo_listener]]}
  | KNamespace => {[("", "ns") := mkNamespace (new_meta "ns" "" {["team" := "db"]} None)]}
  | _ => ∅
  end.


Lemma gateway_unconfigured_panics_witness :
  (reconcileExposure (C := demo_live) demo_settings (exposed_console ExposureTypeGateway None)
     (demo_world_of gateway_objects)).1 = Err (Panic "invalid memory address or nil pointer dereference").
Proof.
  destruct (gateway_unconfigured_panics (C := demo_live) demo_settings (exposed_console ExposureTypeGateway None)
    (demo_world_of gateway_objects)) as [_ H]; [reflexivity..|]. by rewrite H.
Defined.
