(* ===== verification/PgAdmin.v ===== *)
(** * What pgAdmin is given ([clustercredentials.go], [pgadmin_sync.go],
      [pgadmin_bootstrap.go], [adminsync_secret.go])

    The connections read from the credentials a cluster publishes, their
    transmission to the sync sidecar and the condition that reports it, and
    the two Secrets that are generated once per console. The random bytes and
    the certificate are arguments. *)

From S2P Require Import Prelude GoUtf8 GoStrings GoBytes GoLib AdminSync ApiTypes Kube Shared Platform Conditions Users NetPolicy ConsoleConfig Rbac EvidenceToken ProxySecret Evidence Workload.

(** ** [clustercredentials.go] *)

Definition postgresServicePort : Z := 5432.
Definition serverGroup : string := "PgToolBox".
Definition credentialUsernameKey : string := "username".
Definition credentialPasswordKey : string := "password".
Definition credentialDatabaseKey : string := "dbname".

(** An absent name and an empty one both mean the convention. *)
Definition applicationSecretName (cluster : Cluster) : string :=
  default (cluster.(CL_Meta).(M_Name) +:+ "-app") (cluster.(CL_InitDBSecret) ≫= nonempty).

Definition superuserSecretName (cluster : Cluster) : string :=
  default (cluster.(CL_Meta).(M_Name) +:+ "-superuser") (cluster.(CL_SuperuserSecret) ≫= nonempty).

Definition clusterServiceHost (cluster : Cluster) (clusterName : string) : string :=
  let namespace := cluster.(CL_Meta).(M_Namespace) in
  if is_empty cluster.(CL_WriteService) then clusterName +:+ "-rw." +:+ namespace +:+ ".svc"
  else cluster.(CL_WriteService) +:+ "." +:+ namespace +:+ ".svc".

(** The connection a credential Secret gives. *)
Definition server_of (secret : Secret) (host label : string) : option Server :=
  let field key := default "" (secret.(Sec_Data) !! key) in
  let username := field credentialUsernameKey in
  let password := field credentialPasswordKey in
  let database := field credentialDatabaseKey in
  if is_empty username || is_empty password then None
  else Some {|
    S_Name := label +:+ " (" +:+ username +:+ ")";
    S_Group := serverGroup;
    S_Host := host;
    S_Port := postgresServicePort;
    S_MaintenanceDB := if is_empty database then "postgres" else database;
    S_Username := username;
    S_PassFile := DefaultPassFilePath;
    S_SSLMode := "prefer";
    S_Password := password |}.

(** The connection under the name the cluster has for the role. *)
Definition as_role (role : DatabaseRole) (s : Server) : Server :=
  if String.eqb s.(S_Username) role.(DR_RoleName) || is_empty role.(DR_RoleName) then s
  else mkServer ("role (" +:+ role.(DR_RoleName) +:+ ")") s.(S_Group) s.(S_Host) s.(S_Port)
         s.(S_MaintenanceDB) role.(DR_RoleName) s.(S_PassFile) s.(S_SSLMode) s.(S_Password).

Section credentials.
Context {W : Type} `{C : Client W}.

Definition credentialServer (namespace secretName host label : string) : M W (option Server) :=
  answer ← try (LiveGet KSecret (namespace, secretName));
  match answer with
  | Err e => if IsNotFound e then mret None else throw e
  | Ok secret => mret (server_of secret host label)
  end.

(** One round of the loop over the roles. *)
Definition roleServer (namespace : string) (cluster : Cluster) (host : string) (role : DatabaseRole)
    : M W (option Server) :=
  match role.(DR_PasswordSecret) with
  | Some secretName =>
      if negb (String.eqb role.(DR_ClusterRef) cluster.(CL_Meta).(M_Name)) then mret None
      else server ← credentialServer namespace secretName host "role"; mret (as_role role <$> server)
  | None => mret None
  end.

Definition databaseRoleServers (namespace : string) (cluster : Cluster) (host : string) : M W (list Server) :=
  answer ← try (List KDatabaseRole namespace);
  match answer with
  | Err e => if IsNotFound e || IsNoMatchError e then mret [] else throw e
  | Ok roles =>
      servers ← mapM (roleServer namespace cluster host) roles;
      mret (omap id servers)
  end.

(** [sort.Slice] by name, which leaves the order of two equal names open. *)
Definition sort_servers : list Server → list Server := merge_sort (λ s t, String.le s.(S_Name) t.(S_Name)).

Definition clusterCredentials (console : PgConsole) (cluster : Cluster) : M W (list Server) :=
  let namespace := PC_Namespace console in
  let host := clusterServiceHost cluster cluster.(CL_Meta).(M_Name) in
  app ← credentialServer namespace (applicationSecretName cluster) host "application";
  superuser ← credentialServer namespace (superuserSecretName cluster) host "superuser";
  roles ← databaseRoleServers namespace cluster host;
  mret (sort_servers (omap id [app; superuser] ++ roles)).
End credentials.

(** ** [pgadmin_sync.go] *)

(** [adminsync.Syncer]: the interface the reconcile calls, and the two types
    that implement it. *)
Definition Syncer (W : Type) : Type := SyncInput → W → result string unit * W.

(** [adminsync.Disabled]. *)
Definition Disabled {W} : Syncer W := λ _ w, (Ok tt, w).

(** [pgAdminResyncInterval], in seconds. *)
Definition pgAdminResyncInterval : Z := 120.

Definition pgAdminRoleForLevel (level : string) : string :=
  if String.eqb level RoleLevelDBA then "Administrator" else "User".

Section sync.
Context `{G : GoLib} `{K : Machinery} {W : Type} `{C : Client W}.

Definition sync_input (console : PgConsole) (checksum : string) (servers : list Server) : SyncInput :=
  mkInput (PC_Namespace console) (PC_Name console) (SelectorLabels application (PC_Name console)) checksum servers.

(** What the Pods of the Deployment are marked with. *)
Definition template_checksum (deployment : Deployment) : string :=
  default "" (deployment.(D_Spec).(DS_TemplateAnnotations) !! ConfigChecksumAnnotation).

(** The call and what its outcome becomes. *)
Definition send_servers (sync : Syncer W) (console : PgConsole) (checksum : string) (servers : list Server)
    : M W PgConsole := λ w,
  match sync (sync_input console checksum servers) w with
  | (Err e, w) =>
      (MarkFalse console PgConsoleConditionPgAdminSynced ReasonSyncFailed ("pgAdmin sync failed: " +:+ e), w)
  | (Ok _, w) =>
      (MarkTrue console PgConsoleConditionPgAdminSynced ReasonAsExpected
         ("pgAdmin offers " +:+ Itoa (Z.of_nat (length servers)) +:+ " connection(s) from the cluster's credentials"), w)
  end.

(** [syncer] is [None] for a nil interface. *)
Definition reconcilePgAdminSync (r : Reconciler) (syncer : option (Syncer W)) (console : PgConsole)
    (deployment : Deployment) (checksum : string) : M W PgConsole :=
  let not_synced reason message :=
    of_result (MarkFalse console PgConsoleConditionPgAdminSynced reason message) in
  let unconfigured :=
    of_result (MarkUnknown console PgConsoleConditionPgAdminSynced ReasonNoneConfigured
      "pgAdmin sync is not configured for this console") in
  match syncer with
  | None => unconfigured
  | Some sync =>
      if negb (pgAdminEnabled console) || is_empty r.(RE_OperatorImage) then unconfigured
      else if negb (rolloutComplete deployment) then
        not_synced ReasonPendingRollout "waiting for console rollout to complete before syncing pgAdmin"
      else if negb (String.eqb (template_checksum deployment) checksum) then
        not_synced ReasonPendingRollout "deployment is not at the current configuration revision"
      else
        answer ← try (LiveGet KCluster (cluster_key console));
        match answer with
        | Err e =>
            if IsNotFound e then
              not_synced ReasonClusterNotFound ("CNPG Cluster " +:+ (cluster_key console).2 +:+ " was not found")
            else throw e
        | Ok cluster =>
            servers ← clusterCredentials console cluster;
            match servers with
            | [] => not_synced ReasonSomeDegraded ("cluster " +:+ cluster.(CL_Meta).(M_Name)
                      +:+ " publishes no credential pgAdmin could connect with")
            | _ => send_servers sync console checksum servers
            end
        end
  end.

(** ** [pgadmin_bootstrap.go] *)

(** [raw] is what [rand.Read] filled the 32-byte buffer with. *)
Definition generatePgAdminBootstrapPassword (raw : result error string) : M W string :=
  raw ← wrap "generate pgAdmin bootstrap password" (of_result raw);
  mret (RawURL_EncodeToString raw).

Definition bootstrap_key (console : PgConsole) : ObjectKey :=
  (PC_Namespace console, pgAdminBootstrapSecretName (PC_Name console)).

(** A generated Secret before an owner is set on it. *)
Definition generated_secret (console : PgConsole) (key : ObjectKey) (type : string) (data : gmap string string)
    : Secret :=
  mkSecret (new_meta key.2 key.1 (CommonLabels application (PC_Name console)) None) type false data.

Definition reconcilePgAdminBootstrapSecret (raw : result error string) (console : PgConsole) : M W () :=
  let key := bootstrap_key console in
  answer ← try (LiveGet KSecret key);
  match answer with
  | Ok existing =>
      if negb (is_empty (default "" (existing.(Sec_Data) !! pgAdminBootstrapPasswordKey))) then mret ()
      else throw (FmtErr ("pgAdmin bootstrap secret " +:+ secret_ref key +:+ " has no "
                            +:+ pgAdminBootstrapPasswordKey +:+ "; delete it to regenerate"))
  | Err e =>
      if negb (IsNotFound e) then throw e
      else
        password ← generatePgAdminBootstrapPassword raw;
        secret ← of_result (SetControllerReference console.(PC_Meta) KSecret
          (generated_secret console key "" {[pgAdminBootstrapPasswordKey := password]}));
        answer ← try (Create KSecret secret);
        match answer with
        | Err e => if IsAlreadyExists e then mret () else throw (WrapErr "create pgAdmin bootstrap secret" e)
        | Ok _ => mret ()
        end
  end.

(** ** [adminsync_secret.go] *)

Definition SidecarSecretCertKey : string := "tls.crt".
Definition SidecarSecretKeyKey : string := "tls.key".

Definition adminSyncSecretUsable (secret : Secret) : bool :=
  let field key := default "" (secret.(Sec_Data) !! key) in
  negb (is_empty (field SidecarSecretCAKey)) && negb (is_empty (field SidecarSecretCertKey))
  && negb (is_empty (field SidecarSecretKeyKey)) && (32 <=? slen (field SidecarSecretTokenKey))%nat.

(** The certificate and key in PEM, the second being what [x509] and [pem]
    made of the first draws, and the 36 random bytes of the token. *)
Definition generateAdminSyncMaterial (pair : result error (string * string)) (raw : result error string)
    : M W (gmap string string) :=
  '(certificate, privateKey) ← of_result pair;
  token ← wrap "generate admin-sync token" (of_result raw);
  mret (<[SidecarSecretCAKey := certificate]> (<[SidecarSecretCertKey := certificate]>
    (<[SidecarSecretKeyKey := privateKey]> {[SidecarSecretTokenKey := RawURL_EncodeToString token]}))).

Definition sync_secret_key (console : PgConsole) : ObjectKey :=
  (PC_Namespace console, SidecarSecretName (PC_Name console)).

(** [Create] decodes the answer of the server into its argument: what is
    stored then. *)
Definition created_version (k : kind) (key : ObjectKey) : M W string := λ w,
  (Ok (from_option (λ o : object k, M_ResourceVersion (meta o)) "" (view w k key)), w).

Definition reconcileAdminSyncSecret (pair : result error (string * string)) (raw : result error string)
    (console : PgConsole) : M W string :=
  let key := sync_secret_key console in
  answer ← try (LiveGet KSecret key);
  match answer with
  | Ok existing =>
      if adminSyncSecretUsable existing then mret existing.(Sec_Meta).(M_ResourceVersion)
      else throw (FmtErr ("admin-sync secret " +:+ secret_ref key +:+ " is invalid; delete it to regenerate"))
  | Err e =>
      if negb (IsNotFound e) then throw e
      else
        data ← generateAdminSyncMaterial pair raw;
        secret ← of_result (SetControllerReference console.(PC_Meta) KSecret
          (generated_secret console key SecretTypeOpaque data));
        wrap ("create " +:+ secret_ref key) (Create KSecret secret) ≫= λ _,
        created_version KSecret key
  end.
End sync.

(** ** The connections *)

Lemma server_of_spec secret host label s :
  server_of secret host label = Some s →
  s.(S_Username) = default "" (secret.(Sec_Data) !! credentialUsernameKey)
  ∧ s.(S_Password) = default "" (secret.(Sec_Data) !! credentialPasswordKey)
  ∧ s.(S_Username) ≠ "" ∧ s.(S_Password) ≠ "" ∧ s.(S_MaintenanceDB) ≠ ""
  ∧ s.(S_Host) = host ∧ s.(S_Port) = postgresServicePort ∧ s.(S_PassFile) = DefaultPassFilePath.
Proof.
  unfold server_of. destruct (is_empty (default "" (Sec_Data secret !! credentialUsernameKey))) eqn:Hu; [done|].
  destruct (is_empty (default "" (Sec_Data secret !! credentialPasswordKey))) eqn:Hp; [done|].
  apply is_empty_false in Hu, Hp. intros [= <-]. cbn. split_and!; try done.
  destruct (is_empty _) eqn:Hd; [done|]. by apply is_empty_false.
Qed.

Section connections.
Context {W : Type} `{C : Client W} {CL : ClientLaws C}.

(** The connection comes from a stored Secret. *)
Definition published (w : W) (namespace secretName host label : string) (s : Server) : Prop :=
  ∃ secret, view w KSecret (namespace, secretName) = Some secret ∧ server_of secret host label = Some s.

(** It comes from the Secret a role of the cluster names. *)
Definition role_published (w : W) (namespace : string) (cluster : Cluster) (host : string)
    (role : DatabaseRole) (s : Server) : Prop :=
  role.(DR_ClusterRef) = cluster.(CL_Meta).(M_Name)
  ∧ ∃ secretName s0, role.(DR_PasswordSecret) = Some secretName
      ∧ published w namespace secretName host "role" s0 ∧ s = as_role role s0.

Definition offered (w : W) (console : PgConsole) (cluster : Cluster) (roles : list DatabaseRole) (s : Server) : Prop :=
  let namespace := PC_Namespace console in
  let host := clusterServiceHost cluster cluster.(CL_Meta).(M_Name) in
  published w namespace (applicationSecretName cluster) host "application" s
  ∨ published w namespace (superuserSecretName cluster) host "superuser" s
  ∨ ∃ role, role ∈ roles ∧ role_published w namespace cluster host role s.

(** The roles of the namespace, or none where the API is not served. *)
Definition roles_of (w : W) (namespace : string) (roles : list DatabaseRole) : Prop :=
  (∀ role, role ∈ roles ↔ ∃ name, cached w KDatabaseRole (namespace, name) = Some role)
  ∨ roles = [] ∧ ∃ e w1 w2, List KDatabaseRole namespace w1 = (Err e, w2)
                  ∧ (IsNotFound e = true ∨ IsNoMatchError e = true).

Lemma credentialServer_run namespace secretName host label w r w' :
  credentialServer namespace secretName host label w = (r, w') →
  untouched w w' ∧ ∀ o, r = Ok o → ∀ s, o = Some s ↔ published w namespace secretName host label s.
Proof using CL.
  unfold credentialServer, published. intros H. run_in H; learn; rebase; (split; [done|]).
  - intros o [= <-] s. naive_solver.
  - intros o [= <-] s. rewrite (Hr Heqb). naive_solver.
  - done.
Qed.

Lemma role_published_untouched w w' namespace cluster host role s :
  untouched w w' → role_published w' namespace cluster host role s ↔ role_published w namespace cluster host role s.
Proof.
  intros Hu. unfold role_published, published. by setoid_rewrite (untouched_lookup w w' KSecret _ Hu).
Qed.

Lemma roleServer_run namespace cluster host role w r w' :
  roleServer namespace cluster host role w = (r, w') →
  untouched w w' ∧ ∀ o, r = Ok o → ∀ s, o = Some s ↔ role_published w namespace cluster host role s.
Proof using CL.
  unfold roleServer, role_published. destruct (DR_PasswordSecret role) as [secretName|] eqn:Hp.
  - destruct (String.eqb_spec (DR_ClusterRef role) (M_Name (CL_Meta cluster))) as [Hc|Hc]; cbn [negb].
    + rewrite run_bind. destruct (credentialServer _ _ _ _ w) as [[o|e] w1] eqn:E;
        apply credentialServer_run in E as [Hu Ho].
      * rewrite run_ret. intros [= <- <-]. split; [done|]. intros ? [= <-] s.
        pose proof (Ho o eq_refl) as Hs. destruct o as [s0|]; cbn.
        -- split; [intros [= <-]; split; [done|]; exists secretName, s0; by rewrite <-Hs|].
           intros (_ & n & s1 & [= <-] & Hp1%Hs & ->). by simplify_eq.
        -- split; [done|]. intros (_ & n & s1 & [= <-] & Hp1%Hs & ->). done.
      * intros [= <- <-]. done.
    + rewrite run_ret. intros [= <- <-]. split; [done|]. intros ? [= <-] s. naive_solver.
  - rewrite run_ret. intros [= <- <-]. split; [done|]. intros ? [= <-] s. naive_solver.
Qed.

Lemma elem_of_omap_related {A B} (P : A → B → Prop) (l : list A) (ys : list (option B)) :
  Forall2 (λ x y, ∀ s, y = Some s ↔ P x s) l ys → ∀ s, s ∈ omap id ys ↔ ∃ x, x ∈ l ∧ P x s.
Proof.
  induction 1 as [|x y l ys Hxy _ IH]; intros s.
  - cbn. rewrite elem_of_nil. split; [done|]. by intros (x & ?%elem_of_nil & _).
  - destruct y as [t|]; cbn; rewrite ?elem_of_cons, IH.
    + split.
      * intros [->|(z & Hz & Hp)]; [exists x; rewrite <-Hxy; split; [left|done]|exists z; split; [by right|done]].
      * intros (z & [->|Hz]%elem_of_cons & Hp); [left; apply Hxy in Hp; congruence|right; eauto].
    + split; [intros (z & Hz & Hp); exists z; split; [by right|done]|].
      intros (z & [->|Hz]%elem_of_cons & Hp); [by apply Hxy in Hp|eauto].
Qed.

Lemma databaseRoleServers_run namespace cluster host w r w' :
  databaseRoleServers namespace cluster host w = (r, w') →
  untouched w w' ∧ ∀ l, r = Ok l → ∃ roles, roles_of w namespace roles
    ∧ ∀ s, s ∈ l ↔ ∃ role, role ∈ roles ∧ role_published w namespace cluster host role s.
Proof using CL.
  unfold databaseRoleServers. rewrite run_bind, run_try.
  destruct (List KDatabaseRole namespace w) as [r1 w1] eqn:E. pose proof E as [Hu Hl]%List_spec.
  destruct r1 as [roles|e].
  - rewrite run_bind. destruct (mapM (roleServer namespace cluster host) roles w1) as [r2 w2] eqn:Em.
    apply (mapM_untouched _ (λ w x y, ∀ s, y = Some s ↔ role_published w namespace cluster host x s)) in Em
      as [Hu2 H2].
    + assert (untouched w w2) as Hu' by by etrans. destruct r2 as [ys|e].
      * rewrite run_ret. intros [= <- <-]. split; [done|]. intros ? [= <-]. exists roles. split.
        { left. destruct (Hl roles eq_refl) as [_ Hin]. done. }
        intros s. rewrite (elem_of_omap_related (role_published w1 namespace cluster host)) by exact H2.
        by setoid_rewrite (role_published_untouched w w1 _ _ _ _ _ Hu).
      * intros [= <- <-]. done.
    + intros x v r' v' Hx. apply roleServer_run in Hx. exact Hx.
    + intros v v' x y Huv Hy s. by rewrite Hy, role_published_untouched.
  - destruct (IsNotFound e || IsNoMatchError e) eqn:Hm.
    + rewrite run_ret. intros [= <- <-]. split; [done|]. intros ? [= <-]. exists []. split.
      * right. split; [done|]. exists e, w, w1. split; [done|]. by apply orb_true_iff.
      * intros s. rewrite elem_of_nil. split; [done|]. by intros (? & ?%elem_of_nil & _).
    + rewrite run_throw. by intros [= <- <-].
Qed.

Lemma sort_servers_elem s l : s ∈ sort_servers l ↔ s ∈ l.
Proof. unfold sort_servers. by rewrite merge_sort_Permutation. Qed.

Lemma omap_pair {A} (a b : option A) s : s ∈ omap id [a; b] ↔ a = Some s ∨ b = Some s.
Proof. destruct a, b; cbn; rewrite ?elem_of_cons, ?elem_of_nil; naive_solver. Qed.

Lemma clusterCredentials_run console cluster w r w' :
  clusterCredentials console cluster w = (r, w') →
  untouched w w' ∧ ∀ l, r = Ok l → ∃ roles, roles_of w (PC_Namespace console) roles
    ∧ ∀ s, s ∈ l ↔ offered w console cluster roles s.
Proof using CL.
  unfold clusterCredentials. rewrite run_bind.
  destruct (credentialServer _ _ _ _ w) as [[a|e] w1] eqn:E1; apply credentialServer_run in E1 as [U1 H1];
    [|by intros [= <- <-]].
  rewrite run_bind. destruct (credentialServer _ _ _ _ w1) as [[b|e] w2] eqn:E2;
    apply credentialServer_run in E2 as [U2 H2]; [|intros [= <- <-]; split; [by etrans|done]].
  rewrite run_bind. destruct (databaseRoleServers _ _ _ w2) as [[l|e] w3] eqn:E3;
    apply databaseRoleServers_run in E3 as [U3 H3];
    [|intros [= <- <-]; split; [by etrans; [|etrans]|done]].
  rewrite run_ret. intros [= <- <-]. assert (untouched w w2) as U by by etrans.
  split; [by etrans|]. intros ? [= <-]. destruct (H3 l eq_refl) as (roles & Hroles & Hl).
  exists roles. split.
  - unfold roles_of in *. by rewrite <-(untouched_cached w w2 U).
  - intros s. unfold offered. pose proof (omap_pair a b s) as Hab. cbn in Hab.
    rewrite sort_servers_elem, elem_of_app, Hab, (H1 a eq_refl), (H2 b eq_refl), Hl.
    setoid_rewrite (role_published_untouched w w2 _ _ _ _ _ U). unfold published.
    rewrite (untouched_lookup w w1 KSecret _ U1). tauto.
Qed.

(** C0: pgAdmin is offered exactly the connections the cluster publishes:
    one for the application user, one for the superuser where there is one,
    and one for each role of this cluster that names a password Secret, each
    read from a stored Secret with a user name and a password, in the order
    of their names; the roles of other clusters and incomplete Secrets give
    none, and every one points at the host of the cluster and at the file the
    sidecar writes. Resolving them writes nothing. *)
Theorem connections_exact console cluster w r w' :
  clusterCredentials console cluster w = (r, w') →
  untouched w w' ∧ ∀ l, r = Ok l →
  Sorted (λ s t, String.le s.(S_Name) t.(S_Name)) l
  ∧ (∀ s, s ∈ l → s.(S_Username) ≠ "" ∧ s.(S_Password) ≠ ""
       ∧ s.(S_Host) = clusterServiceHost cluster cluster.(CL_Meta).(M_Name)
       ∧ s.(S_Port) = postgresServicePort ∧ s.(S_PassFile) = DefaultPassFilePath)
  ∧ ∃ roles, roles_of w (PC_Namespace console) roles ∧ ∀ s, s ∈ l ↔ offered w console cluster roles s.
Proof using CL.
  intros H. pose proof (clusterCredentials_run _ _ _ _ _ H) as [Hu Hl]. split; [done|]. intros l ->.
  destruct (Hl l eq_refl) as (roles & Hroles & Hin). split; [|split; [|by exists roles]].
  - unfold clusterCredentials in H. rewrite run_bind in H.
    destruct (credentialServer _ _ _ _ w) as [[a|e] w1]; [|done]. rewrite run_bind in H.
    destruct (credentialServer _ _ _ _ w1) as [[b|e] w2]; [|done]. rewrite run_bind in H.
    destruct (databaseRoleServers _ _ _ w2) as [[rs|e] w3]; [|done]. rewrite run_ret in H.
    injection H as <- _. apply Sorted_merge_sort. intros s t. apply String.le_total.
  - intros s Hs%Hin. destruct Hs as [(sec & _ & Hs)|[(sec & _ & Hs)|(role & _ & _ & n & s0 & _ & (sec & _ & Hs) & ->)]];
      apply server_of_spec in Hs as (_ & _ & Hun & Hpw & _ & Hh & Hpo & Hf); [by split_and!..|].
    unfold as_role. destruct (_ || _) eqn:Ho; [by split_and!|]. apply orb_false_iff in Ho as [_ Hr%is_empty_false].
    by split_and!.
Qed.
End connections.

(** ** The condition *)

(** What the interface promises: the sidecar is not the API server. *)
Definition outside_the_API {W} `{C : Client W} (sync : Syncer W) : Prop :=
  ∀ q w r w', sync q w = (r, w') → untouched w w'.

Lemma Disabled_outside {W} `{C : Client W} : outside_the_API (Disabled (W := W)).
Proof. by intros q w r w' [= _ <-]. Qed.

(** The client of the sidecar keeps the promise when the exchange does. *)
Lemma Sync_outside {W} `{C : Client W} `{G : GoLib} {AL : AdminLib} pods secrets
    (Do : Post → W → result string (Z * string) * W) :
  (∀ post w r w', Do post w = (r, w') → untouched w w') → outside_the_API (Sync pods secrets Do).
Proof.
  intros HDo q w r w'. unfold Sync. destruct (sync_post _ _ q) as [post|e]; [|by intros [= _ <-]].
  destruct (Do post w) as [[[status message]|e] w1] eqn:E; apply HDo in E; [destruct (_ =? _)%Z|]; by intros [= _ <-].
Qed.

Section condition.
Context `{G : GoLib} `{K : Machinery} {W : Type} `{C : Client W}.
Context `{CL : !ClientLaws C} `{KL : !MachineryLaws K}.

Definition synced (c : PgConsole) : option Condition :=
  condition PgConsoleConditionPgAdminSynced c.(PC_Status).(PS_Conditions).

(** One call reached the sidecar: with exactly the connections the cluster
    publishes, at least one, for the Pods of this configuration, and it
    answered [answer]. *)
Record pushed (r : Reconciler) (syncer : option (Syncer W)) (console : PgConsole) (deployment : Deployment)
    (checksum : string) (w w' : W) (answer : result string unit) : Prop := {
  pu_wanted : pgAdminEnabled console = true ∧ r.(RE_OperatorImage) ≠ "";
  pu_rolled : rolloutComplete deployment = true ∧ template_checksum deployment = checksum;
  pu_call : ∃ sync cluster roles servers w1, syncer = Some sync
    ∧ view w KCluster (cluster_key console) = Some cluster
    ∧ roles_of w (PC_Namespace console) roles
    ∧ (∀ s, s ∈ servers ↔ offered w console cluster roles s) ∧ servers ≠ []
    ∧ untouched w w1 ∧ sync (sync_input console checksum servers) w1 = (answer, w')
}.

(** What a pass of the sync becomes. *)
Definition sync_outcome (r : Reconciler) (syncer : option (Syncer W)) (console : PgConsole)
    (deployment : Deployment) (checksum : string) (w w' : W) (res : result error PgConsole) : Prop :=
  match res with
  | Err _ => untouched w w'
  | Ok c => same_console console c ∧
      ∃ cond, synced c = Some cond ∧ cond.(Cd_ObservedGeneration) = console.(PC_Meta).(M_Generation)
      ∧ ((cond.(Cd_Status) = ConditionTrue ∧ cond.(Cd_Reason) = ReasonAsExpected
            ∧ pushed r syncer console deployment checksum w w' (Ok tt))
         ∨ (cond.(Cd_Status) ≠ ConditionTrue ∧ cond.(Cd_Reason) ≠ ReasonSyncFailed ∧ untouched w w')
         ∨ (cond.(Cd_Status) ≠ ConditionTrue ∧ cond.(Cd_Reason) = ReasonSyncFailed
            ∧ ∃ e, pushed r syncer console deployment checksum w w' (Err e)))
  end.

Lemma synced_mark console st reason message : reason ∈ knownReasons →
  ∃ c, mark console PgConsoleConditionPgAdminSynced st reason message = Ok c ∧ same_console console c
  ∧ synced c = Some (mkCondition PgConsoleConditionPgAdminSynced st console.(PC_Meta).(M_Generation) reason message).
Proof using KL.
  intros Hr. rewrite mark_known by done. eexists. split; [done|]. split; [done|].
  apply (SetStatusCondition_set _ (mkCondition PgConsoleConditionPgAdminSynced st _ reason message)).
Qed.

Lemma untold_outcome r syncer console deployment checksum w w' st reason message :
  st ≠ ConditionTrue → reason ∈ knownReasons ∧ reason ≠ ReasonSyncFailed → untouched w w' →
  sync_outcome r syncer console deployment checksum w w'
    (mark console PgConsoleConditionPgAdminSynced st reason message).
Proof using KL.
  intros Hst [Hr Hn] Hu. destruct (synced_mark console st reason message Hr) as (c & -> & Hc & Hs).
  split; [done|]. eexists. split; [done|]. split; [done|]. right. left. by split_and!.
Qed.

Lemma reconcilePgAdminSync_run r syncer console deployment checksum w res w' :
  reconcilePgAdminSync r syncer console deployment checksum w = (res, w') →
  sync_outcome r syncer console deployment checksum w w' res.
Proof using CL KL.
  unfold reconcilePgAdminSync. destruct syncer as [sync|];
    [|intros [= <- <-]; by apply untold_outcome; [..|compute_decide|]].
  destruct (pgAdminEnabled console) eqn:Hpg; cbn [negb orb];
    [|intros [= <- <-]; by apply untold_outcome; [..|compute_decide|]].
  destruct (is_empty (RE_OperatorImage r)) eqn:Him;
    [intros [= <- <-]; by apply untold_outcome; [..|compute_decide|]|].
  destruct (rolloutComplete deployment) eqn:Hro; cbn [negb];
    [|intros [= <- <-]; by apply untold_outcome; [..|compute_decide|]].
  destruct (String.eqb_spec (template_checksum deployment) checksum) as [Hch|Hch]; cbn [negb];
    [|intros [= <- <-]; by apply untold_outcome; [..|compute_decide|]].
  rewrite run_bind, run_try. destruct (LiveGet KCluster _ w) as [[cluster|e] w1] eqn:E;
    apply LiveGet_spec in E as [Hu Hcl].
  - rewrite run_bind. destruct (clusterCredentials console cluster w1) as [[servers|e] w2] eqn:Es;
      apply clusterCredentials_run in Es as [Hu2 Hs]; [|by intros [= <- <-]; cbn; etrans].
    assert (untouched w w2) as Hu' by by etrans.
    destruct servers as [|s servers];
      [intros [= <- <-]; by apply untold_outcome; [..|compute_decide|]|].
    destruct (Hs _ eq_refl) as (roles & Hroles & Hin). unfold send_servers.
    destruct (sync _ w2) as [answer w3] eqn:Esync.
    assert (Hp : pushed r (Some sync) console deployment checksum w w3 answer).
    { split; [by apply is_empty_false in Him|done|].
      exists sync, cluster, roles, (s :: servers), w2. split_and!; try done.
      - unfold roles_of in *. by rewrite <-(untouched_cached w w1 Hu).
      - intros t. rewrite Hin. unfold offered, role_published, published.
        by setoid_rewrite (untouched_lookup w w1 KSecret _ Hu). }
    destruct answer as [[]|e].
    + destruct (synced_mark console ConditionTrue ReasonAsExpected
        ("pgAdmin offers " +:+ Itoa (Z.of_nat (length (s :: servers))) +:+ " connection(s) from the cluster's credentials"))
        as (c & Hm & Hc & Hsy); [compute_decide|].
      unfold MarkTrue. rewrite Hm. intros [= <- <-]. split; [done|]. eexists. split; [done|]. split; [done|]. by left.
    + destruct (synced_mark console ConditionFalse ReasonSyncFailed ("pgAdmin sync failed: " +:+ e))
        as (c & Hm & Hc & Hsy); [compute_decide|].
      unfold MarkFalse. rewrite Hm. intros [= <- <-]. split; [done|]. eexists. split; [done|]. split; [done|].
      right. right. split; [done|]. split; [done|]. by exists e.
  - destruct (IsNotFound e); [intros [= <- <-]; by apply untold_outcome; [..|compute_decide|]|].
    by intros [= <- <-].
Qed.

(** C0: the condition [PgAdminSynced] can be trusted. It is True only when
    the pass made one call, with exactly the connections the cluster publishes
    and at least one of them, to the Pods of a finished rollout at this
    configuration, and the call was answered without an error; its reason is
    [SyncFailed] only when that call was made and refused. The console keeps
    its specification, and the reconcile writes no object. *)
Theorem pgadmin_synced_sound r sync console deployment checksum w res w' :
  outside_the_API sync →
  reconcilePgAdminSync r (Some sync) console deployment checksum w = (res, w') →
  untouched w w'
  ∧ ∀ c, res = Ok c → same_console console c
    ∧ ∃ cond, synced c = Some cond ∧ cond.(Cd_ObservedGeneration) = console.(PC_Meta).(M_Generation)
      ∧ (cond.(Cd_Status) = ConditionTrue → pushed r (Some sync) console deployment checksum w w' (Ok tt))
      ∧ (cond.(Cd_Reason) = ReasonSyncFailed →
         ∃ e, pushed r (Some sync) console deployment checksum w w' (Err e)).
Proof using CL KL.
  intros Hout H. apply reconcilePgAdminSync_run in H. unfold sync_outcome in H. destruct res as [c|e]; [|done].
  assert (Hpu : ∀ answer, pushed r (Some sync) console deployment checksum w w' answer → untouched w w').
  { intros answer [_ _ (? & ? & ? & ? & w1 & [= <-] & _ & _ & _ & _ & Hu & Hw)]. etrans; by eauto. }
  destruct H as (Hc & cond & Hs & Hg & Ho).
  assert (untouched w w') by (destruct Ho as [(_ & _ & ?)|[(_ & _ & ?)|(_ & _ & e & ?)]]; eauto).
  split; [done|]. intros ? [= <-]. split; [done|]. exists cond. split; [done|]. split; [done|].
  destruct Ho as [(_ & Hr & ?)|[(? & ? & ?)|(? & ? & ?)]]; (split; [done|]); try done. by rewrite Hr.
Qed.
End condition.

(** ** The Secrets generated once *)

Lemma b64url_printing s : all_bytes b64url_byte s = true → all_bytes printing s = true.
Proof.
  apply all_bytes_impl. intros a. unfold b64url_byte, printing, IsSpace, between. breflect. lia.
Qed.

Section secrets.
Context `{G : GoLib} `{K : Machinery} {W : Type} `{C : Client W}.
Context `{CL : !ClientLaws C} `{KL : !MachineryLaws K}.

Definition field (key : string) (s : Secret) : string := default "" (s.(Sec_Data) !! key).

(** A pass over a generated Secret: one that is there is never written, and
    a missing one is created and owned by the console. *)
Record generated (console : PgConsole) (key : ObjectKey) (w w' : W) (usable : Secret → Prop) (ok : Prop) : Prop := {
  ge_kept : secrets_kept w w';
  ge_there : is_Some (view w KSecret key) → untouched w w';
  ge_log : log w' = log w ∨ log w' = log w ++ [(VCreate, KSecret, key)];
  ge_usable : ok → ∃ s, view w' KSecret key = Some s ∧ usable s
    ∧ (view w KSecret key = None → s.(Sec_Meta).(M_Controller) = Some (PC_UID console))
}.

Definition owned_secret (console : PgConsole) (key : ObjectKey) (type : string) (data : gmap string string) : Secret :=
  mkSecret (set_controller (Some (PC_UID console)) (Sec_Meta (generated_secret console key type data))) type false data.

Lemma generated_owned console key type data : key.1 = PC_Namespace console →
  SetControllerReference console.(PC_Meta) KSecret (generated_secret console key type data)
  = Ok (owned_secret console key type data).
Proof using KL. intros Hk. by rewrite SetControllerReference_ok. Qed.

Lemma content_secret (a b : Secret) : content (k := KSecret) a = content (k := KSecret) b →
  a.(Sec_Data) = b.(Sec_Data) ∧ a.(Sec_Meta).(M_Controller) = b.(Sec_Meta).(M_Controller).
Proof. by intros [= _ _ _ _ -> _ _ _ _ ->]. Qed.

Lemma generated_untouched console key w w' usable (ok : Prop) :
  untouched w w' → (ok → ∃ s, view w KSecret key = Some s ∧ usable s) → generated console key w w' usable ok.
Proof using.
  intros Hu Hok. split.
  - split; intros; by rewrite (untouched_lookup w w').
  - done.
  - left. by apply untouched_log.
  - intros (s & Hs & Hus)%Hok. exists s. rewrite (untouched_lookup w w') by done. split_and!; [done..|congruence].
Qed.

(** A Secret that was missing is created as it is owned. *)
Lemma generated_created console key type data w w1 w' (usable : Secret → Prop) (ok : Prop) :
  key.1 = PC_Namespace console → untouched w w1 → view w KSecret key = None →
  log w' = log w1 ++ [(VCreate, KSecret, key)] → secrets_kept w1 w' →
  (ok → ∃ s, view w' KSecret key = Some s
     ∧ content (k := KSecret) s = content (k := KSecret) (owned_secret console key type data)
     ∧ (s.(Sec_Data) = data → usable s)) → generated console key w w' usable ok.
Proof using.
  intros Hkey Hu Hn Hl [Hk Ho] Hok. split.
  - split; intros; rewrite <-?(untouched_lookup w w1) in * by done; auto.
  - rewrite Hn. by intros [].
  - right. by rewrite Hl, (untouched_log w w1).
  - intros (s & Hs & [Hd Hm]%content_secret & Hus)%Hok. exists s. split; [done|]. split; [by apply Hus|done].
Qed.

Lemma bootstrap_run raw console w r w' :
  (∀ b, raw = Ok b → b ≠ "") →
  reconcilePgAdminBootstrapSecret raw console w = (r, w') →
  generated console (bootstrap_key console) w w' (λ s, field pgAdminBootstrapPasswordKey s ≠ "") (r = Ok ()).
Proof using CL KL.
  intros Hraw. unfold reconcilePgAdminBootstrapSecret. rewrite run_bind, run_try.
  destruct (LiveGet KSecret _ w) as [[s|e] w1] eqn:E; apply LiveGet_spec in E as [Hu Hr]; cbn in Hr.
  - destruct (is_empty _) eqn:He; cbn [negb]; intros [= <- <-]; apply generated_untouched; try done.
    exists s. split; [done|]. by apply is_empty_false in He.
  - destruct (IsNotFound e) eqn:Hnf; cbn [negb]; [|intros [= <- <-]; by apply generated_untouched].
    unfold generatePgAdminBootstrapPassword. rewrite run_bind, run_bind, run_wrap, run_of_result.
    destruct raw as [bytes|e']; [|intros [= <- <-]; by apply generated_untouched].
    rewrite run_ret, generated_owned, run_bind, run_of_result by done. intros H.
    apply create_if_missing in H as (Hl & Hk & Hok).
    change (key_of (Sec_Meta _)) with (bootstrap_key console) in Hl, Hok.
    eapply generated_created; [done|done|by apply Hr|done|done|].
    intros (s & Hs & Hc)%Hok. rewrite (untouched_lookup w w1), (Hr eq_refl) in Hc by done. exists s. split; [done|].
    split; [done|]. intros Hd. unfold field. rewrite Hd, lookup_singleton_eq. cbn. pose proof (slen_RawURL_Encode bytes) as Hlen.
      intros E. rewrite E in Hlen. apply (Hraw bytes eq_refl). destruct bytes; [done|]. cbn in Hlen. lia.
Qed.

(** What the sidecar needs of the Secret beyond what the operator checks of
    one it finds: the token it serves with is the one the client presents. *)
Definition shares_token (s : Secret) : Prop :=
  ∀ file, sidecar_token file (Ok (field SidecarSecretTokenKey s)) = Ok (field SidecarSecretTokenKey s)
  ∧ TrimSpace (field SidecarSecretTokenKey s) = field SidecarSecretTokenKey s.

Definition material (certificate privateKey bytes : string) : gmap string string :=
  <[SidecarSecretCAKey := certificate]> (<[SidecarSecretCertKey := certificate]>
    (<[SidecarSecretKeyKey := privateKey]> {[SidecarSecretTokenKey := RawURL_EncodeToString bytes]})).

Lemma material_fields c k bytes s : s.(Sec_Data) = material c k bytes →
  field SidecarSecretCAKey s = c ∧ field SidecarSecretCertKey s = c ∧ field SidecarSecretKeyKey s = k
  ∧ field SidecarSecretTokenKey s = RawURL_EncodeToString bytes.
Proof using.
  intros Hd. unfold field. rewrite Hd. unfold material.
  by rewrite !lookup_insert_eq, !lookup_insert_ne, lookup_insert_eq, !lookup_insert_ne, lookup_insert_eq,
    ?lookup_singleton_eq by done.
Qed.

Lemma material_usable c k bytes s : c ≠ "" ∧ k ≠ "" → s.(Sec_Data) = material c k bytes →
  (32 ≤ slen bytes)%nat → adminSyncSecretUsable s = true.
Proof using.
  intros [Hc Hk] (H1 & H2 & H3 & H4)%material_fields Hb. unfold adminSyncSecretUsable.
  fold (field SidecarSecretCAKey s) (field SidecarSecretCertKey s) (field SidecarSecretKeyKey s)
    (field SidecarSecretTokenKey s). rewrite H1, H2, H3, H4.
  apply is_empty_false in Hc, Hk. rewrite Hc, Hk. cbn [negb andb]. apply Nat.leb_le.
  pose proof (slen_RawURL_Encode bytes). lia.
Qed.

Lemma material_shared c k bytes s : (32 ≤ slen bytes)%nat → s.(Sec_Data) = material c k bytes → shares_token s.
Proof using.
  intros Hb (_ & _ & _ & H4)%material_fields file. rewrite H4.
  assert (TrimSpace (RawURL_EncodeToString bytes) = RawURL_EncodeToString bytes) as Ht.
  { apply TrimSpace_printing, b64url_printing, RawURL_Encode_bytes. }
  unfold sidecar_token. rewrite Ht. split; [|done].
  destruct (Nat.ltb_spec (slen (RawURL_EncodeToString bytes)) 32) as [Hl|]; [|done].
  pose proof (slen_RawURL_Encode bytes). lia.
Qed.

Lemma syncSecret_run pair raw console w r w' :
  (∀ c k, pair = Ok (c, k) → c ≠ "" ∧ k ≠ "") → (∀ b, raw = Ok b → slen b = 36%nat) →
  reconcileAdminSyncSecret pair raw console w = (r, w') →
  generated console (sync_secret_key console) w w'
    (λ s, adminSyncSecretUsable s = true ∧ r = Ok s.(Sec_Meta).(M_ResourceVersion)
          ∧ (view w KSecret (sync_secret_key console) = None → shares_token s)) (∃ version, r = Ok version).
Proof using CL KL.
  intros Hpair Hraw. unfold reconcileAdminSyncSecret. rewrite run_bind, run_try.
  destruct (LiveGet KSecret _ w) as [[s|e] w1] eqn:E; apply LiveGet_spec in E as [Hu Hr]; cbn in Hr.
  - destruct (adminSyncSecretUsable s) eqn:He; intros [= <- <-]; apply generated_untouched; [done| |done|by intros []].
    intros _. exists s. split; [done|]. split_and!; [done|done|congruence].
  - assert (Hno : ∀ e', generated console (sync_secret_key console) w w1
      (λ s, adminSyncSecretUsable s = true ∧ @Err error string e' = Ok s.(Sec_Meta).(M_ResourceVersion)
          ∧ (view w KSecret (sync_secret_key console) = None → shares_token s)) (∃ version, @Err error string e' = Ok version)).
    { intros e'. apply generated_untouched; [done|by intros []]. }
    destruct (IsNotFound e) eqn:Hnf; cbn [negb]; [|intros [= <- <-]; apply Hno].
    unfold generateAdminSyncMaterial. rewrite run_bind, run_bind, run_of_result.
    destruct pair as [[c k]|e']; [|intros [= <- <-]; apply Hno].
    rewrite run_bind, run_wrap, run_of_result. destruct raw as [bytes|e']; [|intros [= <- <-]; apply Hno].
    rewrite run_ret, run_bind, run_of_result, generated_owned, run_bind, run_wrap by done. set (data := <[_:=_]> _).
    destruct (Create KSecret _ w1) as [[[]|e'] w2] eqn:Ec; pose proof Ec as [Hl Hw]%Create_spec;
      change (key_of (meta _)) with (sync_secret_key console) in Hl, Hw.
    + destruct Hw as [(Hold & o & Ho & Hc) Hel]. unfold created_version. rewrite Ho. intros [= <- <-].
      assert (secrets_kept w1 w2) as Hk.
      { eapply created_keeps; [by right|done]. }
      eapply generated_created; [done|done|by apply Hr|done|done|]. intros _. exists o. split; [done|]. split; [done|].
      intros Hd. pose proof (Hraw bytes eq_refl) as Hlen. split; [|split; [done|]].
      * apply (material_usable c k bytes); [by apply Hpair|done|lia].
      * intros _. apply (material_shared c k bytes); [lia|done].
    + intros [= <- <-]. eapply (generated_created _ _ "" ∅); [done|done|by apply Hr|done| |by intros []].
      destruct Hw as [Hw Hel]. eapply created_keeps; [|done]. destruct Hw as [?|[? _]]; auto.
Qed.

(** C0: the two Secrets pgAdmin runs on are generated once. Neither reconcile
    ever writes one that exists, both leave every other Secret and object
    alone, and a pass sends at most the one creation. When the first succeeds
    its Secret holds a password; when the second succeeds its Secret holds all
    the operator checks for and the version answered is the stored one, and
    one it created is owned by the console and holds a token that the sidecar
    accepts at its start and reads as the very bytes the client presents. *)
Theorem secrets_generated_once pair raw raw' console w r1 w1 r2 w2 :
  (∀ b, raw = Ok b → slen b = 32%nat) → (∀ b, raw' = Ok b → slen b = 36%nat) →
  (∀ c k, pair = Ok (c, k) → c ≠ "" ∧ k ≠ "") →
  reconcilePgAdminBootstrapSecret raw console w = (r1, w1) →
  reconcileAdminSyncSecret pair raw' console w1 = (r2, w2) →
  generated console (bootstrap_key console) w w1 (λ s, field pgAdminBootstrapPasswordKey s ≠ "") (r1 = Ok ())
  ∧ generated console (sync_secret_key console) w1 w2
      (λ s, adminSyncSecretUsable s = true ∧ r2 = Ok s.(Sec_Meta).(M_ResourceVersion)
            ∧ (view w1 KSecret (sync_secret_key console) = None → shares_token s)) (∃ version, r2 = Ok version).
Proof using CL KL.
  intros Hraw Hraw' Hpair H1 H2. split; [|by eapply syncSecret_run].
  eapply bootstrap_run; [|done]. intros b ->. intros ->. by specialize (Hraw "" eq_refl).
Qed.
End secrets.

(** ** A cluster with an application user and a role *)

Definition credential_secret (name username password : string) : Secret :=
  mkSecret (new_meta name "ns" ∅ None) SecretTypeOpaque false
    (<[credentialUsernameKey := username]> {[credentialPasswordKey := password]}).

Definition pgadmin_cluster : Cluster := mkCluster (new_meta "pg" "ns" ∅ None) [] None None "pg-rw".

Definition pgadmin_objects (k : kind) : gmap ObjectKey (object k) :=
  match k with
  | KCluster => store_of (k := KCluster) [pgadmin_cluster]
  | KSecret => store_of (k := KSecret)
      [credential_secret "pg-app" "app" "secret"; credential_secret "owner-pw" "own" "pw2";
       credential_secret "other-pw" "other" "pw3"]
  | KDatabaseRole => store_of (k := KDatabaseRole)
      [mkDatabaseRole (new_meta "owner" "ns" ∅ None) "pg" (Some "owner-pw") "owner";
       mkDatabaseRole (new_meta "other" "ns" ∅ None) "elsewhere" (Some "other-pw") "other"]
  | _ => ∅
  end.

Definition pgadmin_world : demo := demo_world_of pgadmin_objects.

Definition demo_servers : list Server :=
  match (clusterCredentials workload_console pgadmin_cluster pgadmin_world).1 with Ok l => l | Err _ => [] end.

Lemma demo_servers_run : clusterCredentials workload_console pgadmin_cluster pgadmin_world =
  (Ok demo_servers, (clusterCredentials workload_console pgadmin_cluster pgadmin_world).2).
Proof.
  rewrite (surjective_pairing (clusterCredentials _ _ _)) at 1. apply (f_equal2 pair); [vm_compute|]; reflexivity.
Qed.

Lemma connections_exact_witness :
  S_Name <$> demo_servers = ["application (app)"; "role (owner)"]
  ∧ Sorted (λ s t, String.le s.(S_Name) t.(S_Name)) demo_servers.
Proof.
  split; [vm_compute; reflexivity|].
  destruct (connections_exact workload_console pgadmin_cluster pgadmin_world _ _ demo_servers_run) as [_ H].
  destruct (H _ eq_refl) as [Hs _]. exact Hs.
Defined.

Definition rolled_deployment : Deployment :=
  mkDeployment (D_Meta (ownedDeployment (operator "o:1") workload_console demo_inputs))
    (deployment_of (operator "o:1") workload_console demo_inputs) 0 1 1.

(** The no-op [Disabled] reports what was never sent. *)
Definition demo_pass : result error PgConsole * demo :=
  reconcilePgAdminSync (operator "o:1") (Some Disabled) workload_console rolled_deployment "sum" pgadmin_world.

Definition demo_synced : PgConsole := match demo_pass.1 with Ok c => c | Err _ => workload_console end.

Lemma demo_synced_run : demo_pass = (Ok demo_synced, demo_pass.2).
Proof. rewrite (surjective_pairing demo_pass) at 1. apply (f_equal2 pair); [vm_compute|]; reflexivity. Qed.

Lemma pgadmin_synced_sound_witness :
  Cd_Status <$> synced demo_synced = Some ConditionTrue
  ∧ pushed (operator "o:1") (Some Disabled) workload_console rolled_deployment "sum" pgadmin_world demo_pass.2 (Ok tt).
Proof.
  assert (Hc : Cd_Status <$> synced demo_synced = Some ConditionTrue) by (vm_compute; reflexivity).
  split; [exact Hc|].
  destruct (pgadmin_synced_sound (operator "o:1") Disabled workload_console rolled_deployment "sum" pgadmin_world
    _ _ Disabled_outside demo_synced_run) as [_ H].
  destruct (H demo_synced eq_refl) as (_ & cond & Hs & _ & Ht & _).
  apply Ht. rewrite Hs in Hc. injection Hc as ->. reflexivity.
Defined.

Lemma secrets_generated_once_witness :
  let raw n := Ok (concat_str (repeat "x" n)) in
  let w1 := (reconcilePgAdminBootstrapSecret (raw 32%nat) workload_console pgadmin_world).2 in
  generated workload_console (bootstrap_key workload_console) pgadmin_world w1
    (λ s, field pgAdminBootstrapPasswordKey s ≠ "")
    ((reconcilePgAdminBootstrapSecret (raw 32%nat) workload_console pgadmin_world).1 = Ok ()).
Proof.
  intros raw w1.
  destruct (secrets_generated_once (Ok ("cert", "key")) (raw 32%nat) (raw 36%nat) workload_console pgadmin_world
    _ _ _ _ ltac:(by intros b [= <-]) ltac:(by intros b [= <-]) ltac:(by intros c k [= <- <-])
    (surjective_pairing _) (surjective_pairing _)) as [H _].
  exact H.
Defined.
